(** * The Grunt virtual machine and the Charlie-app table validator

    A shallow embedding of the Grunt library (libs/grunt/fsw) and of the
    Grunt program of apps/vsc (vsvf.h), followed by the properties the
    specification states about them.

    Numbers are [Z] with the C wrap-around written where the C type can
    wrap; the module-level static variables of the C files are the fields
    of one record that every operation threads.  What the C language
    leaves to the platform (the result of [memcpy] on overlapping ranges,
    the byte order of the host) is a parameter, [Platform], over which
    every property is stated. *)

From Stdlib Require Import ZArith List Bool Lia String Ascii.
From Stdlib Require Import Strings.Byte.
Import ListNotations.
Open Scope Z_scope.

(** ** grunt.h : values and instructions *)

Inductive grunt_value_type_t := gt_bool | gt_num | gt_str | gt_pc.

(** [grunt_value_t] is a type tag and a union; every consumer reads the
    member its tag names, so the pair is a tagged sum. *)
Inductive grunt_value_t :=
| VBool (b : bool)
| VNum (num : Z)
| VStr (str : Z)
| VPc (pc : Z).

Definition value_type (v : grunt_value_t) : grunt_value_type_t :=
  match v with
  | VBool _ => gt_bool
  | VNum _ => gt_num
  | VStr _ => gt_str
  | VPc _ => gt_pc
  end.

Definition is_bool (v : grunt_value_t) : bool :=
  match v with VBool _ => true | _ => false end.
Definition is_num (v : grunt_value_t) : bool :=
  match v with VNum _ => true | _ => false end.
Definition is_str (v : grunt_value_t) : bool :=
  match v with VStr _ => true | _ => false end.
Definition is_pc (v : grunt_value_t) : bool :=
  match v with VPc _ => true | _ => false end.

Definition UINT16_MAX : Z := 65535.
Definition UINT32_MAX : Z := 4294967295.
Definition GRUNT_NUM_MAX : Z := UINT32_MAX.
Definition GRUNT_PC_MAX : Z := UINT16_MAX.
Definition GRUNT_REP_MAX : Z := UINT16_MAX.

Definition wrap16 (x : Z) : Z := x mod 65536.
Definition wrap32 (x : Z) : Z := x mod 4294967296.

(** The union members, read from a value.  [val_b], [val_num] and
    [val_str] are only read after the tag was checked.  [val_pc] is read
    by RETURN without a check: the control stack accepts [gt_pc] values
    only, the other lines give the low 16 bits a little-endian host would
    read and are never reached from an initialised stack. *)
Definition val_b (v : grunt_value_t) : bool :=
  match v with
  | VBool b => b
  | VNum n => negb (n mod 256 =? 0)
  | VStr s => negb (s mod 256 =? 0)
  | VPc p => negb (p mod 256 =? 0)
  end.
Definition val_num (v : grunt_value_t) : Z :=
  match v with
  | VBool b => if b then 1 else 0
  | VNum n => n
  | VStr s => s
  | VPc p => p
  end.
Definition val_pc (v : grunt_value_t) : Z :=
  match v with
  | VBool b => if b then 1 else 0
  | VNum n => wrap16 n
  | VStr s => s
  | VPc p => p
  end.

Definition GRUNT_OP_ADD : Z := 1.
Definition GRUNT_OP_AND : Z := 2.
Definition GRUNT_OP_CALL : Z := 3.
Definition GRUNT_OP_DUP : Z := 4.
Definition GRUNT_OP_EQ : Z := 5.
Definition GRUNT_OP_FLUSH : Z := 6.
Definition GRUNT_OP_GT : Z := 7.
Definition GRUNT_OP_HALT : Z := 8.
Definition GRUNT_OP_JMPIF : Z := 9.
Definition GRUNT_OP_LT : Z := 10.
Definition GRUNT_OP_NOT : Z := 11.
Definition GRUNT_OP_OR : Z := 12.
Definition GRUNT_OP_OUTPUT : Z := 13.
Definition GRUNT_OP_POP : Z := 14.
Definition GRUNT_OP_PUSHB : Z := 15.
Definition GRUNT_OP_PUSHN : Z := 16.
Definition GRUNT_OP_PUSHS : Z := 17.
Definition GRUNT_OP_INPUT : Z := 18.
Definition GRUNT_OP_RETURN : Z := 19.
Definition GRUNT_OP_REWIND : Z := 20.
Definition GRUNT_OP_ROLL : Z := 21.
Definition GRUNT_OP_SUB : Z := 22.

(** [grunt_instruction_t]: an opcode and the union [arg], given by its
    two readings.  An operation reads one of them, the macros below set
    that one and leave the other at its zero initialiser.  A repetition
    count is an unsigned [grunt_rep_t]. *)
Record grunt_instruction_t := mkInstr {
  op : Z;
  arg_rep : N;
  arg_lit : grunt_value_t
}.

Definition no_lit : grunt_value_t := VBool false.

Definition ADD := mkInstr GRUNT_OP_ADD 0 no_lit.
Definition AND (r : N) := mkInstr GRUNT_OP_AND r no_lit.
Definition CALL (sub : Z) := mkInstr GRUNT_OP_CALL 0 (VPc sub).
Definition DUP (r : N) := mkInstr GRUNT_OP_DUP r no_lit.
Definition EQ (r : N) := mkInstr GRUNT_OP_EQ r no_lit.
Definition FLUSH := mkInstr GRUNT_OP_FLUSH 0 no_lit.
Definition GT := mkInstr GRUNT_OP_GT 0 no_lit.
Definition HALT := mkInstr GRUNT_OP_HALT 0 no_lit.
Definition INPUT (r : N) := mkInstr GRUNT_OP_INPUT r no_lit.
Definition JMPIF (l : Z) := mkInstr GRUNT_OP_JMPIF 0 (VPc l).
Definition LT := mkInstr GRUNT_OP_LT 0 no_lit.
Definition NOT := mkInstr GRUNT_OP_NOT 0 no_lit.
Definition OR (r : N) := mkInstr GRUNT_OP_OR r no_lit.
Definition OUTPUT := mkInstr GRUNT_OP_OUTPUT 0 no_lit.
Definition POP (r : N) := mkInstr GRUNT_OP_POP r no_lit.
Definition PUSHB (tf : bool) := mkInstr GRUNT_OP_PUSHB 0 (VBool tf).
Definition PUSHN (n : Z) := mkInstr GRUNT_OP_PUSHN 0 (VNum n).
Definition PUSHS (s : Z) := mkInstr GRUNT_OP_PUSHS 0 (VStr s).
Definition RETURN := mkInstr GRUNT_OP_RETURN 0 no_lit.
Definition REWIND (r : N) := mkInstr GRUNT_OP_REWIND r no_lit.
Definition ROLL (r : N) := mkInstr GRUNT_OP_ROLL r no_lit.
Definition SUB := mkInstr GRUNT_OP_SUB 0 no_lit.

(** ** grunt_status.h *)

Definition GRUNT_HALT_TRUE : Z := 1.
Definition GRUNT_HALT_FALSE : Z := 2.
Definition GRUNT_ERROR_INTERPRETERBUG : Z := 17.
Definition GRUNT_ERROR_INVALIDARGUMENT : Z := 18.
Definition GRUNT_ERROR_INVALIDLITERAL : Z := 19.
Definition GRUNT_ERROR_INVALIDOPCODE : Z := 20.
Definition GRUNT_ERROR_NOLOOPS : Z := 21.
Definition GRUNT_ERROR_NOPROGRAM : Z := 22.
Definition GRUNT_ERROR_OUTOFBOUNDS : Z := 23.

(** ** The C platform

    Two things the library does are settled by the platform and not by
    the C language.  [grunt_stack_arg_roll] calls [memcpy] on two ranges
    of the stack array that overlap, where the standard defines no
    result: a [memcpy] that goes through a buffer (or copies downward)
    moves the elements as [memmove] would, one that copies upward one
    element at a time overwrites elements before it has read them.
    [grunt_input_dequeue] reads numbers of two and four bytes through a
    pointer cast, in the byte order of the host.  Both are parameters of
    the model, and no platform is preferred. *)
Inductive overlap_t := OverlapBuffered | OverlapAscending.

Inductive byte_order_t := LittleEndian | BigEndian.

Class Platform := mkPlatform {
  memcpy_overlap : overlap_t;
  host_order : byte_order_t
}.

(** Two platforms on which the examples are run. *)
Definition buffered_le : Platform := mkPlatform OverlapBuffered LittleEndian.
Definition ascending_be : Platform := mkPlatform OverlapAscending BigEndian.

(** ** Arrays and C strings *)

Section Arrays.
Context {A : Type}.

Definition array_get (a : list A) (i : Z) (d : A) : A :=
  nth (Z.to_nat i) a d.

Definition array_slice (a : list A) (i n : Z) : list A :=
  firstn (Z.to_nat n) (skipn (Z.to_nat i) a).

(** Store the elements [vs] at index [dst] and upward. *)
Definition array_blit (a : list A) (dst : Z) (vs : list A) : list A :=
  firstn (Z.to_nat dst) a ++ vs
    ++ skipn (Z.to_nat dst + List.length vs)%nat a.

Definition array_set (a : list A) (i : Z) (v : A) : list A :=
  array_blit a i [v].

Definition ranges_overlap (dst src n : Z) : bool :=
  (dst <? src + n) && (src <? dst + n).

(** One element at a time from the lowest index up, each read after
    the stores before it. *)
Fixpoint copy_ascending (a : list A) (dst src : Z) (n : nat) : list A :=
  match n with
  | O => a
  | Datatypes.S n' =>
      copy_ascending (array_blit a dst (array_slice a src 1))
        (dst + 1) (src + 1) n'
  end.

(** [memcpy(&a[dst], &a[src], n * sizeof a[0])].  On ranges that do not
    overlap the [n] elements of the source range are stored at [dst];
    on ranges that overlap the platform decides. *)
Definition memcpy_within {pf : Platform} (a : list A) (dst src n : Z)
  : list A :=
  if ranges_overlap dst src n
  then match memcpy_overlap with
       | OverlapBuffered => array_blit a dst (array_slice a src n)
       | OverlapAscending => copy_ascending a dst src (Z.to_nat n)
       end
  else array_blit a dst (array_slice a src n).
End Arrays.

Definition NUL : ascii := Ascii.zero.

Definition is_nul (c : ascii) : bool := Ascii.eqb c NUL.

(** The C string stored in a [char] sequence: what precedes the first
    NUL. *)
Fixpoint c_str (s : string) : string :=
  match s with
  | EmptyString => EmptyString
  | String c s' => if is_nul c then EmptyString else String c (c_str s')
  end.

Definition strlen (s : string) : Z := Z.of_nat (String.length (c_str s)).

Fixpoint c_str_of_chars (q : list ascii) : string :=
  match q with
  | [] => EmptyString
  | c :: q' => if is_nul c then EmptyString else String c (c_str_of_chars q')
  end.

Definition digit_char (d : Z) : ascii := ascii_of_nat (48 + Z.to_nat d).

Fixpoint decimal_digits (fuel : nat) (u : Z) (acc : string) : string :=
  match fuel with
  | O => acc
  | S fuel' =>
      let acc' := String (digit_char (u mod 10)) acc in
      if u / 10 =? 0 then acc' else decimal_digits fuel' (u / 10) acc'
  end.

(** [snprintf(string, 16, "%u", u)] for a 32-bit [u]: at most ten
    digits. *)
Definition snprintf_u (u : Z) : string := decimal_digits 10 u EmptyString.

Definition byte_val (b : byte) : Z := Z.of_N (Byte.to_N b).

(** The number a sequence of bytes stands for when the least
    significant byte is stored first. *)
Fixpoint le_uint (bs : list byte) : Z :=
  match bs with
  | [] => 0
  | b :: bs' => byte_val b + 256 * le_uint bs'
  end.

(** The number the host reads from bytes stored at rising addresses,
    as the reads through a [uint16_t] or [uint32_t] pointer do. *)
Definition host_uint {pf : Platform} (bs : list byte) : Z :=
  match host_order with
  | LittleEndian => le_uint bs
  | BigEndian => le_uint (rev bs)
  end.

(** ** The event sink

    [CFE_EVS_SendEvent (EventID, EventType, "%s", text)] belongs to the
    host framework; a call is recorded with its arguments. *)
Record event_t := mkEvent {
  EventID : Z;
  EventType : Z;
  Text : string
}.

(** ** grunt_stack.h, grunt_input.h, grunt_output.h

    The instruction layer (grunt_vm_*.c, grunt.c) reaches the two stacks,
    the input queue and the output queue only through these functions.
    A function that writes through a pointer argument returns the value
    written, [None] when it returns before the write. *)
Class GruntModules (S : Type) := {
  stack_init : S -> S;
  stack_arg_push : grunt_value_t -> S -> Z * S;
  stack_arg_pop : S -> Z * option grunt_value_t * S;
  stack_arg_dup : Z -> S -> Z * S;
  stack_arg_roll : Z -> S -> Z * S;
  stack_ctl_push : grunt_value_t -> S -> Z * S;
  stack_ctl_pop : S -> Z * option grunt_value_t * S;
  input_init : list byte -> Z -> S -> S;
  input_rewind : Z -> S -> Z * S;
  input_dequeue : Z -> S -> Z * option grunt_value_t * S;
  output_init : list string -> Z -> S -> S;
  output_enqueue_boolean : bool -> S -> Z * S;
  output_enqueue_number : Z -> S -> Z * S;
  output_enqueue_string : Z -> S -> Z * S;
  output_flush : Z -> Z -> S -> S;
  sent_events : S -> list event_t
}.

(** ** grunt.c : registers and program counter *)

Record vm_t (S : Type) := mkVm {
  g_ra : grunt_value_t;
  g_rb : grunt_value_t;
  g_pc : Z;
  mods : S
}.
Arguments mkVm {S}.
Arguments g_ra {S}.
Arguments g_rb {S}.
Arguments g_pc {S}.
Arguments mods {S}.

(** The pointers [p_ra] and [p_rb] the step function hands down. *)
Inductive reg := RA | RB.

(** Arithmetic and comparisons on the numbers a Grunt program pushes. *)
Definition num_lt (a b : Z) : bool := a <? b.
Definition num_gt (a b : Z) : bool := a >? b.
Definition num_ne (a b : Z) : bool := negb (a =? b).
Definition num_add (a b : Z) : Z := wrap32 (a + b).
Definition num_sub (a b : Z) : Z := wrap32 (a - b).

Section VM.
Context {S : Type} {GM : GruntModules S}.

Definition op_t := vm_t S -> Z * vm_t S.

Definition deref (p : reg) (m : vm_t S) : grunt_value_t :=
  match p with RA => g_ra m | RB => g_rb m end.

Definition store (p : reg) (v : grunt_value_t) (m : vm_t S) : vm_t S :=
  match p with
  | RA => mkVm v (g_rb m) (g_pc m) (mods m)
  | RB => mkVm (g_ra m) v (g_pc m) (mods m)
  end.

Definition set_pc (pc : Z) (m : vm_t S) : vm_t S :=
  mkVm (g_ra m) (g_rb m) pc (mods m).

Definition set_mods (s : S) (m : vm_t S) : vm_t S :=
  mkVm (g_ra m) (g_rb m) (g_pc m) s.

(** [if ((status = f (...))) return status;] followed by [k]. *)
Definition seq (f k : op_t) : op_t :=
  fun m => let (status, m') := f m in
           if status =? 0 then k m' else (status, m').

(** [if (!c) return err;] *)
Definition require (c : vm_t S -> bool) (err : Z) : op_t :=
  fun m => if c m then (0, m) else (err, m).

Definition call (f : S -> Z * S) : op_t :=
  fun m => let (status, s) := f (mods m) in (status, set_mods s m).

Definition call_out (f : S -> Z * option grunt_value_t * S) (p : reg)
  : op_t :=
  fun m => let '(status, w, s) := f (mods m) in
           (status, match w with
                    | Some v => store p v (set_mods s m)
                    | None => set_mods s m
                    end).

Definition arg_pop (p : reg) : op_t := call_out stack_arg_pop p.
Definition arg_push (p : reg) : op_t :=
  fun m => call (stack_arg_push (deref p m)) m.
Definition ctl_pop (p : reg) : op_t := call_out stack_ctl_pop p.
Definition ctl_push (p : reg) : op_t :=
  fun m => call (stack_ctl_push (deref p m)) m.

Definition ok : op_t := fun m => (0, m).
End VM.

Declare Scope grunt_scope.
Notation "f ;; k" := (seq f k) (at level 61, right associativity)
  : grunt_scope.
Open Scope grunt_scope.

Section Instructions.
Context {S : Type} {GM : GruntModules S}.

(** *** grunt_vm_stack.c *)

Definition grunt_vm_dup (reps : Z) : op_t (S := S) :=
  fun m =>
    if reps <? 1 then (GRUNT_ERROR_INVALIDLITERAL, m)
    else call (stack_arg_dup reps) m.

(** [for (i = 0; i < reps; i++) if ((status = pop (p_ra))) return status;] *)
Fixpoint pop_loop (n : nat) (p_ra : reg) : op_t (S := S) :=
  match n with
  | O => ok
  | Datatypes.S n' => arg_pop p_ra ;; pop_loop n' p_ra
  end.

Definition grunt_vm_pop (p_ra : reg) (reps : Z) : op_t (S := S) :=
  fun m =>
    if reps <? 1 then (GRUNT_ERROR_INVALIDLITERAL, m)
    else pop_loop (Z.to_nat reps) p_ra m.

Definition grunt_vm_pushb (p_literal : grunt_value_t) : op_t (S := S) :=
  fun m =>
    if negb (is_bool p_literal) then (GRUNT_ERROR_INVALIDLITERAL, m)
    else call (stack_arg_push p_literal) m.

Definition grunt_vm_pushn (p_literal : grunt_value_t) : op_t (S := S) :=
  fun m =>
    if negb (is_num p_literal) then (GRUNT_ERROR_INVALIDLITERAL, m)
    else call (stack_arg_push p_literal) m.

Definition grunt_vm_pushs (p_literal : grunt_value_t) : op_t (S := S) :=
  fun m =>
    if negb (is_str p_literal) then (GRUNT_ERROR_INVALIDLITERAL, m)
    else call (stack_arg_push p_literal) m.

Definition grunt_vm_roll (reps : Z) : op_t (S := S) :=
  fun m =>
    if reps <? 2 then (GRUNT_ERROR_INVALIDLITERAL, m)
    else call (stack_arg_roll reps) m.

(** *** grunt_vm_logic.c *)

(** The body of [for (i = 1; i < n; i++)] in [grunt_vm_and_or]. *)
Fixpoint and_or_loop (n : nat) (p_ra p_rb : reg) (and_flag : bool)
  : op_t (S := S) :=
  match n with
  | O => ok
  | Datatypes.S n' =>
      arg_pop p_rb ;;
      require (fun m => is_bool (deref p_rb m))
              GRUNT_ERROR_INVALIDARGUMENT ;;
      (fun m =>
         let a := val_b (deref p_ra m) in
         let b := val_b (deref p_rb m) in
         and_or_loop n' p_ra p_rb and_flag
           (store p_ra (VBool (if and_flag then a && b else a || b)) m))
  end.

Definition grunt_vm_and_or (p_ra p_rb : reg) (n : Z) (and_flag : bool)
  : op_t (S := S) :=
  fun m =>
    if n <? 2 then (GRUNT_ERROR_INVALIDLITERAL, m)
    else (arg_pop p_ra ;;
          require (fun m => is_bool (deref p_ra m))
                  GRUNT_ERROR_INVALIDARGUMENT ;;
          and_or_loop (Z.to_nat (n - 1)) p_ra p_rb and_flag ;;
          arg_push p_ra) m.

(** The loop of [grunt_vm_eq], which returns the final [equal_flag] in
    [p_ra] once every argument is popped. *)
Fixpoint eq_loop (n : nat) (p_ra p_rb : reg) (equal_flag : bool)
  : op_t (S := S) :=
  match n with
  | O => fun m => (0, store p_ra (VBool equal_flag) m)
  | Datatypes.S n' =>
      arg_pop p_rb ;;
      require (fun m => is_num (deref p_rb m))
              GRUNT_ERROR_INVALIDARGUMENT ;;
      (fun m =>
         eq_loop n' p_ra p_rb
           (if num_ne (val_num (deref p_ra m)) (val_num (deref p_rb m))
            then false else equal_flag) m)
  end.

Definition grunt_vm_eq (p_ra p_rb : reg) (n : Z) : op_t (S := S) :=
  fun m =>
    if n <? 2 then (GRUNT_ERROR_INVALIDLITERAL, m)
    else (arg_pop p_ra ;;
          require (fun m => is_num (deref p_ra m))
                  GRUNT_ERROR_INVALIDARGUMENT ;;
          eq_loop (Z.to_nat (n - 1)) p_ra p_rb true ;;
          arg_push p_ra) m.

Definition grunt_vm_lt_gt (p_ra p_rb : reg) (lt_flag : bool)
  : op_t (S := S) :=
  arg_pop p_rb ;;
  require (fun m => is_num (deref p_rb m)) GRUNT_ERROR_INVALIDARGUMENT ;;
  arg_pop p_ra ;;
  require (fun m => is_num (deref p_ra m)) GRUNT_ERROR_INVALIDARGUMENT ;;
  (fun m =>
     let a := val_num (deref p_ra m) in
     let b := val_num (deref p_rb m) in
     let result := if lt_flag then num_lt a b else num_gt a b in
     arg_push p_ra (store p_ra (VBool result) m)).

Definition grunt_vm_not (p_ra : reg) : op_t (S := S) :=
  arg_pop p_ra ;;
  require (fun m => is_bool (deref p_ra m)) GRUNT_ERROR_INVALIDARGUMENT ;;
  (fun m =>
     arg_push p_ra (store p_ra (VBool (negb (val_b (deref p_ra m)))) m)).

(** *** grunt_vm_arithmetic.c *)

Definition grunt_vm_add_sub (p_ra p_rb : reg) (add_flag : bool)
  : op_t (S := S) :=
  arg_pop p_rb ;;
  require (fun m => is_num (deref p_rb m)) GRUNT_ERROR_INVALIDARGUMENT ;;
  arg_pop p_ra ;;
  require (fun m => is_num (deref p_ra m)) GRUNT_ERROR_INVALIDARGUMENT ;;
  (fun m =>
     let a := val_num (deref p_ra m) in
     let b := val_num (deref p_rb m) in
     if add_flag then
       if num_gt b (num_sub GRUNT_NUM_MAX a)
       then (GRUNT_ERROR_OUTOFBOUNDS, m)
       else arg_push p_ra (store p_ra (VNum (num_add a b)) m)
     else
       if num_lt a b
       then (GRUNT_ERROR_OUTOFBOUNDS, m)
       else arg_push p_ra (store p_ra (VNum (num_sub a b)) m)).
End Instructions.

Section Control.
Context {S : Type} {GM : GruntModules S}.

(** *** grunt_vm_control.c ([p_pc] is the address of [g_pc]) *)

Definition grunt_vm_call (p_ra : reg) (p_literal : grunt_value_t)
  : op_t (S := S) :=
  fun m =>
    if negb (is_pc p_literal) then (GRUNT_ERROR_INVALIDLITERAL, m)
    else if val_pc p_literal <? g_pc m then (GRUNT_ERROR_NOLOOPS, m)
    else (ctl_push p_ra ;;
          (fun m' => (0, set_pc (val_pc p_literal) m')))
           (store p_ra (VPc (g_pc m)) m).

Definition grunt_vm_halt (p_ra : reg) : op_t (S := S) :=
  arg_pop p_ra ;;
  require (fun m => is_bool (deref p_ra m)) GRUNT_ERROR_INVALIDARGUMENT ;;
  (fun m => (if val_b (deref p_ra m)
             then GRUNT_HALT_TRUE else GRUNT_HALT_FALSE, m)).

Definition grunt_vm_jmpif (p_ra : reg) (p_literal : grunt_value_t)
  : op_t (S := S) :=
  fun m =>
    if negb (is_pc p_literal) then (GRUNT_ERROR_INVALIDLITERAL, m)
    else if val_pc p_literal <? 2 then (GRUNT_ERROR_INVALIDLITERAL, m)
    else (arg_pop p_ra ;;
          require (fun m => is_bool (deref p_ra m))
                  GRUNT_ERROR_INVALIDARGUMENT ;;
          (fun m =>
             if negb (val_b (deref p_ra m)) then (0, m)
             else if val_pc p_literal >? UINT16_MAX - g_pc m
                  then (GRUNT_ERROR_NOPROGRAM, m)
                  else (0, set_pc (wrap16 (g_pc m + (val_pc p_literal - 1)))
                                  m))) m.

Definition grunt_vm_return (p_ra : reg) : op_t (S := S) :=
  ctl_pop p_ra ;;
  (fun m => (0, set_pc (val_pc (deref p_ra m)) m)).

(** *** grunt_vm_io.c *)

Definition grunt_vm_flush (p_ra p_rb : reg) : op_t (S := S) :=
  arg_pop p_ra ;;
  require (fun m => is_num (deref p_ra m)) GRUNT_ERROR_INVALIDARGUMENT ;;
  arg_pop p_rb ;;
  require (fun m => is_num (deref p_rb m)) GRUNT_ERROR_INVALIDARGUMENT ;;
  (fun m =>
     (0, set_mods (output_flush (val_num (deref p_ra m))
                                (val_num (deref p_rb m)) (mods m)) m)).

Definition grunt_vm_input (p_ra : reg) (n : Z) : op_t (S := S) :=
  fun m =>
    if negb (n =? 4) && negb (n =? 2) && negb (n =? 1)
    then (GRUNT_ERROR_INVALIDLITERAL, m)
    else (call_out (input_dequeue n) p_ra ;; arg_push p_ra) m.

Definition grunt_vm_output (p_ra : reg) : op_t (S := S) :=
  arg_pop p_ra ;;
  (fun m =>
     match deref p_ra m with
     | VBool b => call (output_enqueue_boolean b) m
     | VNum u => call (output_enqueue_number u) m
     | VStr i => call (output_enqueue_string i) m
     | VPc _ => (GRUNT_ERROR_INVALIDARGUMENT, m)
     end).

Definition grunt_vm_rewind (reps : Z) : op_t (S := S) :=
  call (input_rewind reps).

(** *** grunt.c *)

Definition grunt_vm_dispatch (p_i : grunt_instruction_t) : op_t (S := S) :=
  let o := op p_i in
  let rep := Z.of_N (arg_rep p_i) in
  if o =? GRUNT_OP_ADD then grunt_vm_add_sub RA RB true
  else if o =? GRUNT_OP_AND then grunt_vm_and_or RA RB rep true
  else if o =? GRUNT_OP_CALL then grunt_vm_call RA (arg_lit p_i)
  else if o =? GRUNT_OP_DUP then grunt_vm_dup rep
  else if o =? GRUNT_OP_EQ then grunt_vm_eq RA RB rep
  else if o =? GRUNT_OP_FLUSH then grunt_vm_flush RA RB
  else if o =? GRUNT_OP_GT then grunt_vm_lt_gt RA RB false
  else if o =? GRUNT_OP_HALT then grunt_vm_halt RA
  else if o =? GRUNT_OP_INPUT then grunt_vm_input RA rep
  else if o =? GRUNT_OP_JMPIF then grunt_vm_jmpif RA (arg_lit p_i)
  else if o =? GRUNT_OP_LT then grunt_vm_lt_gt RA RB true
  else if o =? GRUNT_OP_NOT then grunt_vm_not RA
  else if o =? GRUNT_OP_OUTPUT then grunt_vm_output RA
  else if o =? GRUNT_OP_OR then grunt_vm_and_or RA RB rep false
  else if o =? GRUNT_OP_POP then grunt_vm_pop RA rep
  else if o =? GRUNT_OP_PUSHB then grunt_vm_pushb (arg_lit p_i)
  else if o =? GRUNT_OP_PUSHN then grunt_vm_pushn (arg_lit p_i)
  else if o =? GRUNT_OP_PUSHS then grunt_vm_pushs (arg_lit p_i)
  else if o =? GRUNT_OP_RETURN then grunt_vm_return RA
  else if o =? GRUNT_OP_REWIND then grunt_vm_rewind rep
  else if o =? GRUNT_OP_ROLL then grunt_vm_roll rep
  else if o =? GRUNT_OP_SUB then grunt_vm_add_sub RA RB false
  else fun m => (GRUNT_ERROR_INVALIDOPCODE, m).

(** [g_pc++] on a 16-bit counter, then the [switch]. *)
Definition grunt_vm_step (p_i : grunt_instruction_t) : op_t (S := S) :=
  fun m => grunt_vm_dispatch p_i (set_pc (wrap16 (g_pc m + 1)) m).

Definition grunt_vm_init (m : vm_t S) : vm_t S := set_pc 0 m.

(** What [program[g_pc]] yields past the end of the array ([GRUNT_Run]
    only fetches below [num_instructions], which the caller passes as the
    length of [program]). *)
Definition no_instruction : grunt_instruction_t := mkInstr 0 0 no_lit.

(** One round of the [do ... while] of [GRUNT_Run]: the bound check and
    the step.  Status 0 means the loop goes round again. *)
Definition run_iteration (program : list grunt_instruction_t)
    (num_instructions : Z) : op_t (S := S) :=
  fun m =>
    if negb (g_pc m <? num_instructions) then (GRUNT_ERROR_NOPROGRAM, m)
    else grunt_vm_step (nth (Z.to_nat (g_pc m)) program no_instruction) m.

(** [run_loop k] makes up to [2 ^ k] rounds and stops at the first
    nonzero status. *)
Fixpoint run_loop (k : nat) (program : list grunt_instruction_t)
    (num_instructions : Z) (m : vm_t S) : Z * vm_t S :=
  match k with
  | O => run_iteration program num_instructions m
  | Datatypes.S k' =>
      let (status, m') := run_loop k' program num_instructions m in
      if status =? 0 then run_loop k' program num_instructions m'
      else (status, m')
  end.

(** The loop of [GRUNT_Run] has no bound of its own.  [2 ^ RUN_ROUNDS]
    rounds are more than any run makes (see [GRUNT_Run_terminates]
    below), so the status returned is never 0. *)
Definition RUN_ROUNDS : nat := 561.

(** The four initialisations at the entry of [GRUNT_Run]. *)
Definition run_entry (p_data : list byte) (data_size : Z)
    (string_table : list string) (num_strings : Z) (m : vm_t S) : vm_t S :=
  grunt_vm_init
    (set_mods
       (output_init string_table num_strings
          (input_init p_data data_size (stack_init (mods m)))) m).

Definition GRUNT_Run (program : list grunt_instruction_t)
    (num_instructions : Z) (p_data : list byte) (data_size : Z)
    (string_table : list string) (num_strings : Z) : op_t (S := S) :=
  fun m =>
    run_loop RUN_ROUNDS program num_instructions
      (run_entry p_data data_size string_table num_strings m).
End Control.

(** ** The three modules, one at a time

    Each C file keeps its own file-scope variables, so the state behind
    the interface is a triple and the interface splits in three. *)
Record StackOps (K : Type) := mkStackOps {
  k_init : K -> K;
  k_arg_push : grunt_value_t -> K -> Z * K;
  k_arg_pop : K -> Z * option grunt_value_t * K;
  k_arg_dup : Z -> K -> Z * K;
  k_arg_roll : Z -> K -> Z * K;
  k_ctl_push : grunt_value_t -> K -> Z * K;
  k_ctl_pop : K -> Z * option grunt_value_t * K
}.

Record InputOps (I : Type) := mkInputOps {
  i_init : list byte -> Z -> I -> I;
  i_rewind : Z -> I -> Z * I;
  i_dequeue : Z -> I -> Z * option grunt_value_t * I
}.

Record OutputOps (O : Type) := mkOutputOps {
  o_init : list string -> Z -> O -> O;
  o_enqueue_boolean : bool -> O -> Z * O;
  o_enqueue_number : Z -> O -> Z * O;
  o_enqueue_string : Z -> O -> Z * O;
  o_flush : Z -> Z -> O -> O;
  o_events : O -> list event_t
}.

Section Compose.
Context {K I O : Type}.
Variable ks : StackOps K.
Variable ins : InputOps I.
Variable os : OutputOps O.

Definition on_stack {A} (f : K -> A * K) (s : K * I * O) : A * (K * I * O) :=
  let '(k, i, o) := s in let (r, k') := f k in (r, (k', i, o)).
Definition on_input {A} (f : I -> A * I) (s : K * I * O) : A * (K * I * O) :=
  let '(k, i, o) := s in let (r, i') := f i in (r, (k, i', o)).
Definition on_output {A} (f : O -> A * O) (s : K * I * O)
  : A * (K * I * O) :=
  let '(k, i, o) := s in let (r, o') := f o in (r, (k, i, o')).

Definition modules_of : GruntModules (K * I * O) := {|
  stack_init := fun '(k, i, o) => (k_init _ ks k, i, o);
  stack_arg_push := fun v => on_stack (k_arg_push _ ks v);
  stack_arg_pop := on_stack (k_arg_pop _ ks);
  stack_arg_dup := fun n => on_stack (k_arg_dup _ ks n);
  stack_arg_roll := fun n => on_stack (k_arg_roll _ ks n);
  stack_ctl_push := fun v => on_stack (k_ctl_push _ ks v);
  stack_ctl_pop := on_stack (k_ctl_pop _ ks);
  input_init := fun d n '(k, i, o) => (k, i_init _ ins d n i, o);
  input_rewind := fun n => on_input (i_rewind _ ins n);
  input_dequeue := fun n => on_input (i_dequeue _ ins n);
  output_init := fun t n '(k, i, o) => (k, i, o_init _ os t n o);
  output_enqueue_boolean := fun b => on_output (o_enqueue_boolean _ os b);
  output_enqueue_number := fun u => on_output (o_enqueue_number _ os u);
  output_enqueue_string := fun x => on_output (o_enqueue_string _ os x);
  output_flush := fun t e '(k, i, o) => (k, i, o_flush _ os t e o);
  sent_events := fun '(k, i, o) => o_events _ os o
|}.
End Compose.

(** ** grunt_stack.c *)

Record stack_t := mkStack {
  g_stack : list grunt_value_t;
  g_argument_count : Z;
  g_control_count : Z
}.

Definition GRUNT_STACK_SIZE : Z := 2 * 16.

Definition grunt_stack_init (s : stack_t) : stack_t :=
  mkStack (g_stack s) 0 0.

Definition grunt_stack_arg_push (p_arg : grunt_value_t) (s : stack_t)
  : Z * stack_t :=
  if negb (is_bool p_arg || is_num p_arg || is_str p_arg)
  then (GRUNT_ERROR_INTERPRETERBUG, s)
  else if g_argument_count s + g_control_count s + 1 >? GRUNT_STACK_SIZE
  then (GRUNT_ERROR_OUTOFBOUNDS, s)
  else (0, mkStack (array_set (g_stack s) (g_argument_count s) p_arg)
                   (g_argument_count s + 1) (g_control_count s)).

Definition grunt_stack_arg_pop (s : stack_t)
  : Z * option grunt_value_t * stack_t :=
  if g_argument_count s =? 0 then (GRUNT_ERROR_OUTOFBOUNDS, None, s)
  else
    let argc := g_argument_count s - 1 in
    (0, Some (array_get (g_stack s) argc no_lit),
     mkStack (g_stack s) argc (g_control_count s)).

Definition grunt_stack_arg_dup {pf : Platform} (n : Z) (s : stack_t)
  : Z * stack_t :=
  if n =? 0 then (GRUNT_ERROR_INTERPRETERBUG, s)
  else if g_argument_count s <? n then (GRUNT_ERROR_OUTOFBOUNDS, s)
  else if g_argument_count s + g_control_count s + n >? GRUNT_STACK_SIZE
  then (GRUNT_ERROR_OUTOFBOUNDS, s)
  else (0, mkStack (memcpy_within (g_stack s) (g_argument_count s)
                      (g_argument_count s - n) n)
                   (g_argument_count s + n) (g_control_count s)).

(** The two ranges of the second [memcpy] overlap when [n > 2]: what
    it leaves in the array is then the platform's [memcpy_overlap]. *)
Definition grunt_stack_arg_roll {pf : Platform} (n : Z) (s : stack_t)
  : Z * stack_t :=
  if n <? 2 then (GRUNT_ERROR_INTERPRETERBUG, s)
  else if g_argument_count s <? n then (GRUNT_ERROR_OUTOFBOUNDS, s)
  else
    let argc := g_argument_count s in
    let temp := array_get (g_stack s) (argc - 1) no_lit in
    let a1 := memcpy_within (g_stack s) (argc - n + 1) (argc - n) (n - 1) in
    let a2 := array_set a1 (argc - n) temp in
    (0, mkStack a2 argc (g_control_count s)).

Definition grunt_stack_ctl_push (p_arg : grunt_value_t) (s : stack_t)
  : Z * stack_t :=
  if negb (is_pc p_arg) then (GRUNT_ERROR_INTERPRETERBUG, s)
  else if g_argument_count s + g_control_count s + 1 >? GRUNT_STACK_SIZE
  then (GRUNT_ERROR_OUTOFBOUNDS, s)
  else (0, mkStack
             (array_set (g_stack s)
                        ((GRUNT_STACK_SIZE - 1) - g_control_count s) p_arg)
             (g_argument_count s) (g_control_count s + 1)).

Definition grunt_stack_ctl_pop (s : stack_t)
  : Z * option grunt_value_t * stack_t :=
  if g_control_count s =? 0 then (GRUNT_ERROR_OUTOFBOUNDS, None, s)
  else
    let ctlc := g_control_count s - 1 in
    (0, Some (array_get (g_stack s) ((GRUNT_STACK_SIZE - 1) - ctlc) no_lit),
     mkStack (g_stack s) (g_argument_count s) ctlc).

Definition c_stack {pf : Platform} : StackOps stack_t :=
  mkStackOps stack_t grunt_stack_init grunt_stack_arg_push
    grunt_stack_arg_pop grunt_stack_arg_dup grunt_stack_arg_roll
    grunt_stack_ctl_push grunt_stack_ctl_pop.

(** ** grunt_input.c *)

Record input_t := mkInput {
  g_input_queue : option (list byte);
  g_input_queue_size : Z;
  g_head_index : Z
}.

Definition grunt_input_rewind (n : Z) (s : input_t) : Z * input_t :=
  if n >? g_head_index s then (GRUNT_ERROR_OUTOFBOUNDS, s)
  else if n =? 0
  then (0, mkInput (g_input_queue s) (g_input_queue_size s) 0)
  else (0, mkInput (g_input_queue s) (g_input_queue_size s)
                   (wrap16 (g_head_index s - n))).

Definition grunt_input_init (p_data : list byte) (size : Z) (s : input_t)
  : input_t :=
  snd (grunt_input_rewind 0 (mkInput (Some p_data) size (g_head_index s))).

(** The cast reads [n] bytes at [g_head_index] as one unsigned number,
    in the byte order of the host. *)
Definition grunt_input_dequeue {pf : Platform} (n : Z) (s : input_t)
  : Z * option grunt_value_t * input_t :=
  match g_input_queue s with
  | None => (GRUNT_ERROR_INTERPRETERBUG, None, s)
  | Some q =>
      if negb ((n =? 1) || (n =? 2) || (n =? 4))
      then (GRUNT_ERROR_INVALIDLITERAL, None, s)
      else if g_head_index s + n >? g_input_queue_size s
      then (GRUNT_ERROR_OUTOFBOUNDS, None, s)
      else (0, Some (VNum (host_uint (array_slice q (g_head_index s) n))),
            mkInput (g_input_queue s) (g_input_queue_size s)
                    (wrap16 (g_head_index s + n)))
  end.

Definition c_input {pf : Platform} : InputOps input_t :=
  mkInputOps input_t grunt_input_init grunt_input_rewind grunt_input_dequeue.

(** ** grunt_output.c

    [OUTPUT_QUEUE_SIZE] is [CFE_MISSION_EVS_MAX_MESSAGE_LENGTH], a constant
    of the host's mission configuration, which the repository does not
    carry: it is a parameter here.  [evs_sent] logs the events handed to
    the host. *)
Record output_t := mkOutput {
  g_string_table : list string;
  g_num_strings : Z;
  g_output_queue : list ascii;
  g_tail_index : Z;
  evs_sent : list event_t
}.

(** The state of the whole library: the registers and program counter of
    grunt.c and the variables of the three modules. *)
Definition statics_t : Type := stack_t * input_t * output_t.
Definition grunt_t : Type := vm_t statics_t.

Section Output.
Context {pf : Platform}.
Variable OUTPUT_QUEUE_SIZE : Z.

Definition grunt_output_reset (s : output_t) : output_t :=
  mkOutput (g_string_table s) (g_num_strings s)
    (repeat NUL (Z.to_nat OUTPUT_QUEUE_SIZE)) 0 (evs_sent s).

(** [memcpy (&g_output_queue[g_tail_index], string, length)] *)
Definition grunt_output_enqueue (string : string) (length : Z)
    (s : output_t) : Z * output_t :=
  if g_tail_index s + length >? OUTPUT_QUEUE_SIZE - 1
  then (GRUNT_ERROR_OUTOFBOUNDS, s)
  else (0, mkOutput (g_string_table s) (g_num_strings s)
             (array_blit (g_output_queue s) (g_tail_index s)
                (firstn (Z.to_nat length) (list_ascii_of_string string)))
             (wrap16 (g_tail_index s + length)) (evs_sent s)).

Definition grunt_output_init (string_table : list string) (num_strings : Z)
    (s : output_t) : output_t :=
  grunt_output_reset
    (mkOutput string_table num_strings (g_output_queue s) (g_tail_index s)
       (evs_sent s)).

Definition grunt_output_enqueue_boolean (tf : bool) (s : output_t)
  : Z * output_t :=
  if tf then grunt_output_enqueue "true" 4 s
  else grunt_output_enqueue "false" 5 s.

Definition grunt_output_enqueue_number (u : Z) (s : output_t)
  : Z * output_t :=
  let string := snprintf_u u in
  let length := Z.of_nat (String.length string) in
  if length >? GRUNT_REP_MAX then (GRUNT_ERROR_INTERPRETERBUG, s)
  else grunt_output_enqueue string length s.

(** [length] is a 16-bit [grunt_rep_t]: the value compared with
    [GRUNT_REP_MAX] is the one already stored in it. *)
Definition grunt_output_enqueue_string (string_index : Z) (s : output_t)
  : Z * output_t :=
  if negb (string_index <? g_num_strings s)
  then (GRUNT_ERROR_INVALIDLITERAL, s)
  else
    let string :=
      nth (Z.to_nat string_index) (g_string_table s) EmptyString in
    let length := wrap16 (strlen string) in
    if GRUNT_REP_MAX <? length then (GRUNT_ERROR_OUTOFBOUNDS, s)
    else grunt_output_enqueue string length s.

(** [CFE_EVS_SendEvent (event_id, event_type, "%s", g_output_queue)]
    and the reset. *)
Definition grunt_output_flush (event_type event_id : Z) (s : output_t)
  : output_t :=
  grunt_output_reset
    (mkOutput (g_string_table s) (g_num_strings s) (g_output_queue s)
       (g_tail_index s)
       (evs_sent s
          ++ [mkEvent event_id event_type
                (c_str_of_chars (g_output_queue s))])).

Definition c_output : OutputOps output_t :=
  mkOutputOps output_t grunt_output_init grunt_output_enqueue_boolean
    grunt_output_enqueue_number grunt_output_enqueue_string
    grunt_output_flush evs_sent.

Definition c_modules : GruntModules statics_t :=
  modules_of c_stack c_input c_output.
End Output.


(** ** vs_tablestruct.h, vs_eventids.h *)

Definition VS_PARM_UNUSED : Z := 0.
Definition VS_PARM_APE : Z := 1.
Definition VS_PARM_BAT : Z := 2.
Definition VS_PARM_CAT : Z := 4.
Definition VS_PARM_DOG : Z := 8.
Definition VS_PARM_NORTH : Z := 16.
Definition VS_PARM_SOUTH : Z := 32.
Definition VS_PARM_EAST : Z := 64.
Definition VS_PARM_WEST : Z := 128.

Definition VS_PARM_ANIMAL_MIN : Z := 16.
Definition VS_PARM_ANIMAL_MAX : Z := 4096.
Definition VS_PARM_DIRECTION_MIN : Z := 65536.
Definition VS_PARM_DIRECTION_MAX : Z := 16777216.

Definition VS_TABLE_NUM_ENTRIES : Z := 4.

(** [sizeof (vs_entry_t)]: [uint8 parm_id; uint8 pad[3]; uint32 bound_low;
    uint32 bound_high], every field on its natural alignment. *)
Definition sizeof_vs_entry_t : Z := 1 + 3 + 4 + 4.
Definition sizeof_vsc_table_t : Z := VS_TABLE_NUM_ENTRIES * sizeof_vs_entry_t.

Definition VS_VALIDATION_INF_EID : Z := 8.
Definition VS_TBL_ZERO_ERR_EID : Z := 8193.
Definition VS_TBL_PARM_ERR_EID : Z := 8194.
Definition VS_TBL_PAD_ERR_EID : Z := 8196.
Definition VS_TBL_LBND_ERR_EID : Z := 8200.
Definition VS_TBL_HBND_ERR_EID : Z := 8208.
Definition VS_TBL_ORDER_ERR_EID : Z := 8224.
Definition VS_TBL_EXTRA_ERR_EID : Z := 8256.
Definition VS_TBL_REDEF_ERR_EID : Z := 8320.

(** ** vsvf.h : the validation program of the Charlie app *)

Definition vsvf_strings : list string := [
    "Table image entries: ";
    " valid, ";
    " invalid, ";
    " unused";
    "Table entry ";
    " parm ";
    " not zeroed";
    " invalid Parm ID";
    " padding not zeroed";
    " invalid low bound";
    " invalid high bound";
    " invalid bound order";
    " follows an unused entry";
    " redefines earlier entry";
    "Unused";
    "Ape";
    "Bat";
    "Cat";
    "Dog";
    "North";
    "South";
    "East";
    "West";
    "Unknown"
  ]%string.
Definition VSVF_NUM_STRINGS : Z := 24.

Definition MAIN : Z := 0.
Definition MAIN_LOC : Z := 33.
Definition VALIDATE_ENTRY : Z := MAIN + MAIN_LOC.
Definition VALIDATE_ENTRY_LOC : Z := 52.
Definition IS_UNUSED : Z := VALIDATE_ENTRY + VALIDATE_ENTRY_LOC.
Definition IS_UNUSED_LOC : Z := 3.
Definition IS_ANIMAL : Z := IS_UNUSED + IS_UNUSED_LOC.
Definition IS_ANIMAL_LOC : Z := 16.
Definition IS_DIRECTION : Z := IS_ANIMAL + IS_ANIMAL_LOC.
Definition IS_DIRECTION_LOC : Z := 16.
Definition VALIDATE_UNUSED : Z := IS_DIRECTION + IS_DIRECTION_LOC.
Definition VALIDATE_UNUSED_LOC : Z := 18.
Definition VALIDATE_INUSE : Z := VALIDATE_UNUSED + VALIDATE_UNUSED_LOC.
Definition VALIDATE_INUSE_LOC : Z := 26.
Definition VALIDATE_PAD : Z := VALIDATE_INUSE + VALIDATE_INUSE_LOC.
Definition VALIDATE_PAD_LOC : Z := 17.
Definition VALIDATE_BOUNDS : Z := VALIDATE_PAD + VALIDATE_PAD_LOC.
Definition VALIDATE_BOUNDS_LOC : Z := 26.
Definition VALIDATE_RANGE : Z := VALIDATE_BOUNDS + VALIDATE_BOUNDS_LOC.
Definition VALIDATE_RANGE_LOC : Z := 15.
Definition VALIDATE_ORDER : Z := VALIDATE_RANGE + VALIDATE_RANGE_LOC.
Definition VALIDATE_ORDER_LOC : Z := 13.
Definition VALIDATE_EXTRA : Z := VALIDATE_ORDER + VALIDATE_ORDER_LOC.
Definition VALIDATE_EXTRA_LOC : Z := 15.
Definition VALIDATE_REDEF : Z := VALIDATE_EXTRA + VALIDATE_EXTRA_LOC.
Definition VALIDATE_REDEF_LOC : Z := 26.
Definition HANDLE_PARMERR : Z := VALIDATE_REDEF + VALIDATE_REDEF_LOC.
Definition HANDLE_PARMERR_LOC : Z := 10.
Definition INC_UNUSED : Z := HANDLE_PARMERR + HANDLE_PARMERR_LOC.
Definition INC_UNUSED_LOC : Z := 6.
Definition INC_VALID : Z := INC_UNUSED + INC_UNUSED_LOC.
Definition INC_VALID_LOC : Z := 5.
Definition COMPUTE_INVALID : Z := INC_VALID + INC_VALID_LOC.
Definition COMPUTE_INVALID_LOC : Z := 7.
Definition COMPUTE_RESULT : Z := COMPUTE_INVALID + COMPUTE_INVALID_LOC.
Definition COMPUTE_RESULT_LOC : Z := 7.
Definition EMIT_INFO : Z := COMPUTE_RESULT + COMPUTE_RESULT_LOC.
Definition EMIT_INFO_LOC : Z := 15.
Definition EMIT_ERROR_PARMERR : Z := EMIT_INFO + EMIT_INFO_LOC.
Definition EMIT_ERROR_PARMERR_LOC : Z := 9.
Definition EMIT_ERROR : Z := EMIT_ERROR_PARMERR + EMIT_ERROR_PARMERR_LOC.
Definition EMIT_ERROR_LOC : Z := 11.
Definition PARM_TO_STR : Z := EMIT_ERROR + EMIT_ERROR_LOC.
Definition PARM_TO_STR_LOC : Z := 75.

Definition VSVF_NUM_INSTRUCTIONS : Z := PARM_TO_STR + PARM_TO_STR_LOC.

(** The event types [CFE_EVS_EventType_INFORMATION] and
    [CFE_EVS_EventType_ERROR] and the status [CFE_SUCCESS] are constants of
    the host framework, whose headers the repository does not carry; they
    are parameters, as is the size of the output queue. *)
Section Validator.
Context {pf : Platform}.
Variable OUTPUT_QUEUE_SIZE : Z.
Variable CFE_EVS_EventType_INFORMATION : Z.
Variable CFE_EVS_EventType_ERROR : Z.
Variable CFE_SUCCESS : Z.

Definition vsvf_program : list grunt_instruction_t := [
  (* MAIN: address 0 *)
  PUSHN 0;
  PUSHN 0;
  PUSHN VS_PARM_UNUSED;
  PUSHN VS_PARM_UNUSED;
  PUSHN VS_PARM_UNUSED;
  PUSHN 1;
  CALL VALIDATE_ENTRY;
  DUP 1;
  ROLL 4;
  DUP 1;
  ROLL 4;
  PUSHN VS_PARM_UNUSED;
  PUSHN VS_PARM_UNUSED;
  PUSHN 2;
  CALL VALIDATE_ENTRY;
  DUP 1;
  ROLL 5;
  ROLL 3;
  ROLL 4;
  ROLL 4;
  PUSHN VS_PARM_UNUSED;
  PUSHN 3;
  CALL VALIDATE_ENTRY;
  ROLL 3;
  ROLL 5;
  ROLL 5;
  PUSHN 4;
  CALL VALIDATE_ENTRY;
  POP 1;
  CALL COMPUTE_INVALID;
  CALL COMPUTE_RESULT;
  CALL EMIT_INFO;
  HALT;
  (* VALIDATE_ENTRY: address 33 *)
  INPUT 1;
  DUP 1;
  ROLL 6;
  DUP 1;
  CALL IS_UNUSED;
  NOT;
  JMPIF 9;
  ROLL 5;
  ROLL 5;
  POP 3;
  CALL VALIDATE_UNUSED;
  JMPIF 2;
  RETURN;
  CALL INC_UNUSED;
  RETURN;
  ROLL 8;
  ROLL 8;
  ROLL 8;
  ROLL 8;
  ROLL 8;
  ROLL 8;
  ROLL 8;
  DUP 1;
  ROLL 9;
  ROLL 3;
  DUP 1;
  CALL IS_ANIMAL;
  NOT;
  JMPIF 8;
  PUSHN VS_PARM_ANIMAL_MAX;
  PUSHN VS_PARM_ANIMAL_MIN;
  CALL VALIDATE_INUSE;
  JMPIF 2;
  RETURN;
  CALL INC_VALID;
  RETURN;
  DUP 1;
  CALL IS_DIRECTION;
  NOT;
  JMPIF 8;
  PUSHN VS_PARM_DIRECTION_MAX;
  PUSHN VS_PARM_DIRECTION_MIN;
  CALL VALIDATE_INUSE;
  JMPIF 2;
  RETURN;
  CALL INC_VALID;
  RETURN;
  POP 1;
  ROLL 5;
  POP 4;
  CALL HANDLE_PARMERR;
  RETURN;
  (* IS_UNUSED: address 85 *)
  PUSHN VS_PARM_UNUSED;
  EQ 2;
  RETURN;
  (* IS_ANIMAL: address 88 *)
  DUP 1;
  PUSHN VS_PARM_APE;
  EQ 2;
  ROLL 2;
  DUP 1;
  PUSHN VS_PARM_BAT;
  EQ 2;
  ROLL 2;
  DUP 1;
  PUSHN VS_PARM_CAT;
  EQ 2;
  ROLL 2;
  PUSHN VS_PARM_DOG;
  EQ 2;
  OR 4;
  RETURN;
  (* IS_DIRECTION: address 104 *)
  DUP 1;
  PUSHN VS_PARM_NORTH;
  EQ 2;
  ROLL 2;
  DUP 1;
  PUSHN VS_PARM_SOUTH;
  EQ 2;
  ROLL 2;
  DUP 1;
  PUSHN VS_PARM_EAST;
  EQ 2;
  ROLL 2;
  PUSHN VS_PARM_WEST;
  EQ 2;
  OR 4;
  RETURN;
  (* VALIDATE_UNUSED: address 120 *)
  INPUT 1;
  INPUT 2;
  INPUT 4;
  INPUT 4;
  PUSHN 0;
  EQ 5;
  JMPIF 9;
  ROLL 2;
  PUSHN VS_TBL_ZERO_ERR_EID;
  ROLL 3;
  PUSHS 6;
  ROLL 3;
  CALL EMIT_ERROR;
  PUSHB false;
  RETURN;
  POP 2;
  PUSHB true;
  RETURN;
  (* VALIDATE_INUSE: address 138 *)
  ROLL 8;
  ROLL 8;
  DUP 2;
  CALL VALIDATE_PAD;
  ROLL 9;
  DUP 2;
  ROLL 10;
  ROLL 10;
  ROLL 10;
  ROLL 10;
  ROLL 10;
  ROLL 10;
  ROLL 10;
  ROLL 10;
  CALL VALIDATE_BOUNDS;
  ROLL 7;
  DUP 2;
  ROLL 5;
  ROLL 5;
  ROLL 3;
  ROLL 3;
  CALL VALIDATE_EXTRA;
  ROLL 7;
  CALL VALIDATE_REDEF;
  AND 4;
  RETURN;
  (* VALIDATE_PAD: address 164 *)
  INPUT 1;
  INPUT 2;
  PUSHN 0;
  EQ 3;
  NOT;
  JMPIF 4;
  POP 2;
  PUSHB true;
  RETURN;
  ROLL 2;
  PUSHN VS_TBL_PAD_ERR_EID;
  ROLL 3;
  PUSHS 8;
  ROLL 3;
  CALL EMIT_ERROR;
  PUSHB false;
  RETURN;
  (* VALIDATE_BOUNDS: address 181 *)
  DUP 4;
  INPUT 4;
  DUP 1;
  ROLL 10;
  PUSHN VS_TBL_LBND_ERR_EID;
  ROLL 6;
  PUSHS 9;
  ROLL 6;
  CALL VALIDATE_RANGE;
  ROLL 6;
  DUP 4;
  INPUT 4;
  DUP 1;
  ROLL 11;
  PUSHN VS_TBL_HBND_ERR_EID;
  ROLL 6;
  PUSHS 10;
  ROLL 6;
  CALL VALIDATE_RANGE;
  ROLL 8;
  POP 2;
  ROLL 4;
  ROLL 4;
  CALL VALIDATE_ORDER;
  AND 3;
  RETURN;
  (* VALIDATE_RANGE: address 207 *)
  DUP 1;
  ROLL 4;
  ROLL 2;
  LT;
  ROLL 3;
  GT;
  OR 2;
  JMPIF 4;
  POP 4;
  PUSHB true;
  RETURN;
  ROLL 2;
  CALL EMIT_ERROR;
  PUSHB false;
  RETURN;
  (* VALIDATE_ORDER: address 222 *)
  LT;
  JMPIF 4;
  POP 2;
  PUSHB true;
  RETURN;
  ROLL 2;
  PUSHS 11;
  ROLL 3;
  PUSHN VS_TBL_ORDER_ERR_EID;
  ROLL 4;
  CALL EMIT_ERROR;
  PUSHB false;
  RETURN;
  (* VALIDATE_EXTRA: address 235 *)
  PUSHN 0;
  EQ 2;
  NOT;
  JMPIF 4;
  POP 2;
  PUSHB true;
  RETURN;
  ROLL 2;
  PUSHS 12;
  ROLL 3;
  PUSHN VS_TBL_EXTRA_ERR_EID;
  ROLL 4;
  CALL EMIT_ERROR;
  PUSHB false;
  RETURN;
  (* VALIDATE_REDEF: address 250 *)
  DUP 1;
  ROLL 5;
  DUP 1;
  ROLL 4;
  DUP 1;
  ROLL 3;
  ROLL 8;
  ROLL 8;
  EQ 2;
  ROLL 5;
  EQ 2;
  ROLL 3;
  EQ 2;
  OR 3;
  JMPIF 4;
  POP 2;
  PUSHB true;
  RETURN;
  ROLL 2;
  PUSHS 13;
  ROLL 3;
  PUSHN VS_TBL_REDEF_ERR_EID;
  ROLL 4;
  CALL EMIT_ERROR;
  PUSHB false;
  RETURN;
  (* HANDLE_PARMERR: address 276 *)
  INPUT 1;
  POP 1;
  INPUT 2;
  POP 1;
  INPUT 4;
  POP 1;
  INPUT 4;
  POP 1;
  CALL EMIT_ERROR_PARMERR;
  RETURN;
  (* INC_UNUSED: address 286 *)
  ROLL 3;
  ROLL 3;
  PUSHN 1;
  ADD;
  ROLL 3;
  RETURN;
  (* INC_VALID: address 292 *)
  ROLL 2;
  PUSHN 1;
  ADD;
  ROLL 2;
  RETURN;
  (* COMPUTE_INVALID: address 297 *)
  DUP 2;
  ADD;
  PUSHN 4;
  ROLL 2;
  SUB;
  ROLL 2;
  RETURN;
  (* COMPUTE_RESULT: address 304 *)
  ROLL 2;
  DUP 1;
  PUSHN 0;
  EQ 2;
  ROLL 4;
  ROLL 2;
  RETURN;
  (* EMIT_INFO: address 311 *)
  PUSHS 0;
  OUTPUT;
  OUTPUT;
  PUSHS 1;
  OUTPUT;
  OUTPUT;
  PUSHS 2;
  OUTPUT;
  OUTPUT;
  PUSHS 3;
  OUTPUT;
  PUSHN VS_VALIDATION_INF_EID;
  PUSHN CFE_EVS_EventType_INFORMATION;
  FLUSH;
  RETURN;
  (* EMIT_ERROR_PARMERR: address 326 *)
  PUSHS 4;
  OUTPUT;
  OUTPUT;
  PUSHS 7;
  OUTPUT;
  PUSHN VS_TBL_PARM_ERR_EID;
  PUSHN CFE_EVS_EventType_ERROR;
  FLUSH;
  RETURN;
  (* EMIT_ERROR: address 335 *)
  PUSHS 4;
  OUTPUT;
  OUTPUT;
  PUSHS 5;
  OUTPUT;
  CALL PARM_TO_STR;
  OUTPUT;
  OUTPUT;
  PUSHN CFE_EVS_EventType_ERROR;
  FLUSH;
  RETURN;
  (* PARM_TO_STR: address 346 *)
  DUP 1;
  PUSHN VS_PARM_UNUSED;
  EQ 2;
  NOT;
  JMPIF 4;
  POP 1;
  PUSHS 14;
  RETURN;
  DUP 1;
  PUSHN VS_PARM_APE;
  EQ 2;
  NOT;
  JMPIF 4;
  POP 1;
  PUSHS 15;
  RETURN;
  DUP 1;
  PUSHN VS_PARM_BAT;
  EQ 2;
  NOT;
  JMPIF 4;
  POP 1;
  PUSHS 16;
  RETURN;
  DUP 1;
  PUSHN VS_PARM_CAT;
  EQ 2;
  NOT;
  JMPIF 4;
  POP 1;
  PUSHS 17;
  RETURN;
  DUP 1;
  PUSHN VS_PARM_DOG;
  EQ 2;
  NOT;
  JMPIF 4;
  POP 1;
  PUSHS 18;
  RETURN;
  DUP 1;
  PUSHN VS_PARM_NORTH;
  EQ 2;
  NOT;
  JMPIF 4;
  POP 1;
  PUSHS 19;
  RETURN;
  DUP 1;
  PUSHN VS_PARM_SOUTH;
  EQ 2;
  NOT;
  JMPIF 4;
  POP 1;
  PUSHS 20;
  RETURN;
  DUP 1;
  PUSHN VS_PARM_EAST;
  EQ 2;
  NOT;
  JMPIF 4;
  POP 1;
  PUSHS 21;
  RETURN;
  DUP 1;
  PUSHN VS_PARM_WEST;
  EQ 2;
  NOT;
  JMPIF 4;
  POP 1;
  PUSHS 22;
  RETURN;
  POP 1;
  PUSHS 23;
  RETURN
].

(** *** vsc_table.c *)

Definition VSC_TABLE_INVALID_RESULT : Z := Z.lnot CFE_SUCCESS.

(** The two calls that log a performance marker leave no trace in the
    state modelled here. *)
Definition VSC_table_validate (TblData : list byte) (g : grunt_t)
  : Z * grunt_t :=
  let (status, g') :=
    GRUNT_Run (GM := c_modules OUTPUT_QUEUE_SIZE)
      vsvf_program VSVF_NUM_INSTRUCTIONS TblData sizeof_vsc_table_t
      vsvf_strings VSVF_NUM_STRINGS g in
  if status =? GRUNT_HALT_TRUE then (CFE_SUCCESS, g')
  else (VSC_TABLE_INVALID_RESULT, g').
End Validator.

(** ** A list model of the three modules

    The same interface over plain data: the two stacks as two lists (top
    first) with the count of free slots, the input as the bytes read and
    the bytes still to read, the output line as a string with the room
    left in it.  The C modules are shown below to behave as this model,
    and the properties of programs are proved on it. *)

Fixpoint take_n {A : Type} (n : nat) (l : list A)
  : option (list A * list A) :=
  match n with
  | O => Some ([], l)
  | Datatypes.S n' =>
      match l with
      | [] => None
      | x :: l' =>
          match take_n n' l' with
          | None => None
          | Some (t, r) => Some (x :: t, r)
          end
      end
  end.

Fixpoint take_free (n free : nat) : option nat :=
  match n with
  | O => Some free
  | Datatypes.S n' =>
      match free with
      | O => None
      | Datatypes.S f => take_free n' f
      end
  end.

Record lstack_t := mkLStack {
  l_args : list grunt_value_t;
  l_ctl : list Z;
  l_free : nat
}.

Definition l_stack_init (s : lstack_t) : lstack_t :=
  mkLStack [] [] (Z.to_nat GRUNT_STACK_SIZE).

Definition l_arg_push (v : grunt_value_t) (s : lstack_t) : Z * lstack_t :=
  if negb (is_bool v || is_num v || is_str v)
  then (GRUNT_ERROR_INTERPRETERBUG, s)
  else match l_free s with
       | O => (GRUNT_ERROR_OUTOFBOUNDS, s)
       | Datatypes.S f => (0, mkLStack (v :: l_args s) (l_ctl s) f)
       end.

Definition l_arg_pop (s : lstack_t) : Z * option grunt_value_t * lstack_t :=
  match l_args s with
  | [] => (GRUNT_ERROR_OUTOFBOUNDS, None, s)
  | v :: r =>
      (0, Some v, mkLStack r (l_ctl s) (Datatypes.S (l_free s)))
  end.

Definition l_arg_dup (n : Z) (s : lstack_t) : Z * lstack_t :=
  if n =? 0 then (GRUNT_ERROR_INTERPRETERBUG, s)
  else match take_n (Z.to_nat n) (l_args s) with
       | None => (GRUNT_ERROR_OUTOFBOUNDS, s)
       | Some (top, _) =>
           match take_free (Z.to_nat n) (l_free s) with
           | None => (GRUNT_ERROR_OUTOFBOUNDS, s)
           | Some f => (0, mkLStack (top ++ l_args s) (l_ctl s) f)
           end
       end.

(** The [n - 1] values beneath the top after [grunt_stack_arg_roll]
    has copied them one slot up: themselves, unless the copy overlaps
    ([n > 2]) and goes upward, which repeats the lowest of them. *)
Definition l_rolled {pf : Platform} (n : Z) (t : grunt_value_t)
    (others : list grunt_value_t) : list grunt_value_t :=
  if n <=? 2 then others
  else match memcpy_overlap with
       | OverlapBuffered => others
       | OverlapAscending => repeat (last others t) (List.length others)
       end.

Arguments l_rolled : simpl never.

Definition l_arg_roll {pf : Platform} (n : Z) (s : lstack_t)
  : Z * lstack_t :=
  if n <? 2 then (GRUNT_ERROR_INTERPRETERBUG, s)
  else match take_n (Z.to_nat n) (l_args s) with
       | Some (t :: others, rest) =>
           (0, mkLStack (l_rolled n t others ++ t :: rest) (l_ctl s)
                 (l_free s))
       | _ => (GRUNT_ERROR_OUTOFBOUNDS, s)
       end.

Definition l_ctl_push (v : grunt_value_t) (s : lstack_t) : Z * lstack_t :=
  if negb (is_pc v) then (GRUNT_ERROR_INTERPRETERBUG, s)
  else match l_free s with
       | O => (GRUNT_ERROR_OUTOFBOUNDS, s)
       | Datatypes.S f => (0, mkLStack (l_args s) (val_pc v :: l_ctl s) f)
       end.

Definition l_ctl_pop (s : lstack_t) : Z * option grunt_value_t * lstack_t :=
  match l_ctl s with
  | [] => (GRUNT_ERROR_OUTOFBOUNDS, None, s)
  | p :: r =>
      (0, Some (VPc p), mkLStack (l_args s) r (Datatypes.S (l_free s)))
  end.

Definition l_stack {pf : Platform} : StackOps lstack_t :=
  mkStackOps lstack_t l_stack_init l_arg_push l_arg_pop l_arg_dup l_arg_roll
    l_ctl_push l_ctl_pop.

Record linput_t := mkLInput {
  l_live : bool;
  l_done : list byte;
  l_todo : list byte
}.

(** The bytes that can be read: [size] of them, those past the end of
    [p_data] (none when [size] is its length) read as zero. *)
Definition l_input_init (p_data : list byte) (size : Z) (s : linput_t)
  : linput_t :=
  mkLInput true []
    (firstn (Z.to_nat size) (p_data ++ repeat x00 (Z.to_nat size))).

Definition l_rewind (n : Z) (s : linput_t) : Z * linput_t :=
  match take_n (Z.to_nat n) (l_done s) with
  | None => (GRUNT_ERROR_OUTOFBOUNDS, s)
  | Some (back, rest) =>
      if n =? 0
      then (0, mkLInput (l_live s) [] (rev (l_done s) ++ l_todo s))
      else (0, mkLInput (l_live s) rest (rev back ++ l_todo s))
  end.

Definition l_dequeue {pf : Platform} (n : Z) (s : linput_t)
  : Z * option grunt_value_t * linput_t :=
  if negb (l_live s) then (GRUNT_ERROR_INTERPRETERBUG, None, s)
  else if negb ((n =? 1) || (n =? 2) || (n =? 4))
  then (GRUNT_ERROR_INVALIDLITERAL, None, s)
  else match take_n (Z.to_nat n) (l_todo s) with
       | None => (GRUNT_ERROR_OUTOFBOUNDS, None, s)
       | Some (bs, rest) =>
           (0, Some (VNum (host_uint bs)),
            mkLInput (l_live s) (rev bs ++ l_done s) rest)
       end.

Definition l_input {pf : Platform} : InputOps linput_t :=
  mkInputOps linput_t l_input_init l_rewind l_dequeue.

Record loutput_t := mkLOutput {
  l_strings : list string;
  l_num_strings : Z;
  l_line : string;
  l_room : nat;
  l_events : list event_t
}.

(** The states of the list model, and of the list model of the stacks
    under the C input and output. *)
Definition lstate_t : Type := lstack_t * linput_t * loutput_t.
Definition LC : Type := lstack_t * input_t * output_t.

Section ListOutput.
Context {pf : Platform}.
(** The characters a line can hold: the size of the queue less the
    terminating NUL. *)
Variable capacity : nat.

Definition l_reset (s : loutput_t) : loutput_t :=
  mkLOutput (l_strings s) (l_num_strings s) EmptyString capacity
    (l_events s).

Definition l_enqueue (string : string) (length : Z) (s : loutput_t)
  : Z * loutput_t :=
  match take_free (Z.to_nat length) (l_room s) with
  | None => (GRUNT_ERROR_OUTOFBOUNDS, s)
  | Some room =>
      (0, mkLOutput (l_strings s) (l_num_strings s)
            (l_line s
               ++ string_of_list_ascii
                    (firstn (Z.to_nat length)
                       (list_ascii_of_string string)))%string
            room (l_events s))
  end.

Definition l_output_init (string_table : list string) (num_strings : Z)
    (s : loutput_t) : loutput_t :=
  mkLOutput string_table num_strings EmptyString capacity (l_events s).

Definition l_enqueue_boolean (tf : bool) (s : loutput_t) : Z * loutput_t :=
  if tf then l_enqueue "true" 4 s else l_enqueue "false" 5 s.

Definition l_enqueue_number (u : Z) (s : loutput_t) : Z * loutput_t :=
  let string := snprintf_u u in
  let length := Z.of_nat (String.length string) in
  if length >? GRUNT_REP_MAX then (GRUNT_ERROR_INTERPRETERBUG, s)
  else l_enqueue string length s.

Definition l_enqueue_string (string_index : Z) (s : loutput_t)
  : Z * loutput_t :=
  if negb (string_index <? l_num_strings s)
  then (GRUNT_ERROR_INVALIDLITERAL, s)
  else
    let string := nth (Z.to_nat string_index) (l_strings s) EmptyString in
    let length := wrap16 (strlen string) in
    if GRUNT_REP_MAX <? length then (GRUNT_ERROR_OUTOFBOUNDS, s)
    else l_enqueue string length s.

(** The newest event is kept first. *)
Definition l_flush (event_type event_id : Z) (s : loutput_t) : loutput_t :=
  mkLOutput (l_strings s) (l_num_strings s) EmptyString capacity
    (mkEvent event_id event_type (c_str (l_line s)) :: l_events s).

Definition l_output : OutputOps loutput_t :=
  mkOutputOps loutput_t l_output_init l_enqueue_boolean l_enqueue_number
    l_enqueue_string l_flush (fun s => rev (l_events s)).

Definition l_modules : GruntModules lstate_t :=
  modules_of l_stack l_input l_output.

(** The list model of the stacks under the C input and output, for the
    properties that concern the control flow alone. *)
Definition lc_modules (OUTPUT_QUEUE_SIZE : Z) : GruntModules LC :=
  modules_of l_stack c_input (c_output OUTPUT_QUEUE_SIZE).
End ListOutput.

(** ** Two implementations of the modules that behave alike *)

Section Simulation.
Context {S1 S2 : Type} {GM1 : GruntModules S1} {GM2 : GruntModules S2}.
Variable R : S1 -> S2 -> Prop.

(** [f1] and [f2] return the same result from related states and leave
    related states. *)
Definition sim {A : Type} (f1 : S1 -> A * S1) (f2 : S2 -> A * S2) : Prop :=
  forall s1 s2, R s1 s2 ->
    fst (f1 s1) = fst (f2 s2) /\ R (snd (f1 s1)) (snd (f2 s2)).

Record ModulesSim : Prop := mkModulesSim {
  sim_arg_push : forall v, sim (stack_arg_push v) (stack_arg_push v);
  sim_arg_pop : sim stack_arg_pop stack_arg_pop;
  sim_arg_dup : forall n, 0 <= n -> sim (stack_arg_dup n) (stack_arg_dup n);
  sim_arg_roll : forall n, sim (stack_arg_roll n) (stack_arg_roll n);
  sim_ctl_push : forall v, sim (stack_ctl_push v) (stack_ctl_push v);
  sim_ctl_pop : sim stack_ctl_pop stack_ctl_pop;
  sim_rewind : forall n, 0 <= n -> sim (input_rewind n) (input_rewind n);
  sim_dequeue : forall n, sim (input_dequeue n) (input_dequeue n);
  sim_enqueue_boolean :
    forall b, sim (output_enqueue_boolean b) (output_enqueue_boolean b);
  sim_enqueue_number :
    forall u, sim (output_enqueue_number u) (output_enqueue_number u);
  sim_enqueue_string :
    forall i, sim (output_enqueue_string i) (output_enqueue_string i);
  sim_flush : forall t e s1 s2, R s1 s2 ->
    R (output_flush t e s1) (output_flush t e s2);
  arg_pop_writes : forall s : S2,
    fst (fst (stack_arg_pop s)) = 0 -> snd (fst (stack_arg_pop s)) <> None;
  ctl_pop_writes : forall s : S2,
    fst (fst (stack_ctl_pop s)) = 0 -> snd (fst (stack_ctl_pop s)) <> None;
  dequeue_writes : forall n (s : S2),
    fst (fst (input_dequeue n s)) = 0 ->
    snd (fst (input_dequeue n s)) <> None;
  sim_events : forall s1 s2, R s1 s2 -> sent_events s1 = sent_events s2
}.

(** Machine states that agree on the program counter and have related
    modules; the registers need not agree, every operation writes a
    register before it reads it. *)
Definition vsim (m1 : vm_t S1) (m2 : vm_t S2) : Prop :=
  g_pc m1 = g_pc m2 /\ R (mods m1) (mods m2).

Definition op_sim (f1 : op_t (S := S1)) (f2 : op_t (S := S2)) : Prop :=
  forall m1 m2, vsim m1 m2 ->
    fst (f1 m1) = fst (f2 m2) /\ vsim (snd (f1 m1)) (snd (f2 m2)).
End Simulation.

Record StackSim {K1 K2 : Type} (k1 : StackOps K1) (k2 : StackOps K2)
    (Rk : K1 -> K2 -> Prop) : Prop := mkStackSim {
  ks_arg_push : forall v, sim Rk (k_arg_push _ k1 v) (k_arg_push _ k2 v);
  ks_arg_pop : sim Rk (k_arg_pop _ k1) (k_arg_pop _ k2);
  ks_arg_dup : forall n, 0 <= n ->
    sim Rk (k_arg_dup _ k1 n) (k_arg_dup _ k2 n);
  ks_arg_roll : forall n, sim Rk (k_arg_roll _ k1 n) (k_arg_roll _ k2 n);
  ks_ctl_push : forall v, sim Rk (k_ctl_push _ k1 v) (k_ctl_push _ k2 v);
  ks_ctl_pop : sim Rk (k_ctl_pop _ k1) (k_ctl_pop _ k2);
  ks_arg_pop_writes : forall s,
    fst (fst (k_arg_pop _ k2 s)) = 0 -> snd (fst (k_arg_pop _ k2 s)) <> None;
  ks_ctl_pop_writes : forall s,
    fst (fst (k_ctl_pop _ k2 s)) = 0 -> snd (fst (k_ctl_pop _ k2 s)) <> None
}.

Definition stack_rel (s : stack_t) (l : lstack_t) : Prop :=
  exists junk,
    g_stack s = rev (l_args l) ++ junk ++ map VPc (l_ctl l) /\
    List.length junk = l_free l /\
    g_argument_count s = Z.of_nat (List.length (l_args l)) /\
    g_control_count s = Z.of_nat (List.length (l_ctl l)) /\
    Z.of_nat (List.length (l_args l) + l_free l + List.length (l_ctl l))
    = GRUNT_STACK_SIZE.


Record InputSim {I1 I2 : Type} (i1 : InputOps I1) (i2 : InputOps I2)
    (Ri : I1 -> I2 -> Prop) : Prop := mkInputSim {
  is_rewind : forall n, 0 <= n -> sim Ri (i_rewind _ i1 n) (i_rewind _ i2 n);
  is_dequeue : forall n, sim Ri (i_dequeue _ i1 n) (i_dequeue _ i2 n);
  is_dequeue_writes : forall n s,
    fst (fst (i_dequeue _ i2 n s)) = 0 ->
    snd (fst (i_dequeue _ i2 n s)) <> None
}.

Record OutputSim {O1 O2 : Type} (o1 : OutputOps O1) (o2 : OutputOps O2)
    (Ro : O1 -> O2 -> Prop) : Prop := mkOutputSim {
  os_enqueue_boolean : forall b,
    sim Ro (o_enqueue_boolean _ o1 b) (o_enqueue_boolean _ o2 b);
  os_enqueue_number : forall u,
    sim Ro (o_enqueue_number _ o1 u) (o_enqueue_number _ o2 u);
  os_enqueue_string : forall i,
    sim Ro (o_enqueue_string _ o1 i) (o_enqueue_string _ o2 i);
  os_flush : forall t e s1 s2, Ro s1 s2 ->
    Ro (o_flush _ o1 t e s1) (o_flush _ o2 t e s2);
  os_events : forall s1 s2, Ro s1 s2 -> o_events _ o1 s1 = o_events _ o2 s2
}.

Definition prod_rel {K1 K2 I1 I2 O1 O2 : Type}
    (Rk : K1 -> K2 -> Prop) (Ri : I1 -> I2 -> Prop) (Ro : O1 -> O2 -> Prop)
    (s1 : K1 * I1 * O1) (s2 : K2 * I2 * O2) : Prop :=
  Rk (fst (fst s1)) (fst (fst s2)) /\
  Ri (snd (fst s1)) (snd (fst s2)) /\
  Ro (snd s1) (snd s2).


(** The variables of the C modules as their declarations type them: the
    stack array has [GRUNT_STACK_SIZE] elements and the unsigned head
    index is not negative. *)
Definition statics_wf (s : statics_t) : Prop :=
  List.length (g_stack (fst (fst s))) = Z.to_nat GRUNT_STACK_SIZE /\
  0 <= g_head_index (snd (fst s)).

(** ** The measure of the control flow *)

Definition PC_BASE : Z := 65537.
Definition PC_PAD : Z := 65536.

Fixpoint weight (s : list Z) (n : nat) : Z :=
  match n with
  | O => 0
  | Datatypes.S n' =>
      match s with
      | [] => PC_PAD * PC_BASE ^ Z.of_nat n' + weight [] n'
      | x :: t => x * PC_BASE ^ Z.of_nat n' + weight t n'
      end
  end.

Definition digit (x : Z) : Prop := 0 <= x <= PC_PAD.




Definition stk (m : vm_t LC) : lstack_t := fst (fst (mods m)).

Definition acct (k : lstack_t) : Prop :=
  (List.length (l_args k) + l_free k + List.length (l_ctl k) = 32)%nat.

Definition good_status (st : Z) : Prop := st = 0 \/ 17 <= st <= 23.

Definition kframe (k k' : lstack_t) : Prop :=
  l_ctl k' = l_ctl k /\ (acct k -> acct k').

Definition frame (m m' : vm_t LC) : Prop :=
  g_pc m' = g_pc m /\ kframe (stk m) (stk m').

Definition keeps (f : op_t (S := LC)) : Prop :=
  forall m, good_status (fst (f m)) /\ frame m (snd (f m)).


Definition kkeeps {A} (st : A -> Z) (f : lstack_t -> A * lstack_t) : Prop :=
  forall k, good_status (st (fst (f k))) /\ kframe k (snd (f k)).



Definition pc_ok (p : Z) : Prop := 0 <= p <= 65535.


Inductive progress (m m' : vm_t LC) : Prop :=
| progress_forward :
    l_ctl (stk m') = l_ctl (stk m) -> g_pc m < g_pc m' <= 65535 ->
    progress m m'
| progress_call :
    l_ctl (stk m') = (g_pc m + 1) :: l_ctl (stk m) ->
    g_pc m + 1 <= g_pc m' -> progress m m'
| progress_return :
    l_ctl (stk m) = g_pc m' :: l_ctl (stk m') -> progress m m'.

Definition final_status (st : Z) : Prop :=
  st = GRUNT_HALT_TRUE \/ st = GRUNT_HALT_FALSE \/ 17 <= st <= 23.

Definition steps_well (f : op_t (S := LC)) : Prop :=
  forall m, 0 <= g_pc m < 65535 -> acct (stk m) ->
    let r := f (set_pc (wrap16 (g_pc m + 1)) m) in
    (fst r = 0 /\ acct (stk (snd r)) /\ progress m (snd r)) \/
    final_status (fst r).


Definition measure (m : vm_t LC) : Z :=
  weight (rev (l_ctl (stk m)) ++ [Z.min (g_pc m) PC_PAD]) 33.


Section Iter.
Context {S : Type} {GM : GruntModules S}.
Variable program : list grunt_instruction_t.
Variable num_instructions : Z.

Fixpoint iter_loop (n : nat) (m : vm_t S) : Z * vm_t S :=
  match n with
  | O => (0, m)
  | Datatypes.S n' =>
      let (status, m') := run_iteration program num_instructions m in
      if status =? 0 then iter_loop n' m' else (status, m')
  end.

End Iter.

(** The state of the list-stack machine that stands for a state of the
    library at the start of a run. *)
Definition lc_of (g : grunt_t) : vm_t LC :=
  mkVm (g_ra g) (g_rb g) (g_pc g)
    (mkLStack [] [] 0, snd (fst (mods g)), snd (mods g)).

(** An operation that leaves the control stack as it found it. *)
Definition ctl_kept (f : op_t (S := LC)) : Prop :=
  forall m, l_ctl (stk (snd (f m))) = l_ctl (stk m).

(** ** States of the library *)

(** The variables of the library when the host has loaded it and no run
    has been made: C zero-initialises file-scope variables. *)
Definition statics_at_load (OUTPUT_QUEUE_SIZE : Z) : statics_t :=
  (mkStack (repeat no_lit (Z.to_nat GRUNT_STACK_SIZE)) 0 0,
   mkInput None 0 0,
   mkOutput [] 0 (repeat NUL (Z.to_nat OUTPUT_QUEUE_SIZE)) 0 []).

Definition grunt_at_load (OUTPUT_QUEUE_SIZE : Z) : grunt_t :=
  mkVm no_lit no_lit 0 (statics_at_load OUTPUT_QUEUE_SIZE).

Definition the_stack (m : grunt_t) : stack_t := fst (fst (mods m)).
Definition the_input (m : grunt_t) : input_t := snd (fst (mods m)).
Definition the_output (m : grunt_t) : output_t := snd (mods m).

(** The argument stack, topmost value first: it grows upward from slot
    0 of [g_stack]. *)
Definition arg_stack (s : stack_t) : list grunt_value_t :=
  rev (array_slice (g_stack s) 0 (g_argument_count s)).

(** The control stack, topmost value first: it grows downward from the
    last slot of [g_stack]. *)
Definition ctl_stack (s : stack_t) : list grunt_value_t :=
  array_slice (g_stack s) (GRUNT_STACK_SIZE - g_control_count s)
    (g_control_count s).

(** What the declarations and the push functions keep true of the stack
    variables: the array has its size, the two counts fit in it and the
    control stack holds program counters. *)
Definition stack_wf (s : stack_t) : Prop :=
  List.length (g_stack s) = Z.to_nat GRUNT_STACK_SIZE /\
  0 <= g_argument_count s /\ 0 <= g_control_count s /\
  g_argument_count s + g_control_count s <= GRUNT_STACK_SIZE /\
  Forall (fun v => is_pc v = true) (ctl_stack s).

(** The two lists and the free slots of a C stack. *)
Definition list_view (s : stack_t) : lstack_t :=
  mkLStack (arg_stack s) (map val_pc (ctl_stack s))
    (Z.to_nat (GRUNT_STACK_SIZE - g_argument_count s - g_control_count s)).

(** The state of the list-stack machine with the argument stack, the
    registers, the input and the output of [m], control stack [ctl] and
    [free] free slots. *)
Definition lc_at (m : grunt_t) (ctl : list Z) (free : nat) : vm_t LC :=
  mkVm (g_ra m) (g_rb m) (g_pc m)
    (mkLStack (arg_stack (the_stack m)) ctl free, the_input m, the_output m).

Definition lc_view (m : grunt_t) : vm_t LC :=
  lc_at m (l_ctl (list_view (the_stack m))) (l_free (list_view (the_stack m))).

(** A state of the library and a state of the list-stack machine that
    show the same stacks, input, output and program counter. *)
Record same_view (m : grunt_t) (ml : vm_t LC) : Prop := mkSameView {
  sv_pc : g_pc m = g_pc ml;
  sv_args : arg_stack (the_stack m) = l_args (stk ml);
  sv_ctl : ctl_stack (the_stack m) = map VPc (l_ctl (stk ml));
  sv_wf : stack_wf (the_stack m);
  sv_input : the_input m = snd (fst (mods ml));
  sv_output : the_output m = snd (mods ml)
}.

(** The instruction [GRUNT_Run] fetches in state [m]. *)
Definition fetch {S : Type} (program : list grunt_instruction_t)
    (m : vm_t S) : grunt_instruction_t :=
  nth (Z.to_nat (g_pc m)) program no_instruction.

(** Stretches of a run in which every [CALL] that succeeds is followed
    by the [RETURN] that pops what it pushed. *)
Inductive balanced {pf : Platform} (OUTPUT_QUEUE_SIZE : Z)
    (program : list grunt_instruction_t) (num_instructions : Z)
  : grunt_t -> grunt_t -> Prop :=
| balanced_nil m : balanced OUTPUT_QUEUE_SIZE program num_instructions m m
| balanced_plain m m1 m2 :
    op (fetch program m) <> GRUNT_OP_CALL ->
    op (fetch program m) <> GRUNT_OP_RETURN ->
    run_iteration (GM := c_modules OUTPUT_QUEUE_SIZE) program
      num_instructions m = (0, m1) ->
    balanced OUTPUT_QUEUE_SIZE program num_instructions m1 m2 ->
    balanced OUTPUT_QUEUE_SIZE program num_instructions m m2
| balanced_pair m m1 m2 m3 m4 :
    op (fetch program m) = GRUNT_OP_CALL ->
    run_iteration (GM := c_modules OUTPUT_QUEUE_SIZE) program
      num_instructions m = (0, m1) ->
    balanced OUTPUT_QUEUE_SIZE program num_instructions m1 m2 ->
    op (fetch program m2) = GRUNT_OP_RETURN ->
    run_iteration (GM := c_modules OUTPUT_QUEUE_SIZE) program
      num_instructions m2 = (0, m3) ->
    balanced OUTPUT_QUEUE_SIZE program num_instructions m3 m4 ->
    balanced OUTPUT_QUEUE_SIZE program num_instructions m m4.

(** A state of the library whose argument stack holds [args], topmost
    value first, with an empty control stack and an empty line. *)
Definition grunt_with_args (OUTPUT_QUEUE_SIZE : Z)
    (args : list grunt_value_t) : grunt_t :=
  mkVm no_lit no_lit 0
    (mkStack
       (rev args
        ++ repeat no_lit (Z.to_nat GRUNT_STACK_SIZE - List.length args))
       (Z.of_nat (List.length args)) 0,
     mkInput None 0 0,
     mkOutput [] 0 (repeat NUL (Z.to_nat OUTPUT_QUEUE_SIZE)) 0 []).

(** The stack variables that hold the argument stack [args] and the
    control stack [ctl], topmost values first. *)
Definition stack_of (args : list grunt_value_t) (ctl : list Z) : stack_t :=
  mkStack
    (rev args
     ++ repeat no_lit
          (Z.to_nat GRUNT_STACK_SIZE - List.length args - List.length ctl)
     ++ map VPc ctl)
    (Z.of_nat (List.length args)) (Z.of_nat (List.length ctl)).

(** The input module reads inside its buffer: the head index lies within
    the size, a 16-bit count. *)
Definition input_wf (s : input_t) : Prop :=
  0 <= g_head_index s <= g_input_queue_size s /\
  g_input_queue_size s <= UINT16_MAX.

(** The characters enqueued since the output queue was last reset. *)
Definition pending (s : output_t) : list ascii :=
  firstn (Z.to_nat (g_tail_index s)) (g_output_queue s).

(** The output queue of [OUTPUT_QUEUE_SIZE] characters holds a C string
    that ends at the tail index: no NUL before it, only NULs from it on,
    and the last character is never written. *)
Definition output_wf (OUTPUT_QUEUE_SIZE : Z) (s : output_t) : Prop :=
  0 <= g_tail_index s <= OUTPUT_QUEUE_SIZE - 1 /\
  OUTPUT_QUEUE_SIZE - 1 <= UINT16_MAX /\
  existsb is_nul (pending s) = false /\
  g_output_queue s
  = pending s ++ repeat NUL (Z.to_nat (OUTPUT_QUEUE_SIZE - g_tail_index s)).

(** What an enqueue function that was to append [chars] did, [r] being
    what it returned on [s]: the characters are appended when they fit
    before the last character of the queue, and nothing changes when they
    do not. *)
Definition appends (OUTPUT_QUEUE_SIZE : Z) (s : output_t)
    (chars : list ascii) (r : Z * output_t) : Prop :=
  (g_tail_index s + Z.of_nat (List.length chars) <= OUTPUT_QUEUE_SIZE - 1 ->
   fst r = 0 /\ pending (snd r) = pending s ++ chars /\
   evs_sent (snd r) = evs_sent s) /\
  (OUTPUT_QUEUE_SIZE - 1 < g_tail_index s + Z.of_nat (List.length chars) ->
   r = (GRUNT_ERROR_OUTOFBOUNDS, s)).

(** The input and the output module of a state of the machine. *)
Definition io_t : Type := input_t * output_t.

Definition io_of (m : vm_t LC) : io_t := (snd (fst (mods m)), snd (mods m)).

(** An operation that takes the input and output modules only along the
    relation [R]. *)
Definition pres (R : io_t -> io_t -> Prop) (f : op_t (S := LC)) : Prop :=
  forall m, R (io_of m) (io_of (snd (f m))).

(** A message that fits in the output queue with its terminating NUL. *)
Definition short_text (OUTPUT_QUEUE_SIZE : Z) (e : event_t) : Prop :=
  Z.of_nat (String.length (Text e)) <= OUTPUT_QUEUE_SIZE - 1.

(** What a run may do to well-formed input and output modules: they stay
    well formed, the input data and the string table stay in place, and
    events are only added, each with a message that fits the queue. *)
Definition run_io (OUTPUT_QUEUE_SIZE : Z) (a b : io_t) : Prop :=
  input_wf (fst a) -> output_wf OUTPUT_QUEUE_SIZE (snd a) ->
  input_wf (fst b) /\ output_wf OUTPUT_QUEUE_SIZE (snd b) /\
  g_input_queue (fst b) = g_input_queue (fst a) /\
  g_input_queue_size (fst b) = g_input_queue_size (fst a) /\
  g_string_table (snd b) = g_string_table (snd a) /\
  g_num_strings (snd b) = g_num_strings (snd a) /\
  exists more,
    evs_sent (snd b) = evs_sent (snd a) ++ more /\
    Forall (short_text OUTPUT_QUEUE_SIZE) more.

(** The input data and the string table are the same in [a] and [b]. *)
Definition same_places (a b : io_t) : Prop :=
  g_input_queue (fst b) = g_input_queue (fst a) /\
  g_input_queue_size (fst b) = g_input_queue_size (fst a) /\
  g_string_table (snd b) = g_string_table (snd a) /\
  g_num_strings (snd b) = g_num_strings (snd a).

(** The output module as a host sees it that began to listen after the
    first [k] events: the functions are those of grunt_output.c, the
    events reported are the later ones. *)
Definition c_output_after (k : nat) (OUTPUT_QUEUE_SIZE : Z)
  : OutputOps output_t :=
  mkOutputOps output_t (grunt_output_init OUTPUT_QUEUE_SIZE)
    (grunt_output_enqueue_boolean OUTPUT_QUEUE_SIZE)
    (grunt_output_enqueue_number OUTPUT_QUEUE_SIZE)
    (grunt_output_enqueue_string OUTPUT_QUEUE_SIZE)
    (grunt_output_flush OUTPUT_QUEUE_SIZE)
    (fun o => skipn k (evs_sent o)).

Definition c_modules_after {pf : Platform} (k : nat) (OUTPUT_QUEUE_SIZE : Z)
  : GruntModules statics_t :=
  modules_of c_stack c_input (c_output_after k OUTPUT_QUEUE_SIZE).

Definition lc_modules_after {pf : Platform} (k : nat) (OUTPUT_QUEUE_SIZE : Z)
  : GruntModules LC :=
  modules_of l_stack c_input (c_output_after k OUTPUT_QUEUE_SIZE).

(** Two output modules that differ only in the first [k1], respectively
    [k2], events sent. *)
Definition out_after (k1 k2 : nat) (o1 o2 : output_t) : Prop :=
  g_string_table o1 = g_string_table o2 /\
  g_num_strings o1 = g_num_strings o2 /\
  g_output_queue o1 = g_output_queue o2 /\
  g_tail_index o1 = g_tail_index o2 /\
  (k1 <= List.length (evs_sent o1))%nat /\
  (k2 <= List.length (evs_sent o2))%nat /\
  skipn k1 (evs_sent o1) = skipn k2 (evs_sent o2).

(** The events sent since [before]. *)
Definition events_since (before after : grunt_t) : list event_t :=
  skipn (List.length (evs_sent (the_output before)))
    (evs_sent (the_output after)).

(** The input module [i] and the list model [li] of it: [li] is live,
    and the bytes read and the bytes to read are the first
    [g_input_queue_size] bytes of the data of [i], split at the head
    index. *)
Definition input_rel (i : input_t) (li : linput_t) : Prop :=
  l_live li = true /\
  exists q,
    g_input_queue i = Some q /\
    firstn (Z.to_nat (g_input_queue_size i)) q
    = rev (l_done li) ++ l_todo li /\
    g_input_queue_size i <= Z.of_nat (List.length q) /\
    g_head_index i = Z.of_nat (List.length (l_done li)) /\
    0 <= g_head_index i <= g_input_queue_size i /\
    g_input_queue_size i <= UINT16_MAX.

(** The output module [o] of [OUTPUT_QUEUE_SIZE] characters and the list
    model [lo] of it: the line of [lo] is the C string of the queue, its
    room what is left before the last character, its events those sent,
    newest first. *)
Definition output_rel (OUTPUT_QUEUE_SIZE : Z) (o : output_t)
    (lo : loutput_t) : Prop :=
  output_wf OUTPUT_QUEUE_SIZE o /\
  l_strings lo = g_string_table o /\
  l_num_strings lo = g_num_strings o /\
  l_line lo = string_of_list_ascii (pending o) /\
  Z.of_nat (l_room lo) = OUTPUT_QUEUE_SIZE - 1 - g_tail_index o /\
  rev (l_events lo) = evs_sent o.

(** ** States and texts of the validation program *)

(** A state of the list model during a run of the validation program:
    the table image as input, [vsvf_strings] as string table. *)
Definition vstate (args : list grunt_value_t) (ctl : list Z) (free : nat)
    (done todo : list byte) (line : string) (room : nat)
    (events : list event_t) : lstate_t :=
  (mkLStack args ctl free, mkLInput true done todo,
   mkLOutput vsvf_strings VSVF_NUM_STRINGS line room events).

(** The state of the library during a run of the validation program:
    the modules are well formed, the input is initialised on data that
    holds the bytes it claims, and the string table is [vsvf_strings]. *)
Definition vsvf_ready (OUTPUT_QUEUE_SIZE : Z) (m : grunt_t) : Prop :=
  stack_wf (the_stack m) /\
  input_wf (the_input m) /\
  (exists q,
     g_input_queue (the_input m) = Some q /\
     g_input_queue_size (the_input m) <= Z.of_nat (List.length q)) /\
  output_wf OUTPUT_QUEUE_SIZE (the_output m) /\
  g_string_table (the_output m) = vsvf_strings /\
  g_num_strings (the_output m) = VSVF_NUM_STRINGS.

(** The index in [vsvf_strings] of the name of parameter [p], as
    [PARM_TO_STR] finds it. *)
Definition parm_str (p : Z) : Z :=
  if num_ne 0 p then
  if num_ne 1 p then
  if num_ne 2 p then
  if num_ne 4 p then
  if num_ne 8 p then
  if num_ne 16 p then
  if num_ne 32 p then
  if num_ne 64 p then
  if num_ne 128 p then 23 else 22 else 21 else 20 else 19 else 18 else 17
  else 16 else 15 else 14.

(** The name of a parameter in the messages. *)
Definition parm_name (p : Z) : string :=
  if p =? VS_PARM_UNUSED then "Unused"
  else if p =? VS_PARM_APE then "Ape"
  else if p =? VS_PARM_BAT then "Bat"
  else if p =? VS_PARM_CAT then "Cat"
  else if p =? VS_PARM_DOG then "Dog"
  else if p =? VS_PARM_NORTH then "North"
  else if p =? VS_PARM_SOUTH then "South"
  else if p =? VS_PARM_EAST then "East"
  else if p =? VS_PARM_WEST then "West"
  else "Unknown".

(** The line of an error event, as [EMIT_ERROR] builds it in the output
    queue. *)
Definition error_line (e p msg : Z) : string :=
  (((("Table entry " ++ snprintf_u e) ++ " parm ")
     ++ nth (Z.to_nat (parm_str p)) vsvf_strings EmptyString)
    ++ nth (Z.to_nat msg) vsvf_strings EmptyString)%string.

(** The line of the information event, as [EMIT_INFO] builds it. *)
Definition info_line (v i u : Z) : string :=
  (((((("Table image entries: " ++ snprintf_u v) ++ " valid, ")
       ++ snprintf_u i) ++ " invalid, ") ++ snprintf_u u)
    ++ " unused")%string.

(** The classes of parameter ids of vs_tablestruct.h. *)
Definition is_animal (p : Z) : bool :=
  (p =? VS_PARM_DOG) || (p =? VS_PARM_CAT) || (p =? VS_PARM_BAT)
  || (p =? VS_PARM_APE).

Definition is_direction (p : Z) : bool :=
  (p =? VS_PARM_WEST) || (p =? VS_PARM_EAST) || (p =? VS_PARM_SOUTH)
  || (p =? VS_PARM_NORTH).

(** The address in [MAIN] to which the fourth call of [VALIDATE_ENTRY]
    returns. *)
Definition MAIN_VERDICT : Z := MAIN + 28.

(** ** Runs, one round at a time

    A round of [GRUNT_Run] reads the registers only after it has written
    them, so a run is followed on the program counter and the modules
    alone. *)

Section Exec.
Context {S : Type} {GM : GruntModules S}.
Variable program : list grunt_instruction_t.
Variable num_instructions : Z.

Definition step_cfg (c : Z * S) : Z * (Z * S) :=
  let r := run_iteration program num_instructions
             (mkVm no_lit no_lit (fst c) (snd c)) in
  (fst r, (g_pc (snd r), mods (snd r))).

Fixpoint iter_cfg (n : nat) (c : Z * S) : Z * (Z * S) :=
  match n with
  | O => (0, c)
  | Datatypes.S n' =>
      let (status, c') := step_cfg c in
      if status =? 0 then iter_cfg n' c' else (status, c')
  end.

(** [c'] is reached from [c] after some rounds that all returned 0. *)
Definition reaches (c c' : Z * S) : Prop :=
  exists n, iter_cfg n c = (0, c').

(** The run from [c] leaves the loop with status [st] in [c']. *)
Definition halts (c : Z * S) (st : Z) (c' : Z * S) : Prop :=
  exists n, iter_cfg n c = (st, c') /\ st <> 0.
End Exec.

(** * Properties *)

(** ** Arrays and lists *)

Section ArrayFacts.
Context {A : Type}.

Lemma array_get_mid (a b : list A) (v d : A) (i : Z) :
  i = Z.of_nat (List.length a) -> array_get (a ++ v :: b) i d = v.
Proof.
  intros ->. unfold array_get. rewrite Nat2Z.id.
  rewrite app_nth2 by lia. now rewrite Nat.sub_diag.
Qed.

Lemma array_blit_mid (a b c vs : list A) (i : Z) :
  i = Z.of_nat (List.length a) -> List.length vs = List.length b ->
  array_blit (a ++ b ++ c) i vs = a ++ vs ++ c.
Proof.
  intros -> Hl. unfold array_blit. rewrite Nat2Z.id.
  rewrite firstn_app, Nat.sub_diag, firstn_all. cbn [firstn].
  rewrite app_nil_r. f_equal. f_equal.
  rewrite skipn_app, skipn_all2 by lia. cbn [app].
  replace (List.length a + List.length vs - List.length a)%nat
    with (List.length b) by lia.
  rewrite skipn_app, skipn_all, Nat.sub_diag. reflexivity.
Qed.

Lemma array_blit_eq (l a b c vs : list A) (i : Z) :
  l = a ++ b ++ c -> i = Z.of_nat (List.length a) ->
  List.length vs = List.length b ->
  array_blit l i vs = a ++ vs ++ c.
Proof. intros ->. apply array_blit_mid. Qed.

Lemma array_set_mid (a b : list A) (x v : A) (i : Z) :
  i = Z.of_nat (List.length a) ->
  array_set (a ++ x :: b) i v = a ++ v :: b.
Proof.
  intros Hi. unfold array_set.
  apply (array_blit_mid a [x] b [v] i Hi). reflexivity.
Qed.

Lemma array_slice_mid (a b c : list A) (i n : Z) :
  i = Z.of_nat (List.length a) -> n = Z.of_nat (List.length b) ->
  array_slice (a ++ b ++ c) i n = b.
Proof.
  intros -> ->. unfold array_slice. rewrite !Nat2Z.id.
  rewrite skipn_app, skipn_all, Nat.sub_diag. cbn [skipn app].
  rewrite firstn_app, Nat.sub_diag, firstn_all. cbn [firstn].
  apply app_nil_r.
Qed.

Lemma copy_ascending_up (n : nat) (a pre mid post : list A) (x : A)
    (i : Z) :
  a = pre ++ x :: mid ++ post -> i = Z.of_nat (List.length pre) ->
  List.length mid = n ->
  copy_ascending a (i + 1) i n = pre ++ x :: repeat x n ++ post.
Proof.
  revert a pre mid i.
  induction n as [|n IH]; intros a pre mid i -> Hi Hm; cbn [copy_ascending].
  - destruct mid; [reflexivity | discriminate].
  - destruct mid as [|y mid]; [discriminate|].
    injection Hm as Hm.
    assert (E1 : array_slice (pre ++ x :: (y :: mid) ++ post) i 1 = [x]).
    { apply (array_slice_mid pre [x] ((y :: mid) ++ post)); [exact Hi|].
      reflexivity. }
    rewrite E1.
    assert (E2 : array_blit (pre ++ x :: (y :: mid) ++ post) (i + 1) [x]
                 = (pre ++ [x]) ++ x :: mid ++ post).
    { transitivity ((pre ++ [x]) ++ [x] ++ mid ++ post); [|reflexivity].
      apply (array_blit_eq _ (pre ++ [x]) [y] (mid ++ post)).
      - rewrite <- app_assoc. reflexivity.
      - rewrite length_app. cbn [List.length]. lia.
      - reflexivity. }
    rewrite E2.
    rewrite (IH _ (pre ++ [x]) mid (i + 1) eq_refl)
      by (rewrite ?length_app; cbn [List.length]; lia).
    rewrite <- app_assoc. reflexivity.
Qed.

Lemma memcpy_apart {pf : Platform} (a : list A) (dst src n : Z) :
  ranges_overlap dst src n = false ->
  memcpy_within a dst src n = array_blit a dst (array_slice a src n).
Proof. intros H. unfold memcpy_within. rewrite H. reflexivity. Qed.

Lemma take_n_some (n : nat) (l t r : list A) :
  take_n n l = Some (t, r) -> l = t ++ r /\ List.length t = n.
Proof.
  revert l t r. induction n as [|n IH]; intros l t r; cbn [take_n].
  - intros [= <- <-]. split; reflexivity.
  - destruct l as [|x l]; [discriminate|].
    destruct (take_n n l) as [[t' r']|] eqn:E; [|discriminate].
    intros [= <- <-]. destruct (IH _ _ _ E) as [-> <-].
    split; reflexivity.
Qed.

Lemma take_n_none (n : nat) (l : list A) :
  take_n n l = None -> (List.length l < n)%nat.
Proof.
  revert l. induction n as [|n IH]; intros l; cbn [take_n]; [discriminate|].
  destruct l as [|x l]; cbn [List.length]; [lia|].
  destruct (take_n n l) as [[t' r']|] eqn:E; [discriminate|].
  intros _. apply IH in E. lia.
Qed.
End ArrayFacts.

Lemma l_rolled_length {pf : Platform} n t others :
  List.length (l_rolled n t others) = List.length others.
Proof.
  unfold l_rolled. destruct (n <=? 2); [reflexivity|].
  destruct memcpy_overlap; [reflexivity | apply repeat_length].
Qed.

Lemma take_free_some (n free f : nat) :
  take_free n free = Some f -> free = (n + f)%nat.
Proof.
  revert free. induction n as [|n IH]; intros free; cbn [take_free].
  - intros [= <-]. reflexivity.
  - destruct free as [|free]; [discriminate|].
    intros H. apply IH in H. lia.
Qed.

Lemma take_free_none (n free : nat) :
  take_free n free = None -> (free < n)%nat.
Proof.
  revert free. induction n as [|n IH]; intros free; cbn [take_free];
    [discriminate|].
  destruct free as [|free]; [lia|].
  intros H. apply IH in H. lia.
Qed.

(** ** The C stack behaves as the two lists *)

Ltac zbool :=
  unfold GRUNT_STACK_SIZE in *;
  repeat match goal with
         | |- context [?a >? ?b] => rewrite (Z.gtb_ltb a b)
         | |- context [?a <? ?b] => destruct (Z.ltb_spec a b); try lia
         | |- context [?a =? ?b] => destruct (Z.eqb_spec a b); try lia
         end.

Ltac slia := unfold GRUNT_STACK_SIZE in *; lia.

Ltac stack_rel_intro :=
  intros s [args ctl free] (junk & Hs & Hj & Ha & Hc & Ht);
  cbn [l_args l_ctl l_free] in *; unfold GRUNT_STACK_SIZE in *.

Ltac stack_rel_same junk :=
  split;
  [ reflexivity
  | exists junk; cbn [l_args l_ctl l_free fst snd];
    rewrite ?length_app in *; repeat split; solve [ auto | slia ] ].

Lemma stack_rel_push v : sim stack_rel (grunt_stack_arg_push v) (l_arg_push v).
Proof.
  stack_rel_intro.
  unfold grunt_stack_arg_push, l_arg_push. cbn [l_args l_ctl l_free].
  destruct (negb _); [stack_rel_same junk|].
  destruct free as [|f]; zbool; [stack_rel_same junk|].
  destruct junk as [|j junk]; [discriminate|].
  split; [reflexivity|]. exists junk. cbn [fst snd g_stack g_argument_count
    g_control_count l_args l_ctl l_free List.length rev] in *.
  rewrite Hs. repeat split; try slia.
  rewrite <- app_assoc. cbn [app].
  apply array_set_mid. rewrite length_rev. assumption.
Qed.

Lemma stack_rel_pop : sim stack_rel grunt_stack_arg_pop l_arg_pop.
Proof.
  stack_rel_intro.
  unfold grunt_stack_arg_pop, l_arg_pop. cbn [l_args l_ctl l_free].
  destruct args as [|v r]; cbn [List.length] in *; zbool;
    [stack_rel_same junk|].
  cbn [fst snd]. split.
  - f_equal. f_equal. rewrite Hs. cbn [rev]. rewrite <- !app_assoc.
    cbn [app]. apply array_get_mid. rewrite length_rev. lia.
  - exists (v :: junk). cbn [g_stack g_argument_count g_control_count
      l_args l_ctl l_free List.length rev] in *.
    rewrite Hs. repeat split; try slia.
    rewrite <- !app_assoc. reflexivity.
Qed.

Lemma split_length {A : Type} (l : list A) (n m : nat) :
  List.length l = (n + m)%nat ->
  exists a b, l = a ++ b /\ List.length a = n /\ List.length b = m.
Proof.
  intros H. exists (firstn n l), (skipn n l).
  rewrite firstn_skipn, length_firstn, length_skipn. repeat split; lia.
Qed.

Lemma stack_rel_dup {pf : Platform} n :
  0 <= n -> sim stack_rel (grunt_stack_arg_dup n) (l_arg_dup n).
Proof.
  intros Hn. stack_rel_intro.
  unfold grunt_stack_arg_dup, l_arg_dup. cbn [l_args l_ctl l_free].
  destruct (Z.eqb_spec n 0); [stack_rel_same junk|].
  destruct (take_n (Z.to_nat n) args) as [[top rest]|] eqn:Et.
  - apply take_n_some in Et. destruct Et as [-> Hl].
    destruct (take_free (Z.to_nat n) free) as [f|] eqn:Ef.
    + apply take_free_some in Ef. rewrite Ef in *. clear Ef free.
      rewrite length_app in *. zbool.
      destruct (split_length junk _ _ Hj) as (j1 & j2 & -> & Hj1 & Hj2).
      split; [reflexivity|]. exists j2.
      cbn [fst snd g_stack g_argument_count g_control_count l_args l_ctl
        l_free] in *.
      rewrite !length_app. repeat split; try slia.
      rewrite Hs, !rev_app_distr, <- !app_assoc.
      rewrite memcpy_apart
        by (unfold ranges_overlap; apply andb_false_iff; left;
            apply Z.ltb_ge; lia).
      rewrite (array_slice_mid (rev rest) (rev top)
                 (j1 ++ j2 ++ map VPc ctl))
        by (rewrite length_rev; lia).
      rewrite (app_assoc (rev rest) (rev top)).
      rewrite (array_blit_mid (rev rest ++ rev top) j1)
        by (rewrite ?length_app, ?length_rev; lia).
      rewrite <- !app_assoc. reflexivity.
    + apply take_free_none in Ef. rewrite length_app in *. zbool.
      stack_rel_same junk.
  - apply take_n_none in Et. zbool. stack_rel_same junk.
Qed.

Lemma roll_overlap (n argc : Z) :
  ranges_overlap (argc - n + 1) (argc - n) (n - 1) = negb (n <=? 2).
Proof.
  unfold ranges_overlap.
  destruct (Z.ltb_spec (argc - n + 1) (argc - n + (n - 1)));
    destruct (Z.ltb_spec (argc - n) (argc - n + 1 + (n - 1)));
    destruct (Z.leb_spec n 2); cbn [andb negb]; try reflexivity; lia.
Qed.

Lemma stack_rel_roll {pf : Platform} n :
  sim stack_rel (grunt_stack_arg_roll n) (l_arg_roll n).
Proof.
  stack_rel_intro.
  unfold grunt_stack_arg_roll, l_arg_roll. cbn [l_args l_ctl l_free].
  destruct (Z.ltb_spec n 2); [stack_rel_same junk|].
  destruct (take_n (Z.to_nat n) args) as [[top rest]|] eqn:Et.
  - apply take_n_some in Et. destruct Et as [-> Hl].
    destruct top as [|t others]; [cbn in Hl; lia|].
    rewrite length_app in *. cbn [List.length] in *. zbool.
    split; [reflexivity|]. exists junk.
    cbn [fst snd g_stack g_argument_count g_control_count l_args l_ctl
      l_free] in *.
    pose proof (l_rolled_length n t others) as Lr.
    rewrite !length_app. cbn [List.length]. rewrite Lr.
    repeat split; try slia.
    rewrite Hs. cbn [app rev]. rewrite !rev_app_distr. cbn [rev app].
    rewrite <- !app_assoc. cbn [app].
    clear Lr.
    pose proof (length_rev rest) as Lr. pose proof (length_rev others) as Lo.
    set (tail := junk ++ map VPc ctl).
    assert (E1 : array_get (rev rest ++ rev others ++ t :: tail)
                   (g_argument_count s - 1) no_lit = t).
    { rewrite app_assoc. apply array_get_mid. rewrite length_app. lia. }
    rewrite E1. clear E1.
    assert (E2 : array_slice (rev rest ++ rev others ++ t :: tail)
                   (g_argument_count s - n) (n - 1) = rev others).
    { apply array_slice_mid; lia. }
    destruct (rev others) as [|x ro] eqn:Ero;
      [cbn [List.length] in *; lia|].
    cbn [app List.length] in *.
    assert (Eo : others = rev ro ++ [x]).
    { rewrite <- (rev_involutive others), Ero. reflexivity. }
    assert (E3 : array_blit (rev rest ++ x :: ro ++ t :: tail)
                   (g_argument_count s - n + 1) (x :: ro)
                 = rev rest ++ x :: x :: ro ++ tail).
    { transitivity ((rev rest ++ [x]) ++ (x :: ro) ++ tail);
        [ | rewrite <- !app_assoc; reflexivity ].
      apply (array_blit_eq _ (rev rest ++ [x]) (ro ++ [t]) tail).
      - rewrite <- !app_assoc. reflexivity.
      - rewrite length_app. cbn [List.length]. lia.
      - rewrite length_app. cbn [List.length]. lia. }
    unfold memcpy_within, l_rolled. rewrite roll_overlap.
    destruct (Z.leb_spec n 2) as [Hn2|Hn2]; cbn [negb].
    + rewrite E2, E3, Ero.
      apply (array_set_mid (rev rest) _ x t). lia.
    + destruct memcpy_overlap.
      * rewrite E2, E3, Ero.
        apply (array_set_mid (rev rest) _ x t). lia.
      * rewrite (copy_ascending_up (Z.to_nat (n - 1)) _ (rev rest)
                   (ro ++ [t]) tail x (g_argument_count s - n)).
        -- rewrite Eo, last_last, length_app, length_rev.
           cbn [List.length]. rewrite Nat.add_1_r, rev_repeat.
           replace (Z.to_nat (n - 1))
             with (Datatypes.S (List.length ro)) by lia.
           apply (array_set_mid (rev rest) _ x t). lia.
        -- rewrite <- app_assoc. reflexivity.
        -- lia.
        -- rewrite length_app. cbn [List.length]. lia.
  - apply take_n_none in Et. zbool. stack_rel_same junk.
Qed.

Lemma stack_rel_ctl_push v :
  sim stack_rel (grunt_stack_ctl_push v) (l_ctl_push v).
Proof.
  stack_rel_intro.
  unfold grunt_stack_ctl_push, l_ctl_push. cbn [l_args l_ctl l_free].
  destruct v as [b|x|x|p]; cbn [is_pc negb val_pc];
    try solve [stack_rel_same junk].
  destruct free as [|f]; zbool; [stack_rel_same junk|].
  destruct (split_length junk f 1) as (j1 & j2 & -> & Hj1 & Hj2); [lia|].
  destruct j2 as [|j [|? ?]]; try discriminate.
  split; [reflexivity|]. exists j1.
  cbn [fst snd g_stack g_argument_count g_control_count l_args l_ctl l_free
    List.length map] in *.
  repeat split; try slia.
  rewrite Hs.
  transitivity ((rev args ++ j1) ++ [VPc p] ++ map VPc ctl);
    [ | rewrite <- !app_assoc; reflexivity ].
  apply (array_blit_eq _ (rev args ++ j1) [j] (map VPc ctl)).
  - rewrite <- !app_assoc. reflexivity.
  - rewrite length_app, length_rev. slia.
  - reflexivity.
Qed.

Lemma stack_rel_ctl_pop : sim stack_rel grunt_stack_ctl_pop l_ctl_pop.
Proof.
  stack_rel_intro.
  unfold grunt_stack_ctl_pop, l_ctl_pop. cbn [l_args l_ctl l_free].
  destruct ctl as [|p r]; cbn [List.length map] in *; zbool;
    [stack_rel_same junk|].
  cbn [fst snd]. split.
  - f_equal. f_equal. rewrite Hs, app_assoc.
    apply array_get_mid. rewrite length_app, length_rev. slia.
  - exists (junk ++ [VPc p]). cbn [g_stack g_argument_count g_control_count
      l_args l_ctl l_free List.length rev] in *.
    rewrite Hs, length_app. cbn [List.length]. repeat split; try slia.
    rewrite <- !app_assoc. reflexivity.
Qed.

Lemma stack_sim {pf : Platform} : StackSim c_stack l_stack stack_rel.
Proof.
  constructor; cbn.
  - apply stack_rel_push.
  - apply stack_rel_pop.
  - apply stack_rel_dup.
  - apply stack_rel_roll.
  - apply stack_rel_ctl_push.
  - apply stack_rel_ctl_pop.
  - intros [args ctl free]. unfold l_arg_pop. cbn.
    destruct args; cbn; [discriminate | discriminate].
  - intros [args ctl free]. unfold l_ctl_pop. cbn.
    destruct ctl; cbn; [discriminate | discriminate].
Qed.

Lemma stack_rel_init s l :
  List.length (g_stack s) = Z.to_nat GRUNT_STACK_SIZE ->
  stack_rel (grunt_stack_init s) (l_stack_init l).
Proof.
  intros H. exists (g_stack s). cbn. rewrite app_nil_r.
  repeat split; auto.
Qed.


Section ComposeSim.
Context {K1 K2 I1 I2 O1 O2 : Type}.
Context (k1 : StackOps K1) (k2 : StackOps K2).
Context (i1 : InputOps I1) (i2 : InputOps I2).
Context (o1 : OutputOps O1) (o2 : OutputOps O2).
Context (Rk : K1 -> K2 -> Prop) (Ri : I1 -> I2 -> Prop)
  (Ro : O1 -> O2 -> Prop).
Hypothesis HK : StackSim k1 k2 Rk.
Hypothesis HI : InputSim i1 i2 Ri.
Hypothesis HO : OutputSim o1 o2 Ro.

Ltac comp_sim lem H :=
  let F := fresh "F" in
  pose proof (lem _ _ H) as F;
  match type of F with
  | fst ?a = fst ?b /\ _ =>
      destruct a; destruct b; cbn [fst snd] in F |- *;
      destruct F as [-> ?]; repeat split; assumption
  end.

Lemma modules_of_sim :
  ModulesSim (GM1 := modules_of k1 i1 o1) (GM2 := modules_of k2 i2 o2)
    (prod_rel Rk Ri Ro).
Proof.
  constructor; cbn [stack_arg_push stack_arg_pop stack_arg_dup stack_arg_roll
    stack_ctl_push stack_ctl_pop input_rewind input_dequeue
    output_enqueue_boolean output_enqueue_number output_enqueue_string
    output_flush sent_events modules_of]; unfold on_stack, on_input, on_output.
  - intros v [[a1 b1] c1] [[a2 b2] c2] (Hk & Hi & Ho); cbn [fst snd] in *.
    comp_sim (ks_arg_push _ _ _ HK v) Hk.
  - intros [[a1 b1] c1] [[a2 b2] c2] (Hk & Hi & Ho); cbn [fst snd] in *.
    comp_sim (ks_arg_pop _ _ _ HK) Hk.
  - intros n Hn [[a1 b1] c1] [[a2 b2] c2] (Hk & Hi & Ho); cbn [fst snd] in *.
    comp_sim (ks_arg_dup _ _ _ HK n Hn) Hk.
  - intros n [[a1 b1] c1] [[a2 b2] c2] (Hk & Hi & Ho); cbn [fst snd] in *.
    comp_sim (ks_arg_roll _ _ _ HK n) Hk.
  - intros v [[a1 b1] c1] [[a2 b2] c2] (Hk & Hi & Ho); cbn [fst snd] in *.
    comp_sim (ks_ctl_push _ _ _ HK v) Hk.
  - intros [[a1 b1] c1] [[a2 b2] c2] (Hk & Hi & Ho); cbn [fst snd] in *.
    comp_sim (ks_ctl_pop _ _ _ HK) Hk.
  - intros n Hn [[a1 b1] c1] [[a2 b2] c2] (Hk & Hi & Ho); cbn [fst snd] in *.
    comp_sim (is_rewind _ _ _ HI n Hn) Hi.
  - intros n [[a1 b1] c1] [[a2 b2] c2] (Hk & Hi & Ho); cbn [fst snd] in *.
    comp_sim (is_dequeue _ _ _ HI n) Hi.
  - intros b [[a1 b1] c1] [[a2 b2] c2] (Hk & Hi & Ho); cbn [fst snd] in *.
    comp_sim (os_enqueue_boolean _ _ _ HO b) Ho.
  - intros u [[a1 b1] c1] [[a2 b2] c2] (Hk & Hi & Ho); cbn [fst snd] in *.
    comp_sim (os_enqueue_number _ _ _ HO u) Ho.
  - intros x [[a1 b1] c1] [[a2 b2] c2] (Hk & Hi & Ho); cbn [fst snd] in *.
    comp_sim (os_enqueue_string _ _ _ HO x) Ho.
  - intros t e [[a1 b1] c1] [[a2 b2] c2] (Hk & Hi & Ho); cbn [fst snd] in *.
    repeat split; auto. apply (os_flush _ _ _ HO); assumption.
  - intros [[a b] c]. cbn [fst snd].
    pose proof (ks_arg_pop_writes _ _ _ HK a) as W.
    destruct (k_arg_pop K2 k2 a) as [[? ?] ?]. exact W.
  - intros [[a b] c]. cbn [fst snd].
    pose proof (ks_ctl_pop_writes _ _ _ HK a) as W.
    destruct (k_ctl_pop K2 k2 a) as [[? ?] ?]. exact W.
  - intros n [[a b] c]. cbn [fst snd].
    pose proof (is_dequeue_writes _ _ _ HI n b) as W.
    destruct (i_dequeue I2 i2 n b) as [[? ?] ?]. exact W.
  - intros [[a1 b1] c1] [[a2 b2] c2] (Hk & Hi & Ho); cbn [fst snd] in *.
    apply (os_events _ _ _ HO); assumption.
Qed.
End ComposeSim.

(** ** Instructions over related modules *)

Section SimProofs.
Context {S1 S2 : Type} {GM1 : GruntModules S1} {GM2 : GruntModules S2}.
Variable R : S1 -> S2 -> Prop.
Hypothesis MS : ModulesSim R.

Ltac sim_simpl :=
  cbn [fst snd mods g_pc g_ra g_rb set_mods set_pc store deref] in *.

Ltac sim_use HR lem :=
  let F := fresh "F" in
  pose proof (lem _ _ HR) as F;
  match type of F with
  | fst ?a = fst ?b /\ _ =>
      destruct a as [? ?]; destruct b as [? ?];
      cbn [fst snd] in F; destruct F as [F ?]; subst
  end.

Ltac sim_use_out HR lem wr :=
  let F := fresh "F" in
  let W := fresh "W" in
  pose proof (lem _ _ HR) as F;
  match type of HR with
  | R _ ?s2 => pose proof (wr s2) as W
  end;
  match type of F with
  | fst ?a = fst ?b /\ _ =>
      destruct a as [[? ?] ?]; destruct b as [[?st ?w] ?];
      cbn [fst snd] in F, W; destruct F as [F ?];
      injection F as ? ?; subst; sim_simpl;
      match type of W with
      | ?z = 0 -> ?w <> None =>
          destruct (Z.eqb_spec z 0); destruct w;
          try solve [ exfalso; apply W; auto ]; clear W
      end
  end.

Ltac sim_prim :=
  match goal with
  | HR : R ?s1 ?s2 |- context [stack_arg_pop ?s1] =>
      sim_use_out HR (sim_arg_pop R MS) (arg_pop_writes R MS)
  | HR : R ?s1 ?s2 |- context [stack_arg_push ?v ?s1] =>
      sim_use HR (sim_arg_push R MS v)
  | HR : R ?s1 ?s2 |- context [stack_ctl_pop ?s1] =>
      sim_use_out HR (sim_ctl_pop R MS) (ctl_pop_writes R MS)
  | HR : R ?s1 ?s2 |- context [stack_ctl_push ?v ?s1] =>
      sim_use HR (sim_ctl_push R MS v)
  | HR : R ?s1 ?s2 |- context [stack_arg_roll ?n ?s1] =>
      sim_use HR (sim_arg_roll R MS n)
  | HR : R ?s1 ?s2, Hn : 0 <= ?n |- context [stack_arg_dup ?n ?s1] =>
      sim_use HR (sim_arg_dup R MS n Hn)
  | HR : R ?s1 ?s2, Hn : 0 <= ?n |- context [input_rewind ?n ?s1] =>
      sim_use HR (sim_rewind R MS n Hn)
  | HR : R ?s1 ?s2 |- context [input_dequeue ?n ?s1] =>
      sim_use_out HR (sim_dequeue R MS n) (dequeue_writes R MS n)
  | HR : R ?s1 ?s2 |- context [output_enqueue_boolean ?n ?s1] =>
      sim_use HR (sim_enqueue_boolean R MS n)
  | HR : R ?s1 ?s2 |- context [output_enqueue_number ?n ?s1] =>
      sim_use HR (sim_enqueue_number R MS n)
  | HR : R ?s1 ?s2 |- context [output_enqueue_string ?n ?s1] =>
      sim_use HR (sim_enqueue_string R MS n)
  end.


Ltac sim_case :=
  match goal with
  | |- context [if ?c then _ else _] => destruct c eqn:?
  | |- context [match ?v with VBool _ => _ | _ => _ end] => destruct v
  end.

Ltac sim_done :=
  repeat split; sim_simpl; auto; try congruence.

Ltac sim_go :=
  repeat (sim_simpl; first [ sim_prim | sim_case ]); sim_done.

Ltac sim_start :=
  intros [ra1 rb1 pc1 s1] [ra2 rb2 pc2 s2] [Hpc HR];
  cbn [g_pc mods] in Hpc, HR; subst pc2;
  unfold seq, arg_pop, arg_push, ctl_pop, ctl_push, call_out, call, require,
    ok.

Lemma vsim_add_sub f : op_sim R (grunt_vm_add_sub RA RB f) (grunt_vm_add_sub RA RB f).
Proof.
  unfold grunt_vm_add_sub. sim_start. sim_go.
Qed.

Lemma vsim_lt_gt f : op_sim R (grunt_vm_lt_gt RA RB f) (grunt_vm_lt_gt RA RB f).
Proof. unfold grunt_vm_lt_gt. sim_start. sim_go. Qed.

Lemma vsim_not : op_sim R (grunt_vm_not RA) (grunt_vm_not RA).
Proof. unfold grunt_vm_not. sim_start. sim_go. Qed.

Lemma vsim_halt : op_sim R (grunt_vm_halt RA) (grunt_vm_halt RA).
Proof. unfold grunt_vm_halt. sim_start. sim_go. Qed.

Lemma vsim_call l : op_sim R (grunt_vm_call RA l) (grunt_vm_call RA l).
Proof. unfold grunt_vm_call. sim_start. sim_go. Qed.

Lemma vsim_jmpif l : op_sim R (grunt_vm_jmpif RA l) (grunt_vm_jmpif RA l).
Proof. unfold grunt_vm_jmpif. sim_start. sim_go. Qed.

Lemma vsim_return : op_sim R (grunt_vm_return RA) (grunt_vm_return RA).
Proof. unfold grunt_vm_return. sim_start. sim_go. Qed.

Lemma vsim_flush : op_sim R (grunt_vm_flush RA RB) (grunt_vm_flush RA RB).
Proof.
  unfold grunt_vm_flush. sim_start. sim_go.
  all: apply (sim_flush R MS); assumption.
Qed.

Lemma vsim_input n : op_sim R (grunt_vm_input RA n) (grunt_vm_input RA n).
Proof. unfold grunt_vm_input. sim_start. sim_go. Qed.

Lemma vsim_output : op_sim R (grunt_vm_output RA) (grunt_vm_output RA).
Proof. unfold grunt_vm_output. sim_start. sim_go. Qed.

Lemma vsim_pushb l : op_sim R (grunt_vm_pushb l) (grunt_vm_pushb l).
Proof. unfold grunt_vm_pushb. sim_start. sim_go. Qed.

Lemma vsim_pushn l : op_sim R (grunt_vm_pushn l) (grunt_vm_pushn l).
Proof. unfold grunt_vm_pushn. sim_start. sim_go. Qed.

Lemma vsim_pushs l : op_sim R (grunt_vm_pushs l) (grunt_vm_pushs l).
Proof. unfold grunt_vm_pushs. sim_start. sim_go. Qed.

Lemma vsim_roll n : op_sim R (grunt_vm_roll n) (grunt_vm_roll n).
Proof. unfold grunt_vm_roll. sim_start. sim_go. Qed.

Lemma vsim_dup n : 0 <= n -> op_sim R (grunt_vm_dup n) (grunt_vm_dup n).
Proof. intros Hn. unfold grunt_vm_dup. sim_start. sim_go. Qed.

Lemma vsim_rewind n : 0 <= n -> op_sim R (grunt_vm_rewind n) (grunt_vm_rewind n).
Proof. intros Hn. unfold grunt_vm_rewind. sim_start. sim_go. Qed.

Ltac sim_steps := repeat (sim_simpl; first [ sim_prim | sim_case ]).

Lemma vsim_pop_loop n : op_sim R (pop_loop n RA) (pop_loop n RA).
Proof.
  induction n as [|n IH]; cbn [pop_loop].
  - sim_start. sim_go.
  - sim_start. sim_steps.
    all: try (apply IH; split; cbn; auto).
    all: sim_done.
Qed.

Lemma vsim_pop n : op_sim R (grunt_vm_pop RA n) (grunt_vm_pop RA n).
Proof.
  unfold grunt_vm_pop. intros m1 m2 Hm.
  destruct (n <? 1).
  - destruct Hm. sim_done.
  - apply vsim_pop_loop; assumption.
Qed.

Lemma vsim_and_or_loop n f :
  forall m1 m2, vsim R m1 m2 -> g_ra m1 = g_ra m2 ->
    fst (and_or_loop n RA RB f m1) = fst (and_or_loop n RA RB f m2) /\
    vsim R (snd (and_or_loop n RA RB f m1)) (snd (and_or_loop n RA RB f m2)) /\
    g_ra (snd (and_or_loop n RA RB f m1)) = g_ra (snd (and_or_loop n RA RB f m2)).
Proof.
  induction n as [|n IH]; cbn [and_or_loop].
  - intros m1 m2 [Hpc HR] Hra. sim_done.
  - intros m1 m2 H Hra. revert m1 m2 H Hra. sim_start. intros Hra.
    cbn [g_ra] in Hra. subst. sim_steps.
    all: try (apply IH; [split; cbn; auto | reflexivity]).
    all: sim_done.
Qed.

Lemma vsim_and_or n f :
  op_sim R (grunt_vm_and_or RA RB n f) (grunt_vm_and_or RA RB n f).
Proof.
  unfold grunt_vm_and_or. sim_start. sim_steps.
  all: try solve [sim_done].
  all: match goal with
       | |- context [and_or_loop ?k RA RB ?b ?x] =>
           match goal with
           | |- context [and_or_loop k RA RB b ?y] =>
               lazymatch y with
               | x => fail
               | _ => destruct (vsim_and_or_loop k b x y) as (E1 & E2 & E3);
                      [ split; cbn; auto | reflexivity | ]
               end
           end
       end.
  all: destruct (and_or_loop _ RA RB _ _) as [st1 [a1 b1 p1 q1]];
    destruct (and_or_loop _ RA RB _ _) as [st2 [a2 b2 p2 q2]];
    destruct E2 as [E2 E4]; cbn [fst snd g_pc g_ra mods] in *; subst.
  all: sim_go.
Qed.

Lemma vsim_eq_loop n :
  forall flag m1 m2, vsim R m1 m2 -> g_ra m1 = g_ra m2 ->
    fst (eq_loop n RA RB flag m1) = fst (eq_loop n RA RB flag m2) /\
    vsim R (snd (eq_loop n RA RB flag m1)) (snd (eq_loop n RA RB flag m2)) /\
    g_ra (snd (eq_loop n RA RB flag m1)) = g_ra (snd (eq_loop n RA RB flag m2)).
Proof.
  induction n as [|n IH]; cbn [eq_loop].
  - intros flag m1 m2 [Hpc HR] Hra. sim_done.
  - intros flag m1 m2 H Hra. revert m1 m2 H Hra. sim_start. intros Hra.
    cbn [g_ra] in Hra. subst. sim_steps.
    all: try (apply IH; [split; cbn; auto | reflexivity]).
    all: sim_done.
Qed.

Lemma vsim_eq n : op_sim R (grunt_vm_eq RA RB n) (grunt_vm_eq RA RB n).
Proof.
  unfold grunt_vm_eq. sim_start. sim_steps.
  all: try solve [sim_done].
  all: match goal with
       | |- context [eq_loop ?k RA RB ?b ?x] =>
           match goal with
           | |- context [eq_loop k RA RB b ?y] =>
               lazymatch y with
               | x => fail
               | _ => destruct (vsim_eq_loop k b x y) as (E1 & E2 & E3);
                      [ split; cbn; auto | reflexivity | ]
               end
           end
       end.
  all: destruct (eq_loop _ RA RB _ _) as [st1 [a1 b1 p1 q1]];
    destruct (eq_loop _ RA RB _ _) as [st2 [a2 b2 p2 q2]];
    destruct E2 as [E2 E4]; cbn [fst snd g_pc g_ra mods] in *; subst.
  all: sim_go.
Qed.

Lemma vsim_dispatch i :
  op_sim R (grunt_vm_dispatch i) (grunt_vm_dispatch i).
Proof.
  unfold grunt_vm_dispatch.
  pose proof (N2Z.is_nonneg (arg_rep i)) as Hrep.
  repeat match goal with
         | |- context [if ?c then _ else _] => destruct c
         end;
    auto using vsim_add_sub, vsim_and_or, vsim_call, vsim_dup, vsim_eq,
      vsim_flush, vsim_lt_gt, vsim_halt, vsim_input, vsim_jmpif, vsim_not,
      vsim_output, vsim_pop, vsim_pushb, vsim_pushn, vsim_pushs, vsim_return,
      vsim_rewind, vsim_roll.
  intros m1 m2 [Hpc HR]. sim_done.
Qed.

Lemma vsim_step i : op_sim R (grunt_vm_step i) (grunt_vm_step i).
Proof.
  intros m1 m2 [Hpc HR]. unfold grunt_vm_step.
  apply vsim_dispatch. split; cbn; [congruence | assumption].
Qed.

Lemma vsim_run_iteration prog n :
  op_sim R (run_iteration prog n) (run_iteration prog n).
Proof.
  intros m1 m2 [Hpc HR]. unfold run_iteration. rewrite <- Hpc.
  destruct (g_pc m1 <? n); cbn [negb].
  - apply vsim_step. split; assumption.
  - sim_done.
Qed.

Lemma vsim_run_loop k prog n :
  op_sim R (run_loop k prog n) (run_loop k prog n).
Proof.
  induction k as [|k IH]; cbn [run_loop].
  - apply vsim_run_iteration.
  - intros m1 m2 Hm. destruct (IH m1 m2 Hm) as [E HV].
    destruct (run_loop k prog n m1) as [st1 m1'].
    destruct (run_loop k prog n m2) as [st2 m2'].
    cbn [fst snd] in E, HV. subst st2.
    destruct (st1 =? 0).
    + apply IH. assumption.
    + split; [reflexivity | assumption].
Qed.
End SimProofs.

(** ** Every run ends *)

Lemma base_pow_pos n : 0 < PC_BASE ^ Z.of_nat n.
Proof. apply Z.pow_pos_nonneg; unfold PC_BASE; lia. Qed.

Lemma base_pow_succ n :
  PC_BASE ^ Z.of_nat (Datatypes.S n) = PC_BASE * PC_BASE ^ Z.of_nat n.
Proof. rewrite Nat2Z.inj_succ, Z.pow_succ_r by lia. reflexivity. Qed.

Lemma weight_bounds s n :
  Forall digit s -> 0 <= weight s n < PC_BASE ^ Z.of_nat n.
Proof.
  revert s. induction n as [|n IH]; intros s Hs.
  - cbn. lia.
  - cbn [weight]. rewrite base_pow_succ.
    pose proof (base_pow_pos n) as Hp.
    destruct s as [|x t].
    + specialize (IH [] (Forall_nil _)). unfold PC_PAD, PC_BASE in *. nia.
    + inversion Hs as [|? ? Hx Ht]; subst. specialize (IH t Ht).
      unfold digit, PC_PAD, PC_BASE in *. nia.
Qed.

Lemma weight_head_lt x x' t t' n :
  0 <= x -> x < x' -> Forall digit t -> Forall digit t' ->
  weight (x :: t) (Datatypes.S n) < weight (x' :: t') (Datatypes.S n).
Proof.
  intros Hx Hlt Ht Ht'. cbn [weight].
  pose proof (weight_bounds t n Ht). pose proof (weight_bounds t' n Ht').
  pose proof (base_pow_pos n). nia.
Qed.

Lemma weight_pad_lt x n :
  x < PC_PAD -> weight [x] (Datatypes.S n) < weight [] (Datatypes.S n).
Proof.
  intros Hx. cbn [weight]. pose proof (base_pow_pos n).
  destruct n; cbn [weight]; nia.
Qed.

Lemma weight_prefix_lt p s s' n :
  weight s n < weight s' n ->
  weight (p ++ s) (List.length p + n) < weight (p ++ s') (List.length p + n).
Proof.
  intros H. induction p as [|x p IH]; cbn [app List.length Nat.add weight].
  - exact H.
  - lia.
Qed.


Ltac unfold_status :=
  unfold GRUNT_ERROR_INTERPRETERBUG, GRUNT_ERROR_INVALIDARGUMENT,
    GRUNT_ERROR_INVALIDLITERAL, GRUNT_ERROR_INVALIDOPCODE,
    GRUNT_ERROR_NOLOOPS, GRUNT_ERROR_NOPROGRAM, GRUNT_ERROR_OUTOFBOUNDS,
    GRUNT_HALT_TRUE, GRUNT_HALT_FALSE in *.

Ltac err_range := unfold_status; lia.

Ltac gs := cbn [fst snd id]; first [ left; reflexivity | right; err_range ].


Section Keeps.
Context {pf : Platform}.
Variable C : Z.
Let GMlc : GruntModules LC := lc_modules C.
#[local] Existing Instance GMlc.

Lemma kframe_refl k : kframe k k.
Proof. split; auto. Qed.

Lemma frame_refl m : frame m m.
Proof. split; [reflexivity | apply kframe_refl]. Qed.

Lemma frame_trans m1 m2 m3 : frame m1 m2 -> frame m2 m3 -> frame m1 m3.
Proof.
  intros (P1 & C1 & A1) (P2 & C2 & A2). repeat split; try congruence. auto.
Qed.

Lemma frame_store p v m : frame m (store p v m).
Proof. destruct p; (split; [reflexivity | apply kframe_refl]). Qed.

Lemma keeps_seq f k : keeps f -> keeps k -> keeps (f ;; k).
Proof.
  intros Hf Hk m. unfold seq. destruct (Hf m) as [S1 F1].
  destruct (f m) as [st m']. cbn [fst snd] in *.
  destruct (st =? 0).
  - destruct (Hk m') as [S2 F2]. split; [assumption|].
    eapply frame_trans; eassumption.
  - split; assumption.
Qed.

Lemma keeps_require c e : 17 <= e <= 23 -> keeps (require c e).
Proof.
  intros He m. unfold require. destruct (c m); cbn [fst snd].
  - split; [left; reflexivity | apply frame_refl].
  - split; [right; assumption | apply frame_refl].
Qed.

Lemma keeps_ok : keeps ok.
Proof. intros m. split; [left; reflexivity | apply frame_refl]. Qed.

Lemma keeps_fail e : 17 <= e <= 23 -> keeps (fun m => (e, m)).
Proof. intros He m. split; [right; assumption | apply frame_refl]. Qed.

Lemma fail_ok e (m : vm_t LC) :
  17 <= e <= 23 -> good_status (fst (e, m)) /\ frame m (snd (e, m)).
Proof. intros He. split; [right; assumption | apply frame_refl]. Qed.

Lemma keeps_store p (v : vm_t LC -> grunt_value_t) f :
  keeps f -> keeps (fun m => f (store p (v m) m)).
Proof.
  intros Hf m. destruct (Hf (store p (v m) m)) as [S1 F1].
  split; [assumption|]. eapply frame_trans; [apply frame_store | exact F1].
Qed.

Lemma keeps_if (c : vm_t LC -> bool) f g :
  keeps f -> keeps g -> keeps (fun m => if c m then f m else g m).
Proof. intros Hf Hg m. destruct (c m); [apply Hf | apply Hg]. Qed.

(** Primitive operations of the stack module. *)

Lemma kkeeps_push v : kkeeps id (l_arg_push v).
Proof.
  intros [args ctl free]. unfold l_arg_push, kframe, acct. cbn.
  destruct (negb _); cbn; [split; [gs | auto]|].
  destruct free; cbn; (split; [gs | split; [reflexivity | lia]]).
Qed.

Lemma kkeeps_pop : kkeeps fst l_arg_pop.
Proof.
  intros [args ctl free]. unfold l_arg_pop, kframe, acct. cbn.
  destruct args; cbn; (split; [gs | split; [reflexivity | lia]]).
Qed.

Lemma kkeeps_dup n : kkeeps id (l_arg_dup n).
Proof.
  intros [args ctl free]. unfold l_arg_dup, kframe, acct. cbn.
  destruct (n =? 0); cbn; [split; [gs | auto]|].
  destruct (take_n _ args) as [[top rest]|] eqn:Et; cbn;
    [|split; [gs | auto]].
  destruct (take_free _ free) as [f|] eqn:Ef; cbn; [|split; [gs | auto]].
  split; [gs | split; [reflexivity|]].
  apply take_n_some in Et. apply take_free_some in Ef.
  destruct Et as [-> Hl]. rewrite !length_app. lia.
Qed.

Lemma kkeeps_roll n : kkeeps id (l_arg_roll n).
Proof.
  intros [args ctl free]. unfold l_arg_roll, kframe, acct. cbn.
  destruct (n <? 2); cbn; [split; [gs | auto]|].
  destruct (take_n _ args) as [[[|t others] rest]|] eqn:Et; cbn;
    try (split; [gs | auto]).
  split; [reflexivity|].
  apply take_n_some in Et. destruct Et as [-> Hl].
  intros H. rewrite ?length_app in *. cbn [List.length] in *.
  rewrite ?length_app, ?l_rolled_length in *. cbn [List.length] in *. lia.
Qed.

Ltac lc_unfold :=
  unfold arg_pop, arg_push, call, call_out;
  cbn [stack_arg_push stack_arg_pop stack_arg_dup stack_arg_roll
       stack_ctl_push stack_ctl_pop input_rewind input_dequeue
       output_enqueue_boolean output_enqueue_number output_enqueue_string
       output_flush GMlc lc_modules modules_of l_stack c_input c_output
       k_arg_push k_arg_pop k_arg_dup k_arg_roll k_ctl_push k_ctl_pop
       i_rewind i_dequeue o_enqueue_boolean o_enqueue_number
       o_enqueue_string o_flush];
  unfold on_stack, on_input, on_output.

Lemma keeps_stack (f : lstack_t -> Z * lstack_t) :
  kkeeps id f -> keeps (call (on_stack f)).
Proof.
  intros Hf [ra rb pc [[k i] o]]. unfold call, on_stack. cbn [mods].
  destruct (Hf k) as [S1 F1]. destruct (f k) as [st k'].
  cbn [fst snd id] in *. split; [assumption|]. split; [reflexivity|].
  exact F1.
Qed.

Lemma keeps_arg_pop p : keeps (arg_pop p).
Proof.
  intros [ra rb pc [[k i] o]]. lc_unfold. cbn [mods].
  destruct (kkeeps_pop k) as [S1 F1]. destruct (l_arg_pop k) as [[st w] k'].
  cbn [fst snd] in *. split; [assumption|].
  destruct w; destruct p; (split; [reflexivity | exact F1]).
Qed.

Lemma keeps_arg_push p : keeps (arg_push p).
Proof.
  intros m. unfold arg_push.
  apply (keeps_stack (l_arg_push (deref p m)) (kkeeps_push _)).
Qed.

Lemma keeps_push_lit v : keeps (call (stack_arg_push v)).
Proof. apply (keeps_stack (l_arg_push v) (kkeeps_push _)). Qed.

Lemma keeps_dup n : keeps (call (stack_arg_dup n)).
Proof. apply (keeps_stack (l_arg_dup n) (kkeeps_dup _)). Qed.

Lemma keeps_roll n : keeps (call (stack_arg_roll n)).
Proof. apply (keeps_stack (l_arg_roll n) (kkeeps_roll _)). Qed.

Lemma keeps_input (f : input_t -> Z * input_t) :
  (forall i, good_status (fst (f i))) -> keeps (call (on_input f)).
Proof.
  intros Hf [ra rb pc [[k i] o]]. unfold call, on_input. cbn [mods].
  specialize (Hf i). destruct (f i) as [st i'].
  cbn [fst snd] in *. split; [assumption|]. (split; [reflexivity | apply kframe_refl]).
Qed.

Lemma keeps_output (f : output_t -> Z * output_t) :
  (forall o, good_status (fst (f o))) -> keeps (call (on_output f)).
Proof.
  intros Hf [ra rb pc [[k i] o]]. unfold call, on_output. cbn [mods].
  specialize (Hf o). destruct (f o) as [st o'].
  cbn [fst snd] in *. split; [assumption|]. (split; [reflexivity | apply kframe_refl]).
Qed.

Lemma good_rewind n i : good_status (fst (grunt_input_rewind n i)).
Proof.
  unfold grunt_input_rewind.
  destruct (n >? _); [gs|]. destruct (n =? 0); gs.
Qed.

Lemma good_dequeue n i : good_status (fst (fst (grunt_input_dequeue n i))).
Proof.
  unfold grunt_input_dequeue. destruct (g_input_queue i); [|gs].
  destruct (negb _); [gs|]. destruct (_ >? _); gs.
Qed.

Lemma good_enqueue s l o : good_status (fst (grunt_output_enqueue C s l o)).
Proof. unfold grunt_output_enqueue. destruct (_ >? _); gs. Qed.

Lemma keeps_rewind n : keeps (call (input_rewind n)).
Proof. apply (keeps_input (grunt_input_rewind n)), good_rewind. Qed.

Lemma keeps_dequeue n p : keeps (call_out (input_dequeue n) p).
Proof.
  intros [ra rb pc [[k i] o]]. lc_unfold. cbn [mods].
  pose proof (good_dequeue n i) as G.
  destruct (grunt_input_dequeue n i) as [[st w] i'].
  cbn [fst snd] in *. split; [assumption|].
  destruct w; destruct p; (split; [reflexivity | apply kframe_refl]).
Qed.

Lemma keeps_enqueue_boolean b : keeps (call (output_enqueue_boolean b)).
Proof.
  apply (keeps_output (grunt_output_enqueue_boolean C b)). intros o.
  unfold grunt_output_enqueue_boolean. destruct b; apply good_enqueue.
Qed.

Lemma keeps_enqueue_number u : keeps (call (output_enqueue_number u)).
Proof.
  apply (keeps_output (grunt_output_enqueue_number C u)). intros o.
  unfold grunt_output_enqueue_number.
  destruct (_ >? _); [gs | apply good_enqueue].
Qed.

Lemma keeps_enqueue_string x : keeps (call (output_enqueue_string x)).
Proof.
  apply (keeps_output (grunt_output_enqueue_string C x)). intros o.
  unfold grunt_output_enqueue_string.
  destruct (negb _); [gs|]. destruct (_ <? _); [gs | apply good_enqueue].
Qed.



Ltac keeps_tac :=
  repeat first
    [ apply keeps_seq
    | apply keeps_require; err_range
    | apply keeps_arg_pop
    | apply keeps_arg_push
    | apply keeps_ok
    | apply keeps_fail; err_range
    | apply keeps_push_lit
    | apply keeps_dup
    | apply keeps_roll
    | apply keeps_rewind
    | apply keeps_dequeue
    | apply keeps_enqueue_boolean
    | apply keeps_enqueue_number
    | apply keeps_enqueue_string ].

Ltac keeps_guard :=
  let m := fresh "m" in
  intros m;
  repeat match goal with
         | |- context [if ?c then _ else _] =>
             lazymatch c with
             | context [m] => fail
             | _ => destruct c
             end
         end;
  revert m.

Lemma keeps_vm_dup n : keeps (grunt_vm_dup n).
Proof.
  unfold grunt_vm_dup. intros m. destruct (n <? 1);
    [(apply fail_ok; err_range) | apply keeps_dup].
Qed.

Lemma keeps_pop_loop n p : keeps (pop_loop n p).
Proof. induction n; cbn [pop_loop]; keeps_tac. assumption. Qed.

Lemma keeps_vm_pop p n : keeps (grunt_vm_pop p n).
Proof.
  unfold grunt_vm_pop. intros m. destruct (n <? 1);
    [(apply fail_ok; err_range) | apply keeps_pop_loop].
Qed.

Lemma keeps_vm_pushb v : keeps (grunt_vm_pushb v).
Proof.
  unfold grunt_vm_pushb. intros m. destruct (negb _);
    [(apply fail_ok; err_range) | apply keeps_push_lit].
Qed.

Lemma keeps_vm_pushn v : keeps (grunt_vm_pushn v).
Proof.
  unfold grunt_vm_pushn. intros m. destruct (negb _);
    [(apply fail_ok; err_range) | apply keeps_push_lit].
Qed.

Lemma keeps_vm_pushs v : keeps (grunt_vm_pushs v).
Proof.
  unfold grunt_vm_pushs. intros m. destruct (negb _);
    [(apply fail_ok; err_range) | apply keeps_push_lit].
Qed.

Lemma keeps_vm_roll n : keeps (grunt_vm_roll n).
Proof.
  unfold grunt_vm_roll. intros m. destruct (n <? 2);
    [(apply fail_ok; err_range) | apply keeps_roll].
Qed.

Lemma keeps_and_or_loop n pa pb f : keeps (and_or_loop n pa pb f).
Proof.
  induction n; cbn [and_or_loop]; keeps_tac.
  apply (keeps_store pa
           (fun m => VBool (if f
                            then val_b (deref pa m) && val_b (deref pb m)
                            else val_b (deref pa m) || val_b (deref pb m)))).
  assumption.
Qed.

Lemma keeps_vm_and_or pa pb n f : keeps (grunt_vm_and_or pa pb n f).
Proof.
  unfold grunt_vm_and_or. intros m. destruct (n <? 2);
    [(apply fail_ok; err_range)|].
  revert m. keeps_tac. apply keeps_and_or_loop.
Qed.

Lemma keeps_eq_loop n pa pb : forall flag, keeps (eq_loop n pa pb flag).
Proof.
  induction n as [|n IH]; intros flag; cbn [eq_loop].
  - intros m. split; [left; reflexivity | apply frame_store].
  - keeps_tac. intros m. apply IH.
Qed.

Lemma keeps_vm_eq pa pb n : keeps (grunt_vm_eq pa pb n).
Proof.
  unfold grunt_vm_eq. intros m. destruct (n <? 2);
    [(apply fail_ok; err_range)|].
  revert m. keeps_tac. apply keeps_eq_loop.
Qed.

Lemma keeps_vm_lt_gt pa pb f : keeps (grunt_vm_lt_gt pa pb f).
Proof.
  unfold grunt_vm_lt_gt. keeps_tac.
  apply (keeps_store pa
           (fun m => VBool (if f
              then num_lt (val_num (deref pa m)) (val_num (deref pb m))
              else num_gt (val_num (deref pa m)) (val_num (deref pb m))))).
  apply keeps_arg_push.
Qed.

Lemma keeps_vm_not pa : keeps (grunt_vm_not pa).
Proof.
  unfold grunt_vm_not. keeps_tac.
  apply (keeps_store pa (fun m => VBool (negb (val_b (deref pa m))))).
  apply keeps_arg_push.
Qed.

Lemma keeps_vm_add_sub pa pb f : keeps (grunt_vm_add_sub pa pb f).
Proof.
  unfold grunt_vm_add_sub. keeps_tac. intros m. cbv zeta.
  destruct f.
  - destruct (num_gt _ _); [(apply fail_ok; err_range)|].
    apply (keeps_store pa (fun _ => _)), keeps_arg_push.
  - destruct (num_lt _ _); [(apply fail_ok; err_range)|].
    apply (keeps_store pa (fun _ => _)), keeps_arg_push.
Qed.

Lemma keeps_vm_flush pa pb : keeps (grunt_vm_flush pa pb).
Proof.
  unfold grunt_vm_flush. keeps_tac. intros [ra rb pc [[k i] o]].
  split; [left; reflexivity|]. split; [reflexivity | apply kframe_refl].
Qed.

Lemma keeps_vm_input pa n : keeps (grunt_vm_input pa n).
Proof.
  unfold grunt_vm_input. intros m. destruct (_ && _);
    [(apply fail_ok; err_range)|].
  revert m. keeps_tac.
Qed.

Lemma keeps_vm_output pa : keeps (grunt_vm_output pa).
Proof.
  unfold grunt_vm_output. keeps_tac. intros m.
  destruct (deref pa m).
  - apply keeps_enqueue_boolean.
  - apply keeps_enqueue_number.
  - apply keeps_enqueue_string.
  - (apply fail_ok; err_range).
Qed.

Lemma keeps_vm_rewind n : keeps (grunt_vm_rewind n).
Proof. unfold grunt_vm_rewind. apply keeps_rewind. Qed.

(** Control transfers. *)

Lemma wrap16_succ pc : 0 <= pc < 65535 -> wrap16 (pc + 1) = pc + 1.
Proof. intros H. unfold wrap16. apply Z.mod_small. lia. Qed.

Lemma keeps_steps_well f : keeps f -> steps_well f.
Proof.
  intros Hf m Hpc Ha. cbv zeta.
  destruct (Hf (set_pc (wrap16 (g_pc m + 1)) m)) as [[S0|S1] (P & K & A)].
  - left. split; [assumption|]. split; [apply A; exact Ha|].
    apply progress_forward; [exact K|].
    rewrite P. cbn [g_pc set_pc]. rewrite wrap16_succ by assumption. lia.
  - right. right. right. assumption.
Qed.

Lemma steps_well_halt : steps_well (grunt_vm_halt RA).
Proof.
  intros m Hpc Ha. cbv zeta. right. unfold grunt_vm_halt, seq, require.
  destruct (keeps_arg_pop RA (set_pc (wrap16 (g_pc m + 1)) m)) as [G _].
  destruct (arg_pop RA _) as [st m1]. cbn [fst snd] in *.
  destruct (Z.eqb_spec st 0) as [->|Hne].
  - destruct (is_bool _); unfold final_status; unfold_status;
      cbn [Z.eqb fst].
    + destruct (val_b _); [left | right; left]; reflexivity.
    + right. right. lia.
  - destruct G as [G|G]; [contradiction|]. right. right. exact G.
Qed.

Lemma steps_well_call lit : steps_well (grunt_vm_call RA lit).
Proof.
  intros [ra rb pc [[[args ctl free] i] o]] Hpc Ha. cbv zeta.
  cbn [g_pc set_pc] in *. rewrite wrap16_succ by assumption.
  unfold grunt_vm_call. cbn [g_pc g_ra g_rb mods set_pc].
  destruct (negb _); [right; right; right; cbn [fst]; err_range|].
  destruct (Z.ltb_spec (val_pc lit) (pc + 1));
    [right; right; right; cbn [fst]; err_range|].
  unfold seq, ctl_push. lc_unfold. unfold l_ctl_push, final_status.
  unfold_status. destruct free as [|f]; cbn.
  - right. right. right. lia.
  - left. split; [reflexivity|]. unfold stk, acct in *. cbn in *.
    split; [lia|]. apply progress_call; cbn; [reflexivity | lia].
Qed.

Lemma steps_well_return : steps_well (grunt_vm_return RA).
Proof.
  intros [ra rb pc [[[args ctl free] i] o]] Hpc Ha. cbv zeta.
  unfold grunt_vm_return, seq, ctl_pop. lc_unfold.
  unfold l_ctl_pop, final_status. unfold_status.
  destruct ctl as [|p r]; cbn.
  - right. right. right. lia.
  - left. split; [reflexivity|]. unfold stk, acct in *. cbn in *.
    split; [lia|]. apply progress_return. reflexivity.
Qed.

Lemma steps_well_jmpif lit : steps_well (grunt_vm_jmpif RA lit).
Proof.
  intros m Hpc Ha. cbv zeta. unfold grunt_vm_jmpif.
  destruct (negb _); [right; right; right; cbn [fst]; err_range|].
  destruct (Z.ltb_spec (val_pc lit) 2);
    [right; right; right; cbn [fst]; err_range|].
  unfold seq, require.
  destruct (keeps_arg_pop RA (set_pc (wrap16 (g_pc m + 1)) m))
    as [G (P & K & A)].
  destruct (arg_pop RA _) as [st m1]. cbn [fst snd] in *.
  cbn [g_pc set_pc] in P. rewrite wrap16_succ in P by assumption.
  destruct (Z.eqb_spec st 0) as [->|Hne];
    [|destruct G as [G|G]; [contradiction | right; right; right; exact G]].
  destruct (is_bool _); unfold final_status; unfold_status;
    cbn [Z.eqb fst snd]; [|right; right; right; lia].
  destruct (negb _); cbn [fst snd].
  - left. split; [reflexivity|]. split; [apply A, Ha|].
    apply progress_forward; [exact K | lia].
  - rewrite P. unfold UINT16_MAX.
    destruct (Z.gtb_spec (val_pc lit) (65535 - (g_pc m + 1)));
      cbn [fst snd]; [right; right; right; lia|].
    left. split; [reflexivity|]. split; [apply A, Ha|].
    apply progress_forward; [exact K|]. cbn [g_pc set_pc].
    unfold wrap16. rewrite Z.mod_small by lia. lia.
Qed.

Lemma steps_well_dispatch i : steps_well (grunt_vm_dispatch i).
Proof.
  unfold grunt_vm_dispatch. cbv zeta.
  repeat match goal with
         | |- context [if ?c then _ else _] => destruct c
         end;
    auto using steps_well_halt, steps_well_call, steps_well_jmpif,
      steps_well_return, keeps_steps_well, keeps_vm_add_sub, keeps_vm_and_or,
      keeps_vm_dup, keeps_vm_eq, keeps_vm_flush, keeps_vm_lt_gt,
      keeps_vm_input, keeps_vm_not, keeps_vm_output, keeps_vm_pop,
      keeps_vm_pushb, keeps_vm_pushn, keeps_vm_pushs, keeps_vm_rewind,
      keeps_vm_roll.
  intros m Hpc Ha. right. right. right. cbn [fst]. err_range.
Qed.


Lemma pc_ok_digit p : pc_ok p -> digit p.
Proof. unfold pc_ok, digit, PC_PAD. lia. Qed.

Lemma measure_bound m :
  0 <= g_pc m -> Forall pc_ok (l_ctl (stk m)) ->
  0 <= measure m < PC_BASE ^ 33.
Proof.
  intros Hpc Hc. unfold measure.
  apply (weight_bounds _ 33). apply Forall_app. split.
  - apply Forall_rev. eapply Forall_impl; [|exact Hc].
    intros p. apply pc_ok_digit.
  - constructor; [|constructor]. unfold digit, PC_PAD. lia.
Qed.

Lemma progress_measure m m' :
  0 <= g_pc m < 65535 -> acct (stk m) -> Forall pc_ok (l_ctl (stk m)) ->
  progress m m' ->
  measure m < measure m' /\ Forall pc_ok (l_ctl (stk m')) /\ 0 <= g_pc m'.
Proof.
  intros Hpc Ha Hc Hp. unfold measure, acct in *.
  assert (Hlen : exists k, (33 = List.length (rev (l_ctl (stk m)))
                            + Datatypes.S k)%nat).
  { exists (32 - List.length (l_ctl (stk m)))%nat. rewrite length_rev. lia. }
  destruct Hlen as [k Hk].
  destruct Hp as [Hctl Hlt | Hctl Hle | Hctl].
  - rewrite Hctl. split; [|split; [assumption | lia]].
    rewrite Hk. apply weight_prefix_lt.
    rewrite !Z.min_l by (unfold PC_PAD; lia).
    apply weight_head_lt; try constructor; lia.
  - rewrite Hctl. split; [|split; [|lia]].
    + cbn [rev]. rewrite <- app_assoc. cbn [app].
      rewrite Hk. apply weight_prefix_lt.
      rewrite Z.min_l by (unfold PC_PAD; lia).
      apply weight_head_lt; try constructor; try lia.
      * unfold digit, PC_PAD. lia.
      * constructor.
    + constructor; [unfold pc_ok; lia | assumption].
  - rewrite Hctl in *. inversion Hc as [|? ? Hp' Hc']; subst.
    split; [|split; [assumption | unfold pc_ok in Hp'; lia]].
    cbn [rev] in *. rewrite <- app_assoc. cbn [app].
    rewrite length_app in Hk. cbn [List.length] in Hk.
    rewrite !Z.min_l by (unfold PC_PAD, pc_ok in *; lia).
    replace (rev (l_ctl (stk m')) ++ [g_pc m'; g_pc m])
      with ((rev (l_ctl (stk m')) ++ [g_pc m']) ++ [g_pc m])
      by (rewrite <- app_assoc; reflexivity).
    rewrite <- (app_nil_r (rev (l_ctl (stk m')) ++ [g_pc m'])) at 2.
    replace 33%nat
      with (List.length (rev (l_ctl (stk m')) ++ [g_pc m'])
            + Datatypes.S k)%nat
      by (rewrite length_app; cbn [List.length]; lia).
    apply weight_prefix_lt. apply weight_pad_lt. unfold PC_PAD. lia.
Qed.
End Keeps.


Section Iter.
Context {S : Type} {GM : GruntModules S}.
Variable program : list grunt_instruction_t.
Variable num_instructions : Z.

Lemma iter_loop_add a b m :
  iter_loop program num_instructions (a + b) m =
  let (status, m') := iter_loop program num_instructions a m in
  if status =? 0 then iter_loop program num_instructions b m' else (status, m').
Proof.
  revert m. induction a as [|a IH]; intros m; cbn [iter_loop Nat.add].
  - reflexivity.
  - destruct (run_iteration program num_instructions m) as [st m'].
    destruct (st =? 0) eqn:E; [apply IH|]. rewrite E. reflexivity.
Qed.

Lemma run_loop_iter k m :
  run_loop k program num_instructions m = iter_loop program num_instructions (2 ^ k) m.
Proof.
  revert m. induction k as [|k IH]; intros m.
  - cbn [run_loop Nat.pow iter_loop].
    destruct (run_iteration program num_instructions m) as [st m'].
    destruct (Z.eqb_spec st 0) as [->|]; reflexivity.
  - cbn [run_loop]. rewrite Nat.pow_succ_r'.
    replace (2 * 2 ^ k)%nat with (2 ^ k + 2 ^ k)%nat by lia.
    rewrite iter_loop_add, IH.
    destruct (iter_loop program num_instructions (2 ^ k) m) as [st m'].
    destruct (st =? 0); [apply IH | reflexivity].
Qed.
End Iter.

Section Termination.
Context {pf : Platform}.
Variable C : Z.
Let GMlc : GruntModules LC := lc_modules C.
#[local] Existing Instance GMlc.
Variable program : list grunt_instruction_t.
Variable num_instructions : Z.
Hypothesis Hnum : num_instructions <= 65535.

Lemma final_status_nonzero st : final_status st -> (st =? 0) = false.
Proof.
  unfold final_status. unfold_status. intros H. apply Z.eqb_neq. lia.
Qed.

Lemma iter_loop_terminates n :
  forall m, 0 <= g_pc m -> acct (stk m) -> Forall pc_ok (l_ctl (stk m)) ->
    PC_BASE ^ 33 <= measure m + Z.of_nat n ->
    final_status (fst (iter_loop program num_instructions n m)).
Proof.
  induction n as [|n IH]; intros m Hpc Ha Hc Hn.
  - pose proof (measure_bound m Hpc Hc). lia.
  - cbn [iter_loop]. unfold run_iteration.
    destruct (Z.ltb_spec (g_pc m) num_instructions) as [Hlt|Hge];
      cbn [negb].
    + unfold grunt_vm_step.
      destruct (steps_well_dispatch C
                  (nth (Z.to_nat (g_pc m)) program no_instruction) m)
        as [(E & Ha' & Hp) | F]; [lia | assumption | |].
      * destruct (grunt_vm_dispatch _ _) as [st m']. cbn [fst snd] in *.
        subst st. cbn [Z.eqb].
        destruct (progress_measure m m') as (Hm & Hc' & Hpc');
          try assumption; [lia|].
        apply IH; try assumption. lia.
      * destruct (grunt_vm_dispatch _ _) as [st m']. cbn [fst snd] in *.
        rewrite (final_status_nonzero _ F). exact F.
    + unfold final_status. unfold_status. cbn. lia.
Qed.

Lemma rounds_enough : PC_BASE ^ 33 <= Z.of_nat (2 ^ RUN_ROUNDS).
Proof.
  rewrite Nat2Z.inj_pow. unfold RUN_ROUNDS, PC_BASE.
  change (Z.of_nat 2) with 2. change (Z.of_nat 561) with 561.
  apply Z.leb_le. vm_compute. reflexivity.
Qed.

Lemma lc_run_terminates p_data data_size string_table num_strings m :
  final_status
    (fst (GRUNT_Run program num_instructions p_data data_size string_table
            num_strings m)).
Proof.
  unfold GRUNT_Run, run_entry. rewrite run_loop_iter.
  destruct m as [ra rb pc [[k i] o]].
  apply iter_loop_terminates.
  - cbn. lia.
  - cbn. reflexivity.
  - cbn. constructor.
  - pose proof rounds_enough.
    match goal with
    | |- _ <= measure ?x + _ =>
        assert (0 <= measure x) by (apply measure_bound; cbn; [lia | constructor])
    end.
    lia.
Qed.
End Termination.

(** ** Whole runs over related modules *)

Section RunSim.
Context {S1 S2 : Type} {GM1 : GruntModules S1} {GM2 : GruntModules S2}.
Variable R : S1 -> S2 -> Prop.
Hypothesis MS : ModulesSim R.

Lemma GRUNT_Run_sim program n p_data size strings ns
    (m1 : vm_t S1) (m2 : vm_t S2) :
  R (output_init strings ns (input_init p_data size (stack_init (mods m1))))
    (output_init strings ns (input_init p_data size (stack_init (mods m2)))) ->
  fst (GRUNT_Run program n p_data size strings ns m1)
  = fst (GRUNT_Run program n p_data size strings ns m2) /\
  vsim R (snd (GRUNT_Run program n p_data size strings ns m1))
         (snd (GRUNT_Run program n p_data size strings ns m2)).
Proof.
  intros HR. unfold GRUNT_Run, run_entry. apply (vsim_run_loop R MS).
  split; [reflexivity | exact HR].
Qed.
End RunSim.

Lemma input_sim_id {pf : Platform} : InputSim c_input c_input eq.
Proof.
  constructor; cbn.
  - intros n _ s1 s2 ->. split; reflexivity.
  - intros n s1 s2 ->. split; reflexivity.
  - intros n s. unfold grunt_input_dequeue.
    destruct (g_input_queue s); cbn; [|discriminate].
    destruct (negb _); cbn; [discriminate|].
    destruct (_ >? _); cbn; discriminate.
Qed.

Lemma output_sim_id C : OutputSim (c_output C) (c_output C) eq.
Proof.
  constructor; cbn; try (intros ? s1 s2 ->; split; reflexivity).
  - intros t e s1 s2 ->. reflexivity.
  - intros s1 s2 ->. reflexivity.
Qed.

Lemma c_lc_sim {pf : Platform} C :
  ModulesSim (GM1 := c_modules C) (GM2 := lc_modules C)
    (prod_rel stack_rel eq eq).
Proof.
  apply modules_of_sim;
    [apply stack_sim | apply input_sim_id | apply output_sim_id].
Qed.

Lemma c_lc_init {pf : Platform} C p_data size strings ns (s : statics_t)
    (l : LC) :
  statics_wf s ->
  snd (fst l) = snd (fst s) -> snd l = snd s ->
  prod_rel stack_rel eq eq
    (output_init (GruntModules := c_modules C) strings ns
       (input_init (GruntModules := c_modules C) p_data size
          (stack_init (GruntModules := c_modules C) s)))
    (output_init (GruntModules := lc_modules C) strings ns
       (input_init (GruntModules := lc_modules C) p_data size
          (stack_init (GruntModules := lc_modules C) l))).
Proof.
  destruct s as [[k i] o], l as [[k' i'] o']. intros [Hk _] Hi Ho.
  cbn in Hi, Ho, Hk |- *. subst. repeat split.
  apply stack_rel_init. exact Hk.
Qed.

(** ** Reading the two stacks off the C array *)

Lemma three_parts {A : Type} (l : list A) (a b c : nat) :
  (a + b + c = List.length l)%nat ->
  l = firstn a l ++ firstn b (skipn a l) ++ firstn c (skipn (a + b) l).
Proof.
  intros H.
  rewrite <- (firstn_skipn a l) at 1. f_equal.
  rewrite <- (firstn_skipn b (skipn a l)) at 1. f_equal.
  rewrite skipn_skipn, (Nat.add_comm b a).
  symmetry. apply firstn_all2. rewrite length_skipn. lia.
Qed.

Lemma map_VPc_val_pc (l : list grunt_value_t) :
  Forall (fun v => is_pc v = true) l -> map VPc (map val_pc l) = l.
Proof.
  induction 1 as [|v l Hv _ IH]; cbn [map]; [reflexivity|].
  rewrite IH. destruct v; try discriminate. reflexivity.
Qed.

Lemma stack_rel_view (s : stack_t) : stack_wf s -> stack_rel s (list_view s).
Proof.
  intros (Hl & Ha & Hc & Hsum & Hpc). unfold GRUNT_STACK_SIZE in *.
  exists (array_slice (g_stack s) (g_argument_count s)
            (2 * 16 - g_argument_count s - g_control_count s)).
  unfold list_view, GRUNT_STACK_SIZE. cbn [l_args l_ctl l_free].
  assert (La : List.length (arg_stack s) = Z.to_nat (g_argument_count s)).
  { unfold arg_stack, array_slice. rewrite length_rev, length_firstn.
    cbn [skipn Z.to_nat]. lia. }
  assert (Lc : List.length (ctl_stack s) = Z.to_nat (g_control_count s)).
  { unfold ctl_stack, array_slice, GRUNT_STACK_SIZE.
    rewrite length_firstn, length_skipn. lia. }
  repeat split.
  - rewrite (map_VPc_val_pc _ Hpc). unfold arg_stack.
    rewrite rev_involutive. unfold ctl_stack, array_slice, GRUNT_STACK_SIZE.
    cbn [Z.to_nat skipn].
    replace (Z.to_nat (2 * 16 - g_control_count s))
      with (Z.to_nat (g_argument_count s)
            + Z.to_nat (2 * 16 - g_argument_count s - g_control_count s))%nat
      by lia.
    apply three_parts. lia.
  - unfold array_slice. rewrite length_firstn, length_skipn. lia.
  - rewrite La. lia.
  - rewrite length_map, Lc. lia.
  - rewrite length_map, La, Lc. lia.
Qed.

Lemma stack_rel_read (s : stack_t) (k : lstack_t) :
  stack_rel s k ->
  arg_stack s = l_args k /\ ctl_stack s = map VPc (l_ctl k) /\ stack_wf s.
Proof.
  intros (junk & Hs & Hj & Ha & Hc & Ht). unfold GRUNT_STACK_SIZE in *.
  assert (EA : arg_stack s = l_args k).
  { unfold arg_stack. rewrite Hs.
    rewrite (array_slice_mid [] (rev (l_args k)) (junk ++ map VPc (l_ctl k)));
      [apply rev_involutive | reflexivity | rewrite length_rev; lia]. }
  assert (EC : ctl_stack s = map VPc (l_ctl k)).
  { unfold ctl_stack, GRUNT_STACK_SIZE. rewrite Hs, app_assoc.
    rewrite <- (app_nil_r (map VPc (l_ctl k))) at 1.
    apply array_slice_mid.
    - rewrite length_app, length_rev. lia.
    - rewrite length_map. lia. }
  split; [exact EA | split; [exact EC|]].
  unfold stack_wf, GRUNT_STACK_SIZE. rewrite EC.
  repeat split; try lia.
  - rewrite Hs, !length_app, length_rev, length_map. lia.
  - clear. induction (l_ctl k); constructor; auto.
Qed.

(** ** One instruction on the C stack and on the lists *)

Section Transfer.
Variable C : Z.

Lemma vsim_lc_view (m : grunt_t) :
  stack_wf (the_stack m) -> vsim (prod_rel stack_rel eq eq) m (lc_view m).
Proof.
  intros Hwf. split; [reflexivity|].
  destruct m as [ra rb pc [[k i] o]]. repeat split.
  apply (stack_rel_view k). exact Hwf.
Qed.

Lemma vsim_same_view (m : grunt_t) (ml : vm_t LC) :
  vsim (prod_rel stack_rel eq eq) m ml -> same_view m ml.
Proof.
  destruct m as [ra rb pc [[k i] o]], ml as [ra' rb' pc' [[k' i'] o']].
  intros [Hpc (Hk & Hi & Ho)]. cbn in Hpc, Hk, Hi, Ho.
  destruct (stack_rel_read _ _ Hk) as (Ea & Ec & Hwf).
  constructor; assumption.
Qed.

Lemma lc_view_at (m : grunt_t) :
  stack_wf (the_stack m) ->
  exists ctl free,
    lc_view m = lc_at m ctl free /\
    ctl_stack (the_stack m) = map VPc ctl /\
    (List.length (arg_stack (the_stack m)) + free + List.length ctl = 32)%nat.
Proof.
  intros Hwf. exists (l_ctl (list_view (the_stack m))).
  exists (l_free (list_view (the_stack m))).
  split; [reflexivity|].
  destruct (stack_rel_view _ Hwf) as (junk & _ & _ & _ & _ & Ht).
  destruct (stack_rel_read _ _ (stack_rel_view _ Hwf)) as (_ & Ec & _).
  split; [exact Ec|]. unfold GRUNT_STACK_SIZE in Ht.
  cbn [list_view l_args l_ctl l_free] in *. lia.
Qed.

Lemma step_view {pf : Platform} (i : grunt_instruction_t) (m : grunt_t) :
  stack_wf (the_stack m) ->
  exists ctl free,
    ctl_stack (the_stack m) = map VPc ctl /\
    (List.length (arg_stack (the_stack m)) + free + List.length ctl = 32)%nat /\
    fst (grunt_vm_step (GM := c_modules C) i m)
    = fst (grunt_vm_step (GM := lc_modules C) i (lc_at m ctl free)) /\
    same_view (snd (grunt_vm_step (GM := c_modules C) i m))
      (snd (grunt_vm_step (GM := lc_modules C) i (lc_at m ctl free))).
Proof.
  intros Hwf. destruct (lc_view_at m Hwf) as (ctl & free & E & Hc & Hn).
  exists ctl, free. rewrite <- E.
  destruct (vsim_step _ (c_lc_sim C) i m (lc_view m) (vsim_lc_view m Hwf))
    as [Es V].
  split; [exact Hc|]. split; [exact Hn|].
  split; [exact Es | apply vsim_same_view, V].
Qed.

Lemma iteration_view {pf : Platform} program n (m : grunt_t) :
  stack_wf (the_stack m) ->
  exists ctl free,
    ctl_stack (the_stack m) = map VPc ctl /\
    (List.length (arg_stack (the_stack m)) + free + List.length ctl = 32)%nat /\
    fst (run_iteration (GM := c_modules C) program n m)
    = fst (run_iteration (GM := lc_modules C) program n (lc_at m ctl free)) /\
    same_view (snd (run_iteration (GM := c_modules C) program n m))
      (snd (run_iteration (GM := lc_modules C) program n (lc_at m ctl free))).
Proof.
  intros Hwf. destruct (lc_view_at m Hwf) as (ctl & free & E & Hc & Hn).
  exists ctl, free. rewrite <- E.
  destruct (vsim_run_iteration _ (c_lc_sim C) program n m (lc_view m)
              (vsim_lc_view m Hwf)) as [Es V].
  split; [exact Hc|]. split; [exact Hn|].
  split; [exact Es | apply vsim_same_view, V].
Qed.
End Transfer.

(** ** What an instruction does to the control stack *)

Section ControlStack.
Context {pf : Platform}.
Variable C : Z.
Let GMlc : GruntModules LC := lc_modules C.
#[local] Existing Instance GMlc.

Lemma ctl_kept_keeps f : keeps f -> ctl_kept f.
Proof. intros Hf m. destruct (Hf m) as [_ [_ [E _]]]. exact E. Qed.

Lemma ctl_kept_seq f k : ctl_kept f -> ctl_kept k -> ctl_kept (f ;; k).
Proof.
  intros Hf Hk m. unfold seq. specialize (Hf m).
  destruct (f m) as [st m']. cbn [fst snd] in *.
  destruct (st =? 0); [rewrite Hk|]; exact Hf.
Qed.

Lemma ctl_kept_halt : ctl_kept (grunt_vm_halt RA).
Proof.
  unfold grunt_vm_halt. apply ctl_kept_seq.
  - apply ctl_kept_keeps, keeps_arg_pop.
  - apply ctl_kept_seq.
    + apply ctl_kept_keeps, keeps_require. err_range.
    + intros m. reflexivity.
Qed.

Lemma ctl_kept_jmpif lit : ctl_kept (grunt_vm_jmpif RA lit).
Proof.
  intros m. unfold grunt_vm_jmpif.
  destruct (negb _); [reflexivity|].
  destruct (_ <? 2); [reflexivity|].
  revert m. apply ctl_kept_seq.
  - apply ctl_kept_keeps, keeps_arg_pop.
  - apply ctl_kept_seq.
    + apply ctl_kept_keeps, keeps_require. err_range.
    + intros m. destruct (negb _); [reflexivity|].
      destruct (_ >? _); reflexivity.
Qed.

Lemma ctl_kept_dispatch i :
  op i <> GRUNT_OP_CALL -> op i <> GRUNT_OP_RETURN ->
  ctl_kept (grunt_vm_dispatch i).
Proof.
  intros Hc Hr. unfold grunt_vm_dispatch. cbv zeta.
  repeat match goal with
         | |- context [if ?a =? ?b then _ else _] =>
             destruct (Z.eqb_spec a b)
         end;
    try contradiction;
    try first
      [ apply ctl_kept_halt
      | apply ctl_kept_jmpif
      | apply ctl_kept_keeps;
        first
          [ apply keeps_vm_add_sub | apply keeps_vm_and_or
          | apply keeps_vm_dup | apply keeps_vm_eq | apply keeps_vm_flush
          | apply keeps_vm_lt_gt | apply keeps_vm_input | apply keeps_vm_not
          | apply keeps_vm_output | apply keeps_vm_pop | apply keeps_vm_pushb
          | apply keeps_vm_pushn | apply keeps_vm_pushs
          | apply keeps_vm_rewind | apply keeps_vm_roll ] ].
  intros m. reflexivity.
Qed.

Ltac lc_open :=
  unfold arg_pop, arg_push, ctl_pop, ctl_push, call, call_out;
  cbn [stack_arg_push stack_arg_pop stack_ctl_push stack_ctl_pop
       GMlc lc_modules modules_of l_stack
       k_arg_push k_arg_pop k_ctl_push k_ctl_pop];
  unfold on_stack.

Lemma lc_call_pushes lit (m m1 : vm_t LC) :
  grunt_vm_call RA lit m = (0, m1) ->
  l_ctl (stk m1) = g_pc m :: l_ctl (stk m) /\
  l_args (stk m1) = l_args (stk m) /\
  g_pc m1 = val_pc lit /\
  is_pc lit = true /\ g_pc m <= val_pc lit.
Proof.
  destruct m as [ra rb pc [[[args ctl free] i] o]].
  unfold grunt_vm_call. cbn [g_pc].
  destruct (is_pc lit); cbn [negb]; [|unfold_status; discriminate].
  destruct (Z.ltb_spec (val_pc lit) pc); [unfold_status; discriminate|].
  unfold seq. lc_open. unfold l_ctl_push. unfold_status.
  destruct free as [|f]; cbn; [discriminate|].
  intros [= <-]. repeat split. cbn. lia.
Qed.

Lemma lc_return_pops (m m1 : vm_t LC) :
  grunt_vm_return RA m = (0, m1) ->
  l_ctl (stk m) = g_pc m1 :: l_ctl (stk m1) /\
  l_args (stk m1) = l_args (stk m).
Proof.
  destruct m as [ra rb pc [[[args ctl free] i] o]].
  unfold grunt_vm_return, seq. lc_open. unfold l_ctl_pop.
  unfold_status. destruct ctl as [|p r]; cbn; [discriminate|].
  intros [= <-]. split; reflexivity.
Qed.
End ControlStack.

(** ** Facts about single instructions *)

Lemma num_gt_sub (a b : Z) :
  0 <= a <= GRUNT_NUM_MAX -> 0 <= b <= GRUNT_NUM_MAX ->
  num_gt b (num_sub GRUNT_NUM_MAX a) = (GRUNT_NUM_MAX <? a + b).
Proof.
  unfold num_gt, num_sub, wrap32, GRUNT_NUM_MAX, UINT32_MAX. intros Ha Hb.
  rewrite Z.mod_small by lia. rewrite Z.gtb_ltb.
  destruct (Z.ltb_spec (4294967295 - a) b), (Z.ltb_spec 4294967295 (a + b));
    try reflexivity; lia.
Qed.

Lemma num_add_exact (a b : Z) :
  0 <= a -> 0 <= b -> a + b <= GRUNT_NUM_MAX -> num_add a b = a + b.
Proof.
  unfold num_add, wrap32, GRUNT_NUM_MAX, UINT32_MAX. intros.
  apply Z.mod_small. lia.
Qed.

Lemma num_sub_exact (a b : Z) :
  a <= GRUNT_NUM_MAX -> 0 <= b -> 0 <= a - b -> num_sub a b = a - b.
Proof.
  unfold num_sub, wrap32, GRUNT_NUM_MAX, UINT32_MAX. intros.
  apply Z.mod_small. lia.
Qed.

Lemma take_n_app {A : Type} (a b : list A) :
  take_n (List.length a) (a ++ b) = Some (a, b).
Proof.
  induction a as [|x a IH]; cbn [List.length take_n app]; [reflexivity|].
  rewrite IH. reflexivity.
Qed.

Lemma l_arg_roll_rotates {pf : Platform} (n : Z) top others rest ctl free :
  2 <= n -> Z.of_nat (List.length others) = n - 1 ->
  l_arg_roll n (mkLStack (top :: others ++ rest) ctl free)
  = (0, mkLStack (l_rolled n top others ++ top :: rest) ctl free).
Proof.
  intros Hn Hl. unfold l_arg_roll. cbn [l_args l_ctl l_free].
  destruct (Z.ltb_spec n 2); [lia|].
  replace (Z.to_nat n) with (List.length (top :: others))
    by (cbn [List.length]; lia).
  change (top :: others ++ rest) with ((top :: others) ++ rest).
  rewrite take_n_app. reflexivity.
Qed.

Lemma arg_stack_length (s : stack_t) :
  stack_wf s -> Z.of_nat (List.length (arg_stack s)) = g_argument_count s.
Proof.
  intros (Hl & Ha & Hc & Hsum & _). unfold GRUNT_STACK_SIZE in *.
  unfold arg_stack, array_slice. rewrite length_rev, length_firstn.
  cbn [Z.to_nat skipn]. lia.
Qed.

Lemma ctl_stack_length (s : stack_t) :
  stack_wf s -> Z.of_nat (List.length (ctl_stack s)) = g_control_count s.
Proof.
  intros (Hl & Ha & Hc & Hsum & _).
  unfold ctl_stack, array_slice, GRUNT_STACK_SIZE in *.
  rewrite length_firstn, length_skipn. lia.
Qed.

Section CallReturn.
Variable C : Z.
Variable program : list grunt_instruction_t.
Variable n : Z.

Lemma iteration_steps {S : Type} {GM : GruntModules S} (m m1 : vm_t S) :
  run_iteration program n m = (0, m1) ->
  g_pc m < n /\ grunt_vm_step (fetch program m) m = (0, m1).
Proof.
  unfold run_iteration, fetch.
  destruct (Z.ltb_spec (g_pc m) n); cbn [negb].
  - intros E. split; assumption.
  - unfold_status. discriminate.
Qed.

Lemma c_step_lc {pf : Platform} (i : grunt_instruction_t) (m m1 : grunt_t) :
  stack_wf (the_stack m) ->
  grunt_vm_step (GM := c_modules C) i m = (0, m1) ->
  exists ctl free ml1,
    ctl_stack (the_stack m) = map VPc ctl /\
    grunt_vm_dispatch (GM := lc_modules C) i
      (set_pc (wrap16 (g_pc m + 1)) (lc_at m ctl free)) = (0, ml1) /\
    same_view m1 ml1.
Proof.
  intros Hwf E.
  destruct (step_view C i m Hwf) as (ctl & free & Hc & _ & Es & V).
  rewrite E in Es, V. cbn [fst snd] in Es, V.
  exists ctl, free.
  unfold grunt_vm_step at 1 in Es. unfold grunt_vm_step at 1 in V.
  destruct (grunt_vm_dispatch (GM := lc_modules C) i
              (set_pc (wrap16 (g_pc (lc_at m ctl free) + 1))
                 (lc_at m ctl free))) as [st ml1] eqn:El.
  cbn [fst snd] in Es, V. subst st.
  exists ml1. split; [exact Hc|]. split; [exact El | exact V].
Qed.

Lemma c_plain_step {pf : Platform} (m m1 : grunt_t) :
  stack_wf (the_stack m) ->
  op (fetch program m) <> GRUNT_OP_CALL ->
  op (fetch program m) <> GRUNT_OP_RETURN ->
  run_iteration (GM := c_modules C) program n m = (0, m1) ->
  ctl_stack (the_stack m1) = ctl_stack (the_stack m) /\
  stack_wf (the_stack m1).
Proof.
  intros Hwf Hc Hr E. apply iteration_steps in E. destruct E as [_ E].
  destruct (c_step_lc _ _ _ Hwf E) as (ctl & free & ml1 & Ec & El & V).
  pose proof (ctl_kept_dispatch C _ Hc Hr
                (set_pc (wrap16 (g_pc m + 1)) (lc_at m ctl free))) as K.
  rewrite El in K. cbn in K.
  split; [|exact (sv_wf _ _ V)].
  rewrite (sv_ctl _ _ V), K, Ec. reflexivity.
Qed.

Lemma c_call_step {pf : Platform} (m m1 : grunt_t) :
  stack_wf (the_stack m) ->
  op (fetch program m) = GRUNT_OP_CALL ->
  run_iteration (GM := c_modules C) program n m = (0, m1) ->
  ctl_stack (the_stack m1)
  = VPc (wrap16 (g_pc m + 1)) :: ctl_stack (the_stack m) /\
  arg_stack (the_stack m1) = arg_stack (the_stack m) /\
  g_pc m1 = val_pc (arg_lit (fetch program m)) /\
  stack_wf (the_stack m1) /\
  is_pc (arg_lit (fetch program m)) = true /\
  wrap16 (g_pc m + 1) <= g_pc m1.
Proof.
  intros Hwf Hc E. apply iteration_steps in E. destruct E as [_ E].
  destruct (c_step_lc _ _ _ Hwf E) as (ctl & free & ml1 & Ec & El & V).
  unfold grunt_vm_dispatch in El. rewrite Hc in El. cbn [Z.eqb GRUNT_OP_ADD
    GRUNT_OP_AND GRUNT_OP_CALL Pos.eqb] in El.
  apply lc_call_pushes in El. destruct El as (K & A & P & L & G).
  rewrite (sv_ctl _ _ V), (sv_args _ _ V), (sv_pc _ _ V), K, A, P, Ec.
  split; [reflexivity|]. split; [reflexivity|]. split; [reflexivity|].
  split; [exact (sv_wf _ _ V)|]. split; [exact L | exact G].
Qed.

Lemma c_return_step {pf : Platform} (m m1 : grunt_t) :
  stack_wf (the_stack m) ->
  op (fetch program m) = GRUNT_OP_RETURN ->
  run_iteration (GM := c_modules C) program n m = (0, m1) ->
  ctl_stack (the_stack m) = VPc (g_pc m1) :: ctl_stack (the_stack m1) /\
  arg_stack (the_stack m1) = arg_stack (the_stack m) /\
  stack_wf (the_stack m1).
Proof.
  intros Hwf Hc E. apply iteration_steps in E. destruct E as [_ E].
  destruct (c_step_lc _ _ _ Hwf E) as (ctl & free & ml1 & Ec & El & V).
  unfold grunt_vm_dispatch in El. rewrite Hc in El.
  cbn [Z.eqb GRUNT_OP_ADD GRUNT_OP_AND GRUNT_OP_CALL GRUNT_OP_DUP
       GRUNT_OP_EQ GRUNT_OP_FLUSH GRUNT_OP_GT GRUNT_OP_HALT GRUNT_OP_INPUT
       GRUNT_OP_JMPIF GRUNT_OP_LT GRUNT_OP_NOT GRUNT_OP_OUTPUT GRUNT_OP_OR
       GRUNT_OP_POP GRUNT_OP_PUSHB GRUNT_OP_PUSHN GRUNT_OP_PUSHS
       GRUNT_OP_RETURN Pos.eqb] in El.
  apply lc_return_pops in El. destruct El as (K & A).
  cbn in K, A.
  rewrite (sv_args _ _ V), (sv_pc _ _ V), A, Ec, K, (sv_ctl _ _ V).
  split; [reflexivity|]. split; [reflexivity|]. exact (sv_wf _ _ V).
Qed.

Lemma balanced_ctl {pf : Platform} (m m' : grunt_t) :
  balanced C program n m m' ->
  stack_wf (the_stack m) ->
  ctl_stack (the_stack m') = ctl_stack (the_stack m) /\
  stack_wf (the_stack m').
Proof.
  induction 1 as [m | m m1 m2 Hc Hr E _ IH
                 | m m1 m2 m3 m4 Hc E1 _ IH1 Hr E2 _ IH2]; intros Hwf.
  - split; [reflexivity | exact Hwf].
  - destruct (c_plain_step _ _ Hwf Hc Hr E) as [K W].
    destruct (IH W) as [K' W']. split; [congruence | exact W'].
  - destruct (c_call_step _ _ Hwf Hc E1) as (K1 & _ & _ & W1 & _).
    destruct (IH1 W1) as [K2 W2].
    destruct (c_return_step _ _ W2 Hr E2) as (K3 & _ & W3).
    destruct (IH2 W3) as [K4 W4]. split; [|exact W4].
    rewrite K4. congruence.
Qed.
End CallReturn.

(** Runs instruction [i] of the library in state [m] on the lists:
    [Hargs] gives the argument stack of [m]. *)
Ltac lc_step C i m Hwf Hargs :=
  let ctl := fresh "ctl" in
  let free := fresh "free" in
  let Hc := fresh "Hctl" in
  let Hn := fresh "Hroom" in
  let Es := fresh "Est" in
  let V := fresh "Hview" in
  let res := fresh "res" in
  destruct (step_view C i m Hwf) as (ctl & free & Hc & Hn & Es & V);
  set (res := grunt_vm_step (GM := c_modules C) i m) in *;
  clearbody res;
  unfold lc_at in Es, V; rewrite Hargs in Es, V, Hn;
  cbn -[num_gt num_sub num_add num_lt wrap16 l_arg_roll l_arg_dup
        grunt_output_enqueue_string grunt_output_enqueue_number
        grunt_output_enqueue_boolean grunt_output_flush Z.ltb Z.of_N]
    in Es, V, Hn.

Lemma roll_step {pf : Platform} (C : Z) (m : grunt_t) (n : N)
    (top : grunt_value_t) (others rest : list grunt_value_t) :
  stack_wf (the_stack m) ->
  2 <= Z.of_N n ->
  arg_stack (the_stack m) = top :: others ++ rest ->
  Z.of_nat (List.length others) = Z.of_N n - 1 ->
  fst (grunt_vm_step (GM := c_modules C) (ROLL n) m) = 0 /\
  arg_stack (the_stack (snd (grunt_vm_step (GM := c_modules C) (ROLL n) m)))
  = l_rolled (Z.of_N n) top others ++ top :: rest /\
  ctl_stack (the_stack (snd (grunt_vm_step (GM := c_modules C) (ROLL n) m)))
  = ctl_stack (the_stack m).
Proof.
  intros Hwf Hn Hargs Hl.
  lc_step C (ROLL n) m Hwf Hargs.
  unfold grunt_vm_roll, call in Est, Hview.
  destruct (Z.ltb_spec (Z.of_N n) 2); [lia|].
  cbn -[l_arg_roll] in Est, Hview.
  rewrite l_arg_roll_rotates in Est, Hview by assumption.
  split; [exact Est|]. destruct Hview as [_ Ha Hc _ _ _].
  split; [exact Ha|]. rewrite Hc, Hctl. reflexivity.
Qed.

(** ** Termination of [GRUNT_Run] *)

(** C2.  Whatever the program, the image and the string table, the loop of
    [GRUNT_Run] leaves after finitely many rounds with [GRUNT_HALT_TRUE],
    [GRUNT_HALT_FALSE] or one of the seven error codes, never by reaching
    the bound of the model; a round begun with the program counter at or
    past [num_instructions] returns [GRUNT_ERROR_NOPROGRAM].  The
    hypotheses are the C types: [num_instructions] is 16 bits wide and the
    stack array has its declared size. *)
Theorem GRUNT_Run_terminates {pf : Platform} (OUTPUT_QUEUE_SIZE : Z)
    (program : list grunt_instruction_t) (num_instructions : Z)
    (p_data : list byte) (data_size : Z)
    (string_table : list string) (num_strings : Z) (g : grunt_t) :
  num_instructions <= UINT16_MAX ->
  statics_wf (mods g) ->
  (exists rounds : nat,
     GRUNT_Run (GM := c_modules OUTPUT_QUEUE_SIZE) program num_instructions
       p_data data_size string_table num_strings g
     = iter_loop (GM := c_modules OUTPUT_QUEUE_SIZE) program
         num_instructions rounds
         (run_entry (GM := c_modules OUTPUT_QUEUE_SIZE) p_data data_size
            string_table num_strings g)) /\
  final_status
    (fst (GRUNT_Run (GM := c_modules OUTPUT_QUEUE_SIZE) program
            num_instructions p_data data_size string_table num_strings g)) /\
  (forall m : grunt_t,
     num_instructions <= g_pc m ->
     fst (run_iteration (GM := c_modules OUTPUT_QUEUE_SIZE) program
            num_instructions m) = GRUNT_ERROR_NOPROGRAM).
Proof.
  intros Hn Hwf. split; [|split].
  - exists (2 ^ RUN_ROUNDS)%nat. unfold GRUNT_Run. apply run_loop_iter.
  - destruct (GRUNT_Run_sim (GM1 := c_modules OUTPUT_QUEUE_SIZE)
                (GM2 := lc_modules OUTPUT_QUEUE_SIZE)
                (prod_rel stack_rel eq eq) (c_lc_sim OUTPUT_QUEUE_SIZE)
                program num_instructions p_data data_size string_table
                num_strings g (lc_of g)) as [E _].
    { apply c_lc_init; [exact Hwf | reflexivity | reflexivity]. }
    rewrite E. apply lc_run_terminates. exact Hn.
  - intros m Hm. unfold run_iteration.
    destruct (Z.ltb_spec (g_pc m) num_instructions); [lia | reflexivity].
Qed.

Lemma GRUNT_Run_terminates_witness :
  final_status
    (fst (GRUNT_Run (GM := c_modules (pf := buffered_le) 122)
        [PUSHB true; HALT] 2 [] 0 [] 0
            (grunt_at_load 122))).
Proof.
  apply (GRUNT_Run_terminates (pf := buffered_le) 122 [PUSHB true; HALT] 2 [] 0
      [] 0
           (grunt_at_load 122)).
  - unfold UINT16_MAX. lia.
  - split; [reflexivity | cbn; lia].
Defined.

(** ** Single instructions *)

(** Discharges [stack_wf] and the like on a closed state. *)
Ltac closed_wf :=
  repeat split;
  try solve [ reflexivity | vm_compute; discriminate
            | vm_compute; repeat constructor ].

(** C5.  [FLUSH] pops the event type (the severity) from the top of the
    argument stack and the event id from beneath it.  When both are
    numbers it hands the host one event with that id, that type and the C
    string held in the output queue, and leaves the queue all NUL with the
    tail index 0; when either is not a number it returns
    [GRUNT_ERROR_INVALIDARGUMENT] and the output module is untouched. *)
Theorem flush_emits {pf : Platform} (C : Z) (m : grunt_t) :
  stack_wf (the_stack m) ->
  (forall severity event_id rest,
     arg_stack (the_stack m) = VNum severity :: VNum event_id :: rest ->
     let r := grunt_vm_step (GM := c_modules C) FLUSH m in
     fst r = 0 /\
     arg_stack (the_stack (snd r)) = rest /\
     evs_sent (the_output (snd r))
     = evs_sent (the_output m)
       ++ [mkEvent event_id severity
             (c_str_of_chars (g_output_queue (the_output m)))] /\
     g_output_queue (the_output (snd r)) = repeat NUL (Z.to_nat C) /\
     g_tail_index (the_output (snd r)) = 0) /\
  (forall v rest,
     arg_stack (the_stack m) = v :: rest -> is_num v = false ->
     let r := grunt_vm_step (GM := c_modules C) FLUSH m in
     fst r = GRUNT_ERROR_INVALIDARGUMENT /\
     the_output (snd r) = the_output m) /\
  (forall severity v rest,
     arg_stack (the_stack m) = VNum severity :: v :: rest ->
     is_num v = false ->
     let r := grunt_vm_step (GM := c_modules C) FLUSH m in
     fst r = GRUNT_ERROR_INVALIDARGUMENT /\
     the_output (snd r) = the_output m).
Proof.
  intros Hwf. split; [|split].
  - intros sev eid rest Hargs r. subst r.
    lc_step C FLUSH m Hwf Hargs.
    destruct Hview as [_ Ha _ _ _ Ho]. cbn in Ha, Ho.
    split; [exact Est|]. split; [exact Ha|]. rewrite Ho.
    repeat split.
  - intros v rest Hargs Hv r. subst r.
    destruct v; try discriminate Hv;
      lc_step C FLUSH m Hwf Hargs;
      destruct Hview as [_ _ _ _ _ Ho]; split; assumption.
  - intros sev v rest Hargs Hv r. subst r.
    destruct v; try discriminate Hv;
      lc_step C FLUSH m Hwf Hargs;
      destruct Hview as [_ _ _ _ _ Ho]; split; assumption.
Qed.

Lemma flush_emits_witness :
  let m := snd (grunt_vm_step (GM := c_modules (pf := buffered_le) 122) OUTPUT
                  (grunt_with_args 122 [VBool true; VNum 2; VNum 8])) in
  let r := grunt_vm_step (GM := c_modules (pf := buffered_le) 122) FLUSH m in
  fst r = 0 /\ evs_sent (the_output (snd r)) = [mkEvent 8 2 "true"] /\
  g_tail_index (the_output (snd r)) = 0.
Proof.
  cbv zeta.
  pose proof (flush_emits (pf := buffered_le) 122
    (snd (grunt_vm_step (GM := c_modules (pf := buffered_le) 122) OUTPUT
            (grunt_with_args 122 [VBool true; VNum 2; VNum 8])))) as H.
  destruct H as [H _]; [closed_wf|].
  destruct (H 2 8 [] eq_refl) as (E1 & _ & E2 & _ & E3).
  split; [exact E1|]. split; [exact E2 | exact E3].
Defined.

(** C6.  In a round of [GRUNT_Run] that fetches a [CALL] whose literal
    does not exceed the program counter of the [CALL] itself, the status
    is [GRUNT_ERROR_NOLOOPS].  A [CALL] with a larger literal and a free
    stack slot succeeds: the control stack gains the program counter past
    the [CALL] and the program counter becomes the literal.  When a
    stretch of a run in which calls and returns pair up lies between a
    [CALL] and a [RETURN], that [RETURN] leaves the control stack as the
    [CALL] found it and the program counter one past the [CALL]. *)
Theorem call_return_discipline {pf : Platform} (C : Z)
    (program : list grunt_instruction_t) (num_instructions : Z) :
  num_instructions <= UINT16_MAX ->
  (forall (m : grunt_t) (t : Z),
     0 <= g_pc m < num_instructions ->
     op (fetch program m) = GRUNT_OP_CALL ->
     arg_lit (fetch program m) = VPc t ->
     t <= g_pc m ->
     fst (run_iteration (GM := c_modules C) program num_instructions m)
     = GRUNT_ERROR_NOLOOPS) /\
  (forall (m : grunt_t) (t : Z),
     stack_wf (the_stack m) ->
     0 <= g_pc m < num_instructions ->
     op (fetch program m) = GRUNT_OP_CALL ->
     arg_lit (fetch program m) = VPc t ->
     g_pc m < t ->
     g_argument_count (the_stack m) + g_control_count (the_stack m)
     < GRUNT_STACK_SIZE ->
     let r := run_iteration (GM := c_modules C) program num_instructions m in
     fst r = 0 /\
     ctl_stack (the_stack (snd r))
     = VPc (g_pc m + 1) :: ctl_stack (the_stack m) /\
     g_pc (snd r) = t) /\
  (forall m m1 m2 m3 : grunt_t,
     stack_wf (the_stack m) ->
     0 <= g_pc m ->
     op (fetch program m) = GRUNT_OP_CALL ->
     run_iteration (GM := c_modules C) program num_instructions m
     = (0, m1) ->
     balanced C program num_instructions m1 m2 ->
     op (fetch program m2) = GRUNT_OP_RETURN ->
     run_iteration (GM := c_modules C) program num_instructions m2
     = (0, m3) ->
     g_pc m3 = g_pc m + 1 /\
     ctl_stack (the_stack m3) = ctl_stack (the_stack m) /\
     g_control_count (the_stack m3) = g_control_count (the_stack m)).
Proof.
  intros Hn. unfold UINT16_MAX in Hn. split; [|split].
  - intros m t Hpc Hop Hlit Ht. unfold run_iteration.
    destruct (Z.ltb_spec (g_pc m) num_instructions); [|lia].
    cbn [negb]. fold (fetch program m).
    unfold grunt_vm_step, grunt_vm_dispatch. rewrite Hop, Hlit.
    cbn [Z.eqb GRUNT_OP_ADD GRUNT_OP_AND GRUNT_OP_CALL Pos.eqb].
    unfold grunt_vm_call. cbn [is_pc negb val_pc g_pc set_pc].
    rewrite wrap16_succ by lia.
    destruct (Z.ltb_spec t (g_pc m + 1)); [reflexivity | lia].
  - intros m t Hwf Hpc Hop Hlit Ht Hroom r. subst r.
    destruct (iteration_view C program num_instructions m Hwf)
      as (ctl & free & Hc & Hf & Es & V).
    set (r := run_iteration (GM := c_modules C) program num_instructions m)
      in *. clearbody r.
    pose proof (arg_stack_length _ Hwf) as La.
    pose proof (ctl_stack_length _ Hwf) as Lc.
    rewrite Hc, length_map in Lc. unfold GRUNT_STACK_SIZE in Hroom.
    destruct free as [|f]; [lia|].
    unfold run_iteration in Es, V. cbn [lc_at g_pc] in Es, V.
    destruct (Z.ltb_spec (g_pc m) num_instructions); [|lia].
    cbn [negb] in Es, V. fold (fetch program m) in Es, V.
    unfold grunt_vm_step, grunt_vm_dispatch in Es, V.
    rewrite Hop, Hlit in Es, V.
    cbn [Z.eqb GRUNT_OP_ADD GRUNT_OP_AND GRUNT_OP_CALL Pos.eqb] in Es, V.
    unfold grunt_vm_call in Es, V.
    cbn [is_pc negb val_pc g_pc set_pc] in Es, V.
    change (g_pc (lc_at m ctl (S f))) with (g_pc m) in Es, V.
    rewrite wrap16_succ in Es, V by lia.
    destruct (Z.ltb_spec t (g_pc m + 1)); [lia|].
    cbn in Es, V. destruct V as [Vp _ Vc _ _ _]. cbn in Vp, Vc.
    split; [exact Es|]. split; [|exact Vp]. rewrite Vc, Hc. reflexivity.
  - intros m m1 m2 m3 Hwf Hpc Hop E1 B Hret E2.
    destruct (iteration_steps program num_instructions _ _ E1) as [Hlt _].
    destruct (c_call_step C program num_instructions _ _ Hwf Hop E1)
      as (K1 & _ & _ & W1 & _).
    destruct (balanced_ctl C program num_instructions _ _ B W1) as [K2 W2].
    destruct (c_return_step C program num_instructions _ _ W2 Hret E2)
      as (K3 & _ & W3).
    rewrite K2, K1 in K3. injection K3 as Ep Ec.
    rewrite wrap16_succ in Ep by lia.
    split; [symmetry; exact Ep|]. split; [symmetry; exact Ec|].
    rewrite <- (ctl_stack_length _ W3), <- (ctl_stack_length _ Hwf), Ec.
    reflexivity.
Qed.

Lemma call_return_discipline_witness :
  let program := [CALL 2; HALT; RETURN] in
  let m := grunt_with_args 122 [] in
  let m1 := snd (run_iteration
      (GM := c_modules (pf := buffered_le) 122) program 3 m) in
  let m3 := snd (run_iteration
      (GM := c_modules (pf := buffered_le) 122) program 3 m1) in
  g_pc m1 = 2 /\ g_pc m3 = 1 /\
  g_control_count (the_stack m3) = g_control_count (the_stack m).
Proof.
  cbv zeta.
  destruct (call_return_discipline (pf := buffered_le) 122
      [CALL 2; HALT; RETURN] 3)
    as (_ & H2 & H3); [unfold UINT16_MAX; lia|].
  split.
  - apply (H2 (grunt_with_args 122 []) 2);
      [ closed_wf | closed_wf | reflexivity | reflexivity | closed_wf
      | closed_wf ].
  - set (m := grunt_with_args 122 []).
    set (m1 := snd (run_iteration (GM := c_modules (pf := buffered_le) 122)
                      [CALL 2; HALT; RETURN] 3 m)).
    set (m3 := snd (run_iteration (GM := c_modules (pf := buffered_le) 122)
                      [CALL 2; HALT; RETURN] 3 m1)).
    destruct (H3 m m1 m1 m3) as (E1 & _ & E2);
      [ closed_wf | closed_wf | reflexivity | reflexivity
      | apply balanced_nil | reflexivity | reflexivity | ].
    split; [exact E1 | exact E2].
Defined.

(** C7.  [ROLL n] with [n >= 2] and at least [n] values on the argument
    stack returns 0, puts the topmost value beneath the [n - 1] values
    that were under it and leaves the rest of the argument stack and the
    control stack alone.  What it leaves in the [n - 1] slots above
    depends on the platform when [n >= 3], where the [memcpy] of
    [grunt_stack_arg_roll] has overlapping ranges: with a [memcpy] that
    copies as [memmove] does, and for [n = 2] on every platform, the
    values that were there moved up by one, so [w x y z] ([z] topmost)
    becomes [w z x y] under [ROLL 3]; with a [memcpy] that copies upward
    one element at a time, [n - 1] copies of the lowest of them, so
    [w x y z] becomes [w z x x]. *)
Theorem roll_by_platform {pf : Platform} (C : Z) (m : grunt_t) :
  stack_wf (the_stack m) ->
  (forall (n : N) (top : grunt_value_t) (others rest : list grunt_value_t),
     2 <= Z.of_N n ->
     arg_stack (the_stack m) = top :: others ++ rest ->
     Z.of_nat (List.length others) = Z.of_N n - 1 ->
     let r := grunt_vm_step (GM := c_modules C) (ROLL n) m in
     fst r = 0 /\
     ctl_stack (the_stack (snd r)) = ctl_stack (the_stack m) /\
     (Z.of_N n = 2 \/ memcpy_overlap = OverlapBuffered ->
      arg_stack (the_stack (snd r)) = others ++ top :: rest) /\
     (2 < Z.of_N n -> memcpy_overlap = OverlapAscending ->
      arg_stack (the_stack (snd r))
      = repeat (last others top) (List.length others) ++ top :: rest)) /\
  (forall (w x y z : grunt_value_t) (rest : list grunt_value_t),
     arg_stack (the_stack m) = z :: y :: x :: w :: rest ->
     let r := grunt_vm_step (GM := c_modules C) (ROLL 3) m in
     fst r = 0 /\
     arg_stack (the_stack (snd r))
     = match memcpy_overlap with
       | OverlapBuffered => y :: x :: z :: w :: rest
       | OverlapAscending => x :: x :: z :: w :: rest
       end).
Proof.
  intros Hwf. split.
  - intros n top others rest Hn Hargs Hl r. subst r.
    destruct (roll_step C m n top others rest Hwf Hn Hargs Hl)
      as (E1 & E2 & E3).
    split; [exact E1|]. split; [exact E3|].
    rewrite E2. unfold l_rolled. split.
    + intros [H2|Hb].
      * rewrite H2. reflexivity.
      * rewrite Hb. destruct (Z.of_N n <=? 2); reflexivity.
    + intros H2 Ha. rewrite Ha.
      destruct (Z.leb_spec (Z.of_N n) 2); [lia | reflexivity].
  - intros w x y z rest Hargs r. subst r.
    destruct (roll_step C m 3 z [y; x] (w :: rest) Hwf) as (E1 & E2 & _);
      [cbn; lia | exact Hargs | reflexivity |].
    split; [exact E1|]. rewrite E2. unfold l_rolled.
    cbn [Z.of_N Z.leb Z.compare Pos.compare Pos.compare_cont].
    destruct memcpy_overlap; reflexivity.
Qed.

Lemma roll_by_platform_witness :
  let r := grunt_vm_step
             (GM := c_modules (pf := ascending_be)
                      122)
             (ROLL 3)
             (grunt_with_args 122 [VNum 4; VNum 3; VNum 2; VNum 1]) in
  fst r = 0 /\
  arg_stack (the_stack (snd r)) = [VNum 2; VNum 2; VNum 4; VNum 1].
Proof.
  cbv zeta.
  destruct (roll_by_platform
              (pf := ascending_be) 122
              (grunt_with_args 122 [VNum 4; VNum 3; VNum 2; VNum 1]))
    as [_ H]; [closed_wf|].
  exact (H (VNum 1) (VNum 2) (VNum 3) (VNum 4) [] eq_refl).
Defined.

(** C8.  [ADD] and [SUB] on [a] beneath [b], both 32-bit numbers: [ADD]
    returns [GRUNT_ERROR_OUTOFBOUNDS] when [a + b] exceeds
    [GRUNT_NUM_MAX] and otherwise leaves the exact sum in their place;
    [SUB] returns [GRUNT_ERROR_OUTOFBOUNDS] when [a - b] is negative and
    otherwise leaves the exact difference.  No result is reduced modulo
    [2 ^ 32]. *)
Theorem add_sub_exact {pf : Platform} (C : Z) (m : grunt_t) (a b : Z)
    (rest : list grunt_value_t) :
  stack_wf (the_stack m) ->
  arg_stack (the_stack m) = VNum b :: VNum a :: rest ->
  0 <= a <= GRUNT_NUM_MAX -> 0 <= b <= GRUNT_NUM_MAX ->
  (GRUNT_NUM_MAX < a + b ->
   fst (grunt_vm_step (GM := c_modules C) ADD m) = GRUNT_ERROR_OUTOFBOUNDS) /\
  (a + b <= GRUNT_NUM_MAX ->
   fst (grunt_vm_step (GM := c_modules C) ADD m) = 0 /\
   arg_stack (the_stack (snd (grunt_vm_step (GM := c_modules C) ADD m)))
   = VNum (a + b) :: rest) /\
  (a - b < 0 ->
   fst (grunt_vm_step (GM := c_modules C) SUB m) = GRUNT_ERROR_OUTOFBOUNDS) /\
  (0 <= a - b ->
   fst (grunt_vm_step (GM := c_modules C) SUB m) = 0 /\
   arg_stack (the_stack (snd (grunt_vm_step (GM := c_modules C) SUB m)))
   = VNum (a - b) :: rest).
Proof.
  intros Hwf Hargs Ha Hb.
  split; [|split; [|split]]; intros Hr.
  - lc_step C ADD m Hwf Hargs.
    rewrite num_gt_sub in Est by assumption.
    destruct (Z.ltb_spec GRUNT_NUM_MAX (a + b)); [exact Est | lia].
  - lc_step C ADD m Hwf Hargs.
    rewrite num_gt_sub in Est, Hview by assumption.
    destruct (Z.ltb_spec GRUNT_NUM_MAX (a + b)); [lia|].
    split; [exact Est|]. rewrite (sv_args _ _ Hview). cbn.
    rewrite num_add_exact by lia. reflexivity.
  - lc_step C SUB m Hwf Hargs. unfold num_lt in Est.
    destruct (Z.ltb_spec a b); [exact Est | lia].
  - lc_step C SUB m Hwf Hargs. unfold num_lt in Est, Hview.
    destruct (Z.ltb_spec a b); [lia|].
    split; [exact Est|]. rewrite (sv_args _ _ Hview). cbn.
    rewrite num_sub_exact by lia. reflexivity.
Qed.

Lemma add_sub_exact_witness :
  let m := grunt_with_args 122 [VNum 5; VNum 4294967295] in
  fst (grunt_vm_step
      (GM := c_modules (pf := buffered_le) 122) ADD m) = GRUNT_ERROR_OUTOFBOUNDS /\
  arg_stack (the_stack (snd (grunt_vm_step
      (GM := c_modules (pf := buffered_le) 122) SUB m)))
  = [VNum 4294967290].
Proof.
  cbv zeta.
  destruct (add_sub_exact (pf := buffered_le) 122
              (grunt_with_args 122 [VNum 5; VNum 4294967295])
              4294967295 5 []) as (H1 & _ & _ & H4);
    [ closed_wf | reflexivity | closed_wf | closed_wf | ].
  split.
  - apply H1. unfold GRUNT_NUM_MAX, UINT32_MAX. lia.
  - apply H4. lia.
Defined.

(** C10.  [OUTPUT] of a string value whose index is not below the number
    of strings of the table returns [GRUNT_ERROR_INVALIDLITERAL], which is
    neither [GRUNT_ERROR_OUTOFBOUNDS] nor [GRUNT_ERROR_INVALIDARGUMENT],
    and leaves the output queue and its tail index as they were. *)
Theorem output_bad_string {pf : Platform} (C : Z) (m : grunt_t) (i : Z)
    (rest : list grunt_value_t) :
  stack_wf (the_stack m) ->
  arg_stack (the_stack m) = VStr i :: rest ->
  g_num_strings (the_output m) <= i ->
  fst (grunt_vm_step (GM := c_modules C) OUTPUT m)
  = GRUNT_ERROR_INVALIDLITERAL /\
  g_output_queue (the_output (snd (grunt_vm_step (GM := c_modules C) OUTPUT m)))
  = g_output_queue (the_output m) /\
  g_tail_index (the_output (snd (grunt_vm_step (GM := c_modules C) OUTPUT m)))
  = g_tail_index (the_output m).
Proof.
  intros Hwf Hargs Hi.
  lc_step C OUTPUT m Hwf Hargs.
  unfold call, on_output, grunt_output_enqueue_string in Est, Hview.
  cbn [mods] in Est, Hview.
  destruct (Z.ltb_spec i (g_num_strings (the_output m))); [lia|].
  cbn in Est, Hview. destruct Hview as [_ _ _ _ _ Ho].
  split; [exact Est|]. rewrite Ho. split; reflexivity.
Qed.

Lemma output_bad_string_witness :
  let m := grunt_with_args 122 [VStr 5] in
  fst (grunt_vm_step (GM := c_modules (pf := buffered_le) 122) OUTPUT m)
  = GRUNT_ERROR_INVALIDLITERAL /\
  g_tail_index (the_output (snd (grunt_vm_step
      (GM := c_modules (pf := buffered_le) 122) OUTPUT m)))
  = 0.
Proof.
  cbv zeta.
  destruct (output_bad_string (pf := buffered_le) 122 (grunt_with_args 122
      [VStr 5]) 5 [])
    as (E1 & _ & E2); [ closed_wf | reflexivity | closed_wf | ].
  split; [exact E1 | exact E2].
Defined.

(** * Further properties of the library *)

(** ** grunt_stack.c *)

Lemma stack_op_lists {A : Type} (f1 : stack_t -> A * stack_t)
    (f2 : lstack_t -> A * lstack_t) (s : stack_t) :
  sim stack_rel f1 f2 -> stack_wf s ->
  exists ctl free,
    ctl_stack s = map VPc ctl /\
    (List.length (arg_stack s) + free + List.length ctl = 32)%nat /\
    fst (f1 s) = fst (f2 (mkLStack (arg_stack s) ctl free)) /\
    arg_stack (snd (f1 s))
    = l_args (snd (f2 (mkLStack (arg_stack s) ctl free))) /\
    ctl_stack (snd (f1 s))
    = map VPc (l_ctl (snd (f2 (mkLStack (arg_stack s) ctl free)))) /\
    stack_wf (snd (f1 s)).
Proof.
  intros Hsim Hwf.
  pose proof (stack_rel_view s Hwf) as Hrel.
  destruct (stack_rel_read _ _ Hrel) as (_ & Ec & _).
  destruct (stack_rel_view s Hwf) as (junk & _ & _ & _ & _ & Ht).
  exists (l_ctl (list_view s)), (l_free (list_view s)).
  split; [exact Ec|]. split.
  { unfold GRUNT_STACK_SIZE in Ht. cbn [list_view l_args l_ctl l_free] in *.
    lia. }
  destruct (Hsim s (list_view s) (stack_rel_view s Hwf)) as [E R].
  destruct (stack_rel_read _ _ R) as (Ea' & Ec' & Hwf').
  split; [exact E|]. split; [exact Ea'|]. split; [exact Ec' | exact Hwf'].
Qed.

Lemma stack_wf_counts (s : stack_t) :
  stack_wf s ->
  Z.of_nat (List.length (arg_stack s)) = g_argument_count s /\
  Z.of_nat (List.length (ctl_stack s)) = g_control_count s.
Proof.
  intros H. split; [apply arg_stack_length | apply ctl_stack_length]; exact H.
Qed.

(** X1.  Both stacks are last-in first-out: a value pushed on the argument
    stack while a slot is free becomes its topmost value, and the pop
    that follows returns that value and leaves both stacks as they were
    before the push; likewise a program counter on the control stack. *)
Theorem stack_push_pop (s : stack_t) :
  stack_wf s ->
  g_argument_count s + g_control_count s < GRUNT_STACK_SIZE ->
  (forall v : grunt_value_t, is_pc v = false ->
     let pushed := grunt_stack_arg_push v s in
     let popped := grunt_stack_arg_pop (snd pushed) in
     fst pushed = 0 /\
     arg_stack (snd pushed) = v :: arg_stack s /\
     fst popped = (0, Some v) /\
     arg_stack (snd popped) = arg_stack s /\
     ctl_stack (snd popped) = ctl_stack s) /\
  (forall p : Z,
     let pushed := grunt_stack_ctl_push (VPc p) s in
     let popped := grunt_stack_ctl_pop (snd pushed) in
     fst pushed = 0 /\
     ctl_stack (snd pushed) = VPc p :: ctl_stack s /\
     fst popped = (0, Some (VPc p)) /\
     ctl_stack (snd popped) = ctl_stack s /\
     arg_stack (snd popped) = arg_stack s).
Proof.
  intros Hwf Hroom. unfold GRUNT_STACK_SIZE in Hroom.
  destruct (stack_wf_counts s Hwf) as [La Lc]. split.
  - intros v Hv pushed popped. subst popped pushed.
    destruct (stack_op_lists _ _ s (stack_rel_push v) Hwf)
      as (ctl & free & Ec & Hn & E1 & A1 & C1 & W1).
    rewrite Ec, length_map in Lc.
    destruct free as [|f]; [lia|].
    assert (P : l_arg_push v (mkLStack (arg_stack s) ctl (S f))
                = (0, mkLStack (v :: arg_stack s) ctl f)).
    { unfold l_arg_push. cbn [l_free l_args l_ctl].
      destruct v; try discriminate Hv; reflexivity. }
    rewrite P in E1, A1, C1. cbn [fst snd l_args l_ctl] in E1, A1, C1.
    destruct (stack_op_lists _ _ _ stack_rel_pop W1)
      as (ctl' & free' & Ec' & Hn' & E2 & A2 & C2 & W2).
    rewrite A1 in E2, A2, C2. unfold l_arg_pop in E2, A2, C2.
    cbn [l_args l_ctl l_free fst snd] in E2, A2, C2.
    rewrite C1 in Ec'.
    split; [exact E1|]. split; [exact A1|]. split; [exact E2|].
    split; [exact A2|]. rewrite C2, <- Ec', Ec. reflexivity.
  - intros p pushed popped. subst popped pushed.
    destruct (stack_op_lists _ _ s (stack_rel_ctl_push (VPc p)) Hwf)
      as (ctl & free & Ec & Hn & E1 & A1 & C1 & W1).
    rewrite Ec, length_map in Lc.
    destruct free as [|f]; [lia|].
    unfold l_ctl_push in E1, A1, C1.
    cbn [is_pc negb l_free l_args l_ctl fst snd val_pc] in E1, A1, C1.
    destruct (stack_op_lists _ _ _ stack_rel_ctl_pop W1)
      as (ctl' & free' & Ec' & Hn' & E2 & A2 & C2 & W2).
    rewrite C1 in Ec'. cbn [map] in Ec'.
    destruct ctl' as [|p' ctl'']; [discriminate|].
    cbn [map] in Ec'. injection Ec' as Ep Ec'. subst p'.
    unfold l_ctl_pop in E2, A2, C2.
    cbn [l_args l_ctl l_free fst snd] in E2, A2, C2.
    split; [exact E1|]. split; [rewrite C1, Ec; reflexivity|].
    split; [exact E2|].
    split; [rewrite C2, <- Ec', Ec; reflexivity|].
    rewrite A2, A1. reflexivity.
Qed.

Lemma stack_of_wf (args : list grunt_value_t) (ctl : list Z) :
  (List.length args + List.length ctl <= 32)%nat ->
  stack_rel (stack_of args ctl)
    (mkLStack args ctl (32 - List.length args - List.length ctl)).
Proof.
  intros H. unfold stack_of, GRUNT_STACK_SIZE.
  exists (repeat no_lit (32 - List.length args - List.length ctl)).
  cbn [g_stack g_argument_count g_control_count l_args l_ctl l_free].
  change (Z.to_nat (2 * 16)) with 32%nat.
  rewrite repeat_length. repeat split; slia.
Qed.

Lemma stack_push_pop_witness :
  fst (grunt_stack_arg_pop
         (snd (grunt_stack_arg_push (VBool true) (stack_of [VNum 1] [7]))))
  = (0, Some (VBool true)) /\
  fst (grunt_stack_ctl_pop
         (snd (grunt_stack_ctl_push (VPc 9) (stack_of [VNum 1] [7]))))
  = (0, Some (VPc 9)).
Proof.
  destruct (stack_push_pop (stack_of [VNum 1] [7])) as [Ha Hc];
    [closed_wf | closed_wf |].
  destruct (Ha (VBool true) eq_refl) as (_ & _ & E1 & _).
  destruct (Hc 9) as (_ & _ & E2 & _).
  split; [exact E1 | exact E2].
Defined.

(** X2.  The functions of the stack module keep the stack variables well
    formed: the array keeps its 32 slots, the two counts stay
    non-negative with a sum of at most 32, and the control stack holds
    program counters only. *)
Theorem stack_wf_kept {pf : Platform} (s : stack_t) (v : grunt_value_t)
    (n : Z) :
  stack_wf s -> 0 <= n ->
  stack_wf (grunt_stack_init s) /\
  stack_wf (snd (grunt_stack_arg_push v s)) /\
  stack_wf (snd (grunt_stack_arg_pop s)) /\
  stack_wf (snd (grunt_stack_arg_dup n s)) /\
  stack_wf (snd (grunt_stack_arg_roll n s)) /\
  stack_wf (snd (grunt_stack_ctl_push v s)) /\
  stack_wf (snd (grunt_stack_ctl_pop s)).
Proof.
  intros Hwf Hn.
  split.
  { destruct Hwf as (Hl & _). unfold stack_wf, grunt_stack_init, ctl_stack.
    cbn [g_stack g_argument_count g_control_count].
    unfold GRUNT_STACK_SIZE in *. repeat split; try lia; try exact Hl.
    unfold array_slice. cbn [Z.to_nat firstn]. constructor. }
  split; [destruct (stack_op_lists _ _ s (stack_rel_push v) Hwf)
            as (? & ? & _ & _ & _ & _ & _ & W); exact W|].
  split; [destruct (stack_op_lists _ _ s stack_rel_pop Hwf)
            as (? & ? & _ & _ & _ & _ & _ & W); exact W|].
  split; [destruct (stack_op_lists _ _ s (stack_rel_dup n Hn) Hwf)
            as (? & ? & _ & _ & _ & _ & _ & W); exact W|].
  split; [destruct (stack_op_lists _ _ s (stack_rel_roll n) Hwf)
            as (? & ? & _ & _ & _ & _ & _ & W); exact W|].
  split; [destruct (stack_op_lists _ _ s (stack_rel_ctl_push v) Hwf)
            as (? & ? & _ & _ & _ & _ & _ & W); exact W|].
  destruct (stack_op_lists _ _ s stack_rel_ctl_pop Hwf)
    as (? & ? & _ & _ & _ & _ & _ & W); exact W.
Qed.

Lemma stack_wf_kept_witness :
  stack_wf (snd (grunt_stack_arg_dup (pf := buffered_le) 2 (stack_of
      [VNum 1; VNum 2] [7]))) /\
  stack_wf (snd (grunt_stack_ctl_push (VPc 3) (stack_of [VNum 1; VNum 2] [7]))).
Proof.
  destruct (stack_wf_kept (pf := buffered_le) (stack_of [VNum 1; VNum 2] [7])
      (VPc 3) 2)
    as (_ & _ & _ & H4 & _ & H6 & _); [closed_wf | lia |].
  split; [exact H4 | exact H6].
Defined.

Lemma l_ctl_ops_keep_args (k : lstack_t) (v : grunt_value_t) :
  l_args (snd (l_ctl_push v k)) = l_args k /\
  l_args (snd (l_ctl_pop k)) = l_args k.
Proof.
  destruct k as [args ctl free]. unfold l_ctl_push, l_ctl_pop.
  cbn [l_args l_ctl l_free]. split.
  - destruct (negb _); [reflexivity|]. destruct free; reflexivity.
  - destruct ctl; reflexivity.
Qed.

Lemma l_arg_ops_keep_ctl {pf : Platform} (k : lstack_t) (v : grunt_value_t)
    (n : Z) :
  l_ctl (snd (l_arg_push v k)) = l_ctl k /\
  l_ctl (snd (l_arg_pop k)) = l_ctl k /\
  l_ctl (snd (l_arg_dup n k)) = l_ctl k /\
  l_ctl (snd (l_arg_roll n k)) = l_ctl k.
Proof.
  destruct k as [args ctl free].
  unfold l_arg_push, l_arg_pop, l_arg_dup, l_arg_roll.
  cbn [l_args l_ctl l_free]. repeat split.
  - destruct (negb _); [reflexivity|]. destruct free; reflexivity.
  - destruct args; reflexivity.
  - destruct (n =? 0); [reflexivity|].
    destruct (take_n _ args) as [[top rest]|]; [|reflexivity].
    destruct (take_free _ free); reflexivity.
  - destruct (n <? 2); [reflexivity|].
    destruct (take_n _ args) as [[[|t others] rest]|]; reflexivity.
Qed.

(** X3.  The two stacks share one array and never overwrite each other:
    whatever its outcome, a function of the argument stack leaves the
    control stack as it was, and a function of the control stack leaves
    the argument stack as it was. *)
Theorem stacks_do_not_clobber {pf : Platform} (s : stack_t) (v : grunt_value_t)
    (n : Z) :
  stack_wf s -> 0 <= n ->
  ctl_stack (snd (grunt_stack_arg_push v s)) = ctl_stack s /\
  ctl_stack (snd (grunt_stack_arg_pop s)) = ctl_stack s /\
  ctl_stack (snd (grunt_stack_arg_dup n s)) = ctl_stack s /\
  ctl_stack (snd (grunt_stack_arg_roll n s)) = ctl_stack s /\
  arg_stack (snd (grunt_stack_ctl_push v s)) = arg_stack s /\
  arg_stack (snd (grunt_stack_ctl_pop s)) = arg_stack s.
Proof.
  intros Hwf Hn.
  split; [destruct (stack_op_lists _ _ s (stack_rel_push v) Hwf)
            as (ctl & free & Ec & _ & _ & _ & C & _);
          rewrite C, Ec; f_equal;
          exact (proj1 (l_arg_ops_keep_ctl _ v 0))|].
  split; [destruct (stack_op_lists _ _ s stack_rel_pop Hwf)
            as (ctl & free & Ec & _ & _ & _ & C & _);
          rewrite C, Ec; f_equal;
          exact (proj1 (proj2 (l_arg_ops_keep_ctl _ v 0)))|].
  split; [destruct (stack_op_lists _ _ s (stack_rel_dup n Hn) Hwf)
            as (ctl & free & Ec & _ & _ & _ & C & _);
          rewrite C, Ec; f_equal;
          exact (proj1 (proj2 (proj2 (l_arg_ops_keep_ctl _ v n))))|].
  split; [destruct (stack_op_lists _ _ s (stack_rel_roll n) Hwf)
            as (ctl & free & Ec & _ & _ & _ & C & _);
          rewrite C, Ec; f_equal;
          exact (proj2 (proj2 (proj2 (l_arg_ops_keep_ctl _ v n))))|].
  split; [destruct (stack_op_lists _ _ s (stack_rel_ctl_push v) Hwf)
            as (ctl & free & _ & _ & _ & A & _ & _);
          rewrite A; exact (proj1 (l_ctl_ops_keep_args _ v))|].
  destruct (stack_op_lists _ _ s stack_rel_ctl_pop Hwf)
    as (ctl & free & _ & _ & _ & A & _ & _).
  rewrite A. exact (proj2 (l_ctl_ops_keep_args _ v)).
Qed.

Lemma stacks_do_not_clobber_witness :
  ctl_stack (snd (grunt_stack_arg_roll (pf := buffered_le) 2 (stack_of
      [VNum 1; VNum 2] [7])))
  = [VPc 7] /\
  arg_stack (snd (grunt_stack_ctl_pop (stack_of [VNum 1; VNum 2] [7])))
  = [VNum 1; VNum 2].
Proof.
  destruct (stacks_do_not_clobber (pf := buffered_le) (stack_of [VNum 1; VNum 2]
      [7]) no_lit 2)
    as (_ & _ & _ & H4 & _ & H6); [closed_wf | lia |].
  split; [exact H4 | exact H6].
Defined.

(** X4.  A function of the stack module that returns an error has
    changed nothing: a push on a wrong type or a full array, a pop of an
    empty stack, a [dup] or [roll] of more values than the argument stack
    holds leave [g_stack] and both counts as they were, and a failed pop
    writes no value. *)
Theorem stack_errors_change_nothing {pf : Platform} (s : stack_t)
    (v : grunt_value_t)
    (n : Z) :
  (fst (grunt_stack_arg_push v s) <> 0 ->
   snd (grunt_stack_arg_push v s) = s) /\
  (fst (fst (grunt_stack_arg_pop s)) <> 0 ->
   grunt_stack_arg_pop s = (GRUNT_ERROR_OUTOFBOUNDS, None, s)) /\
  (fst (grunt_stack_arg_dup n s) <> 0 ->
   snd (grunt_stack_arg_dup n s) = s) /\
  (fst (grunt_stack_arg_roll n s) <> 0 ->
   snd (grunt_stack_arg_roll n s) = s) /\
  (fst (grunt_stack_ctl_push v s) <> 0 ->
   snd (grunt_stack_ctl_push v s) = s) /\
  (fst (fst (grunt_stack_ctl_pop s)) <> 0 ->
   grunt_stack_ctl_pop s = (GRUNT_ERROR_OUTOFBOUNDS, None, s)).
Proof.
  unfold grunt_stack_arg_push, grunt_stack_arg_pop, grunt_stack_arg_dup,
    grunt_stack_arg_roll, grunt_stack_ctl_push, grunt_stack_ctl_pop.
  repeat split;
    repeat match goal with
           | |- context [if ?c then _ else _] => destruct c
           end;
    cbn [fst snd]; intros H; try reflexivity; contradiction.
Qed.

Lemma take_free_add (n f : nat) : take_free n (n + f) = Some f.
Proof. induction n as [|n IH]; cbn [take_free Nat.add]; auto. Qed.

(** X5.  [grunt_stack_arg_dup n] with [n >= 1] puts a copy of the top [n]
    values, in their order, on top of the argument stack ([x y z] becomes
    [x y z y z] for [n = 2]) when the stack holds [n] values and [n]
    slots are free; with fewer than [n] values or fewer than [n] free
    slots it returns [GRUNT_ERROR_OUTOFBOUNDS]. *)
Theorem stack_dup_copies {pf : Platform} (s : stack_t) (n : Z)
    (top rest : list grunt_value_t) :
  stack_wf s -> 1 <= n ->
  arg_stack s = top ++ rest -> Z.of_nat (List.length top) = n ->
  (g_argument_count s + g_control_count s + n <= GRUNT_STACK_SIZE ->
   fst (grunt_stack_arg_dup n s) = 0 /\
   arg_stack (snd (grunt_stack_arg_dup n s)) = top ++ top ++ rest /\
   ctl_stack (snd (grunt_stack_arg_dup n s)) = ctl_stack s) /\
  (GRUNT_STACK_SIZE < g_argument_count s + g_control_count s + n ->
   fst (grunt_stack_arg_dup n s) = GRUNT_ERROR_OUTOFBOUNDS) /\
  (forall more : Z, g_argument_count s < more ->
   fst (grunt_stack_arg_dup more s) = GRUNT_ERROR_OUTOFBOUNDS).
Proof.
  intros Hwf Hn Hargs Hl. unfold GRUNT_STACK_SIZE.
  destruct (stack_wf_counts s Hwf) as [La Lc].
  split; [|split].
  - intros Hroom.
    destruct (stack_op_lists _ _ s (stack_rel_dup n ltac:(lia)) Hwf)
      as (ctl & free & Ec & Hf & E & A & C & _).
    rewrite Ec, length_map in Lc. rewrite Hargs in *.
    rewrite length_app in *.
    assert (D : l_arg_dup n (mkLStack (top ++ rest) ctl free)
                = (0, mkLStack (top ++ top ++ rest) ctl
                        (free - List.length top))).
    { unfold l_arg_dup. cbn [l_args l_ctl l_free].
      destruct (Z.eqb_spec n 0); [lia|].
      replace (Z.to_nat n) with (List.length top) by lia.
      rewrite take_n_app.
      replace free with (List.length top + (free - List.length top))%nat
        at 1 by lia.
      rewrite take_free_add. reflexivity. }
    rewrite D in E, A, C. cbn [fst snd l_args l_ctl] in E, A, C.
    split; [exact E|]. split; [exact A|]. rewrite C, Ec. reflexivity.
  - intros Hfull. unfold grunt_stack_arg_dup.
    destruct (Z.eqb_spec n 0); [lia|].
    destruct (Z.ltb_spec (g_argument_count s) n); [reflexivity|].
    unfold GRUNT_STACK_SIZE. rewrite Z.gtb_ltb.
    destruct (Z.ltb_spec (2 * 16)
                (g_argument_count s + g_control_count s + n));
      [reflexivity | lia].
  - intros more Hm. unfold grunt_stack_arg_dup.
    destruct Hwf as (_ & H0 & _).
    destruct (Z.eqb_spec more 0); [lia|].
    destruct (Z.ltb_spec (g_argument_count s) more); [reflexivity | lia].
Qed.

Lemma stack_dup_copies_witness :
  arg_stack
    (snd (grunt_stack_arg_dup (pf := buffered_le) 2 (stack_of
        [VNum 3; VNum 2; VNum 1] [])))
  = [VNum 3; VNum 2; VNum 3; VNum 2; VNum 1].
Proof.
  destruct (stack_dup_copies (pf := buffered_le) (stack_of
      [VNum 3; VNum 2; VNum 1] []) 2
              [VNum 3; VNum 2] [VNum 1]) as ([_ [E _]] & _);
    [closed_wf | lia | reflexivity | reflexivity | closed_wf | exact E].
Defined.

(** ** grunt_vm_logic.c *)

Section LogicOnLists.
Context {pf : Platform}.
Variable C : Z.
Let GMlc : GruntModules LC := lc_modules C.
#[local] Existing Instance GMlc.

Lemma lc_and_or_loop (flag : bool) (bs : list bool) :
  forall (acc : bool) (rb : grunt_value_t) (pc : Z)
         (rest : list grunt_value_t) (ctl : list Z) (free : nat)
         (i : input_t) (o : output_t),
  exists rb',
    and_or_loop (List.length bs) RA RB flag
      (mkVm (S := LC) (VBool acc) rb pc
         (mkLStack (map VBool bs ++ rest) ctl free, i, o))
    = (0, mkVm (S := LC) (VBool (fold_left (if flag then andb else orb) bs acc)) rb' pc
            (mkLStack rest ctl (List.length bs + free), i, o)).
Proof.
  induction bs as [|b bs IH]; intros acc rb pc rest ctl free i o.
  - exists rb. reflexivity.
  - destruct (IH (if flag then acc && b else acc || b) (VBool b) pc rest ctl
                (S free) i o) as [rb' E].
    exists rb'. cbn [List.length and_or_loop map app].
    unfold seq, arg_pop, call_out, require. cbn.
    rewrite Nat.add_succ_r in E. destruct flag; exact E.
Qed.

Lemma lc_eq_loop (x : Z) (xs : list Z) :
  forall (flag : bool) (rb : grunt_value_t) (pc : Z)
         (rest : list grunt_value_t) (ctl : list Z) (free : nat)
         (i : input_t) (o : output_t),
  exists rb',
    eq_loop (List.length xs) RA RB flag
      (mkVm (S := LC) (VNum x) rb pc (mkLStack (map VNum xs ++ rest) ctl free, i, o))
    = (0, mkVm (S := LC) (VBool (flag && forallb (Z.eqb x) xs)) rb' pc
            (mkLStack rest ctl (List.length xs + free), i, o)).
Proof.
  induction xs as [|y xs IH]; intros flag rb pc rest ctl free i o.
  - exists rb. cbn. rewrite andb_true_r. reflexivity.
  - destruct (IH (if num_ne x y then false else flag) (VNum y) pc rest
                ctl (S free) i o) as (rb' & E).
    exists rb'. cbn [List.length eq_loop map app forallb].
    unfold seq, arg_pop, call_out, require. cbn.
    rewrite Nat.add_succ_r in E.
    assert (Hb : (if num_ne x y then false else flag)
                 && forallb (Z.eqb x) xs
                 = flag && ((x =? y) && forallb (Z.eqb x) xs)).
    { unfold num_ne. destruct (x =? y); cbn; destruct flag; reflexivity. }
    rewrite Hb in E. exact E.
Qed.

Lemma lc_pop_loop (vs : list grunt_value_t) :
  forall (ra rb : grunt_value_t) (pc : Z)
         (rest : list grunt_value_t) (ctl : list Z) (free : nat)
         (i : input_t) (o : output_t),
  exists ra',
    pop_loop (List.length vs) RA
      (mkVm (S := LC) ra rb pc (mkLStack (vs ++ rest) ctl free, i, o))
    = (0, mkVm (S := LC) ra' rb pc
            (mkLStack rest ctl (List.length vs + free), i, o)).
Proof.
  induction vs as [|v vs IH]; intros ra rb pc rest ctl free i o.
  - exists ra. reflexivity.
  - destruct (IH v rb pc rest ctl (S free) i o) as [ra' E].
    exists ra'. cbn [List.length pop_loop app].
    unfold seq, arg_pop, call_out. cbn.
    rewrite Nat.add_succ_r in E. exact E.
Qed.

Lemma lc_and_or (flag : bool) (b : bool) (bs : list bool)
    (ra rb : grunt_value_t) (pc : Z) (rest : list grunt_value_t)
    (ctl : list Z) (free : nat) (i : input_t) (o : output_t) :
  bs <> [] ->
  exists ra' rb',
    grunt_vm_and_or RA RB (Z.of_nat (List.length (b :: bs))) flag
      (mkVm (S := LC) ra rb pc (mkLStack (map VBool (b :: bs) ++ rest) ctl free, i, o))
    = (0, mkVm (S := LC) ra' rb' pc
            (mkLStack
               (VBool (fold_left (if flag then andb else orb) bs b) :: rest)
               ctl (List.length bs + free), i, o)).
Proof.
  intros Hne. unfold grunt_vm_and_or.
  destruct (Z.ltb_spec (Z.of_nat (List.length (b :: bs))) 2) as [H|H].
  { destruct bs; [contradiction | cbn [List.length] in H; lia]. }
  replace (Z.to_nat (Z.of_nat (List.length (b :: bs)) - 1))
    with (List.length bs) by (cbn [List.length]; lia).
  destruct (lc_and_or_loop flag bs b rb pc rest ctl (S free) i o)
    as [rb' E].
  exists (VBool (fold_left (if flag then andb else orb) bs b)), rb'.
  unfold seq at 1. cbn [map app].
  unfold arg_pop at 1, call_out. cbn. unfold seq at 1, require. cbn.
  unfold seq. rewrite E. cbn. unfold arg_push, call. cbn.
  rewrite Nat.add_succ_r. reflexivity.
Qed.

Lemma lc_and_or_bad (flag : bool) (bs : list bool) (v : grunt_value_t) :
  is_bool v = false ->
  forall (k : nat) (acc : bool) (rb : grunt_value_t) (pc : Z)
         (rest : list grunt_value_t) (ctl : list Z) (free : nat)
         (i : input_t) (o : output_t),
  fst (and_or_loop (List.length bs + S k) RA RB flag
         (mkVm (S := LC) (VBool acc) rb pc
            (mkLStack (map VBool bs ++ v :: rest) ctl free, i, o)))
  = GRUNT_ERROR_INVALIDARGUMENT.
Proof.
  intros Hv k. induction bs as [|b bs IH];
    intros acc rb pc rest ctl free i o.
  - cbn [List.length Nat.add and_or_loop map app].
    unfold seq, arg_pop, call_out, require. cbn.
    rewrite Hv. reflexivity.
  - cbn [List.length Nat.add and_or_loop map app].
    unfold seq, arg_pop, call_out, require. cbn. apply IH.
Qed.
Lemma lc_eq (x : Z) (xs : list Z)
    (ra rb : grunt_value_t) (pc : Z) (rest : list grunt_value_t)
    (ctl : list Z) (free : nat) (i : input_t) (o : output_t) :
  xs <> [] ->
  exists ra' rb',
    grunt_vm_eq RA RB (Z.of_nat (List.length (x :: xs)))
      (mkVm (S := LC) ra rb pc
         (mkLStack (map VNum (x :: xs) ++ rest) ctl free, i, o))
    = (0, mkVm (S := LC) ra' rb' pc
            (mkLStack (VBool (forallb (Z.eqb x) xs) :: rest)
               ctl (List.length xs + free), i, o)).
Proof.
  intros Hne. unfold grunt_vm_eq.
  destruct (Z.ltb_spec (Z.of_nat (List.length (x :: xs))) 2) as [H|H].
  { destruct xs; [contradiction | cbn [List.length] in H; lia]. }
  replace (Z.to_nat (Z.of_nat (List.length (x :: xs)) - 1))
    with (List.length xs) by (cbn [List.length]; lia).
  destruct (lc_eq_loop x xs true rb pc rest ctl (S free) i o)
    as [rb' E].
  exists (VBool (forallb (Z.eqb x) xs)), rb'.
  unfold seq at 1. cbn [map app].
  unfold arg_pop at 1, call_out. cbn. unfold seq at 1, require. cbn.
  unfold seq. rewrite E. cbn. unfold arg_push, call. cbn.
  rewrite Nat.add_succ_r. reflexivity.
Qed.

Lemma lc_pop_loop_short (vs : list grunt_value_t) (k : nat) :
  forall (ra rb : grunt_value_t) (pc : Z) (ctl : list Z) (free : nat)
         (i : input_t) (o : output_t),
  exists ra',
    pop_loop (List.length vs + S k) RA
      (mkVm (S := LC) ra rb pc (mkLStack vs ctl free, i, o))
    = (GRUNT_ERROR_OUTOFBOUNDS,
       mkVm (S := LC) ra' rb pc
         (mkLStack [] ctl (List.length vs + free), i, o)).
Proof.
  induction vs as [|v vs IH]; intros ra rb pc ctl free i o.
  - exists ra. reflexivity.
  - destruct (IH v rb pc ctl (S free) i o) as [ra' E].
    exists ra'. cbn [List.length pop_loop Nat.add].
    unfold seq, arg_pop, call_out. cbn.
    rewrite (Nat.add_succ_r (List.length vs) free) in E. exact E.
Qed.
End LogicOnLists.

Lemma fold_andb (bs : list bool) (b : bool) :
  fold_left andb bs b = b && forallb (fun x => x) bs.
Proof.
  revert b. induction bs as [|c bs IH]; intros b; cbn.
  - now rewrite andb_true_r.
  - rewrite IH. now rewrite andb_assoc.
Qed.

Lemma fold_orb (bs : list bool) (b : bool) :
  fold_left orb bs b = b || existsb (fun x => x) bs.
Proof.
  revert b. induction bs as [|c bs IH]; intros b; cbn.
  - now rewrite orb_false_r.
  - rewrite IH. now rewrite orb_assoc.
Qed.

(** The list-stack state of [step_view], with the argument stack of
    [m] given by [Hargs] and the instruction not yet run. *)
Ltac lc_open C i m Hwf Hargs :=
  let ctl := fresh "ctl" in
  let free := fresh "free" in
  let Hc := fresh "Hctl" in
  let Hn := fresh "Hroom" in
  let Es := fresh "Est" in
  let V := fresh "Hview" in
  let res := fresh "res" in
  destruct (step_view C i m Hwf) as (ctl & free & Hc & Hn & Es & V);
  set (res := grunt_vm_step (GM := c_modules C) i m) in *;
  clearbody res;
  unfold lc_at in Es, V; rewrite Hargs in Es, V, Hn;
  unfold grunt_vm_step, set_pc in Es, V;
  cbn [g_ra g_rb g_pc mods] in Es, V.

Ltac lc_open0 C i m Hwf :=
  let ctl := fresh "ctl" in
  let free := fresh "free" in
  let Hc := fresh "Hctl" in
  let Hn := fresh "Hroom" in
  let Es := fresh "Est" in
  let V := fresh "Hview" in
  let res := fresh "res" in
  destruct (step_view C i m Hwf) as (ctl & free & Hc & Hn & Es & V);
  set (res := grunt_vm_step (GM := c_modules C) i m) in *;
  clearbody res;
  unfold lc_at in Es, V;
  unfold grunt_vm_step, set_pc in Es, V;
  cbn [g_ra g_rb g_pc mods] in Es, V.

(** X6.  [AND n] and [OR n] with [n >= 2] replace the top [n] values of
    the argument stack, all Booleans, by their conjunction, respectively
    their disjunction; when one of the top [n] values is not a Boolean
    the status is [GRUNT_ERROR_INVALIDARGUMENT]. *)
Theorem and_or_folds {pf : Platform} (C : Z) (m : grunt_t) (n : N) :
  stack_wf (the_stack m) -> 2 <= Z.of_N n ->
  (forall (bs : list bool) (rest : list grunt_value_t),
     arg_stack (the_stack m) = map VBool bs ++ rest ->
     Z.of_nat (List.length bs) = Z.of_N n ->
     let a := grunt_vm_step (GM := c_modules C) (AND n) m in
     let o := grunt_vm_step (GM := c_modules C) (OR n) m in
     fst a = 0 /\
     arg_stack (the_stack (snd a))
     = VBool (forallb (fun b => b) bs) :: rest /\
     fst o = 0 /\
     arg_stack (the_stack (snd o))
     = VBool (existsb (fun b => b) bs) :: rest) /\
  (forall (bs : list bool) (v : grunt_value_t) (rest : list grunt_value_t),
     arg_stack (the_stack m) = map VBool bs ++ v :: rest ->
     Z.of_nat (List.length bs) < Z.of_N n ->
     is_bool v = false ->
     fst (grunt_vm_step (GM := c_modules C) (AND n) m)
     = GRUNT_ERROR_INVALIDARGUMENT /\
     fst (grunt_vm_step (GM := c_modules C) (OR n) m)
     = GRUNT_ERROR_INVALIDARGUMENT).
Proof.
  intros Hwf Hn. split.
  - intros bs rest Hargs Hl a o. subst a o.
    destruct bs as [|b bs]; [cbn in Hl; lia|].
    assert (Hne : bs <> []) by (destruct bs; [cbn in Hl; lia | discriminate]).
    split; [|split; [|split]].
    + lc_open C (AND n) m Hwf Hargs.
      change (grunt_vm_dispatch (AND n))
        with (grunt_vm_and_or (GM := lc_modules C) RA RB (Z.of_N n) true)
        in Est.
      rewrite <- Hl in Est.
      destruct (lc_and_or C true b bs (g_ra m) (g_rb m)
                  (wrap16 (g_pc m + 1)) rest ctl free (the_input m)
                  (the_output m) Hne) as (ra' & rb' & E).
      rewrite E in Est. exact Est.
    + lc_open C (AND n) m Hwf Hargs.
      change (grunt_vm_dispatch (AND n))
        with (grunt_vm_and_or (GM := lc_modules C) RA RB (Z.of_N n) true)
        in Hview.
      rewrite <- Hl in Hview.
      destruct (lc_and_or C true b bs (g_ra m) (g_rb m)
                  (wrap16 (g_pc m + 1)) rest ctl free (the_input m)
                  (the_output m) Hne) as (ra' & rb' & E).
      rewrite E in Hview. rewrite (sv_args _ _ Hview). cbn.
      rewrite fold_andb. reflexivity.
    + lc_open C (OR n) m Hwf Hargs.
      change (grunt_vm_dispatch (OR n))
        with (grunt_vm_and_or (GM := lc_modules C) RA RB (Z.of_N n) false)
        in Est.
      rewrite <- Hl in Est.
      destruct (lc_and_or C false b bs (g_ra m) (g_rb m)
                  (wrap16 (g_pc m + 1)) rest ctl free (the_input m)
                  (the_output m) Hne) as (ra' & rb' & E).
      rewrite E in Est. exact Est.
    + lc_open C (OR n) m Hwf Hargs.
      change (grunt_vm_dispatch (OR n))
        with (grunt_vm_and_or (GM := lc_modules C) RA RB (Z.of_N n) false)
        in Hview.
      rewrite <- Hl in Hview.
      destruct (lc_and_or C false b bs (g_ra m) (g_rb m)
                  (wrap16 (g_pc m + 1)) rest ctl free (the_input m)
                  (the_output m) Hne) as (ra' & rb' & E).
      rewrite E in Hview. rewrite (sv_args _ _ Hview). cbn.
      rewrite fold_orb. reflexivity.
  - intros bs v rest Hargs Hl Hv.
    assert (Hbad : forall flag,
      fst (grunt_vm_and_or (GM := lc_modules C) RA RB (Z.of_N n) flag
             (mkVm (S := LC) (g_ra m) (g_rb m) (wrap16 (g_pc m + 1))
                (mkLStack (map VBool bs ++ v :: rest)
                   (l_ctl (list_view (the_stack m)))
                   (l_free (list_view (the_stack m))),
                 the_input m, the_output m)))
      = GRUNT_ERROR_INVALIDARGUMENT).
    { intros flag. unfold grunt_vm_and_or.
      destruct (Z.ltb_spec (Z.of_N n) 2); [lia|].
      destruct bs as [|b bs].
      - unfold seq, arg_pop, call_out, require. cbn. rewrite Hv.
        reflexivity.
      - unfold seq at 1. cbn [map app].
        unfold arg_pop at 1, call_out. cbn. unfold seq at 1, require. cbn.
        unfold seq.
        replace (Z.to_nat (Z.of_N n - 1))
          with (List.length bs
                + S (Z.to_nat (Z.of_N n - 2) - List.length bs))%nat
          by (cbn [List.length] in Hl; lia).
        pose proof (lc_and_or_bad C flag bs v Hv
                      (Z.to_nat (Z.of_N n - 2) - List.length bs) b
                      (g_rb m) (wrap16 (g_pc m + 1)) rest
                      (l_ctl (list_view (the_stack m)))
                      (S (l_free (list_view (the_stack m))))
                      (the_input m) (the_output m)) as B.
        destruct (and_or_loop _ RA RB flag _) as [st m'].
        cbn [fst] in B. subst st. reflexivity. }
    destruct (vsim_step _ (c_lc_sim C) (AND n) m (lc_view m)
                (vsim_lc_view m Hwf)) as [Ea _].
    destruct (vsim_step _ (c_lc_sim C) (OR n) m (lc_view m)
                (vsim_lc_view m Hwf)) as [Eo _].
    unfold lc_view, lc_at in Ea, Eo. rewrite Hargs in Ea, Eo.
    split.
    + rewrite Ea. exact (Hbad true).
    + rewrite Eo. exact (Hbad false).
Qed.

Lemma and_or_folds_witness :
  let m := grunt_with_args 122 [VBool true; VBool false; VBool true] in
  arg_stack (the_stack (snd (grunt_vm_step
      (GM := c_modules (pf := buffered_le) 122) (AND 3) m)))
  = [VBool false] /\
  arg_stack (the_stack (snd (grunt_vm_step
      (GM := c_modules (pf := buffered_le) 122) (OR 2) m)))
  = [VBool true; VBool true].
Proof.
  cbv zeta. split.
  - destruct (and_or_folds (pf := buffered_le) 122
                (grunt_with_args 122 [VBool true; VBool false; VBool true]) 3)
      as [H _]; [closed_wf | lia |].
    destruct (H [true; false; true] [] eq_refl eq_refl) as (_ & E & _).
    exact E.
  - destruct (and_or_folds (pf := buffered_le) 122
                (grunt_with_args 122 [VBool true; VBool false; VBool true]) 2)
      as [H _]; [closed_wf | lia |].
    destruct (H [true; false] [VBool true] eq_refl eq_refl)
      as (_ & _ & _ & E).
    exact E.
Defined.


Lemma forallb_eqb_all (x : Z) (xs : list Z) :
  forallb (Z.eqb x) xs = true <-> (forall y, In y (x :: xs) -> y = x).
Proof.
  rewrite forallb_forall. split.
  - intros H y [<-|Hy]; [reflexivity|].
    symmetry. apply Z.eqb_eq, H, Hy.
  - intros H y Hy. apply Z.eqb_eq. symmetry. apply H. right. exact Hy.
Qed.

(** X7.  [EQ n] with [n >= 2] replaces the top [n] values of the argument
    stack, all numbers, by one Boolean, which is true exactly when the
    [n] numbers are all equal; the comparison goes on after a first
    difference, so that all [n] values are popped. *)
Theorem eq_compares_all {pf : Platform} (C : Z) (m : grunt_t) (n : N)
    (x : Z) (xs : list Z) (rest : list grunt_value_t) :
  stack_wf (the_stack m) -> 2 <= Z.of_N n ->
  arg_stack (the_stack m) = map VNum (x :: xs) ++ rest ->
  Z.of_nat (List.length (x :: xs)) = Z.of_N n ->
  exists b : bool,
    fst (grunt_vm_step (GM := c_modules C) (EQ n) m) = 0 /\
    arg_stack (the_stack (snd (grunt_vm_step (GM := c_modules C) (EQ n) m)))
    = VBool b :: rest /\
    (b = true <-> forall y, In y (x :: xs) -> y = x).
Proof.
  intros Hwf Hn Hargs Hl. exists (forallb (Z.eqb x) xs).
  assert (Hne : xs <> []) by (destruct xs; [cbn in Hl; lia | discriminate]).
  lc_open C (EQ n) m Hwf Hargs.
  change (grunt_vm_dispatch (EQ n))
    with (grunt_vm_eq (GM := lc_modules C) RA RB (Z.of_N n)) in Est, Hview.
  rewrite <- Hl in Est, Hview.
  destruct (lc_eq C x xs (g_ra m) (g_rb m) (wrap16 (g_pc m + 1)) rest ctl
              free (the_input m) (the_output m) Hne) as (ra' & rb' & E).
  rewrite E in Est, Hview.
  split; [exact Est|]. split; [exact (sv_args _ _ Hview)|].
  apply forallb_eqb_all.
Qed.

Lemma eq_compares_all_witness :
  let m := grunt_with_args 122 [VNum 7; VNum 7; VNum 8; VNum 7] in
  arg_stack (the_stack (snd (grunt_vm_step
      (GM := c_modules (pf := buffered_le) 122) (EQ 3) m)))
  = [VBool false; VNum 7].
Proof.
  cbv zeta.
  destruct (eq_compares_all (pf := buffered_le) 122
              (grunt_with_args 122 [VNum 7; VNum 7; VNum 8; VNum 7]) 3
              7 [7; 8] [VNum 7]) as (b & _ & E & Hb);
    [closed_wf | lia | reflexivity | reflexivity |].
  rewrite E. destruct b; [|reflexivity].
  assert (H8 : 8 = 7) by (apply (proj1 Hb eq_refl); cbn; auto).
  discriminate H8.
Defined.

(** X8.  [LT] and [GT] compare the value beneath the top with the top:
    on [a b] ([b] topmost) [LT] leaves [a < b] and [GT] leaves [a > b],
    so that [7 11 LT] is true; a top value that is not a number gives
    [GRUNT_ERROR_INVALIDARGUMENT]. *)
Theorem lt_gt_compare {pf : Platform} (C : Z) (m : grunt_t) :
  stack_wf (the_stack m) ->
  (forall (a b : Z) (rest : list grunt_value_t),
     arg_stack (the_stack m) = VNum b :: VNum a :: rest ->
     let lt := grunt_vm_step (GM := c_modules C) LT m in
     let gt := grunt_vm_step (GM := c_modules C) GT m in
     fst lt = 0 /\ arg_stack (the_stack (snd lt)) = VBool (a <? b) :: rest /\
     fst gt = 0 /\ arg_stack (the_stack (snd gt)) = VBool (a >? b) :: rest) /\
  (forall (v : grunt_value_t) (rest : list grunt_value_t),
     arg_stack (the_stack m) = v :: rest -> is_num v = false ->
     fst (grunt_vm_step (GM := c_modules C) LT m)
     = GRUNT_ERROR_INVALIDARGUMENT /\
     fst (grunt_vm_step (GM := c_modules C) GT m)
     = GRUNT_ERROR_INVALIDARGUMENT).
Proof.
  intros Hwf. split.
  - intros a b rest Hargs lt gt. subst lt gt.
    split; [|split; [|split]].
    + lc_step C LT m Hwf Hargs. exact Est.
    + lc_step C LT m Hwf Hargs. exact (sv_args _ _ Hview).
    + lc_step C GT m Hwf Hargs. exact Est.
    + lc_step C GT m Hwf Hargs. exact (sv_args _ _ Hview).
  - intros v rest Hargs Hv. split.
    + destruct v; try discriminate Hv; lc_step C LT m Hwf Hargs; exact Est.
    + destruct v; try discriminate Hv; lc_step C GT m Hwf Hargs; exact Est.
Qed.

Lemma lt_gt_compare_witness :
  let m := grunt_with_args 122 [VNum 11; VNum 7] in
  arg_stack (the_stack (snd (grunt_vm_step
      (GM := c_modules (pf := buffered_le) 122) LT m)))
  = [VBool true] /\
  arg_stack (the_stack (snd (grunt_vm_step
      (GM := c_modules (pf := buffered_le) 122) GT m)))
  = [VBool false].
Proof.
  cbv zeta.
  destruct (lt_gt_compare (pf := buffered_le) 122 (grunt_with_args 122
      [VNum 11; VNum 7]))
    as [H _]; [closed_wf|].
  destruct (H 7 11 [] eq_refl) as (_ & E1 & _ & E2).
  split; [exact E1 | exact E2].
Defined.

(** X9.  [NOT] replaces a Boolean on top of the argument stack by its
    negation, and a second [NOT] brings the argument stack back to what
    it was. *)
Theorem not_twice {pf : Platform} (C : Z) (m : grunt_t) (b : bool)
    (rest : list grunt_value_t) :
  stack_wf (the_stack m) ->
  arg_stack (the_stack m) = VBool b :: rest ->
  let once := grunt_vm_step (GM := c_modules C) NOT m in
  let twice := grunt_vm_step (GM := c_modules C) NOT (snd once) in
  fst once = 0 /\ arg_stack (the_stack (snd once)) = VBool (negb b) :: rest /\
  fst twice = 0 /\ arg_stack (the_stack (snd twice)) = arg_stack (the_stack m).
Proof.
  intros Hwf Hargs once twice. subst twice once.
  assert (H1 : fst (grunt_vm_step (GM := c_modules C) NOT m) = 0 /\
               arg_stack (the_stack
                 (snd (grunt_vm_step (GM := c_modules C) NOT m)))
               = VBool (negb b) :: rest /\
               stack_wf (the_stack
                 (snd (grunt_vm_step (GM := c_modules C) NOT m)))).
  { lc_step C NOT m Hwf Hargs.
    split; [exact Est|]. split; [exact (sv_args _ _ Hview)|].
    exact (sv_wf _ _ Hview). }
  destruct H1 as (E1 & A1 & W1).
  split; [exact E1|]. split; [exact A1|].
  set (m1 := snd (grunt_vm_step (GM := c_modules C) NOT m)) in *.
  clearbody m1.
  lc_step C NOT m1 W1 A1.
  split; [exact Est|]. rewrite (sv_args _ _ Hview), Hargs.
  cbn. rewrite negb_involutive. reflexivity.
Qed.

Lemma not_twice_witness :
  let m := grunt_with_args 122 [VBool true; VNum 5] in
  arg_stack
    (the_stack
       (snd (grunt_vm_step (GM := c_modules (pf := buffered_le) 122) NOT
               (snd (grunt_vm_step
                   (GM := c_modules (pf := buffered_le) 122) NOT m)))))
  = [VBool true; VNum 5].
Proof.
  cbv zeta.
  destruct (not_twice (pf := buffered_le) 122 (grunt_with_args 122
      [VBool true; VNum 5]) true
              [VNum 5]) as (_ & _ & _ & E); [closed_wf | reflexivity |].
  exact E.
Defined.

(** ** grunt_vm_stack.c *)

(** X10.  [POP n] with [n >= 1] removes the top [n] values of the
    argument stack.  When the stack holds fewer than [n] values the
    status is [GRUNT_ERROR_OUTOFBOUNDS] and the pops made before the
    failure stand: the argument stack is left empty.  [POP 0] is
    [GRUNT_ERROR_INVALIDLITERAL]. *)
Theorem pop_removes {pf : Platform} (C : Z) (m : grunt_t) (n : N) :
  stack_wf (the_stack m) ->
  (forall top rest : list grunt_value_t,
     1 <= Z.of_N n ->
     arg_stack (the_stack m) = top ++ rest ->
     Z.of_nat (List.length top) = Z.of_N n ->
     fst (grunt_vm_step (GM := c_modules C) (POP n) m) = 0 /\
     arg_stack (the_stack (snd (grunt_vm_step (GM := c_modules C) (POP n) m)))
     = rest) /\
  (Z.of_nat (List.length (arg_stack (the_stack m))) < Z.of_N n ->
   fst (grunt_vm_step (GM := c_modules C) (POP n) m)
   = GRUNT_ERROR_OUTOFBOUNDS /\
   arg_stack (the_stack (snd (grunt_vm_step (GM := c_modules C) (POP n) m)))
   = []) /\
  (n = 0%N ->
   fst (grunt_vm_step (GM := c_modules C) (POP n) m)
   = GRUNT_ERROR_INVALIDLITERAL).
Proof.
  intros Hwf. split; [|split].
  - intros top rest Hn Hargs Hl.
    lc_open C (POP n) m Hwf Hargs.
    change (grunt_vm_dispatch (POP n))
      with (grunt_vm_pop (GM := lc_modules C) RA (Z.of_N n)) in Est, Hview.
    unfold grunt_vm_pop in Est, Hview.
    destruct (Z.ltb_spec (Z.of_N n) 1); [lia|].
    replace (Z.to_nat (Z.of_N n)) with (List.length top) in Est, Hview
      by lia.
    destruct (lc_pop_loop C top (g_ra m) (g_rb m) (wrap16 (g_pc m + 1)) rest
                ctl free (the_input m) (the_output m)) as [ra' E].
    rewrite E in Est, Hview.
    split; [exact Est | exact (sv_args _ _ Hview)].
  - intros Hshort.
    lc_open0 C (POP n) m Hwf.
    change (grunt_vm_dispatch (POP n))
      with (grunt_vm_pop (GM := lc_modules C) RA (Z.of_N n)) in Est, Hview.
    unfold grunt_vm_pop in Est, Hview.
    destruct (Z.ltb_spec (Z.of_N n) 1); [lia|].
    replace (Z.to_nat (Z.of_N n))
      with (List.length (arg_stack (the_stack m))
            + S (Z.to_nat (Z.of_N n)
                 - S (List.length (arg_stack (the_stack m)))))%nat
      in Est, Hview by lia.
    destruct (lc_pop_loop_short C (arg_stack (the_stack m))
                (Z.to_nat (Z.of_N n)
                 - S (List.length (arg_stack (the_stack m))))
                (g_ra m) (g_rb m) (wrap16 (g_pc m + 1))
                ctl free (the_input m) (the_output m)) as [ra' E].
    rewrite E in Est, Hview.
    split; [exact Est | exact (sv_args _ _ Hview)].
  - intros ->. reflexivity.
Qed.

Lemma pop_removes_witness :
  let m := grunt_with_args 122 [VNum 3; VNum 2; VNum 1] in
  arg_stack (the_stack (snd (grunt_vm_step
      (GM := c_modules (pf := buffered_le) 122) (POP 2) m)))
  = [VNum 1] /\
  fst (grunt_vm_step (GM := c_modules (pf := buffered_le) 122) (POP 4) m)
  = GRUNT_ERROR_OUTOFBOUNDS.
Proof.
  cbv zeta. split.
  - destruct (pop_removes (pf := buffered_le) 122
                (grunt_with_args 122 [VNum 3; VNum 2; VNum 1]) 2)
      as [H _]; [closed_wf|].
    destruct (H [VNum 3; VNum 2] [VNum 1]) as [_ E];
      [lia | reflexivity | reflexivity | exact E].
  - destruct (pop_removes (pf := buffered_le) 122
                (grunt_with_args 122 [VNum 3; VNum 2; VNum 1]) 4)
      as (_ & H & _); [closed_wf|].
    destruct H as [E _]; [vm_compute; reflexivity | exact E].
Defined.

(** X11.  [PUSHB], [PUSHN] and [PUSHS] check the type of their literal:
    a literal of the type the instruction names is pushed on the argument
    stack when a slot is free; a literal of another type gives
    [GRUNT_ERROR_INVALIDLITERAL] and the modules are left untouched. *)
Theorem push_checks_literal {pf : Platform} (C : Z) (m : grunt_t) (o : Z)
    (t : grunt_value_type_t) (rep : N) (lit : grunt_value_t) :
  stack_wf (the_stack m) ->
  In (o, t) [(GRUNT_OP_PUSHB, gt_bool); (GRUNT_OP_PUSHN, gt_num);
             (GRUNT_OP_PUSHS, gt_str)] ->
  let r := grunt_vm_step (GM := c_modules C) (mkInstr o rep lit) m in
  (value_type lit = t ->
   g_argument_count (the_stack m) + g_control_count (the_stack m)
   < GRUNT_STACK_SIZE ->
   fst r = 0 /\ arg_stack (the_stack (snd r)) = lit :: arg_stack (the_stack m))
  /\
  (value_type lit <> t ->
   fst r = GRUNT_ERROR_INVALIDLITERAL /\ mods (snd r) = mods m).
Proof.
  intros Hwf Hin r. subst r. split.
  - intros Ht Hroom. unfold GRUNT_STACK_SIZE in Hroom.
    destruct (stack_wf_counts _ Hwf) as [La Lc].
    lc_open0 C (mkInstr o rep lit) m Hwf.
    rewrite Hctl, length_map in Lc.
    destruct free as [|f]; [lia|].
    cbn [In] in Hin.
    destruct Hin as [H|[H|[H|[]]]]; injection H as <- <-;
      destruct lit; try discriminate Ht;
      cbn in Est, Hview;
      (split; [exact Est | exact (sv_args _ _ Hview)]).
  - intros Ht. cbn [In] in Hin.
    destruct Hin as [H|[H|[H|[]]]]; injection H as <- <-;
      destruct lit; try (exfalso; apply Ht; reflexivity);
      split; reflexivity.
Qed.

Lemma push_checks_literal_witness :
  let m := grunt_with_args 122 [VNum 1] in
  arg_stack (the_stack (snd (grunt_vm_step
      (GM := c_modules (pf := buffered_le) 122) (PUSHS 4) m)))
  = [VStr 4; VNum 1] /\
  fst (grunt_vm_step (GM := c_modules (pf := buffered_le) 122)
         (mkInstr GRUNT_OP_PUSHN 0 (VStr 4)) m)
  = GRUNT_ERROR_INVALIDLITERAL.
Proof.
  cbv zeta. split.
  - destruct (push_checks_literal (pf := buffered_le) 122 (grunt_with_args 122
      [VNum 1])
                GRUNT_OP_PUSHS gt_str 0 (VStr 4)) as [H _];
      [closed_wf | cbn; auto |].
    destruct H as [_ E]; [reflexivity | closed_wf | exact E].
  - destruct (push_checks_literal (pf := buffered_le) 122 (grunt_with_args 122
      [VNum 1])
                GRUNT_OP_PUSHN gt_num 0 (VStr 4)) as [_ H];
      [closed_wf | cbn; auto |].
    destruct H as [E _]; [discriminate | exact E].
Defined.

(** ** grunt_vm_control.c *)

(** X12.  [JMPIF] only moves the program counter forward.  With a
    literal below 2 it returns [GRUNT_ERROR_INVALIDLITERAL] before it
    pops anything.  Otherwise it pops a Boolean: on false the program
    counter is one past the [JMPIF]; on true it is the [JMPIF]'s own
    counter plus the literal when that sum is at most [65534], and the
    status is [GRUNT_ERROR_NOPROGRAM] when the sum is [65535] or more. *)
Theorem jmpif_forward {pf : Platform} (C : Z) (m : grunt_t) (lit : Z) (b : bool)
    (rest : list grunt_value_t) :
  stack_wf (the_stack m) -> 0 <= g_pc m < UINT16_MAX ->
  arg_stack (the_stack m) = VBool b :: rest ->
  let r := grunt_vm_step (GM := c_modules C) (JMPIF lit) m in
  (lit < 2 -> fst r = GRUNT_ERROR_INVALIDLITERAL /\ mods (snd r) = mods m) /\
  (2 <= lit -> b = false ->
   fst r = 0 /\ g_pc (snd r) = g_pc m + 1 /\
   arg_stack (the_stack (snd r)) = rest) /\
  (2 <= lit -> b = true -> g_pc m + lit < UINT16_MAX ->
   fst r = 0 /\ g_pc (snd r) = g_pc m + lit /\
   arg_stack (the_stack (snd r)) = rest) /\
  (2 <= lit -> b = true -> UINT16_MAX <= g_pc m + lit ->
   fst r = GRUNT_ERROR_NOPROGRAM).
Proof.
  intros Hwf Hpc Hargs r. subst r. unfold UINT16_MAX in *.
  split; [|split; [|split]].
  - intros Hl. unfold grunt_vm_step, grunt_vm_dispatch. cbn.
    destruct (Z.ltb_spec lit 2); [split; reflexivity | lia].
  - intros Hl ->. lc_step C (JMPIF lit) m Hwf Hargs.
    unfold grunt_vm_jmpif in Est, Hview. cbn -[wrap16 Z.ltb] in Est, Hview.
    destruct (Z.ltb_spec lit 2); [lia|]. cbn -[wrap16] in Est, Hview.
    split; [exact Est|]. rewrite (sv_pc _ _ Hview), (sv_args _ _ Hview).
    cbn -[wrap16]. rewrite wrap16_succ by lia. split; reflexivity.
  - intros Hl -> Hj. lc_open C (JMPIF lit) m Hwf Hargs.
    change (grunt_vm_dispatch (JMPIF lit))
      with (grunt_vm_jmpif (GM := lc_modules C) RA (VPc lit)) in Est, Hview.
    unfold grunt_vm_jmpif in Est, Hview.
    cbn -[wrap16 Z.ltb Z.gtb Z.sub Z.add] in Est, Hview.
    destruct (Z.ltb_spec lit 2); [lia|].
    cbn -[wrap16 Z.ltb Z.gtb Z.sub Z.add] in Est, Hview.
    rewrite wrap16_succ in Est, Hview by lia.
    unfold UINT16_MAX in Est, Hview. rewrite Z.gtb_ltb in Est, Hview.
    destruct (Z.ltb_spec (65535 - (g_pc m + 1)) lit); [lia|].
    cbn -[wrap16 Z.sub Z.add] in Est, Hview.
    split; [exact Est|]. rewrite (sv_pc _ _ Hview), (sv_args _ _ Hview).
    cbn -[wrap16 Z.sub Z.add]. split; [|reflexivity].
    unfold wrap16. rewrite Z.mod_small by lia. lia.
  - intros Hl -> Hj. lc_open C (JMPIF lit) m Hwf Hargs.
    change (grunt_vm_dispatch (JMPIF lit))
      with (grunt_vm_jmpif (GM := lc_modules C) RA (VPc lit)) in Est.
    unfold grunt_vm_jmpif in Est.
    cbn -[wrap16 Z.ltb Z.gtb Z.sub Z.add] in Est.
    destruct (Z.ltb_spec lit 2); [lia|].
    cbn -[wrap16 Z.ltb Z.gtb Z.sub Z.add] in Est.
    rewrite wrap16_succ in Est by lia.
    unfold UINT16_MAX in Est. rewrite Z.gtb_ltb in Est.
    destruct (Z.ltb_spec (65535 - (g_pc m + 1)) lit); [|lia].
    exact Est.
Qed.

Lemma jmpif_forward_witness :
  let m := grunt_with_args 122 [VBool true; VNum 7] in
  let r := grunt_vm_step (GM := c_modules (pf := buffered_le) 122)
      (JMPIF 5) m in
  fst r = 0 /\ g_pc (snd r) = 5 /\ arg_stack (the_stack (snd r)) = [VNum 7].
Proof.
  cbv zeta.
  destruct (jmpif_forward (pf := buffered_le) 122 (grunt_with_args 122
      [VBool true; VNum 7])
              5 true [VNum 7]) as (_ & _ & H & _);
    [ closed_wf | cbn; unfold UINT16_MAX; lia | reflexivity | ].
  apply H; [lia | reflexivity | cbn; unfold UINT16_MAX; lia].
Defined.

Section Statuses.
Context {pf : Platform}.
Variable C : Z.
Let GMlc : GruntModules LC := lc_modules C.
#[local] Existing Instance GMlc.

Lemma good_call lit (m : vm_t LC) :
  good_status (fst (grunt_vm_call RA lit m)).
Proof.
  destruct m as [ra rb pc [[[args ctl free] i] o]].
  unfold grunt_vm_call. cbn [g_pc].
  destruct (negb _); [gs|]. destruct (_ <? _); [gs|].
  unfold seq, ctl_push, call.
  cbn [stack_ctl_push GMlc lc_modules modules_of l_stack k_ctl_push].
  unfold on_stack, l_ctl_push. unfold_status.
  destruct free; cbn; [right; lia | left; reflexivity].
Qed.

Lemma good_return (m : vm_t LC) : good_status (fst (grunt_vm_return RA m)).
Proof.
  destruct m as [ra rb pc [[[args ctl free] i] o]].
  unfold grunt_vm_return, seq, ctl_pop, call_out.
  cbn [stack_ctl_pop GMlc lc_modules modules_of l_stack k_ctl_pop].
  unfold on_stack, l_ctl_pop. unfold_status.
  destruct ctl; cbn; [right; lia | left; reflexivity].
Qed.

Lemma good_jmpif lit (m : vm_t LC) :
  good_status (fst (grunt_vm_jmpif RA lit m)).
Proof.
  unfold grunt_vm_jmpif.
  destruct (negb _); [gs|]. destruct (_ <? 2); [gs|].
  unfold seq, require.
  destruct (keeps_arg_pop C RA m) as [G _].
  destruct (arg_pop RA m) as [st m1]. cbn [fst snd] in *.
  destruct (Z.eqb_spec st 0) as [->|Hne];
    [|destruct G as [G|G]; [contradiction | right; exact G]].
  destruct (is_bool _); unfold good_status; unfold_status;
    cbn [Z.eqb fst snd]; [|right; lia].
  destruct (negb _); cbn [fst]; [left; reflexivity|].
  destruct (_ >? _); cbn [fst]; [right; lia | left; reflexivity].
Qed.

Lemma final_halt (m : vm_t LC) : final_status (fst (grunt_vm_halt RA m)).
Proof.
  unfold grunt_vm_halt, seq, require.
  destruct (keeps_arg_pop C RA m) as [G _].
  destruct (arg_pop RA m) as [st m1]. cbn [fst snd] in *.
  destruct (Z.eqb_spec st 0) as [->|Hne];
    [|destruct G as [G|G]; [contradiction | right; right; exact G]].
  destruct (is_bool _); unfold final_status; unfold_status;
    cbn [Z.eqb fst snd].
  - destruct (val_b _); [left | right; left]; reflexivity.
  - right. right. lia.
Qed.

Lemma good_dispatch i (m : vm_t LC) :
  op i <> GRUNT_OP_HALT -> good_status (fst (grunt_vm_dispatch i m)).
Proof.
  intros Hh. unfold grunt_vm_dispatch. cbv zeta.
  repeat match goal with
         | |- context [if ?a =? ?b then _ else _] =>
             destruct (Z.eqb_spec a b)
         end;
    try contradiction;
    try first
      [ apply good_call | apply good_return | apply good_jmpif
      | exact (proj1 (keeps_vm_add_sub C _ _ _ m))
      | exact (proj1 (keeps_vm_and_or C _ _ _ _ m))
      | exact (proj1 (keeps_vm_dup C _ m))
      | exact (proj1 (keeps_vm_eq C _ _ _ m))
      | exact (proj1 (keeps_vm_flush C _ _ m))
      | exact (proj1 (keeps_vm_lt_gt C _ _ _ m))
      | exact (proj1 (keeps_vm_input C _ _ m))
      | exact (proj1 (keeps_vm_not C _ m))
      | exact (proj1 (keeps_vm_output C _ m))
      | exact (proj1 (keeps_vm_pop C _ _ m))
      | exact (proj1 (keeps_vm_pushb C _ m))
      | exact (proj1 (keeps_vm_pushn C _ m))
      | exact (proj1 (keeps_vm_pushs C _ m))
      | exact (proj1 (keeps_vm_rewind C _ m))
      | exact (proj1 (keeps_vm_roll C _ m)) ].
  gs.
Qed.

Lemma lc_forward i (m m1 : vm_t LC) :
  0 <= g_pc m < 65535 -> acct (stk m) ->
  op i <> GRUNT_OP_RETURN ->
  grunt_vm_dispatch i (set_pc (wrap16 (g_pc m + 1)) m) = (0, m1) ->
  g_pc m < g_pc m1.
Proof.
  intros Hpc Ha Hr E.
  destruct (steps_well_dispatch C i m Hpc Ha) as [(_ & _ & P)|F].
  - fold GMlc in P. rewrite E in P. cbn [snd] in P.
    destruct P as [_ P | _ P | P]; [lia | lia |].
    exfalso. destruct (Z.eq_dec (op i) GRUNT_OP_CALL) as [Hc|Hc].
    + unfold grunt_vm_dispatch in E. rewrite Hc in E.
      cbn [Z.eqb GRUNT_OP_ADD GRUNT_OP_AND GRUNT_OP_CALL Pos.eqb] in E.
      apply (lc_call_pushes C) in E. destruct E as (K & _).
      change (l_ctl (stk (set_pc (wrap16 (g_pc m + 1)) m)))
        with (l_ctl (stk m)) in K.
      rewrite K in P. apply (f_equal (@List.length Z)) in P.
      cbn [List.length] in P. lia.
    + pose proof (ctl_kept_dispatch C i Hc Hr
                    (set_pc (wrap16 (g_pc m + 1)) m)) as K.
      fold GMlc in K. rewrite E in K. cbn [snd] in K.
      change (l_ctl (stk (set_pc (wrap16 (g_pc m + 1)) m)))
        with (l_ctl (stk m)) in K.
      rewrite K in P. apply (f_equal (@List.length Z)) in P.
      cbn [List.length] in P. lia.
  - fold GMlc in F. rewrite E in F. cbn [fst] in F.
    unfold final_status in F. unfold_status. lia.
Qed.
End Statuses.

(** X13.  [HALT] pops the argument stack and reports a Boolean found
    there as [GRUNT_HALT_TRUE] or [GRUNT_HALT_FALSE]; a value of another
    type gives [GRUNT_ERROR_INVALIDARGUMENT] and an empty argument stack
    [GRUNT_ERROR_OUTOFBOUNDS]. *)
Theorem halt_reports {pf : Platform} (C : Z) (m : grunt_t) :
  stack_wf (the_stack m) ->
  let st := fst (grunt_vm_step (GM := c_modules C) HALT m) in
  (forall b rest, arg_stack (the_stack m) = VBool b :: rest ->
     st = if b then GRUNT_HALT_TRUE else GRUNT_HALT_FALSE) /\
  (forall v rest, arg_stack (the_stack m) = v :: rest -> is_bool v = false ->
     st = GRUNT_ERROR_INVALIDARGUMENT) /\
  (arg_stack (the_stack m) = [] -> st = GRUNT_ERROR_OUTOFBOUNDS).
Proof.
  intros Hwf st. subst st. split; [|split].
  - intros b rest Hargs. lc_step C HALT m Hwf Hargs.
    rewrite Est. destruct b; reflexivity.
  - intros v rest Hargs Hv. lc_step C HALT m Hwf Hargs.
    rewrite Est. destruct v; try discriminate Hv; reflexivity.
  - intros Hargs. lc_step C HALT m Hwf Hargs. exact Est.
Qed.

Lemma halt_reports_witness :
  fst (grunt_vm_step (GM := c_modules (pf := buffered_le) 122) HALT
         (grunt_with_args 122 [VBool false; VNum 3]))
  = GRUNT_HALT_FALSE.
Proof.
  destruct (halt_reports (pf := buffered_le) 122 (grunt_with_args 122
      [VBool false; VNum 3]))
    as (H & _); [closed_wf|].
  exact (H false [VNum 3] eq_refl).
Defined.

(** ** grunt.c *)

(** X14.  The status of one step is [0] (go on), [GRUNT_HALT_TRUE],
    [GRUNT_HALT_FALSE] or one of the error codes 17 to 23 and nothing
    else; only a [HALT] instruction gives one of the two halt statuses,
    and an opcode outside 1 to 22 gives [GRUNT_ERROR_INVALIDOPCODE]. *)
Theorem step_status {pf : Platform} (C : Z) (i : grunt_instruction_t)
    (m : grunt_t) :
  stack_wf (the_stack m) ->
  let st := fst (grunt_vm_step (GM := c_modules C) i m) in
  (st = 0 \/ st = GRUNT_HALT_TRUE \/ st = GRUNT_HALT_FALSE \/
   GRUNT_ERROR_INTERPRETERBUG <= st <= GRUNT_ERROR_OUTOFBOUNDS) /\
  (st = GRUNT_HALT_TRUE \/ st = GRUNT_HALT_FALSE -> op i = GRUNT_OP_HALT) /\
  (op i < GRUNT_OP_ADD \/ GRUNT_OP_SUB < op i ->
   st = GRUNT_ERROR_INVALIDOPCODE).
Proof.
  intros Hwf st. subst st.
  destruct (step_view C i m Hwf) as (ctl & free & _ & _ & Es & _).
  rewrite Es. unfold grunt_vm_step.
  set (ml := set_pc _ (lc_at m ctl free)).
  destruct (Z.eq_dec (op i) GRUNT_OP_HALT) as [Hh|Hh].
  - split; [|split].
    + unfold grunt_vm_dispatch. rewrite Hh.
      cbn [Z.eqb GRUNT_OP_ADD GRUNT_OP_AND GRUNT_OP_CALL GRUNT_OP_DUP
           GRUNT_OP_EQ GRUNT_OP_FLUSH GRUNT_OP_GT GRUNT_OP_HALT Pos.eqb].
      destruct (final_halt C ml) as [F|[F|F]]; unfold_status; lia.
    + intros _. exact Hh.
    + unfold GRUNT_OP_HALT, GRUNT_OP_ADD, GRUNT_OP_SUB in *. lia.
  - pose proof (good_dispatch C i ml Hh) as G. split; [|split].
    + destruct G as [G|G]; unfold_status; lia.
    + intros H. exfalso. destruct G as [G|G]; unfold_status; lia.
    + intros Ho. unfold grunt_vm_dispatch. cbv zeta.
      repeat match goal with
             | |- context [if ?a =? ?b then _ else _] =>
                 destruct (Z.eqb_spec a b)
             end;
        try reflexivity; exfalso;
        unfold GRUNT_OP_ADD, GRUNT_OP_AND, GRUNT_OP_CALL, GRUNT_OP_DUP,
          GRUNT_OP_EQ, GRUNT_OP_FLUSH, GRUNT_OP_GT, GRUNT_OP_HALT,
          GRUNT_OP_INPUT, GRUNT_OP_JMPIF, GRUNT_OP_LT, GRUNT_OP_NOT,
          GRUNT_OP_OUTPUT, GRUNT_OP_OR, GRUNT_OP_POP, GRUNT_OP_PUSHB,
          GRUNT_OP_PUSHN, GRUNT_OP_PUSHS, GRUNT_OP_RETURN, GRUNT_OP_REWIND,
          GRUNT_OP_ROLL, GRUNT_OP_SUB in *; lia.
Qed.

Lemma step_status_witness :
  fst (grunt_vm_step (GM := c_modules (pf := buffered_le) 122)
      (mkInstr 23 0 no_lit)
         (grunt_with_args 122 [VNum 3]))
  = GRUNT_ERROR_INVALIDOPCODE.
Proof.
  destruct (step_status (pf := buffered_le) 122 (mkInstr 23 0 no_lit)
              (grunt_with_args 122 [VNum 3])) as (_ & _ & H); [closed_wf|].
  apply H. right. reflexivity.
Defined.

(** X15.  The program counter only moves forward, whatever the program:
    a round of the interpreter loop that goes on (status 0) with an
    instruction other than [RETURN] leaves the program counter strictly
    greater than it found it.  [num_instructions] is a 16-bit count. *)
Theorem pc_moves_forward {pf : Platform} (C : Z)
    (program : list grunt_instruction_t)
    (n : Z) (m m1 : grunt_t) :
  stack_wf (the_stack m) -> 0 <= g_pc m -> n <= UINT16_MAX ->
  op (fetch program m) <> GRUNT_OP_RETURN ->
  run_iteration (GM := c_modules C) program n m = (0, m1) ->
  g_pc m < g_pc m1.
Proof.
  intros Hwf Hpc Hn Hr E. unfold UINT16_MAX in *.
  apply iteration_steps in E. destruct E as [Hlt E].
  destruct (step_view C (fetch program m) m Hwf)
    as (ctl & free & Hc & Hroom & Es & V).
  rewrite E in Es, V. cbn [fst snd] in Es, V.
  unfold grunt_vm_step in Es, V.
  change (g_pc (lc_at m ctl free)) with (g_pc m) in Es, V.
  destruct (grunt_vm_dispatch (GM := lc_modules C) (fetch program m)
              (set_pc (wrap16 (g_pc m + 1)) (lc_at m ctl free)))
    as [st ml1] eqn:El.
  cbn [fst snd] in Es, V. subst st.
  rewrite (sv_pc _ _ V).
  assert (Ha : acct (stk (lc_at m ctl free))) by exact Hroom.
  assert (Hp : 0 <= g_pc (lc_at m ctl free) < 65535)
    by (change (g_pc (lc_at m ctl free)) with (g_pc m); lia).
  exact (lc_forward C _ (lc_at m ctl free) ml1 Hp Ha Hr El).
Qed.

Lemma pc_moves_forward_witness :
  let m := grunt_with_args 122 [VBool true] in
  g_pc m
  < g_pc (snd (run_iteration (GM := c_modules (pf := buffered_le) 122)
      [JMPIF 9] 1 m)).
Proof.
  cbv zeta.
  apply (pc_moves_forward (pf := buffered_le) 122 [JMPIF 9] 1);
    [ closed_wf | cbn; lia | unfold UINT16_MAX; lia
    | vm_compute; discriminate | reflexivity ].
Defined.

(** ** grunt_input.c *)

Lemma le_uint_bounds (bs : list byte) :
  0 <= le_uint bs < 256 ^ Z.of_nat (List.length bs).
Proof.
  induction bs as [|b bs IH].
  - cbn [le_uint List.length]. change (256 ^ Z.of_nat 0) with 1. lia.
  - cbn [le_uint List.length]. rewrite Nat2Z.inj_succ, Z.pow_succ_r by lia.
    assert (Hb : 0 <= byte_val b < 256).
    { unfold byte_val. pose proof (Byte.to_N_bounded b). lia. }
    lia.
Qed.

Lemma le_uint_app (a b : list byte) :
  le_uint (a ++ b) = le_uint a + 256 ^ Z.of_nat (List.length a) * le_uint b.
Proof.
  induction a as [|x a IH].
  - cbn [app le_uint List.length]. change (256 ^ Z.of_nat 0) with 1. lia.
  - cbn [app le_uint List.length]. rewrite IH.
    rewrite Nat2Z.inj_succ, Z.pow_succ_r by lia. ring.
Qed.

Lemma host_uint_bounds {pf : Platform} (bs : list byte) :
  0 <= host_uint bs < 256 ^ Z.of_nat (List.length bs).
Proof.
  unfold host_uint. destruct host_order; [apply le_uint_bounds|].
  rewrite <- (length_rev bs). apply le_uint_bounds.
Qed.

Lemma host_uint_app {pf : Platform} (a b : list byte) :
  host_uint (a ++ b)
  = match host_order with
    | LittleEndian =>
        host_uint a + 256 ^ Z.of_nat (List.length a) * host_uint b
    | BigEndian =>
        256 ^ Z.of_nat (List.length b) * host_uint a + host_uint b
    end.
Proof.
  unfold host_uint. destruct host_order; [apply le_uint_app|].
  rewrite rev_app_distr, le_uint_app, length_rev. ring.
Qed.

Lemma array_slice_split {A : Type} (q : list A) (h a b : Z) :
  0 <= h -> 0 <= a -> 0 <= b ->
  array_slice q h (a + b) = array_slice q h a ++ array_slice q (h + a) b.
Proof.
  intros Hh Ha Hb. unfold array_slice.
  rewrite !Z2Nat.inj_add by lia.
  rewrite (Nat.add_comm (Z.to_nat h) (Z.to_nat a)).
  rewrite <- skipn_skipn.
  set (l := skipn (Z.to_nat h) q).
  rewrite <- (firstn_skipn (Z.to_nat a) l) at 1.
  rewrite firstn_app, firstn_firstn.
  rewrite Nat.min_r by lia.
  f_equal.
  destruct (Nat.le_gt_cases (Z.to_nat a) (List.length l)) as [Hl|Hl].
  - rewrite firstn_length_le by exact Hl.
    replace (Z.to_nat a + Z.to_nat b - Z.to_nat a)%nat with (Z.to_nat b)
      by lia.
    reflexivity.
  - rewrite (skipn_all2 l) by lia. rewrite !firstn_nil. reflexivity.
Qed.

Lemma array_slice_length {A : Type} (q : list A) (h n : Z) :
  0 <= h -> 0 <= n -> h + n <= Z.of_nat (List.length q) ->
  List.length (array_slice q h n) = Z.to_nat n.
Proof.
  intros Hh Hn Hq. unfold array_slice.
  rewrite firstn_length_le; [reflexivity|].
  rewrite length_skipn. lia.
Qed.

(** X16.  The head index of the input module stays inside the buffer:
    [grunt_input_init] sets it to 0, and a rewind or a dequeue, failed or
    not, leaves it between 0 and the size; a function that fails leaves
    the module as it was. *)
Theorem input_wf_kept {pf : Platform} (s : input_t) (n : Z) :
  input_wf s -> 0 <= n ->
  input_wf (snd (grunt_input_rewind n s)) /\
  input_wf (snd (grunt_input_dequeue n s)) /\
  (fst (grunt_input_rewind n s) <> 0 -> snd (grunt_input_rewind n s) = s) /\
  (fst (fst (grunt_input_dequeue n s)) <> 0 ->
   snd (grunt_input_dequeue n s) = s) /\
  (forall p_data size, 0 <= size <= UINT16_MAX ->
     input_wf (grunt_input_init p_data size s) /\
     g_head_index (grunt_input_init p_data size s) = 0).
Proof.
  intros [Hh Hs] Hn. unfold UINT16_MAX in *.
  assert (Hr : forall h, 0 <= h <= g_input_queue_size s ->
            let r := grunt_input_rewind n
                       (mkInput (g_input_queue s) (g_input_queue_size s) h) in
            input_wf (snd r) /\
            (fst r <> 0 ->
             snd r = mkInput (g_input_queue s) (g_input_queue_size s) h)).
  { intros h Hb. unfold grunt_input_rewind, input_wf, UINT16_MAX.
    cbn [g_head_index g_input_queue_size g_input_queue].
    destruct (Z.gtb_spec n h); [|destruct (Z.eqb_spec n 0)];
      cbn [fst snd g_head_index g_input_queue_size];
      unfold wrap16; try rewrite Z.mod_small by lia;
      (split; [lia|]); intros Hne; try reflexivity;
      exfalso; apply Hne; reflexivity. }
  split; [|split; [|split; [|split]]].
  - destruct s as [q sz h]. exact (proj1 (Hr h Hh)).
  - unfold grunt_input_dequeue, input_wf, UINT16_MAX.
    destruct (g_input_queue s); [|cbn; lia].
    destruct (negb _); [cbn; lia|].
    destruct (Z.gtb_spec (g_head_index s + n) (g_input_queue_size s));
      cbn [fst snd g_head_index g_input_queue_size]; [lia|].
    unfold wrap16. rewrite Z.mod_small by lia. lia.
  - destruct s as [q sz h]. exact (proj2 (Hr h Hh)).
  - unfold grunt_input_dequeue.
    destruct (g_input_queue s); [|reflexivity].
    destruct (negb _); [reflexivity|].
    destruct (_ >? _); [reflexivity|].
    cbn [fst]. intros Hne. exfalso. apply Hne. reflexivity.
  - intros p_data size Hsz.
    unfold grunt_input_init, grunt_input_rewind, input_wf, UINT16_MAX.
    cbn [g_head_index g_input_queue_size g_input_queue].
    destruct (Z.gtb_spec 0 (g_head_index s)); [lia|].
    cbn [Z.eqb snd g_head_index g_input_queue_size]. lia.
Qed.

Lemma input_wf_kept_witness :
  input_wf (snd (grunt_input_rewind 2 (mkInput (Some ["001"%byte; "002"%byte; "003"%byte]) 3 3))).
Proof.
  apply (input_wf_kept (pf := ascending_be) (mkInput (Some
      ["001"%byte; "002"%byte; "003"%byte]) 3 3) 2);
    [unfold input_wf, UINT16_MAX; cbn; lia | lia].
Defined.

(** X17.  A dequeue of [n] bytes followed by a rewind of [n] bytes brings
    the input module back to where it was, so the same number is read
    again. *)
Theorem dequeue_rewind_round_trip {pf : Platform} (s s1 : input_t) (n : Z)
    (v : option grunt_value_t) :
  input_wf s ->
  grunt_input_dequeue n s = (0, v, s1) ->
  grunt_input_rewind n s1 = (0, s) /\
  grunt_input_dequeue n (snd (grunt_input_rewind n s1)) = (0, v, s1).
Proof.
  intros [Hh Hs] E. unfold UINT16_MAX in *.
  assert (R : grunt_input_rewind n s1 = (0, s)).
  { revert E. unfold grunt_input_dequeue.
    destruct s as [[q|] sz h]; cbn [g_input_queue g_head_index
      g_input_queue_size] in *; [|unfold_status; discriminate].
    destruct (Z.eqb_spec n 1) as [->|N1]; [|destruct (Z.eqb_spec n 2)
      as [->|N2]; [|destruct (Z.eqb_spec n 4) as [->|N4]]];
      cbn [orb negb]; try (unfold_status; discriminate);
      match goal with
      | |- context [?a >? ?b] => destruct (Z.gtb_spec a b)
      end; try (unfold_status; discriminate);
      intros [= <- <-]; unfold grunt_input_rewind;
      cbn [g_head_index g_input_queue g_input_queue_size];
      unfold wrap16; rewrite (Z.mod_small (h + _)) by lia;
      match goal with
      | |- context [?a >? ?b] => destruct (Z.gtb_spec a b)
      end; try lia;
      cbn [Z.eqb]; rewrite Z.mod_small by lia;
      repeat f_equal; lia. }
  split; [exact R|]. rewrite R. exact E.
Qed.

Lemma dequeue_rewind_round_trip_witness :
  let s := mkInput (Some ["001"%byte; "002"%byte; "003"%byte]) 3 1 in
  grunt_input_rewind 2 (snd (grunt_input_dequeue (pf := buffered_le) 2 s)) =
      (0, s).
Proof.
  cbv zeta.
  apply (dequeue_rewind_round_trip (pf := buffered_le)
           (mkInput (Some ["001"%byte; "002"%byte; "003"%byte]) 3 1) _ 2
           (Some (VNum 770)));
    [unfold input_wf, UINT16_MAX; cbn; lia | reflexivity].
Defined.

(** X18.  The input is read in the byte order of the host and reads
    compose accordingly: where a 4-byte read succeeds on a buffer that
    holds the bytes it claims, two 2-byte reads in a row succeed as well
    and end at the same place; on a little-endian host the 4-byte number
    is the first 16-bit number plus [65536] times the second, on a
    big-endian host it is [65536] times the first plus the second.  Each
    number read is below [256 ^ n]. *)
Theorem dequeue_host_order {pf : Platform} (s s4 : input_t) (q : list byte)
    (w : Z) :
  input_wf s -> g_input_queue s = Some q ->
  g_input_queue_size s <= Z.of_nat (List.length q) ->
  grunt_input_dequeue 4 s = (0, Some (VNum w), s4) ->
  exists first second s2,
    grunt_input_dequeue 2 s = (0, Some (VNum first), s2) /\
    grunt_input_dequeue 2 s2 = (0, Some (VNum second), s4) /\
    w = match host_order with
        | LittleEndian => first + 65536 * second
        | BigEndian => 65536 * first + second
        end /\
    0 <= first < 65536 /\ 0 <= second < 65536 /\ 0 <= w < 4294967296.
Proof.
  intros [Hh Hs] Hq Hl. unfold UINT16_MAX in *.
  unfold grunt_input_dequeue. rewrite Hq. cbn [Z.eqb orb negb Pos.eqb].
  destruct (Z.gtb_spec (g_head_index s + 4) (g_input_queue_size s));
    [unfold_status; discriminate|].
  intros [= <- <-].
  destruct (Z.gtb_spec (g_head_index s + 2) (g_input_queue_size s)); [lia|].
  eexists _, _, _. split; [reflexivity|].
  cbn [g_input_queue g_head_index g_input_queue_size].
  unfold wrap16. rewrite (Z.mod_small (g_head_index s + 2)) by lia.
  destruct (Z.gtb_spec (g_head_index s + 2 + 2) (g_input_queue_size s));
    [lia|].
  split.
  { replace (g_head_index s + 2 + 2) with (g_head_index s + 4) by lia.
    reflexivity. }
  pose proof (array_slice_length q (g_head_index s) 2) as L1.
  pose proof (array_slice_length q (g_head_index s + 2) 2) as L2.
  pose proof (host_uint_bounds (array_slice q (g_head_index s) 2)) as B1.
  pose proof (host_uint_bounds (array_slice q (g_head_index s + 2) 2))
    as B2.
  rewrite L1 in B1 by lia. rewrite L2 in B2 by lia.
  change (256 ^ Z.of_nat (Z.to_nat 2)) with 65536 in B1, B2.
  assert (E : host_uint (array_slice q (g_head_index s) 4)
              = match host_order with
                | LittleEndian =>
                    host_uint (array_slice q (g_head_index s) 2)
                    + 65536
                      * host_uint (array_slice q (g_head_index s + 2) 2)
                | BigEndian =>
                    65536 * host_uint (array_slice q (g_head_index s) 2)
                    + host_uint (array_slice q (g_head_index s + 2) 2)
                end).
  { change 4 with (2 + 2).
    rewrite (array_slice_split q (g_head_index s) 2 2) by lia.
    rewrite host_uint_app, L1, L2 by lia. reflexivity. }
  rewrite E. split; [reflexivity|]. destruct host_order; repeat split; lia.
Qed.

Lemma dequeue_host_order_witness :
  exists first second s2,
    grunt_input_dequeue (pf := ascending_be) 2
      (mkInput (Some ["001"%byte; "002"%byte; "003"%byte; "004"%byte]) 4 0)
    = (0, Some (VNum first), s2) /\
    65536 * first + second = 16909060.
Proof.
  destruct (dequeue_host_order (pf := ascending_be)
              (mkInput (Some ["001"%byte; "002"%byte; "003"%byte;
                              "004"%byte]) 4 0)
              (mkInput (Some ["001"%byte; "002"%byte; "003"%byte;
                              "004"%byte]) 4 4)
              ["001"%byte; "002"%byte; "003"%byte; "004"%byte] 16909060)
    as (first & second & s2 & E1 & _ & E & _);
    [ unfold input_wf, UINT16_MAX; cbn; lia | reflexivity | cbn; lia
    | reflexivity | ].
  exists first, second, s2. split; [exact E1 | symmetry; exact E].
Defined.

(** ** grunt_vm_io.c *)

(** X19.  [INPUT n] with [n] other than 1, 2 or 4 returns
    [GRUNT_ERROR_INVALIDLITERAL] and changes nothing; a read past the end
    of the input returns [GRUNT_ERROR_OUTOFBOUNDS] with the argument stack
    and the input as they were.  Otherwise the [n] bytes are consumed and
    the number they hold in the byte order of the host is pushed on the
    argument stack; when the
    stack has no free slot the status is [GRUNT_ERROR_OUTOFBOUNDS] and
    the argument stack is as before, but the bytes are consumed all the
    same. *)
Theorem input_pushes {pf : Platform} (C : Z) (m : grunt_t) (n : N)
    (q : list byte) :
  stack_wf (the_stack m) -> input_wf (the_input m) ->
  g_input_queue (the_input m) = Some q ->
  let r := grunt_vm_step (GM := c_modules C) (INPUT n) m in
  let head := g_head_index (the_input m) in
  let size := g_input_queue_size (the_input m) in
  let v := VNum (host_uint (array_slice q head (Z.of_N n))) in
  (n <> 1%N /\ n <> 2%N /\ n <> 4%N ->
   fst r = GRUNT_ERROR_INVALIDLITERAL /\ mods (snd r) = mods m) /\
  (n = 1%N \/ n = 2%N \/ n = 4%N -> size < head + Z.of_N n ->
   fst r = GRUNT_ERROR_OUTOFBOUNDS /\
   arg_stack (the_stack (snd r)) = arg_stack (the_stack m) /\
   the_input (snd r) = the_input m) /\
  (n = 1%N \/ n = 2%N \/ n = 4%N -> head + Z.of_N n <= size ->
   the_input (snd r) = mkInput (Some q) size (head + Z.of_N n) /\
   (g_argument_count (the_stack m) + g_control_count (the_stack m)
    < GRUNT_STACK_SIZE ->
    fst r = 0 /\ arg_stack (the_stack (snd r)) = v :: arg_stack (the_stack m))
   /\
   (g_argument_count (the_stack m) + g_control_count (the_stack m)
    = GRUNT_STACK_SIZE ->
    fst r = GRUNT_ERROR_OUTOFBOUNDS /\
    arg_stack (the_stack (snd r)) = arg_stack (the_stack m))).
Proof.
  intros Hwf [Hh Hs] Hq r head size v. subst r head size v.
  unfold UINT16_MAX, GRUNT_STACK_SIZE in *.
  destruct (stack_wf_counts _ Hwf) as [La Lc].
  split; [|split].
  - intros (N1 & N2 & N4).
    unfold grunt_vm_step, grunt_vm_dispatch. cbv zeta.
    change (op (INPUT n)) with GRUNT_OP_INPUT.
    cbn [Z.eqb GRUNT_OP_ADD GRUNT_OP_AND GRUNT_OP_CALL GRUNT_OP_DUP
         GRUNT_OP_EQ GRUNT_OP_FLUSH GRUNT_OP_GT GRUNT_OP_HALT GRUNT_OP_INPUT
         Pos.eqb].
    unfold grunt_vm_input. change (arg_rep (INPUT n)) with n.
    destruct (Z.eqb_spec (Z.of_N n) 4); [lia|].
    destruct (Z.eqb_spec (Z.of_N n) 2); [lia|].
    destruct (Z.eqb_spec (Z.of_N n) 1); [lia|].
    split; reflexivity.
  - intros Hn Hover. lc_open0 C (INPUT n) m Hwf.
    change (grunt_vm_dispatch (INPUT n))
      with (grunt_vm_input (GM := lc_modules C) RA (Z.of_N n)) in Est, Hview.
    unfold grunt_vm_input, seq, call_out, arg_push, call in Est, Hview.
    cbn [input_dequeue lc_modules modules_of c_input i_dequeue mods]
      in Est, Hview.
    unfold on_input, grunt_input_dequeue in Est, Hview.
    rewrite Hq in Est, Hview.
    destruct (Z.gtb_spec (g_head_index (the_input m) + Z.of_N n)
                (g_input_queue_size (the_input m))); [|lia].
    destruct Hn as [-> | [-> | ->]]; cbn in Est, Hview;
      (split; [exact Est|]);
      (split; [exact (sv_args _ _ Hview) | exact (sv_input _ _ Hview)]).
  - intros Hn Hfit. lc_open0 C (INPUT n) m Hwf.
    change (grunt_vm_dispatch (INPUT n))
      with (grunt_vm_input (GM := lc_modules C) RA (Z.of_N n)) in Est, Hview.
    unfold grunt_vm_input, seq, call_out, arg_push, call in Est, Hview.
    cbn [input_dequeue lc_modules modules_of c_input i_dequeue mods]
      in Est, Hview.
    unfold on_input, grunt_input_dequeue in Est, Hview.
    rewrite Hq in Est, Hview.
    destruct (Z.gtb_spec (g_head_index (the_input m) + Z.of_N n)
                (g_input_queue_size (the_input m))); [lia|].
    rewrite Hctl, length_map in Lc.
    unfold wrap16 in Est, Hview.
    rewrite (Z.mod_small (g_head_index (the_input m) + Z.of_N n))
      in Est, Hview by lia.
    destruct free as [|f];
      destruct Hn as [-> | [-> | ->]];
      cbn -[host_uint array_slice Z.add] in Est, Hview;
      (split; [exact (sv_input _ _ Hview)|]);
      (split; intros Hc; [|]; try lia;
       (split; [exact Est | exact (sv_args _ _ Hview)])).
Qed.

Lemma input_pushes_witness :
  let m := set_mods (the_stack (grunt_with_args 122 [VNum 9]),
                     mkInput (Some ["001"%byte; "002"%byte; "003"%byte]) 3 1,
                     the_output (grunt_with_args 122 [VNum 9]))
             (grunt_with_args 122 [VNum 9]) in
  arg_stack (the_stack (snd (grunt_vm_step
      (GM := c_modules (pf := buffered_le) 122) (INPUT 2) m)))
  = [VNum 770; VNum 9].
Proof.
  cbv zeta.
  set (m := set_mods (the_stack (grunt_with_args 122 [VNum 9]),
                     mkInput (Some ["001"%byte; "002"%byte; "003"%byte]) 3 1,
                     the_output (grunt_with_args 122 [VNum 9]))
             (grunt_with_args 122 [VNum 9])).
  destruct (input_pushes (pf := buffered_le) 122 m 2
      ["001"%byte; "002"%byte; "003"%byte])
    as (_ & _ & H);
    [ closed_wf | unfold input_wf, UINT16_MAX; cbn; lia | reflexivity | ].
  destruct H as (_ & H & _); [right; left; reflexivity | cbn; lia |].
  destruct H as [_ H]; [closed_wf | exact H].
Defined.

(** ** grunt_output.c *)

Lemma skipn_repeat {A : Type} (x : A) (n k : nat) :
  skipn n (repeat x k) = repeat x (k - n).
Proof.
  revert k. induction n as [|n IH]; intros k.
  - rewrite Nat.sub_0_r. reflexivity.
  - destruct k as [|k]; [reflexivity|]. cbn [repeat skipn]. apply IH.
Qed.

Lemma firstn_exact {A : Type} (a b : list A) (n : nat) :
  n = List.length a -> firstn n (a ++ b) = a.
Proof.
  intros ->. rewrite firstn_app, Nat.sub_diag, firstn_all, firstn_O.
  apply app_nil_r.
Qed.

Lemma skipn_exact {A : Type} (a b : list A) (n : nat) :
  n = List.length a -> skipn n (a ++ b) = b.
Proof.
  intros ->. rewrite skipn_app, Nat.sub_diag, skipn_all. reflexivity.
Qed.

Lemma c_str_of_chars_text (p : list ascii) (k : nat) :
  existsb is_nul p = false -> (0 < k)%nat ->
  c_str_of_chars (p ++ repeat NUL k) = string_of_list_ascii p.
Proof.
  intros Hp Hk. induction p as [|c p IH].
  - destruct k as [|k]; [lia|]. reflexivity.
  - cbn [existsb] in Hp. apply orb_false_iff in Hp. destruct Hp as [Hc Hp].
    cbn [app c_str_of_chars string_of_list_ascii]. rewrite Hc.
    f_equal. exact (IH Hp).
Qed.

Lemma c_str_chars (s : string) :
  existsb is_nul (list_ascii_of_string (c_str s)) = false /\
  exists k, (k <= String.length s)%nat /\
    list_ascii_of_string (c_str s)
    = firstn k (list_ascii_of_string s) /\
    k = String.length (c_str s).
Proof.
  induction s as [|c s [IH1 (k & Hk & IH2 & IH3)]].
  - split; [reflexivity|]. exists 0%nat. repeat split. cbn. lia.
  - cbn [c_str]. destruct (is_nul c) eqn:Hc.
    + split; [reflexivity|]. exists 0%nat. repeat split. cbn. lia.
    + cbn [list_ascii_of_string existsb]. rewrite Hc, IH1.
      split; [reflexivity|]. exists (S k). cbn [String.length firstn].
      split; [lia|]. split; [f_equal; exact IH2 | f_equal; exact IH3].
Qed.

Lemma firstn_c_str (s : string) (n : nat) :
  (n <= String.length (c_str s))%nat ->
  firstn n (list_ascii_of_string s) = firstn n (list_ascii_of_string (c_str s)).
Proof.
  revert n. induction s as [|c s IH]; intros n Hn.
  - reflexivity.
  - cbn [c_str] in *. destruct (is_nul c).
    + cbn in Hn. replace n with 0%nat by lia. reflexivity.
    + destruct n as [|n]; [reflexivity|].
      cbn [list_ascii_of_string firstn String.length] in *.
      f_equal. apply IH. lia.
Qed.

Lemma length_list_ascii (s : string) :
  List.length (list_ascii_of_string s) = String.length s.
Proof. induction s as [|c s IH]; cbn; [reflexivity | f_equal; exact IH]. Qed.

Lemma existsb_firstn (p : list ascii) (n : nat) :
  existsb is_nul p = false -> existsb is_nul (firstn n p) = false.
Proof.
  revert n. induction p as [|c p IH]; intros n Hp.
  - rewrite firstn_nil. reflexivity.
  - destruct n as [|n]; [reflexivity|].
    cbn [existsb firstn] in *. apply orb_false_iff in Hp.
    destruct Hp as [-> Hp]. exact (IH n Hp).
Qed.

Lemma digit_char_not_nul (d : Z) :
  0 <= d < 10 -> is_nul (digit_char d) = false.
Proof.
  intros H.
  assert (E : d = 0 \/ d = 1 \/ d = 2 \/ d = 3 \/ d = 4 \/ d = 5 \/ d = 6
              \/ d = 7 \/ d = 8 \/ d = 9) by lia.
  repeat (destruct E as [-> | E]; [reflexivity|]). subst d. reflexivity.
Qed.

Lemma decimal_digits_chars (fuel : nat) (u : Z) (acc : string) :
  existsb is_nul (list_ascii_of_string acc) = false ->
  existsb is_nul (list_ascii_of_string (decimal_digits fuel u acc)) = false /\
  (String.length (decimal_digits fuel u acc)
   <= fuel + String.length acc)%nat.
Proof.
  revert u acc. induction fuel as [|fuel IH]; intros u acc Ha.
  - split; [exact Ha | cbn; lia].
  - cbn [decimal_digits].
    assert (Hd : existsb is_nul
                   (list_ascii_of_string
                      (String (digit_char (u mod 10)) acc)) = false).
    { cbn [list_ascii_of_string existsb].
      rewrite digit_char_not_nul, Ha; [reflexivity|].
      apply Z.mod_pos_bound. lia. }
    destruct (u / 10 =? 0).
    + split; [exact Hd | cbn [String.length]; lia].
    + destruct (IH (u / 10) _ Hd) as [H1 H2].
      split; [exact H1 | cbn [String.length] in H2; lia].
Qed.

Lemma snprintf_u_chars (u : Z) :
  existsb is_nul (list_ascii_of_string (snprintf_u u)) = false /\
  (String.length (snprintf_u u) <= 10)%nat.
Proof.
  destruct (decimal_digits_chars 10 u EmptyString eq_refl) as [H1 H2].
  split; [exact H1 | cbn [String.length] in H2; unfold snprintf_u; lia].
Qed.

Section OutputQueue.
Variable C : Z.

Lemma pending_length (s : output_t) :
  output_wf C s -> List.length (pending s) = Z.to_nat (g_tail_index s).
Proof.
  intros (Ht & HC & Hn & Hq).
  apply (f_equal (@List.length ascii)) in Hq.
  rewrite length_app, repeat_length in Hq. unfold pending in *.
  rewrite length_firstn in *. lia.
Qed.

(** What [CFE_EVS_SendEvent] prints with ["%s"] is the pending text. *)
Lemma c_str_of_chars_pending (s : output_t) :
  output_wf C s ->
  c_str_of_chars (g_output_queue s) = string_of_list_ascii (pending s).
Proof.
  intros (Ht & HC & Hn & Hq). rewrite Hq at 1.
  apply c_str_of_chars_text; [exact Hn | lia].
Qed.

Lemma output_reset_wf (s : output_t) :
  1 <= C <= UINT16_MAX + 1 ->
  output_wf C (grunt_output_reset C s) /\ pending (grunt_output_reset C s) = [].
Proof.
  intros HC. unfold output_wf, pending, grunt_output_reset.
  cbn [g_tail_index g_output_queue]. change (Z.to_nat 0) with 0%nat.
  cbn [firstn existsb app]. rewrite Z.sub_0_r.
  repeat split; lia.
Qed.

Lemma enqueue_ok (string : string) (length : Z) (s : output_t) :
  output_wf C s -> 0 <= length ->
  let vs := firstn (Z.to_nat length) (list_ascii_of_string string) in
  List.length vs = Z.to_nat length -> existsb is_nul vs = false ->
  g_tail_index s + length <= C - 1 ->
  let r := grunt_output_enqueue C string length s in
  fst r = 0 /\ output_wf C (snd r) /\
  pending (snd r) = pending s ++ vs /\
  evs_sent (snd r) = evs_sent s /\
  g_string_table (snd r) = g_string_table s /\
  g_num_strings (snd r) = g_num_strings s.
Proof.
  intros Hwf Hl vs Hlen Hvs Hfit r. subst r.
  pose proof (pending_length s Hwf) as Hp.
  destruct Hwf as (Ht & HC & Hn & Hq). unfold UINT16_MAX in *.
  unfold grunt_output_enqueue.
  destruct (Z.gtb_spec (g_tail_index s + length) (C - 1)); [lia|].
  fold vs. cbn [fst snd].
  assert (Hb : array_blit (g_output_queue s) (g_tail_index s) vs
               = (pending s ++ vs)
                 ++ repeat NUL (Z.to_nat (C - (g_tail_index s + length)))).
  { unfold array_blit. fold (pending s). rewrite <- app_assoc.
    f_equal. f_equal. rewrite Hq, <- Hp, Hlen.
    rewrite skipn_app, skipn_all2 by lia.
    rewrite Hp, Nat.add_comm, Nat.add_sub, skipn_repeat. cbn [app].
    f_equal. lia. }
  assert (Hw : wrap16 (g_tail_index s + length) = g_tail_index s + length).
  { unfold wrap16. apply Z.mod_small. lia. }
  assert (Hpend : firstn (Z.to_nat (g_tail_index s + length))
                    (array_blit (g_output_queue s) (g_tail_index s) vs)
                  = pending s ++ vs).
  { rewrite Hb. apply firstn_exact. rewrite length_app, Hp, Hlen. lia. }
  unfold output_wf, pending.
  cbn [g_tail_index g_output_queue evs_sent g_string_table g_num_strings].
  rewrite Hw, Hpend.
  split; [reflexivity|]. split; [|repeat split].
  split; [lia|]. split; [unfold UINT16_MAX; lia|]. split; [|exact Hb].
  rewrite existsb_app, Hn, Hvs. reflexivity.
Qed.

Lemma enqueue_full (string : string) (length : Z) (s : output_t) :
  C - 1 < g_tail_index s + length ->
  grunt_output_enqueue C string length s = (GRUNT_ERROR_OUTOFBOUNDS, s).
Proof.
  intros H. unfold grunt_output_enqueue.
  destruct (Z.gtb_spec (g_tail_index s + length) (C - 1)); [reflexivity|lia].
Qed.
End OutputQueue.

Lemma enqueue_appends_chars (C : Z) (string : string) (length : Z)
    (s : output_t) :
  output_wf C s -> 0 <= length ->
  let vs := firstn (Z.to_nat length) (list_ascii_of_string string) in
  List.length vs = Z.to_nat length -> existsb is_nul vs = false ->
  appends C s vs (grunt_output_enqueue C string length s) /\
  output_wf C (snd (grunt_output_enqueue C string length s)).
Proof.
  intros Hwf Hl vs Hlen Hvs.
  destruct (Z.le_gt_cases (g_tail_index s + length) (C - 1)) as [Hfit|Hover].
  - destruct (enqueue_ok C string length s Hwf Hl Hlen Hvs Hfit)
      as (E & W & P & V & _).
    split; [|exact W]. split; [intros _ | fold vs; rewrite Hlen; lia].
    split; [exact E|]. split; [exact P | exact V].
  - rewrite enqueue_full by lia. split; [|exact Hwf].
    split; [fold vs; rewrite Hlen; lia | intros _; reflexivity].
Qed.

Lemma enqueue_boolean_chars (C : Z) (tf : bool) (s : output_t) :
  output_wf C s ->
  appends C s (list_ascii_of_string (if tf then "true" else "false"))
    (grunt_output_enqueue_boolean C tf s) /\
  output_wf C (snd (grunt_output_enqueue_boolean C tf s)).
Proof.
  intros Hwf. unfold grunt_output_enqueue_boolean. destruct tf.
  - apply (enqueue_appends_chars C "true" 4 s Hwf);
      [lia | reflexivity | reflexivity].
  - apply (enqueue_appends_chars C "false" 5 s Hwf);
      [lia | reflexivity | reflexivity].
Qed.

Lemma enqueue_number_chars (C : Z) (u : Z) (s : output_t) :
  output_wf C s ->
  appends C s (list_ascii_of_string (snprintf_u u))
    (grunt_output_enqueue_number C u s) /\
  output_wf C (snd (grunt_output_enqueue_number C u s)).
Proof.
  intros Hwf. unfold grunt_output_enqueue_number. cbv zeta.
  destruct (snprintf_u_chars u) as [Hn Hl].
  unfold GRUNT_REP_MAX, UINT16_MAX.
  destruct (Z.gtb_spec (Z.of_nat (String.length (snprintf_u u))) 65535);
    [lia|].
  assert (E : firstn (Z.to_nat (Z.of_nat (String.length (snprintf_u u))))
                (list_ascii_of_string (snprintf_u u))
              = list_ascii_of_string (snprintf_u u)).
  { rewrite Nat2Z.id, <- length_list_ascii. apply firstn_all. }
  rewrite <- E at 1.
  apply (enqueue_appends_chars C); [exact Hwf | lia | |].
  - rewrite E, Nat2Z.id. apply length_list_ascii.
  - rewrite E. exact Hn.
Qed.

Lemma enqueue_string_chars (C : Z) (i : Z) (s : output_t) :
  output_wf C s -> i < g_num_strings s ->
  let string := nth (Z.to_nat i) (g_string_table s) EmptyString in
  appends C s
    (firstn (Z.to_nat (wrap16 (strlen string)))
       (list_ascii_of_string (c_str string)))
    (grunt_output_enqueue_string C i s) /\
  output_wf C (snd (grunt_output_enqueue_string C i s)).
Proof.
  intros Hwf Hi string. unfold grunt_output_enqueue_string. cbv zeta.
  destruct (Z.ltb_spec i (g_num_strings s)); [|lia]. cbn [negb].
  fold string.
  assert (Hw : 0 <= wrap16 (strlen string) <= 65535
               /\ wrap16 (strlen string) <= strlen string).
  { unfold wrap16, strlen.
    pose proof (Z.mod_pos_bound
                  (Z.of_nat (String.length (c_str string))) 65536).
    pose proof (Z.mod_le (Z.of_nat (String.length (c_str string))) 65536).
    lia. }
  unfold GRUNT_REP_MAX, UINT16_MAX.
  destruct (Z.ltb_spec 65535 (wrap16 (strlen string))); [lia|].
  assert (Hk : (Z.to_nat (wrap16 (strlen string))
                <= String.length (c_str string))%nat)
    by (unfold strlen in *; lia).
  rewrite <- (firstn_c_str string _ Hk).
  apply (enqueue_appends_chars C); [exact Hwf | lia | |].
  - rewrite (firstn_c_str string _ Hk).
    rewrite firstn_length_le; [reflexivity|].
    rewrite length_list_ascii. exact Hk.
  - rewrite (firstn_c_str string _ Hk). apply existsb_firstn.
    exact (proj1 (c_str_chars string)).
Qed.

(** X20.  The output queue always holds a C string: if it holds one that
    ends at the tail index, with no NUL before and only NULs from there
    on, and whose last character is unused, it still does after any
    function of the module; [grunt_output_init] leaves it so whatever it
    held. *)
Theorem output_wf_kept (C : Z) (s : output_t) :
  output_wf C s ->
  (forall tf, output_wf C (snd (grunt_output_enqueue_boolean C tf s))) /\
  (forall u, output_wf C (snd (grunt_output_enqueue_number C u s))) /\
  (forall i, 0 <= i -> output_wf C (snd (grunt_output_enqueue_string C i s)))
  /\
  (forall event_type event_id,
     output_wf C (grunt_output_flush C event_type event_id s)) /\
  (forall string_table num_strings s0,
     output_wf C (grunt_output_init C string_table num_strings s0)).
Proof.
  intros Hwf.
  assert (HC : 1 <= C <= UINT16_MAX + 1)
    by (destruct Hwf as (Ht & HC & _); lia).
  split; [|split; [|split; [|split]]].
  - intros tf. exact (proj2 (enqueue_boolean_chars C tf s Hwf)).
  - intros u. exact (proj2 (enqueue_number_chars C u s Hwf)).
  - intros i Hi. destruct (Z.lt_ge_cases i (g_num_strings s)) as [Hlt|Hge].
    + apply (enqueue_string_chars C i s Hwf). exact Hlt.
    + unfold grunt_output_enqueue_string.
      destruct (Z.ltb_spec i (g_num_strings s)); [lia|]. exact Hwf.
  - intros t e. unfold grunt_output_flush.
    exact (proj1 (output_reset_wf C _ HC)).
  - intros tbl n s0. unfold grunt_output_init.
    exact (proj1 (output_reset_wf C _ HC)).
Qed.

Lemma output_wf_kept_witness :
  output_wf 8
    (snd (grunt_output_enqueue_number 8 42
            (mkOutput [] 0 (repeat NUL 8) 0 []))).
Proof.
  destruct (output_wf_kept 8 (mkOutput [] 0 (repeat NUL 8) 0 []))
    as (_ & H & _).
  - unfold output_wf, pending, UINT16_MAX. cbn. repeat split; lia.
  - exact (H 42).
Defined.

(** X21.  The enqueue functions append and never overflow: a Boolean
    appends [true] or [false], a number its decimal digits, and string
    [i] of the table its characters up to the first NUL, when they fit in
    the queue with its last character left for the terminating NUL;
    otherwise the status is [GRUNT_ERROR_OUTOFBOUNDS] and the module is
    as it was.  The length of a string is taken modulo [65536]: the
    comparison with [GRUNT_REP_MAX] is made on the 16-bit length, so only
    a table string of at most [65535] characters is appended whole. *)
Theorem enqueue_appends (C : Z) (s : output_t) :
  output_wf C s ->
  (forall tf : bool,
     appends C s (list_ascii_of_string (if tf then "true" else "false"))
       (grunt_output_enqueue_boolean C tf s)) /\
  (forall u,
     appends C s (list_ascii_of_string (snprintf_u u))
       (grunt_output_enqueue_number C u s)) /\
  (forall i, 0 <= i < g_num_strings s ->
     let string := nth (Z.to_nat i) (g_string_table s) EmptyString in
     appends C s
       (firstn (Z.to_nat (wrap16 (strlen string)))
          (list_ascii_of_string (c_str string)))
       (grunt_output_enqueue_string C i s) /\
     (strlen string <= UINT16_MAX ->
      firstn (Z.to_nat (wrap16 (strlen string)))
        (list_ascii_of_string (c_str string))
      = list_ascii_of_string (c_str string))).
Proof.
  intros Hwf. split; [|split].
  - intros tf. exact (proj1 (enqueue_boolean_chars C tf s Hwf)).
  - intros u. exact (proj1 (enqueue_number_chars C u s Hwf)).
  - intros i Hi string. split.
    + exact (proj1 (enqueue_string_chars C i s Hwf (proj2 Hi))).
    + intros Hs. unfold UINT16_MAX in Hs. unfold wrap16.
      rewrite Z.mod_small by (unfold strlen in *; lia).
      unfold strlen. rewrite Nat2Z.id, <- length_list_ascii.
      apply firstn_all.
Qed.

Lemma enqueue_appends_witness :
  pending (snd (grunt_output_enqueue_string 8 1
                  (mkOutput ["ab"; "cd"]%string 2
                     ("x"%char :: repeat NUL 7) 1 [])))
  = ["x"; "c"; "d"]%char.
Proof.
  destruct (enqueue_appends 8 (mkOutput ["ab"; "cd"]%string 2
                                 ("x"%char :: repeat NUL 7) 1 []))
    as (_ & _ & H).
  - unfold output_wf, pending, UINT16_MAX. cbn. repeat split; lia.
  - destruct (H 1) as [[A _] _]; [cbn; lia|].
    destruct A as (_ & A & _); [apply Z.leb_le; reflexivity | exact A].
Defined.

(** X22.  [grunt_output_flush] hands the host exactly the characters
    enqueued since the last reset, as one event added after those sent
    before, and leaves the queue empty and the string table in place. *)
Theorem flush_sends_pending (C : Z) (s : output_t)
    (event_type event_id : Z) :
  output_wf C s ->
  let s' := grunt_output_flush C event_type event_id s in
  evs_sent s'
  = evs_sent s
    ++ [mkEvent event_id event_type (string_of_list_ascii (pending s))] /\
  pending s' = [] /\ g_tail_index s' = 0 /\
  g_string_table s' = g_string_table s /\
  g_num_strings s' = g_num_strings s.
Proof.
  intros Hwf s'. subst s'. unfold grunt_output_flush, grunt_output_reset.
  cbn [evs_sent g_string_table g_num_strings g_tail_index g_output_queue].
  rewrite (c_str_of_chars_pending C s Hwf).
  repeat split.
Qed.

Lemma flush_sends_pending_witness :
  evs_sent (grunt_output_flush 8 2 77
              (mkOutput [] 0 ("o"%char :: "k"%char :: repeat NUL 6) 2 []))
  = [mkEvent 77 2 "ok"].
Proof.
  destruct (flush_sends_pending 8
              (mkOutput [] 0 ("o"%char :: "k"%char :: repeat NUL 6) 2 [])
              2 77) as [H _].
  - unfold output_wf, pending, UINT16_MAX. cbn. repeat split; lia.
  - exact H.
Defined.

(** ** grunt_vm_io.c : OUTPUT *)

(** X23.  [OUTPUT] pops the top of the argument stack, whatever comes
    next, and appends its text to the output queue as the enqueue
    functions do: [true] or [false] for a Boolean, the decimal digits
    for a number, the table's string for a string index below the number
    of strings.  When the text does not fit the status is
    [GRUNT_ERROR_OUTOFBOUNDS] and the output module is untouched, but the
    value is gone from the stack.  A program counter value cannot be
    output: [GRUNT_ERROR_INVALIDARGUMENT]. *)
Theorem output_appends {pf : Platform} (C : Z) (m : grunt_t) (v : grunt_value_t)
    (rest : list grunt_value_t) :
  stack_wf (the_stack m) -> output_wf C (the_output m) ->
  arg_stack (the_stack m) = v :: rest ->
  let r := grunt_vm_step (GM := c_modules C) OUTPUT m in
  let out := (fst r, the_output (snd r)) in
  arg_stack (the_stack (snd r)) = rest /\
  match v with
  | VBool tf =>
      appends C (the_output m)
        (list_ascii_of_string (if tf then "true" else "false")) out
  | VNum u =>
      appends C (the_output m) (list_ascii_of_string (snprintf_u u)) out
  | VStr i =>
      0 <= i < g_num_strings (the_output m) ->
      let string :=
        nth (Z.to_nat i) (g_string_table (the_output m)) EmptyString in
      appends C (the_output m)
        (firstn (Z.to_nat (wrap16 (strlen string)))
           (list_ascii_of_string (c_str string))) out
  | VPc _ => out = (GRUNT_ERROR_INVALIDARGUMENT, the_output m)
  end.
Proof.
  intros Hwf Hout Hargs r out. subst out r.
  destruct v as [tf|u|i|p]; lc_step C OUTPUT m Hwf Hargs;
    unfold call, on_output in Est, Hview; cbn [mods] in Est, Hview.
  - pose proof (proj1 (enqueue_boolean_chars C tf _ Hout)) as A.
    destruct (grunt_output_enqueue_boolean C tf (the_output m)) as [st o].
    cbn in Est, Hview. split; [exact (sv_args _ _ Hview)|].
    rewrite Est, (sv_output _ _ Hview). exact A.
  - pose proof (proj1 (enqueue_number_chars C u _ Hout)) as A.
    destruct (grunt_output_enqueue_number C u (the_output m)) as [st o].
    cbn in Est, Hview. split; [exact (sv_args _ _ Hview)|].
    rewrite Est, (sv_output _ _ Hview). exact A.
  - assert (A : arg_stack (the_stack (snd res)) = rest).
    { destruct (grunt_output_enqueue_string C i (the_output m)) as [st o].
      cbn in Hview. exact (sv_args _ _ Hview). }
    split; [exact A|]. intros Hi string.
    pose proof (proj1 (enqueue_string_chars C i _ Hout (proj2 Hi))) as B.
    destruct (grunt_output_enqueue_string C i (the_output m)) as [st o].
    cbn in Est, Hview. rewrite Est, (sv_output _ _ Hview). exact B.
  - split; [exact (sv_args _ _ Hview)|].
    rewrite Est, (sv_output _ _ Hview). reflexivity.
Qed.

Lemma output_appends_witness :
  let m := grunt_with_args 8 [VNum 42; VBool true] in
  let r := grunt_vm_step (GM := c_modules (pf := buffered_le) 8) OUTPUT m in
  arg_stack (the_stack (snd r)) = [VBool true] /\
  pending (the_output (snd r)) = ["4"; "2"]%char.
Proof.
  cbv zeta.
  destruct (output_appends (pf := buffered_le) 8 (grunt_with_args 8
      [VNum 42; VBool true])
              (VNum 42) [VBool true]) as [A B].
  - closed_wf.
  - unfold output_wf, pending, UINT16_MAX. cbn. repeat split; lia.
  - reflexivity.
  - split; [exact A|]. destruct B as [B _].
    destruct B as (_ & B & _); [apply Z.leb_le; reflexivity | exact B].
Defined.

(** ** Which instruction touches which module *)

Section Pres.
Context {pf : Platform}.
Variable C : Z.
Let GMlc : GruntModules LC := lc_modules C.
#[local] Existing Instance GMlc.
Variable R : io_t -> io_t -> Prop.
Hypothesis R_refl : forall a, R a a.
Hypothesis R_trans : forall a b c, R a b -> R b c -> R a c.

Lemma pres_seq f k : pres R f -> pres R k -> pres R (f ;; k).
Proof.
  intros Hf Hk m. unfold seq. specialize (Hf m).
  destruct (f m) as [st m']. cbn [snd] in Hf.
  destruct (st =? 0); cbn [snd]; [|exact Hf].
  exact (R_trans _ _ _ Hf (Hk m')).
Qed.

Lemma pres_require c e : pres R (require c e).
Proof. intros m. unfold require. destruct (c m); apply R_refl. Qed.

Lemma pres_ok : pres R ok.
Proof. intros m. apply R_refl. Qed.

Lemma pres_fail e : pres R (fun m => (e, m)).
Proof. intros m. apply R_refl. Qed.

Lemma io_of_store p v (m : vm_t LC) : io_of (store p v m) = io_of m.
Proof. destruct p; reflexivity. Qed.

Lemma pres_store p (v : vm_t LC -> grunt_value_t) f :
  pres R f -> pres R (fun m => f (store p (v m) m)).
Proof.
  intros Hf m. specialize (Hf (store p (v m) m)).
  rewrite io_of_store in Hf. exact Hf.
Qed.

Lemma pres_stack (f : lstack_t -> Z * lstack_t) : pres R (call (on_stack f)).
Proof.
  intros [ra rb pc [[k i] o]]. unfold call, on_stack. cbn [mods].
  destruct (f k) as [st k']. apply R_refl.
Qed.

Lemma pres_stack_out (f : lstack_t -> Z * option grunt_value_t * lstack_t)
    p :
  pres R (call_out (on_stack f) p).
Proof.
  intros [ra rb pc [[k i] o]]. unfold call_out, on_stack. cbn [mods].
  destruct (f k) as [[st w] k']. cbn [snd].
  destruct w; [rewrite io_of_store|]; apply R_refl.
Qed.

Lemma pres_arg_pop p : pres R (arg_pop p).
Proof. apply (pres_stack_out l_arg_pop). Qed.

Lemma pres_ctl_pop p : pres R (ctl_pop p).
Proof. apply (pres_stack_out l_ctl_pop). Qed.

Lemma pres_arg_push p : pres R (arg_push p).
Proof. intros m. apply (pres_stack (l_arg_push (deref p m))). Qed.

Lemma pres_ctl_push p : pres R (ctl_push p).
Proof. intros m. apply (pres_stack (l_ctl_push (deref p m))). Qed.

Lemma pres_push_lit v : pres R (call (stack_arg_push v)).
Proof. apply (pres_stack (l_arg_push v)). Qed.

Lemma pres_dup n : pres R (call (stack_arg_dup n)).
Proof. apply (pres_stack (l_arg_dup n)). Qed.

Lemma pres_roll n : pres R (call (stack_arg_roll n)).
Proof. apply (pres_stack (l_arg_roll n)). Qed.

Ltac pres_tac :=
  repeat first
    [ apply pres_seq
    | apply pres_require
    | apply pres_arg_pop
    | apply pres_arg_push
    | apply pres_ctl_pop
    | apply pres_ctl_push
    | apply pres_ok
    | apply pres_push_lit
    | apply pres_dup
    | apply pres_roll ].

Lemma pres_vm_dup n : pres R (grunt_vm_dup n).
Proof.
  unfold grunt_vm_dup. intros m.
  destruct (n <? 1); [apply R_refl | apply pres_dup].
Qed.

Lemma pres_pop_loop n p : pres R (pop_loop n p).
Proof. induction n; cbn [pop_loop]; pres_tac. assumption. Qed.

Lemma pres_vm_pop p n : pres R (grunt_vm_pop p n).
Proof.
  unfold grunt_vm_pop. intros m.
  destruct (n <? 1); [apply R_refl | apply pres_pop_loop].
Qed.

Lemma pres_vm_pushb v : pres R (grunt_vm_pushb v).
Proof.
  unfold grunt_vm_pushb. intros m.
  destruct (negb _); [apply R_refl | apply pres_push_lit].
Qed.

Lemma pres_vm_pushn v : pres R (grunt_vm_pushn v).
Proof.
  unfold grunt_vm_pushn. intros m.
  destruct (negb _); [apply R_refl | apply pres_push_lit].
Qed.

Lemma pres_vm_pushs v : pres R (grunt_vm_pushs v).
Proof.
  unfold grunt_vm_pushs. intros m.
  destruct (negb _); [apply R_refl | apply pres_push_lit].
Qed.

Lemma pres_vm_roll n : pres R (grunt_vm_roll n).
Proof.
  unfold grunt_vm_roll. intros m.
  destruct (n <? 2); [apply R_refl | apply pres_roll].
Qed.

Lemma pres_and_or_loop n pa pb f : pres R (and_or_loop n pa pb f).
Proof.
  induction n; cbn [and_or_loop]; pres_tac.
  apply (pres_store pa
           (fun m => VBool (if f
                            then val_b (deref pa m) && val_b (deref pb m)
                            else val_b (deref pa m) || val_b (deref pb m)))).
  assumption.
Qed.

Lemma pres_vm_and_or pa pb n f : pres R (grunt_vm_and_or pa pb n f).
Proof.
  unfold grunt_vm_and_or. intros m. destruct (n <? 2); [apply R_refl|].
  revert m. pres_tac. apply pres_and_or_loop.
Qed.

Lemma pres_eq_loop n pa pb : forall flag, pres R (eq_loop n pa pb flag).
Proof.
  induction n as [|n IH]; intros flag; cbn [eq_loop].
  - intros m. cbn [snd]. rewrite io_of_store. apply R_refl.
  - pres_tac. intros m. apply IH.
Qed.

Lemma pres_vm_eq pa pb n : pres R (grunt_vm_eq pa pb n).
Proof.
  unfold grunt_vm_eq. intros m. destruct (n <? 2); [apply R_refl|].
  revert m. pres_tac. apply pres_eq_loop.
Qed.

Lemma pres_vm_lt_gt pa pb f : pres R (grunt_vm_lt_gt pa pb f).
Proof.
  unfold grunt_vm_lt_gt. pres_tac.
  apply (pres_store pa
           (fun m => VBool (if f
              then num_lt (val_num (deref pa m)) (val_num (deref pb m))
              else num_gt (val_num (deref pa m)) (val_num (deref pb m))))).
  apply pres_arg_push.
Qed.

Lemma pres_vm_not pa : pres R (grunt_vm_not pa).
Proof.
  unfold grunt_vm_not. pres_tac.
  apply (pres_store pa (fun m => VBool (negb (val_b (deref pa m))))).
  apply pres_arg_push.
Qed.

Lemma pres_vm_add_sub pa pb f : pres R (grunt_vm_add_sub pa pb f).
Proof.
  unfold grunt_vm_add_sub. pres_tac. intros m. cbv zeta.
  destruct f.
  - destruct (num_gt _ _); [apply R_refl|].
    apply (pres_store pa (fun _ => _)), pres_arg_push.
  - destruct (num_lt _ _); [apply R_refl|].
    apply (pres_store pa (fun _ => _)), pres_arg_push.
Qed.

Lemma pres_vm_call lit : pres R (grunt_vm_call RA lit).
Proof.
  unfold grunt_vm_call. intros m.
  destruct (negb _); [apply R_refl|]. destruct (_ <? _); [apply R_refl|].
  apply (pres_store RA (fun m => VPc (g_pc m))).
  apply pres_seq; [apply pres_ctl_push|]. intros m'. apply R_refl.
Qed.

Lemma pres_vm_halt : pres R (grunt_vm_halt RA).
Proof. unfold grunt_vm_halt. pres_tac; intros m; apply R_refl. Qed.

Lemma pres_vm_jmpif lit : pres R (grunt_vm_jmpif RA lit).
Proof.
  unfold grunt_vm_jmpif. intros m.
  destruct (negb _); [apply R_refl|]. destruct (_ <? 2); [apply R_refl|].
  revert m. pres_tac; intros m;
    destruct (negb _); [apply R_refl|]; destruct (_ >? _); apply R_refl.
Qed.

Lemma pres_vm_return : pres R (grunt_vm_return RA).
Proof. unfold grunt_vm_return. pres_tac; intros m; apply R_refl. Qed.

(** The four instructions of grunt_vm_io.c are the only ones that reach
    the input or the output module. *)
Lemma pres_dispatch i :
  (op i = GRUNT_OP_INPUT ->
   pres R (grunt_vm_input RA (Z.of_N (arg_rep i)))) ->
  (op i = GRUNT_OP_REWIND ->
   pres R (grunt_vm_rewind (Z.of_N (arg_rep i)))) ->
  (op i = GRUNT_OP_OUTPUT -> pres R (grunt_vm_output RA)) ->
  (op i = GRUNT_OP_FLUSH -> pres R (grunt_vm_flush RA RB)) ->
  pres R (grunt_vm_dispatch i).
Proof.
  intros Hi Hr Ho Hf. unfold grunt_vm_dispatch. cbv zeta.
  repeat match goal with
         | |- context [if ?a =? ?b then _ else _] =>
             destruct (Z.eqb_spec a b)
         end;
    try first
      [ apply pres_vm_add_sub | apply pres_vm_and_or | apply pres_vm_call
      | apply pres_vm_dup | apply pres_vm_eq | apply pres_vm_lt_gt
      | apply pres_vm_halt | apply pres_vm_jmpif | apply pres_vm_not
      | apply pres_vm_pop | apply pres_vm_pushb | apply pres_vm_pushn
      | apply pres_vm_pushs | apply pres_vm_return | apply pres_vm_roll
      | apply Hi; assumption | apply Hr; assumption
      | apply Ho; assumption | apply Hf; assumption ].
  intros m. apply R_refl.
Qed.

(** The instructions of grunt_vm_io.c, from what the functions of the
    two modules do. *)
Lemma pres_vm_rewind n :
  (forall i o, R (i, o) (snd (grunt_input_rewind n i), o)) ->
  pres R (grunt_vm_rewind n).
Proof.
  intros H [ra rb pc [[k i] o]].
  unfold grunt_vm_rewind, call.
  cbn [input_rewind GMlc lc_modules modules_of c_input i_rewind mods].
  unfold on_input. specialize (H i o).
  destruct (grunt_input_rewind n i) as [st i']. exact H.
Qed.

Lemma pres_vm_input n :
  (forall i o, R (i, o) (snd (grunt_input_dequeue n i), o)) ->
  pres R (grunt_vm_input RA n).
Proof.
  intros H. unfold grunt_vm_input. intros m.
  destruct (_ && _); [apply R_refl|]. revert m.
  apply pres_seq; [|apply pres_arg_push].
  intros [ra rb pc [[k i] o]]. unfold call_out.
  cbn [input_dequeue GMlc lc_modules modules_of c_input i_dequeue mods].
  unfold on_input. specialize (H i o).
  destruct (grunt_input_dequeue n i) as [[st w] i']. cbn [snd] in *.
  destruct w; [rewrite io_of_store|]; exact H.
Qed.

Lemma pres_vm_output :
  (forall b i o, R (i, o) (i, snd (grunt_output_enqueue_boolean C b o))) ->
  (forall u i o, R (i, o) (i, snd (grunt_output_enqueue_number C u o))) ->
  (forall x i o, R (i, o) (i, snd (grunt_output_enqueue_string C x o))) ->
  pres R (grunt_vm_output RA).
Proof.
  intros Hb Hn Hs. unfold grunt_vm_output.
  apply pres_seq; [apply pres_arg_pop|].
  intros [ra rb pc [[k i] o]]. cbn [deref g_ra].
  destruct ra as [b|u|x|p]; unfold call;
    cbn [output_enqueue_boolean output_enqueue_number output_enqueue_string
         GMlc lc_modules modules_of c_output o_enqueue_boolean
         o_enqueue_number o_enqueue_string mods];
    unfold on_output.
  - specialize (Hb b i o).
    destruct (grunt_output_enqueue_boolean C b o) as [st o']. exact Hb.
  - specialize (Hn u i o).
    destruct (grunt_output_enqueue_number C u o) as [st o']. exact Hn.
  - specialize (Hs x i o).
    destruct (grunt_output_enqueue_string C x o) as [st o']. exact Hs.
  - apply R_refl.
Qed.

Lemma pres_vm_flush :
  (forall t e i o, R (i, o) (i, grunt_output_flush C t e o)) ->
  pres R (grunt_vm_flush RA RB).
Proof.
  intros H. unfold grunt_vm_flush. pres_tac;
    intros [ra rb pc [[k i] o]]; apply H.
Qed.
End Pres.

Lemma c_step_pres {pf : Platform} (C : Z) (R : io_t -> io_t -> Prop)
    (i : grunt_instruction_t) (m : grunt_t) :
  stack_wf (the_stack m) ->
  pres R (grunt_vm_dispatch (GM := lc_modules C) i) ->
  R (the_input m, the_output m)
    (the_input (snd (grunt_vm_step (GM := c_modules C) i m)),
     the_output (snd (grunt_vm_step (GM := c_modules C) i m))) /\
  stack_wf (the_stack (snd (grunt_vm_step (GM := c_modules C) i m))).
Proof.
  intros Hwf Hp.
  destruct (step_view C i m Hwf) as (ctl & free & _ & _ & _ & V).
  split; [|exact (sv_wf _ _ V)].
  rewrite (sv_input _ _ V), (sv_output _ _ V).
  exact (Hp (set_pc (wrap16 (g_pc m + 1)) (lc_at m ctl free))).
Qed.

Lemma enqueue_keeps (C : Z) (string : string) (length : Z) (s : output_t) :
  let s' := snd (grunt_output_enqueue C string length s) in
  g_string_table s' = g_string_table s /\
  g_num_strings s' = g_num_strings s /\ evs_sent s' = evs_sent s.
Proof.
  unfold grunt_output_enqueue. destruct (_ >? _); repeat split.
Qed.

Lemma enqueue_boolean_keeps (C : Z) (tf : bool) (s : output_t) :
  let s' := snd (grunt_output_enqueue_boolean C tf s) in
  g_string_table s' = g_string_table s /\
  g_num_strings s' = g_num_strings s /\ evs_sent s' = evs_sent s.
Proof.
  unfold grunt_output_enqueue_boolean. destruct tf; apply enqueue_keeps.
Qed.

Lemma enqueue_number_keeps (C : Z) (u : Z) (s : output_t) :
  let s' := snd (grunt_output_enqueue_number C u s) in
  g_string_table s' = g_string_table s /\
  g_num_strings s' = g_num_strings s /\ evs_sent s' = evs_sent s.
Proof.
  unfold grunt_output_enqueue_number. cbv zeta.
  destruct (_ >? _); [repeat split | apply enqueue_keeps].
Qed.

Lemma enqueue_string_keeps (C : Z) (x : Z) (s : output_t) :
  let s' := snd (grunt_output_enqueue_string C x s) in
  g_string_table s' = g_string_table s /\
  g_num_strings s' = g_num_strings s /\ evs_sent s' = evs_sent s.
Proof.
  unfold grunt_output_enqueue_string. cbv zeta.
  destruct (negb _); [repeat split|].
  destruct (_ <? _); [repeat split | apply enqueue_keeps].
Qed.

Lemma enqueue_string_wf (C : Z) (x : Z) (s : output_t) :
  output_wf C s -> output_wf C (snd (grunt_output_enqueue_string C x s)).
Proof.
  intros Hwf. destruct (Z.lt_ge_cases x (g_num_strings s)) as [Hlt|Hge].
  - exact (proj2 (enqueue_string_chars C x s Hwf Hlt)).
  - unfold grunt_output_enqueue_string.
    destruct (Z.ltb_spec x (g_num_strings s)); [lia | exact Hwf].
Qed.

Lemma rewind_wf (n : Z) (s : input_t) :
  0 <= n -> input_wf s ->
  input_wf (snd (grunt_input_rewind n s)) /\
  g_input_queue (snd (grunt_input_rewind n s)) = g_input_queue s /\
  g_input_queue_size (snd (grunt_input_rewind n s)) = g_input_queue_size s.
Proof.
  intros Hn [Hh Hs]. unfold grunt_input_rewind, input_wf, UINT16_MAX in *.
  destruct (Z.gtb_spec n (g_head_index s)); [|destruct (Z.eqb_spec n 0)];
    cbn [fst snd g_head_index g_input_queue_size g_input_queue];
    unfold wrap16; try rewrite Z.mod_small by lia;
    repeat split; lia.
Qed.

Lemma dequeue_wf {pf : Platform} (n : Z) (s : input_t) :
  input_wf s ->
  input_wf (snd (grunt_input_dequeue n s)) /\
  g_input_queue (snd (grunt_input_dequeue n s)) = g_input_queue s /\
  g_input_queue_size (snd (grunt_input_dequeue n s)) = g_input_queue_size s.
Proof.
  intros [Hh Hs]. unfold grunt_input_dequeue, input_wf, UINT16_MAX in *.
  destruct (g_input_queue s) eqn:Hq;
    [|cbn [snd]; repeat split; try assumption; lia].
  destruct (Z.eqb_spec n 1) as [->|N1]; [|destruct (Z.eqb_spec n 2)
    as [->|N2]; [|destruct (Z.eqb_spec n 4) as [->|N4]]];
    cbn [orb negb];
    try match goal with
      | |- context [?a >? ?b] => destruct (Z.gtb_spec a b)
      end;
    cbn [fst snd g_head_index g_input_queue_size g_input_queue];
    unfold wrap16; try rewrite Z.mod_small by lia;
    repeat split; try assumption; lia.
Qed.

Lemma length_string_of_list (l : list ascii) :
  String.length (string_of_list_ascii l) = List.length l.
Proof. induction l as [|c l IH]; cbn; [reflexivity | f_equal; exact IH]. Qed.

Section RunIO.
Variable C : Z.

Lemma run_io_refl a : run_io C a a.
Proof.
  intros Hi Ho. split; [exact Hi|]. split; [exact Ho|].
  do 4 (split; [reflexivity|]).
  exists []. split; [symmetry; apply app_nil_r | constructor].
Qed.

Lemma run_io_trans a b c : run_io C a b -> run_io C b c -> run_io C a c.
Proof.
  intros Hab Hbc Hi Ho.
  destruct (Hab Hi Ho) as (Hi1 & Ho1 & Q1 & S1 & T1 & N1 & x & E1 & F1).
  destruct (Hbc Hi1 Ho1) as (Hi2 & Ho2 & Q2 & S2 & T2 & N2 & y & E2 & F2).
  split; [exact Hi2|]. split; [exact Ho2|].
  do 4 (split; [congruence|]).
  exists (x ++ y). split; [rewrite E2, E1; symmetry; apply app_assoc|].
  apply Forall_app. split; assumption.
Qed.

Lemma run_io_input (i i' : input_t) (o : output_t) :
  (input_wf i ->
   input_wf i' /\ g_input_queue i' = g_input_queue i /\
   g_input_queue_size i' = g_input_queue_size i) ->
  run_io C (i, o) (i', o).
Proof.
  intros H Hi Ho. cbn [fst snd] in *. destruct (H Hi) as (W & Q & S).
  split; [exact W|]. split; [exact Ho|].
  split; [exact Q|]. split; [exact S|]. do 2 (split; [reflexivity|]).
  exists []. split; [symmetry; apply app_nil_r | constructor].
Qed.

Lemma run_io_output (i : input_t) (o o' : output_t) :
  (output_wf C o -> output_wf C o') ->
  g_string_table o' = g_string_table o /\
  g_num_strings o' = g_num_strings o /\ evs_sent o' = evs_sent o ->
  run_io C (i, o) (i, o').
Proof.
  intros W (T & N & E) Hi Ho. cbn [fst snd] in *.
  split; [exact Hi|]. split; [exact (W Ho)|].
  do 2 (split; [reflexivity|]). split; [exact T|]. split; [exact N|].
  exists []. split; [rewrite E; symmetry; apply app_nil_r | constructor].
Qed.

Lemma run_io_flush t e i o : run_io C (i, o) (i, grunt_output_flush C t e o).
Proof.
  intros Hi Ho. cbn [fst snd] in *.
  assert (HC : 1 <= C <= UINT16_MAX + 1)
    by (destruct Ho as (Ht & HC & _); lia).
  split; [exact Hi|]. split.
  { unfold grunt_output_flush. exact (proj1 (output_reset_wf C _ HC)). }
  do 4 (split; [reflexivity|]).
  eexists. split; [reflexivity|]. constructor; [|constructor].
  unfold short_text. cbn [Text].
  rewrite (c_str_of_chars_pending C o Ho), length_string_of_list.
  rewrite (pending_length C o Ho). destruct Ho as (Ht & _). lia.
Qed.

Lemma run_io_dispatch {pf : Platform} i : pres (run_io C) (grunt_vm_dispatch
    (GM := lc_modules C) i).
Proof.
  apply (pres_dispatch C (run_io C) run_io_refl run_io_trans); intros _.
  - apply (pres_vm_input C _ run_io_refl run_io_trans). intros x o.
    apply run_io_input. apply dequeue_wf.
  - apply pres_vm_rewind. intros x o.
    apply run_io_input. apply rewind_wf. lia.
  - apply (pres_vm_output C _ run_io_refl run_io_trans).
    + intros b x o. apply run_io_output;
        [ intros W; exact (proj2 (enqueue_boolean_chars C b o W))
        | apply enqueue_boolean_keeps ].
    + intros u x o. apply run_io_output;
        [ intros W; exact (proj2 (enqueue_number_chars C u o W))
        | apply enqueue_number_keeps ].
    + intros s x o. apply run_io_output;
        [ apply enqueue_string_wf | apply enqueue_string_keeps ].
  - apply (pres_vm_flush C _ run_io_refl run_io_trans). intros t e x o.
    apply run_io_flush.
Qed.

Lemma iter_run_io {pf : Platform} (program : list grunt_instruction_t) (n : Z)
    (rounds : nat) :
  forall m : grunt_t,
    stack_wf (the_stack m) ->
    let r := iter_loop (GM := c_modules C) program n rounds m in
    run_io C (the_input m, the_output m)
      (the_input (snd r), the_output (snd r)) /\
    stack_wf (the_stack (snd r)).
Proof.
  induction rounds as [|k IH]; intros m Hwf; cbn [iter_loop].
  - split; [apply run_io_refl | exact Hwf].
  - unfold run_iteration.
    destruct (g_pc m <? n); cbn [negb].
    + destruct (c_step_pres C (run_io C)
                  (nth (Z.to_nat (g_pc m)) program no_instruction) m Hwf
                  (run_io_dispatch _)) as [H1 W1].
      destruct (grunt_vm_step (GM := c_modules C) _ m) as [st m1].
      cbn [snd] in H1, W1.
      destruct (st =? 0); cbn [snd]; [|split; assumption].
      destruct (IH m1 W1) as [H2 W2].
      split; [exact (run_io_trans _ _ _ H1 H2) | exact W2].
    + unfold_status. cbn [Z.eqb snd].
      split; [apply run_io_refl | exact Hwf].
Qed.
End RunIO.

Lemma rewind_keeps (n : Z) (s : input_t) :
  g_input_queue (snd (grunt_input_rewind n s)) = g_input_queue s /\
  g_input_queue_size (snd (grunt_input_rewind n s)) = g_input_queue_size s.
Proof.
  unfold grunt_input_rewind.
  destruct (_ >? _); [|destruct (_ =? _)]; split; reflexivity.
Qed.

Lemma dequeue_keeps {pf : Platform} (n : Z) (s : input_t) :
  g_input_queue (snd (grunt_input_dequeue n s)) = g_input_queue s /\
  g_input_queue_size (snd (grunt_input_dequeue n s)) = g_input_queue_size s.
Proof.
  unfold grunt_input_dequeue.
  destruct (g_input_queue s) eqn:Hq;
    [|split; cbn [snd]; [exact Hq | reflexivity]].
  destruct (negb _); [split; cbn [snd]; [exact Hq | reflexivity]|].
  destruct (_ >? _); split; cbn [snd g_input_queue g_input_queue_size];
    congruence.
Qed.

(** X24.  Only the four instructions of grunt_vm_io.c reach the input
    and output modules: a step with an instruction other than [INPUT]
    and [REWIND] leaves the input module as it was, a step with one
    other than [OUTPUT] and [FLUSH] leaves the output module as it was,
    and only [FLUSH] sends an event.  No instruction replaces the input
    data or its size, the string table or its size. *)
Theorem only_io_touches_io {pf : Platform} (C : Z) (i : grunt_instruction_t)
    (m : grunt_t) :
  stack_wf (the_stack m) ->
  let m' := snd (grunt_vm_step (GM := c_modules C) i m) in
  (op i <> GRUNT_OP_INPUT -> op i <> GRUNT_OP_REWIND ->
   the_input m' = the_input m) /\
  (op i <> GRUNT_OP_OUTPUT -> op i <> GRUNT_OP_FLUSH ->
   the_output m' = the_output m) /\
  (op i <> GRUNT_OP_FLUSH ->
   evs_sent (the_output m') = evs_sent (the_output m)) /\
  g_input_queue (the_input m') = g_input_queue (the_input m) /\
  g_input_queue_size (the_input m') = g_input_queue_size (the_input m) /\
  g_string_table (the_output m') = g_string_table (the_output m) /\
  g_num_strings (the_output m') = g_num_strings (the_output m).
Proof.
  intros Hwf m'. subst m'.
  split; [|split; [|split]].
  - intros Hi Hr.
    apply (c_step_pres (pf := pf) C (fun a b : io_t => fst b = fst a) i m Hwf).
    apply pres_dispatch; try (intros E; contradiction);
      try reflexivity; try (intros a b c; congruence); intros _.
    + apply pres_vm_output; try reflexivity; intros a b c; congruence.
    + apply pres_vm_flush; try reflexivity; intros a b c; congruence.
  - intros Ho Hf.
    apply (c_step_pres (pf := pf) C (fun a b : io_t => snd b = snd a) i m Hwf).
    apply pres_dispatch; try (intros E; contradiction);
      try reflexivity; try (intros a b c; congruence); intros _.
    + apply pres_vm_input; try reflexivity; intros a b c; congruence.
    + apply pres_vm_rewind; reflexivity.
  - intros Hf.
    apply (c_step_pres (pf := pf) C
             (fun a b : io_t => evs_sent (snd b) = evs_sent (snd a))
             i m Hwf).
    apply pres_dispatch; try (intros E; contradiction);
      try reflexivity; try (intros a b c; congruence); intros _.
    + apply pres_vm_input; try reflexivity; intros a b c; congruence.
    + apply pres_vm_rewind; reflexivity.
    + apply pres_vm_output; try reflexivity;
        try (intros a b c; congruence); intros x a o; cbn [snd].
      * apply enqueue_boolean_keeps.
      * apply enqueue_number_keeps.
      * apply enqueue_string_keeps.
  - assert (Rr : forall a, same_places a a) by (intros a; repeat split).
    assert (Rt : forall a b c,
               same_places a b -> same_places b c -> same_places a c)
      by (intros a b c (A1 & A2 & A3 & A4) (B1 & B2 & B3 & B4);
          repeat split; congruence).
    apply (c_step_pres (pf := pf) C same_places i m Hwf).
    apply (pres_dispatch C _ Rr Rt); intros _.
    + apply (pres_vm_input C _ Rr Rt). intros a o.
      destruct (dequeue_keeps (Z.of_N (arg_rep i)) a) as [Q S].
      repeat split; assumption.
    + apply pres_vm_rewind. intros a o.
      destruct (rewind_keeps (Z.of_N (arg_rep i)) a) as [Q S].
      repeat split; assumption.
    + apply (pres_vm_output C _ Rr Rt); intros x a o.
      * destruct (enqueue_boolean_keeps C x o) as (T & N & _).
        repeat split; assumption.
      * destruct (enqueue_number_keeps C x o) as (T & N & _).
        repeat split; assumption.
      * destruct (enqueue_string_keeps C x o) as (T & N & _).
        repeat split; assumption.
    + apply (pres_vm_flush C _ Rr Rt). intros t e a o. repeat split.
Qed.

Lemma only_io_touches_io_witness :
  let m := grunt_with_args 8 [VNum 42] in
  the_input (snd (grunt_vm_step
      (GM := c_modules (pf := buffered_le) 8) OUTPUT m)) = the_input m.
Proof.
  cbv zeta.
  destruct (only_io_touches_io (pf := buffered_le) 8 OUTPUT (grunt_with_args 8
      [VNum 42]))
    as (H & _); [closed_wf|].
  apply H; vm_compute; discriminate.
Defined.

(** ** grunt.c : a whole run *)

Lemma run_entry_modules {pf : Platform} (C : Z) (p_data : list byte)
    (data_size : Z)
    (string_table : list string) (num_strings : Z) (g : grunt_t) :
  let m := run_entry (GM := c_modules C) p_data data_size string_table
             num_strings g in
  the_stack m = grunt_stack_init (the_stack g) /\
  the_input m = grunt_input_init p_data data_size (the_input g) /\
  the_output m = grunt_output_init C string_table num_strings (the_output g).
Proof.
  destruct g as [ra rb pc [[k i] o]]. repeat split.
Qed.

Lemma input_init_wf (p_data : list byte) (size : Z) (s : input_t) :
  0 <= size <= UINT16_MAX -> 0 <= g_head_index s ->
  input_wf (grunt_input_init p_data size s) /\
  grunt_input_init p_data size s = mkInput (Some p_data) size 0.
Proof.
  intros Hs Hh. unfold grunt_input_init, grunt_input_rewind, input_wf.
  cbn [g_head_index g_input_queue_size g_input_queue].
  destruct (Z.gtb_spec 0 (g_head_index s)); [lia|].
  cbn [Z.eqb snd g_head_index g_input_queue_size].
  split; [lia | reflexivity].
Qed.

(** X25.  Whatever the program, a run of [GRUNT_Run] leaves the three
    modules well formed, with the input data and the string table it was
    given still in place; the events the host had received before the
    run are all still there, in order, followed by those of the run, and
    the message of each event of the run fits in the output queue with
    its terminating NUL.  The hypotheses are the C types and the
    declared size of the arrays. *)
Theorem run_keeps_modules {pf : Platform} (C : Z)
    (program : list grunt_instruction_t)
    (num_instructions : Z) (p_data : list byte) (data_size : Z)
    (string_table : list string) (num_strings : Z) (g : grunt_t) :
  statics_wf (mods g) ->
  0 <= data_size <= UINT16_MAX -> 1 <= C <= UINT16_MAX + 1 ->
  let g' := snd (GRUNT_Run (GM := c_modules C) program num_instructions
                   p_data data_size string_table num_strings g) in
  stack_wf (the_stack g') /\
  input_wf (the_input g') /\ output_wf C (the_output g') /\
  g_input_queue (the_input g') = Some p_data /\
  g_input_queue_size (the_input g') = data_size /\
  g_string_table (the_output g') = string_table /\
  g_num_strings (the_output g') = num_strings /\
  exists more,
    evs_sent (the_output g') = evs_sent (the_output g) ++ more /\
    Forall (short_text C) more.
Proof.
  intros [Hlen Hhead] Hsize HC g'. subst g'.
  unfold GRUNT_Run. rewrite run_loop_iter.
  generalize (2 ^ RUN_ROUNDS)%nat. intros rounds.
  destruct (run_entry_modules C p_data data_size string_table num_strings g)
    as (Ek & Ei & Eo).
  set (m0 := run_entry (GM := c_modules C) p_data data_size string_table
               num_strings g) in *.
  assert (W0 : stack_wf (the_stack m0)).
  { rewrite Ek. unfold stack_wf, grunt_stack_init, ctl_stack.
    cbn [g_stack g_argument_count g_control_count].
    split; [exact Hlen|]. unfold GRUNT_STACK_SIZE. repeat split; try lia.
    constructor. }
  destruct (input_init_wf p_data data_size (the_input g) Hsize Hhead)
    as [Wi Ei'].
  destruct (output_reset_wf C
              (mkOutput string_table num_strings
                 (g_output_queue (the_output g))
                 (g_tail_index (the_output g))
                 (evs_sent (the_output g))) HC) as [Wo _].
  destruct (iter_run_io C program num_instructions rounds m0 W0)
    as [H W].
  rewrite Ei, Eo in H.
  destruct (H Wi Wo) as (Hi & Ho & Q & S & T & N & more & E & F).
  cbn [fst snd] in *.
  split; [exact W|]. split; [exact Hi|]. split; [exact Ho|].
  rewrite Q, S, T, N, Ei'.
  do 4 (split; [reflexivity|]).
  exists more. split; [exact E | exact F].
Qed.

Lemma run_keeps_modules_witness :
  exists more,
    evs_sent (the_output
                (snd (GRUNT_Run (GM := c_modules (pf := buffered_le) 122)
                    [PUSHB true; HALT] 2
                        [] 0 [] 0 (grunt_at_load 122))))
    = evs_sent (the_output (grunt_at_load 122)) ++ more.
Proof.
  destruct (run_keeps_modules (pf := buffered_le) 122 [PUSHB true; HALT] 2 [] 0
      [] 0
              (grunt_at_load 122))
    as (_ & _ & _ & _ & _ & _ & _ & more & E & _).
  - split; [reflexivity | cbn; lia].
  - unfold UINT16_MAX. lia.
  - unfold UINT16_MAX. lia.
  - exists more. exact E.
Defined.

(** ** A run does not depend on what earlier runs left behind *)

Section Rerun.
Variable C : Z.

Lemma run_loop_after {pf : Platform} k rounds program n (m : grunt_t) :
  run_loop (GM := c_modules_after k C) rounds program n m
  = run_loop (GM := c_modules C) rounds program n m.
Proof.
  revert m. induction rounds as [|r IH]; intros m; cbn [run_loop].
  - reflexivity.
  - rewrite IH.
    destruct (run_loop (GM := c_modules C) r program n m) as [st m'].
    destruct (st =? 0); [apply IH | reflexivity].
Qed.

Lemma GRUNT_Run_after {pf : Platform} k program n p_data size strings ns
    (g : grunt_t) :
  GRUNT_Run (GM := c_modules_after k C) program n p_data size strings ns g
  = GRUNT_Run (GM := c_modules C) program n p_data size strings ns g.
Proof. unfold GRUNT_Run. apply run_loop_after. Qed.

Lemma output_sim_after k :
  OutputSim (c_output_after k C) (c_output_after k C) eq.
Proof.
  constructor; cbn; try (intros ? s1 s2 ->; split; reflexivity).
  - intros t e s1 s2 ->. reflexivity.
  - intros s1 s2 ->. reflexivity.
Qed.

Lemma out_after_enqueue k1 k2 string length :
  sim (out_after k1 k2) (grunt_output_enqueue C string length)
    (grunt_output_enqueue C string length).
Proof.
  intros [t1 n1 q1 x1 e1] [t2 n2 q2 x2 e2] (T & N & Q & X & L1 & L2 & E).
  cbn in T, N, Q, X, L1, L2, E. subst t2 n2 q2 x2.
  unfold grunt_output_enqueue. cbn [g_tail_index].
  destruct (_ >? _); cbn [fst snd]; (split; [reflexivity|]);
    unfold out_after; cbn; repeat split; assumption.
Qed.

Lemma output_sim_between k1 k2 :
  OutputSim (c_output_after k1 C) (c_output_after k2 C) (out_after k1 k2).
Proof.
  constructor; cbn.
  - intros b. unfold grunt_output_enqueue_boolean.
    destruct b; apply out_after_enqueue.
  - intros u. unfold grunt_output_enqueue_number. cbv zeta.
    destruct (_ >? _); [|apply out_after_enqueue].
    intros s1 s2 H. split; [reflexivity | exact H].
  - intros i s1 s2 H. unfold grunt_output_enqueue_string. cbv zeta.
    destruct H as (T & N & Q & X & L1 & L2 & E).
    rewrite T, N.
    destruct (negb _);
      [split; [reflexivity | repeat split; assumption]|].
    destruct (_ <? _);
      [split; [reflexivity | repeat split; assumption]|].
    apply out_after_enqueue. repeat split; assumption.
  - intros t e [t1 n1 q1 x1 e1] [t2 n2 q2 x2 e2]
      (T & N & Q & X & L1 & L2 & E).
    cbn in T, N, Q, X, L1, L2, E. subst t2 n2 q2 x2.
    unfold grunt_output_flush, grunt_output_reset, out_after. cbn.
    rewrite !length_app. cbn [List.length].
    rewrite !skipn_app.
    replace (k1 - List.length e1)%nat with 0%nat by lia.
    replace (k2 - List.length e2)%nat with 0%nat by lia.
    cbn [skipn]. rewrite E. repeat split; lia.
  - intros s1 s2 (_ & _ & _ & _ & _ & _ & E). exact E.
Qed.

Lemma stack_sim_id {pf : Platform} : StackSim l_stack l_stack eq.
Proof.
  constructor; cbn;
    try (intros s1 s2 ->; split; reflexivity);
    try (intros ? s1 s2 ->; split; reflexivity);
    try (intros ? ? s1 s2 ->; split; reflexivity).
  - exact (ks_arg_pop_writes _ _ _ stack_sim).
  - exact (ks_ctl_pop_writes _ _ _ stack_sim).
Qed.

Lemma input_init_eq (p_data : list byte) (size : Z) (s : input_t) :
  0 <= g_head_index s ->
  grunt_input_init p_data size s = mkInput (Some p_data) size 0.
Proof.
  intros Hh. unfold grunt_input_init, grunt_input_rewind.
  cbn [g_head_index g_input_queue_size g_input_queue].
  destruct (Z.gtb_spec 0 (g_head_index s)); [lia | reflexivity].
Qed.

(** Two runs with the same arguments, from any two states of the
    library. *)
Lemma run_pair {pf : Platform} program n p_data size strings ns
    (g1 g2 : grunt_t) :
  statics_wf (mods g1) -> statics_wf (mods g2) ->
  let r1 := GRUNT_Run (GM := c_modules C) program n p_data size strings ns
              g1 in
  let r2 := GRUNT_Run (GM := c_modules C) program n p_data size strings ns
              g2 in
  fst r1 = fst r2 /\ g_pc (snd r1) = g_pc (snd r2) /\
  arg_stack (the_stack (snd r1)) = arg_stack (the_stack (snd r2)) /\
  ctl_stack (the_stack (snd r1)) = ctl_stack (the_stack (snd r2)) /\
  the_input (snd r1) = the_input (snd r2) /\
  out_after (List.length (evs_sent (the_output g1)))
    (List.length (evs_sent (the_output g2)))
    (the_output (snd r1)) (the_output (snd r2)).
Proof.
  intros W1 W2 r1 r2. subst r1 r2.
  set (k1 := List.length (evs_sent (the_output g1))).
  set (k2 := List.length (evs_sent (the_output g2))).
  rewrite <- (GRUNT_Run_after
      (pf := pf) k1 program n p_data size strings ns g1).
  rewrite <- (GRUNT_Run_after
      (pf := pf) k2 program n p_data size strings ns g2).
  assert (M1 : forall k, ModulesSim (GM1 := c_modules_after k C)
                 (GM2 := lc_modules_after k C) (prod_rel stack_rel eq eq)).
  { intros k. apply modules_of_sim;
      [apply stack_sim | apply input_sim_id | apply output_sim_after]. }
  assert (M12 : ModulesSim (GM1 := lc_modules_after k1 C)
                  (GM2 := lc_modules_after k2 C)
                  (prod_rel eq eq (out_after k1 k2))).
  { apply modules_of_sim;
      [apply stack_sim_id | apply input_sim_id | apply output_sim_between]. }
  destruct (GRUNT_Run_sim _ (M1 k1) program n p_data size strings ns
              g1 (lc_of g1)) as [E1 [P1 (K1 & I1 & O1)]].
  { destruct g1 as [ra rb pc [[k i] o]]. destruct W1 as [Hk _].
    cbn in Hk |- *. repeat split. apply stack_rel_init. exact Hk. }
  destruct (GRUNT_Run_sim _ (M1 k2) program n p_data size strings ns
              g2 (lc_of g2)) as [E2 [P2 (K2 & I2 & O2)]].
  { destruct g2 as [ra rb pc [[k i] o]]. destruct W2 as [Hk _].
    cbn in Hk |- *. repeat split. apply stack_rel_init. exact Hk. }
  destruct (GRUNT_Run_sim _ M12 program n p_data size strings ns
              (lc_of g1) (lc_of g2)) as [E12 [P12 (K12 & I12 & O12)]].
  { subst k1 k2.
    destruct g1 as [ra rb pc [[k i] o]], g2 as [ra' rb' pc' [[k' i'] o']].
    destruct W1 as [_ H1], W2 as [_ H2]. cbn in H1, H2.
    unfold prod_rel, lc_of. cbn -[grunt_input_init].
    rewrite (input_init_eq p_data size i H1),
      (input_init_eq p_data size i' H2).
    unfold out_after, the_output. cbn.
    rewrite !skipn_all. repeat split; lia. }
  destruct (stack_rel_read _ _ K1) as (A1 & C1 & _).
  destruct (stack_rel_read _ _ K2) as (A2 & C2 & _).
  split; [congruence|]. split; [congruence|].
  unfold the_stack, the_input, the_output.
  split; [rewrite A1, A2, K12; reflexivity|].
  split; [rewrite C1, C2, K12; reflexivity|].
  split; [rewrite I1, I2; exact I12|].
  rewrite O1, O2. exact O12.
Qed.
End Rerun.

Section IterPres.
Context {pf : Platform}.
Variable C : Z.
Variable R : io_t -> io_t -> Prop.
Hypothesis R_refl : forall a, R a a.
Hypothesis R_trans : forall a b c, R a b -> R b c -> R a c.
Hypothesis R_step :
  forall i, pres R (grunt_vm_dispatch (GM := lc_modules C) i).

Lemma iter_pres (program : list grunt_instruction_t) (n : Z)
    (rounds : nat) :
  forall m : grunt_t,
    stack_wf (the_stack m) ->
    let r := iter_loop (GM := c_modules C) program n rounds m in
    R (the_input m, the_output m) (the_input (snd r), the_output (snd r)) /\
    stack_wf (the_stack (snd r)).
Proof.
  induction rounds as [|k IH]; intros m Hwf; cbn [iter_loop].
  - split; [apply R_refl | exact Hwf].
  - unfold run_iteration.
    destruct (g_pc m <? n); cbn [negb].
    + destruct (c_step_pres C R
                  (nth (Z.to_nat (g_pc m)) program no_instruction) m Hwf
                  (R_step _)) as [H1 W1].
      destruct (grunt_vm_step (GM := c_modules C) _ m) as [st m1].
      cbn [snd] in H1, W1.
      destruct (st =? 0); cbn [snd]; [|split; assumption].
      destruct (IH m1 W1) as [H2 W2].
      split; [exact (R_trans _ _ _ H1 H2) | exact W2].
    + unfold_status. cbn [Z.eqb snd].
      split; [apply R_refl | exact Hwf].
Qed.
End IterPres.

(** What the C types say of the variables is still true after a run. *)
Lemma run_statics_wf {pf : Platform} (C : Z) program n p_data size strings ns
    (g : grunt_t) :
  statics_wf (mods g) ->
  statics_wf
    (mods (snd (GRUNT_Run (GM := c_modules C) program n p_data size strings
                  ns g))).
Proof.
  intros [Hlen Hhead]. unfold GRUNT_Run. rewrite run_loop_iter.
  generalize (2 ^ RUN_ROUNDS)%nat. intros rounds.
  destruct (run_entry_modules C p_data size strings ns g) as (Ek & Ei & Eo).
  set (m0 := run_entry (GM := c_modules C) p_data size strings ns g) in *.
  assert (W0 : stack_wf (the_stack m0)).
  { rewrite Ek. unfold stack_wf, grunt_stack_init, ctl_stack.
    cbn [g_stack g_argument_count g_control_count].
    split; [exact Hlen|]. unfold GRUNT_STACK_SIZE. repeat split; try lia.
    constructor. }
  set (R := fun a b : io_t =>
              0 <= g_head_index (fst a) -> 0 <= g_head_index (fst b)).
  assert (Rr : forall a, R a a) by (intros a H; exact H).
  assert (Rt : forall a b c, R a b -> R b c -> R a c)
    by (intros a b c Hab Hbc H; exact (Hbc (Hab H))).
  assert (Rw : forall x, 0 <= wrap16 x)
    by (intros x; unfold wrap16; apply Z.mod_pos_bound; lia).
  assert (Rs : forall i, pres R (grunt_vm_dispatch (GM := lc_modules C) i)).
  { intros i. apply (pres_dispatch C R Rr Rt); intros _.
    - apply (pres_vm_input C R Rr Rt). intros a o H. cbn [fst] in *.
      unfold grunt_input_dequeue. destruct (g_input_queue a); [|exact H].
      destruct (negb _); [exact H|]. destruct (_ >? _); [exact H|].
      cbn [snd g_head_index]. apply Rw.
    - apply pres_vm_rewind. intros a o H. cbn [fst] in *.
      unfold grunt_input_rewind. destruct (_ >? _); [exact H|].
      destruct (_ =? _); cbn [snd g_head_index]; [lia | apply Rw].
    - apply (pres_vm_output C R Rr Rt); intros x a o H; exact H.
    - apply (pres_vm_flush C R Rr Rt). intros t e a o H. exact H. }
  destruct (iter_pres C R Rr Rt Rs program n rounds m0 W0) as [H W].
  split; [exact (proj1 W)|].
  apply H. cbn [fst]. rewrite Ei.
  rewrite (input_init_eq p_data size (the_input g) Hhead). cbn. lia.
Qed.

(** X26.  A run depends on its arguments only: from any two states of
    the library (registers, stack array, input and output variables left
    by whatever ran before) [GRUNT_Run] with the same program, data and
    string table returns the same status, sends the same events in the
    same order, and ends with the same program counter, stacks, input
    position and output queue. *)
Theorem run_forgets_past {pf : Platform} (C : Z)
    (program : list grunt_instruction_t)
    (num_instructions : Z) (p_data : list byte) (data_size : Z)
    (string_table : list string) (num_strings : Z) (g1 g2 : grunt_t) :
  statics_wf (mods g1) -> statics_wf (mods g2) ->
  let r1 := GRUNT_Run (GM := c_modules C) program num_instructions p_data
              data_size string_table num_strings g1 in
  let r2 := GRUNT_Run (GM := c_modules C) program num_instructions p_data
              data_size string_table num_strings g2 in
  fst r1 = fst r2 /\
  events_since g1 (snd r1) = events_since g2 (snd r2) /\
  g_pc (snd r1) = g_pc (snd r2) /\
  arg_stack (the_stack (snd r1)) = arg_stack (the_stack (snd r2)) /\
  ctl_stack (the_stack (snd r1)) = ctl_stack (the_stack (snd r2)) /\
  the_input (snd r1) = the_input (snd r2) /\
  g_output_queue (the_output (snd r1)) = g_output_queue (the_output (snd r2))
  /\
  g_tail_index (the_output (snd r1)) = g_tail_index (the_output (snd r2)).
Proof.
  intros W1 W2 r1 r2. subst r1 r2.
  destruct (run_pair C program num_instructions p_data data_size
              string_table num_strings g1 g2 W1 W2)
    as (E & P & A & K & I & (_ & _ & Q & T & _ & _ & V)).
  split; [exact E|]. split; [exact V|]. split; [exact P|].
  split; [exact A|]. split; [exact K|]. split; [exact I|].
  split; [exact Q | exact T].
Qed.

Lemma run_forgets_past_witness :
  fst (GRUNT_Run (GM := c_modules (pf := buffered_le) 122) [PUSHB true; HALT] 2
      [] 0 [] 0
         (grunt_at_load 122))
  = fst (GRUNT_Run (GM := c_modules (pf := buffered_le) 122)
      [PUSHB true; HALT] 2 [] 0 [] 0
           (grunt_with_args 122 [VNum 5; VStr 3])).
Proof.
  apply (run_forgets_past (pf := buffered_le) 122 [PUSHB true; HALT] 2 [] 0 [] 0
           (grunt_at_load 122) (grunt_with_args 122 [VNum 5; VStr 3])).
  - split; [reflexivity | cbn; lia].
  - split; [reflexivity | cbn; lia].
Defined.

(** ** vsc_table.c *)

Lemma validate_fst {pf : Platform} (C info err success : Z)
    (TblData : list byte)
    (g : grunt_t) :
  fst (VSC_table_validate C info err success TblData g)
  = if fst (GRUNT_Run (GM := c_modules C) (vsvf_program info err)
              VSVF_NUM_INSTRUCTIONS TblData sizeof_vsc_table_t vsvf_strings
              VSVF_NUM_STRINGS g) =? GRUNT_HALT_TRUE
    then success else VSC_TABLE_INVALID_RESULT success.
Proof.
  unfold VSC_table_validate.
  destruct (GRUNT_Run (GM := c_modules C) (vsvf_program info err)
              VSVF_NUM_INSTRUCTIONS TblData sizeof_vsc_table_t vsvf_strings
              VSVF_NUM_STRINGS g) as [st g'].
  destruct (Z.eqb_spec st GRUNT_HALT_TRUE) as [->|Hne].
  - reflexivity.
  - cbn [fst]. destruct (Z.eqb_spec st GRUNT_HALT_TRUE);
      [contradiction | reflexivity].
Qed.

Lemma validate_snd {pf : Platform} (C info err success : Z)
    (TblData : list byte)
    (g : grunt_t) :
  snd (VSC_table_validate C info err success TblData g)
  = snd (GRUNT_Run (GM := c_modules C) (vsvf_program info err)
           VSVF_NUM_INSTRUCTIONS TblData sizeof_vsc_table_t vsvf_strings
           VSVF_NUM_STRINGS g).
Proof.
  unfold VSC_table_validate.
  destruct (GRUNT_Run (GM := c_modules C) (vsvf_program info err)
              VSVF_NUM_INSTRUCTIONS TblData sizeof_vsc_table_t vsvf_strings
              VSVF_NUM_STRINGS g) as [st g'].
  destruct (st =? GRUNT_HALT_TRUE); reflexivity.
Qed.

(** X27.  The validation callback of the table service is repeatable and
    fails closed.  Called twice in a row on the same table image it
    returns the same result and sends the same events again; it returns
    [CFE_SUCCESS] exactly when the validation program halts with
    [GRUNT_HALT_TRUE], and [VSC_TABLE_INVALID_RESULT], which differs from
    [CFE_SUCCESS], in every other case, a run-time error of the program
    included. *)
Theorem validate_repeatable {pf : Platform} (C info err success : Z)
    (TblData : list byte)
    (g : grunt_t) :
  statics_wf (mods g) ->
  let first := VSC_table_validate C info err success TblData g in
  let second := VSC_table_validate C info err success TblData (snd first) in
  fst second = fst first /\
  events_since (snd first) (snd second) = events_since g (snd first) /\
  (fst first = success <->
   fst (GRUNT_Run (GM := c_modules C) (vsvf_program info err)
          VSVF_NUM_INSTRUCTIONS TblData sizeof_vsc_table_t vsvf_strings
          VSVF_NUM_STRINGS g) = GRUNT_HALT_TRUE) /\
  (fst first <> success ->
   fst first = VSC_TABLE_INVALID_RESULT success).
Proof.
  cbv zeta. intros W.
  rewrite !validate_fst, !validate_snd.
  pose proof (run_statics_wf C (vsvf_program info err) VSVF_NUM_INSTRUCTIONS
                TblData sizeof_vsc_table_t vsvf_strings VSVF_NUM_STRINGS g W)
    as W'.
  destruct (run_pair C (vsvf_program info err) VSVF_NUM_INSTRUCTIONS
              TblData sizeof_vsc_table_t vsvf_strings VSVF_NUM_STRINGS
              g _ W W')
    as (E & _ & _ & _ & _ & (_ & _ & _ & _ & _ & _ & V)).
  assert (Hne : VSC_TABLE_INVALID_RESULT success <> success).
  { unfold VSC_TABLE_INVALID_RESULT, Z.lnot. lia. }
  split; [rewrite <- E; reflexivity|].
  split; [symmetry; exact V|].
  destruct (Z.eqb_spec
              (fst (GRUNT_Run (GM := c_modules C) (vsvf_program info err)
                      VSVF_NUM_INSTRUCTIONS TblData sizeof_vsc_table_t
                      vsvf_strings VSVF_NUM_STRINGS g)) GRUNT_HALT_TRUE)
    as [Hst|Hst].
  - split; [split; [intros _; exact Hst | reflexivity]
           | intros H; contradiction].
  - split; [|intros _; reflexivity].
    split; [intros H; contradiction | intros H; contradiction].
Qed.

Lemma validate_repeatable_witness :
  let first := VSC_table_validate (pf := buffered_le) 122 2 3 0 []
      (grunt_at_load 122) in
  fst (VSC_table_validate (pf := buffered_le) 122 2 3 0 []
      (snd first)) = fst first.
Proof.
  destruct (validate_repeatable (pf := buffered_le) 122 2 3 0 []
      (grunt_at_load 122))
    as [H _]; [split; [reflexivity | cbn; lia] | exact H].
Defined.

(** ** The C input and output modules behave as their list model *)

Lemma take_n_firstn {A : Type} (n : nat) (l : list A) :
  (n <= List.length l)%nat -> take_n n l = Some (firstn n l, skipn n l).
Proof.
  intros H. destruct (take_n n l) as [[t r]|] eqn:E.
  - destruct (take_n_some _ _ _ _ E) as [-> L].
    rewrite (firstn_exact t r n (eq_sym L)), (skipn_exact t r n (eq_sym L)).
    reflexivity.
  - apply take_n_none in E. lia.
Qed.

Lemma take_free_sub (n free : nat) :
  (n <= free)%nat -> take_free n free = Some (free - n)%nat.
Proof.
  intros H. destruct (take_free n free) as [f|] eqn:E.
  - apply take_free_some in E. f_equal. lia.
  - apply take_free_none in E. lia.
Qed.

Lemma input_sim {pf : Platform} : InputSim c_input l_input input_rel.
Proof.
  constructor; cbn [i_rewind i_dequeue c_input l_input].
  - (* rewind *)
    intros n Hn i li (Hl & q & Hq & Hs & Hlen & Hh & Hr & Hm).
    unfold UINT16_MAX in *.
    unfold grunt_input_rewind, l_rewind.
    destruct (Z.gtb_spec n (g_head_index i)) as [Hgt|Hle].
    + destruct (take_n (Z.to_nat n) (l_done li)) as [[b r]|] eqn:E.
      * apply take_n_some in E. destruct E as [E L].
        apply (f_equal (@List.length byte)) in E.
        rewrite length_app in E. lia.
      * split; [reflexivity|]. cbn [snd].
        split; [exact Hl|]. exists q. repeat split; try assumption; lia.
    + rewrite take_n_firstn by lia.
      destruct (Z.eqb_spec n 0) as [->|Hn0]; cbn [fst snd];
        (split; [reflexivity|]); (split; [exact Hl|]); exists q;
        cbn [g_input_queue g_input_queue_size g_head_index l_done l_todo
             l_live].
      * repeat split; try assumption; try lia.
      * assert (Hw : wrap16 (g_head_index i - n) = g_head_index i - n)
          by (unfold wrap16; apply Z.mod_small; lia).
        rewrite Hw.
        assert (Hd : l_done li
                     = firstn (Z.to_nat n) (l_done li)
                       ++ skipn (Z.to_nat n) (l_done li))
          by (symmetry; apply firstn_skipn).
        repeat split; try assumption; try lia.
        -- rewrite Hs. rewrite Hd at 1. rewrite rev_app_distr, <- app_assoc.
           reflexivity.
        -- rewrite length_skipn. lia.
  - (* dequeue *)
    intros n i li (Hl & q & Hq & Hs & Hlen & Hh & Hr & Hm).
    unfold UINT16_MAX in *.
    unfold grunt_input_dequeue, l_dequeue. rewrite Hq, Hl. cbn [negb].
    destruct (negb _) eqn:Hn.
    { split; [reflexivity|]. cbn [snd]. split; [exact Hl|].
      exists q. repeat split; try assumption; lia. }
    assert (Hn' : 1 <= n <= 4).
    { apply negb_false_iff in Hn.
      destruct (Z.eqb_spec n 1); [lia|]. destruct (Z.eqb_spec n 2); [lia|].
      destruct (Z.eqb_spec n 4); [lia | discriminate]. }
    assert (Ht : Z.of_nat (List.length (l_todo li))
                 = g_input_queue_size i - g_head_index i).
    { apply (f_equal (@List.length byte)) in Hs.
      rewrite length_firstn, length_app, length_rev in Hs. lia. }
    destruct (Z.gtb_spec (g_head_index i + n) (g_input_queue_size i))
      as [Hgt|Hle].
    + destruct (take_n (Z.to_nat n) (l_todo li)) as [[b r]|] eqn:E.
      * apply take_n_some in E. destruct E as [E L].
        apply (f_equal (@List.length byte)) in E.
        rewrite length_app in E. lia.
      * split; [reflexivity|]. cbn [snd]. split; [exact Hl|].
        exists q. repeat split; try assumption; lia.
    + rewrite take_n_firstn by lia. cbn [fst snd].
      assert (Hb : array_slice q (g_head_index i) n
                   = firstn (Z.to_nat n) (l_todo li)).
      { unfold array_slice.
        assert (Hq2 : q = (rev (l_done li) ++ l_todo li)
                          ++ skipn (Z.to_nat (g_input_queue_size i)) q)
          by (rewrite <- Hs; symmetry; apply firstn_skipn).
        rewrite Hq2 at 1. rewrite <- app_assoc.
        rewrite skipn_exact by (rewrite length_rev; lia).
        rewrite firstn_app.
        replace (Z.to_nat n - List.length (l_todo li))%nat with 0%nat by lia.
        cbn [firstn]. apply app_nil_r. }
      rewrite Hb. split; [reflexivity|]. split; [reflexivity|]. exists q.
      cbn [g_input_queue g_input_queue_size g_head_index l_done l_todo
           l_live].
      assert (Hw : wrap16 (g_head_index i + n) = g_head_index i + n)
        by (unfold wrap16; apply Z.mod_small; lia).
      rewrite Hw. repeat split; try assumption; try lia.
      * rewrite Hs, rev_app_distr, rev_involutive, <- app_assoc.
        rewrite firstn_skipn. reflexivity.
      * rewrite length_app, length_rev, length_firstn. lia.
  - (* a dequeue that succeeds writes its value *)
    intros n s. unfold l_dequeue.
    destruct (negb (l_live s)); cbn; [discriminate|].
    destruct (negb _); cbn; [discriminate|].
    destruct (take_n _ _) as [[b r]|]; cbn; discriminate.
Qed.

Lemma string_of_list_app (a b : list ascii) :
  string_of_list_ascii (a ++ b)
  = (string_of_list_ascii a ++ string_of_list_ascii b)%string.
Proof.
  induction a as [|c a IH]; cbn; [reflexivity | f_equal; exact IH].
Qed.

Lemma c_str_text (p : list ascii) :
  existsb is_nul p = false ->
  c_str (string_of_list_ascii p) = string_of_list_ascii p.
Proof.
  induction p as [|c p IH]; cbn [existsb string_of_list_ascii c_str].
  - reflexivity.
  - intros H. apply orb_false_iff in H. destruct H as [-> H].
    f_equal. exact (IH H).
Qed.

Section OutputSim.
Variable C : Z.
Variable capacity : nat.
Hypothesis capacity_C : Z.of_nat capacity = C - 1.

Lemma enqueue_sim (string : string) (length : Z) :
  0 <= length ->
  List.length (firstn (Z.to_nat length) (list_ascii_of_string string))
  = Z.to_nat length ->
  existsb is_nul (firstn (Z.to_nat length) (list_ascii_of_string string))
  = false ->
  sim (output_rel C) (grunt_output_enqueue C string length)
    (l_enqueue string length).
Proof.
  intros Hl Hlen Hvs o lo (W & T & N & L & Rm & E).
  unfold l_enqueue.
  destruct (Z.le_gt_cases (g_tail_index o + length) (C - 1)) as [Hfit|Hover].
  - destruct (enqueue_ok C string length o W Hl Hlen Hvs Hfit)
      as (E0 & W' & P' & V' & T' & N').
    rewrite take_free_sub by lia. cbn [fst snd].
    split; [exact E0|].
    pose proof (pending_length C _ W') as Lp'.
    pose proof (pending_length C _ W) as Lp.
    rewrite P', length_app, Lp, Hlen in Lp'.
    assert (Ht : g_tail_index
                   (snd (grunt_output_enqueue C string length o))
                 = g_tail_index o + length).
    { destruct W as ((? & ?) & _), W' as ((? & ?) & _). lia. }
    split; [exact W'|].
    cbn [l_strings l_num_strings l_line l_room l_events].
    rewrite T', N', P', V', Ht, string_of_list_app, L.
    repeat split; try assumption. lia.
  - rewrite enqueue_full by lia.
    destruct (take_free (Z.to_nat length) (l_room lo)) as [f|] eqn:F.
    { apply take_free_some in F. lia. }
    split; [reflexivity|]. split; [exact W|]. repeat split; assumption.
Qed.

Lemma output_sim : OutputSim (c_output C) (l_output capacity) (output_rel C).
Proof.
  constructor;
    cbn [o_enqueue_boolean o_enqueue_number o_enqueue_string o_flush o_events
         c_output l_output].
  - intros b. unfold grunt_output_enqueue_boolean, l_enqueue_boolean.
    destruct b; apply enqueue_sim; try lia; reflexivity.
  - intros u. unfold grunt_output_enqueue_number, l_enqueue_number. cbv zeta.
    destruct (snprintf_u_chars u) as [Hn Hl].
    destruct (Z.gtb_spec (Z.of_nat (String.length (snprintf_u u)))
                GRUNT_REP_MAX) as [Hgt|Hle].
    { unfold GRUNT_REP_MAX, UINT16_MAX in Hgt. lia. }
    assert (E : firstn (Z.to_nat (Z.of_nat (String.length (snprintf_u u))))
                  (list_ascii_of_string (snprintf_u u))
                = list_ascii_of_string (snprintf_u u)).
    { rewrite Nat2Z.id, <- length_list_ascii. apply firstn_all. }
    apply enqueue_sim; [lia | |].
    + rewrite E, Nat2Z.id. apply length_list_ascii.
    + rewrite E. exact Hn.
  - intros i o lo H.
    unfold grunt_output_enqueue_string, l_enqueue_string. cbv zeta.
    pose proof H as (W & T & N & _). rewrite T, N.
    destruct (negb _); [split; [reflexivity | exact H]|].
    set (string := nth (Z.to_nat i) (g_string_table o) EmptyString).
    assert (Hw : 0 <= wrap16 (strlen string) <= 65535
                 /\ wrap16 (strlen string) <= strlen string).
    { unfold wrap16, strlen.
      pose proof (Z.mod_pos_bound
                    (Z.of_nat (String.length (c_str string))) 65536).
      pose proof (Z.mod_le (Z.of_nat (String.length (c_str string))) 65536).
      lia. }
    unfold GRUNT_REP_MAX, UINT16_MAX.
    destruct (Z.ltb_spec 65535 (wrap16 (strlen string))); [lia|].
    assert (Hk : (Z.to_nat (wrap16 (strlen string))
                  <= String.length (c_str string))%nat)
      by (unfold strlen in *; lia).
    apply enqueue_sim; [lia | | | exact H].
    + rewrite (firstn_c_str string _ Hk).
      rewrite firstn_length_le; [reflexivity|].
      rewrite length_list_ascii. exact Hk.
    + rewrite (firstn_c_str string _ Hk). apply existsb_firstn.
      exact (proj1 (c_str_chars string)).
  - intros t e o lo (W & T & N & L & Rm & E).
    assert (HC : 1 <= C <= UINT16_MAX + 1)
      by (destruct W as (Ht & HC & _); lia).
    unfold grunt_output_flush, l_flush.
    split; [exact (proj1 (output_reset_wf C _ HC))|].
    unfold grunt_output_reset, pending.
    cbn [l_strings l_num_strings l_line l_room l_events g_string_table
         g_num_strings g_tail_index g_output_queue evs_sent].
    rewrite (c_str_of_chars_pending C o W), L.
    rewrite (c_str_text _ (proj1 (proj2 (proj2 W)))).
    cbn [rev]. rewrite E.
    repeat split; try assumption. lia.
  - intros o lo (_ & _ & _ & _ & _ & E). symmetry. exact E.
Qed.

Lemma c_l_sim {pf : Platform} :
  ModulesSim (GM1 := c_modules C) (GM2 := l_modules capacity)
    (prod_rel stack_rel input_rel (output_rel C)).
Proof.
  apply modules_of_sim;
    [apply stack_sim | apply input_sim | apply output_sim].
Qed.
End OutputSim.

(** ** The validation program on the list model *)

Section ExecFacts.
Context {S : Type} {GM : GruntModules S}.
Variable program : list grunt_instruction_t.
Variable n : Z.

Lemma reaches_refl c : reaches program n c c.
Proof. exists O. reflexivity. Qed.

Lemma reaches_step pc s ra rb pc' s' c2 :
  run_iteration program n (mkVm no_lit no_lit pc s)
  = (0, mkVm ra rb pc' s') ->
  reaches program n (pc', s') c2 ->
  reaches program n (pc, s) c2.
Proof.
  intros E [k Hk]. exists (Datatypes.S k). cbn [iter_cfg].
  unfold step_cfg. cbn [fst snd]. rewrite E. exact Hk.
Qed.

Lemma iter_cfg_add a b c1 c2 r :
  iter_cfg program n a c1 = (0, c2) ->
  iter_cfg program n b c2 = r ->
  iter_cfg program n (a + b) c1 = r.
Proof.
  revert c1. induction a as [|a IH]; intros c1 Ha Hb;
    cbn [iter_cfg Nat.add] in *.
  - injection Ha as <-. exact Hb.
  - destruct (step_cfg program n c1) as [st c'].
    destruct (Z.eqb_spec st 0).
    + apply IH; assumption.
    + injection Ha as E _. congruence.
Qed.

Lemma reaches_trans c1 c2 c3 :
  reaches program n c1 c2 -> reaches program n c2 c3 ->
  reaches program n c1 c3.
Proof.
  intros [a Ha] [b Hb]. exists (a + b)%nat.
  exact (iter_cfg_add _ _ _ _ _ Ha Hb).
Qed.

Lemma reaches_halts c1 c2 st c3 :
  reaches program n c1 c2 -> halts program n c2 st c3 ->
  halts program n c1 st c3.
Proof.
  intros [a Ha] [b [Hb Hst]]. exists (a + b)%nat.
  split; [exact (iter_cfg_add _ _ _ _ _ Ha Hb) | exact Hst].
Qed.

Lemma halts_now pc s st ra rb pc' s' :
  run_iteration program n (mkVm no_lit no_lit pc s)
  = (st, mkVm ra rb pc' s') ->
  st <> 0 ->
  halts program n (pc, s) st (pc', s').
Proof.
  intros E Hst. exists 1%nat. split; [|exact Hst].
  cbn [iter_cfg]. unfold step_cfg. cbn [fst snd]. rewrite E.
  cbn [fst snd g_pc mods].
  destruct (Z.eqb_spec st 0); [contradiction | reflexivity].
Qed.
End ExecFacts.

Lemma snprintf_u_digit (u : Z) :
  0 <= u <= 9 -> String.length (snprintf_u u) = 1%nat.
Proof.
  intros H. unfold snprintf_u. cbn [decimal_digits].
  rewrite (Z.div_small u 10) by lia. reflexivity.
Qed.

Lemma l_enqueue_digit u st ns line room evs :
  0 <= u <= 9 ->
  l_enqueue_number u (mkLOutput st ns line (Datatypes.S room) evs)
  = (0, mkLOutput st ns (line ++ snprintf_u u) room evs).
Proof.
  intros H. unfold l_enqueue_number, l_enqueue. cbv zeta.
  pose proof (snprintf_u_digit u H) as L.
  set (d := snprintf_u u) in *. clearbody d.
  destruct d as [|c [|c' s]]; try discriminate L.
  reflexivity.
Qed.

(** One round at a time: the round is computed, the numbers that are
    not known are kept as they are, and a test on them is settled from
    the hypotheses or by cases. *)
Ltac vm_eval :=
  lazy -[reaches halts vsvf_program VSVF_NUM_INSTRUCTIONS l_modules
         num_lt num_gt num_ne num_add num_sub host_uint
         l_enqueue_number snprintf_u].

Ltac vm_eval_step :=
  lazy -[num_lt num_gt num_ne num_add num_sub host_uint
         l_enqueue_number snprintf_u].

Ltac atom_of c :=
  lazymatch c with
  | (if ?c' then _ else _) => atom_of c'
  | _ => c
  end.

Ltac has_var t := match t with context [?x] => is_var x end.

Ltac settle E hook :=
  repeat
    lazymatch type of E with
    | _ = (if ?c then _ else _) =>
        let a := atom_of c in
        tryif has_var a then
          first
            [ match goal with
              | H : a = _ |- _ => rewrite H in E; cbv beta iota in E
              end
            | let H := fresh "Hk" in
              assert (H : a = false) by hook;
              rewrite H in E; cbv beta iota in E
            | let H := fresh "Hk" in
              assert (H : a = true) by hook;
              rewrite H in E; cbv beta iota in E
            | let H := fresh "Hc" in
              revert E; destruct a eqn:H; intro E; cbv beta iota in E ]
        else
          (let v := eval vm_compute in a in
           change a with v in E; cbv beta iota in E)
    end.

Ltac vm_round E hook :=
  lazymatch goal with
  | |- @reaches ?S ?GM ?prog ?n (?pc, ?s) _ =>
      tryif is_var pc then fail else idtac;
      let r := eval lazy -[num_lt num_gt num_ne num_add num_sub host_uint
                           l_enqueue_number snprintf_u]
               in (@run_iteration S GM prog n (mkVm no_lit no_lit pc s)) in
      assert (E : @run_iteration S GM prog n (mkVm no_lit no_lit pc s) = r)
        by (vm_eval_step; reflexivity);
      try (rewrite l_enqueue_digit in E by hook; cbv beta iota zeta in E);
      settle E hook
  end.

Ltac vm_one hook :=
  let E := fresh "E" in
  vm_round E hook;
  lazymatch type of E with
  | _ = (0, _) =>
      apply (reaches_step _ _ _ _ _ _ _ _ _ E); clear E; vm_eval
  end.

Ltac vm_run hook :=
  repeat first [ apply reaches_refl | vm_one hook ].

Section Classes.
Variable capacity : nat.
Variables INFO ERR : Z.

Lemma PARM_TO_STR_ok {pf : Platform} p rest ret cs f done todo line room evs :
  reaches (GM := l_modules capacity) (vsvf_program INFO ERR)
    VSVF_NUM_INSTRUCTIONS
    (PARM_TO_STR,
     vstate (VNum p :: rest) (ret :: cs) (2 + f) done todo line room evs)
    (ret,
     vstate (VStr (parm_str p) :: rest) cs (3 + f) done todo line room evs).
Proof. unfold parm_str. vm_eval. vm_run fail. Qed.

Lemma IS_UNUSED_ok {pf : Platform} p rest ret cs f done todo line room evs :
  reaches (GM := l_modules capacity) (vsvf_program INFO ERR)
    VSVF_NUM_INSTRUCTIONS
    (IS_UNUSED,
     vstate (VNum p :: rest) (ret :: cs) (1 + f) done todo line room evs)
    (ret,
     vstate (VBool (negb (num_ne 0 p)) :: rest) cs (2 + f) done todo line
       room evs).
Proof. vm_eval. vm_run fail. Qed.

Lemma IS_ANIMAL_ok {pf : Platform} p rest ret cs f done todo line room evs :
  reaches (GM := l_modules capacity) (vsvf_program INFO ERR)
    VSVF_NUM_INSTRUCTIONS
    (IS_ANIMAL,
     vstate (VNum p :: rest) (ret :: cs) (4 + f) done todo line room evs)
    (ret,
     vstate
       (VBool (negb (num_ne 8 p) || negb (num_ne 4 p) || negb (num_ne 2 p)
               || negb (num_ne 1 p)) :: rest)
       cs (5 + f) done todo line room evs).
Proof. vm_eval. vm_run fail. Qed.

Lemma IS_DIRECTION_ok {pf : Platform} p rest ret cs f done todo line room evs :
  reaches (GM := l_modules capacity) (vsvf_program INFO ERR)
    VSVF_NUM_INSTRUCTIONS
    (IS_DIRECTION,
     vstate (VNum p :: rest) (ret :: cs) (4 + f) done todo line room evs)
    (ret,
     vstate
       (VBool (negb (num_ne 128 p) || negb (num_ne 64 p)
               || negb (num_ne 32 p) || negb (num_ne 16 p)) :: rest)
       cs (5 + f) done todo line room evs).
Proof. vm_eval. vm_run fail. Qed.
End Classes.

Section Validator.
Variable x : nat.
Variables INFO ERR : Z.

Lemma EMIT_ERROR_ok {pf : Platform} e p msg eid rest ret cs f done todo evs :
  0 <= e <= 9 -> In msg [6; 8; 9; 10; 11; 12; 13] ->
  reaches (GM := l_modules (50 + x)) (vsvf_program INFO ERR)
    VSVF_NUM_INSTRUCTIONS
    (EMIT_ERROR,
     vstate (VNum e :: VNum p :: VStr msg :: VNum eid :: rest) (ret :: cs)
       (2 + f) done todo EmptyString (50 + x) evs)
    (ret,
     vstate rest cs (7 + f) done todo EmptyString (50 + x)
       (mkEvent eid ERR (c_str (error_line e p msg)) :: evs)).
Proof.
  intros He Hm. unfold error_line, parm_str.
  cbn [In] in Hm.
  repeat match goal with H : _ \/ _ |- _ => destruct H as [H|H] end;
    try contradiction; subst msg.
  all: vm_eval; vm_run ltac:(solve [lia]).
Qed.

(** From the return of the fourth [VALIDATE_ENTRY] to the [HALT] of
    [MAIN].  The [ROLL 4] of [COMPUTE_RESULT] copies overlapping ranges:
    where the copy goes upward, the counts of invalid and of valid
    entries are overwritten by the count of unused entries before
    [EMIT_INFO] prints them. *)
Lemma MAIN_verdict_ok {pf : Platform} u v s4 rest cs f done todo evs :
  0 <= u -> 0 <= v -> u + v <= 4 ->
  halts (GM := l_modules (50 + x)) (vsvf_program INFO ERR)
    VSVF_NUM_INSTRUCTIONS
    (MAIN_VERDICT,
     vstate (VNum s4 :: VNum v :: VNum u :: rest) cs (3 + f) done todo EmptyString
       (50 + x) evs)
    (if u + v =? 4 then GRUNT_HALT_TRUE else GRUNT_HALT_FALSE)
    (MAIN_VERDICT + 5,
     vstate rest cs (6 + f) done todo EmptyString (50 + x)
       (mkEvent VS_VALIDATION_INF_EID INFO
          (c_str match memcpy_overlap with
                 | OverlapBuffered => info_line v (4 - (u + v)) u
                 | OverlapAscending => info_line u u u
                 end) :: evs)).
Proof.
  intros Hu Hv Hs.
  assert (Ha : num_add u v = u + v)
    by (apply num_add_exact; unfold GRUNT_NUM_MAX, UINT32_MAX; lia).
  assert (Hb : num_sub 4 (num_add u v) = 4 - (u + v))
    by (rewrite Ha; apply num_sub_exact;
        unfold GRUNT_NUM_MAX, UINT32_MAX; lia).
  assert (Hv4 : (u + v =? 4) = negb (num_ne 0 (num_sub 4 (num_add u v)))).
  { rewrite Hb. unfold num_ne. rewrite negb_involutive.
    destruct (Z.eqb_spec (u + v) 4), (Z.eqb_spec 0 (4 - (u + v)));
      try reflexivity; lia. }
  rewrite Hv4.
  destruct pf as [[|] order]; cbn [memcpy_overlap];
    [rewrite <- Hb|]; unfold info_line.
  all: eapply reaches_halts;
    [ vm_eval;
      repeat (vm_one ltac:(solve
        [ lia
        | unfold num_gt, num_sub, wrap32; rewrite Z.mod_small by lia; lia
        | rewrite ?Hb, ?Ha; unfold num_lt; lia
        | rewrite ?Hb, ?Ha; lia ]));
      apply reaches_refl
    | destruct (num_ne 0 (num_sub 4 (num_add u v)));
      (eapply halts_now; [vm_eval_step; reflexivity | discriminate]) ].
Qed.
End Validator.

(** ** From the list model to the library *)

Section ToLibrary.
Variable C : Z.
Variable capacity : nat.
Hypothesis capacity_C : Z.of_nat capacity = C - 1.
Variable program : list grunt_instruction_t.
Variable n : Z.

Lemma iter_cfg_c {pf : Platform} (k : nat) :
  forall (m : grunt_t) (sl : lstate_t),
    prod_rel stack_rel input_rel (output_rel C) (mods m) sl ->
    let rc := iter_loop (GM := c_modules C) program n k m in
    let rl := iter_cfg (GM := l_modules capacity) program n k (g_pc m, sl) in
    fst rc = fst rl /\ g_pc (snd rc) = fst (snd rl) /\
    prod_rel stack_rel input_rel (output_rel C) (mods (snd rc))
      (snd (snd rl)).
Proof.
  induction k as [|k IH]; intros m sl HR; cbn [iter_loop iter_cfg].
  - cbn [fst snd]. split; [reflexivity|]. split; [reflexivity | exact HR].
  - unfold step_cfg. cbn [fst snd].
    destruct (vsim_run_iteration _ (c_l_sim C capacity capacity_C) program n
                m (mkVm no_lit no_lit (g_pc m) sl)) as [E [P HR']].
    { split; [reflexivity | exact HR]. }
    destruct (run_iteration (GM := c_modules C) program n m) as [st m1].
    destruct (run_iteration (GM := l_modules capacity) program n
                (mkVm no_lit no_lit (g_pc m) sl)) as [st' ml1].
    cbn [fst snd] in *. subst st'.
    destruct (st =? 0).
    + rewrite <- P. exact (IH m1 (mods ml1) HR').
    + cbn [fst snd]. split; [reflexivity|]. split; [exact P | exact HR'].
Qed.

Lemma reaches_c {pf : Platform} (m : grunt_t) (sl sl' : lstate_t) (pc' : Z) :
  prod_rel stack_rel input_rel (output_rel C) (mods m) sl ->
  reaches (GM := l_modules capacity) program n (g_pc m, sl) (pc', sl') ->
  exists rounds m',
    iter_loop (GM := c_modules C) program n rounds m = (0, m') /\
    g_pc m' = pc' /\
    prod_rel stack_rel input_rel (output_rel C) (mods m') sl'.
Proof.
  intros HR [k Hk]. destruct (iter_cfg_c k m sl HR) as (E & P & HR').
  rewrite Hk in E, P, HR'. cbn [fst snd] in E, P, HR'.
  exists k, (snd (iter_loop (GM := c_modules C) program n k m)).
  split; [|split; assumption].
  destruct (iter_loop (GM := c_modules C) program n k m) as [st m'].
  cbn [fst snd] in *. subst st. reflexivity.
Qed.

Lemma halts_c {pf : Platform} (m : grunt_t) (sl sl' : lstate_t) (st pc' : Z) :
  prod_rel stack_rel input_rel (output_rel C) (mods m) sl ->
  halts (GM := l_modules capacity) program n (g_pc m, sl) st (pc', sl') ->
  exists rounds m',
    iter_loop (GM := c_modules C) program n rounds m = (st, m') /\
    g_pc m' = pc' /\
    prod_rel stack_rel input_rel (output_rel C) (mods m') sl'.
Proof.
  intros HR [k [Hk _]]. destruct (iter_cfg_c k m sl HR) as (E & P & HR').
  rewrite Hk in E, P, HR'. cbn [fst snd] in E, P, HR'.
  exists k, (snd (iter_loop (GM := c_modules C) program n k m)).
  split; [|split; assumption].
  destruct (iter_loop (GM := c_modules C) program n k m) as [st0 m'].
  cbn [fst snd] in *. subst st0. reflexivity.
Qed.
End ToLibrary.

(** The list state that stands for a state of the library during a run
    of the validation program. *)
Lemma ready_rel (C : Z) (m : grunt_t) :
  vsvf_ready C m ->
  exists done todo,
    prod_rel stack_rel input_rel (output_rel C) (mods m)
      (vstate (arg_stack (the_stack m))
         (map val_pc (ctl_stack (the_stack m)))
         (Z.to_nat (GRUNT_STACK_SIZE - g_argument_count (the_stack m)
                    - g_control_count (the_stack m)))
         done todo
         (string_of_list_ascii (pending (the_output m)))
         (Z.to_nat (C - 1 - g_tail_index (the_output m)))
         (rev (evs_sent (the_output m)))).
Proof.
  intros (Wk & Wi & (q & Hq & Hlen) & Wo & Ht & Hn).
  destruct Wi as [Hh Hs].
  set (i := the_input m) in *.
  set (q' := firstn (Z.to_nat (g_input_queue_size i)) q).
  exists (rev (firstn (Z.to_nat (g_head_index i)) q')),
         (skipn (Z.to_nat (g_head_index i)) q').
  split; [|split].
  - exact (stack_rel_view _ Wk).
  - cbn [fst snd vstate]. fold (the_input m). fold i.
    split; [reflexivity|]. exists q.
    cbn [l_done l_todo].
    assert (Lq : List.length q' = Z.to_nat (g_input_queue_size i))
      by (unfold q'; rewrite length_firstn; lia).
    split; [exact Hq|]. split.
    { rewrite rev_involutive, firstn_skipn. reflexivity. }
    split; [exact Hlen|]. split.
    { rewrite length_rev, length_firstn. lia. }
    split; [exact Hh | exact Hs].
  - cbn [fst snd vstate]. fold (the_output m).
    split; [exact Wo|].
    cbn [l_strings l_num_strings l_line l_room l_events].
    rewrite rev_involutive.
    destruct Wo as ((? & ?) & _).
    repeat split; try (symmetry; assumption). lia.
Qed.

(** What a related list state tells of the library. *)
Lemma rel_read (C : Z) (m : grunt_t) args ctl free done todo line room evs :
  prod_rel stack_rel input_rel (output_rel C) (mods m)
    (vstate args ctl free done todo line room evs) ->
  arg_stack (the_stack m) = args /\
  ctl_stack (the_stack m) = map VPc ctl /\
  evs_sent (the_output m) = rev evs /\
  string_of_list_ascii (pending (the_output m)) = line.
Proof.
  intros (K & _ & (_ & _ & _ & L & _ & E)).
  cbn [fst snd vstate l_line l_events] in *.
  destruct (stack_rel_read _ _ K) as (A & B & _).
  cbn [l_args l_ctl] in A, B.
  repeat split; try assumption; symmetry; assumption.
Qed.

Lemma empty_line_tail (C : Z) (o : output_t) :
  output_wf C o ->
  (string_of_list_ascii (pending o) = EmptyString <-> g_tail_index o = 0).
Proof.
  intros W. pose proof (pending_length C o W) as L.
  destruct W as ((Ht & _) & _). split; intros H.
  - destruct (pending o) as [|c l]; [cbn in L; lia | discriminate H].
  - destruct (pending o) as [|c l]; [reflexivity|].
    rewrite H in L. discriminate L.
Qed.

(** The texts are C strings already. *)
Lemma c_str_app (a b : string) :
  existsb is_nul (list_ascii_of_string a) = false ->
  c_str (a ++ b) = (a ++ c_str b)%string.
Proof.
  induction a as [|c a IH]; cbn [list_ascii_of_string existsb String.append
                                  c_str].
  - intros _. reflexivity.
  - intros H. apply orb_false_iff in H. destruct H as [-> H].
    f_equal. exact (IH H).
Qed.

Lemma c_str_clean (a : string) :
  existsb is_nul (list_ascii_of_string a) = false -> c_str a = a.
Proof.
  induction a as [|c a IH]; cbn [list_ascii_of_string existsb c_str].
  - reflexivity.
  - intros H. apply orb_false_iff in H. destruct H as [-> H].
    f_equal. exact (IH H).
Qed.

Lemma clean_app (a b : string) :
  existsb is_nul (list_ascii_of_string a) = false ->
  existsb is_nul (list_ascii_of_string b) = false ->
  existsb is_nul (list_ascii_of_string (a ++ b)) = false.
Proof.
  intros Ha Hb. induction a as [|c a IH];
    cbn [list_ascii_of_string existsb String.append] in *.
  - exact Hb.
  - apply orb_false_iff in Ha. destruct Ha as [-> Ha]. exact (IH Ha).
Qed.

Lemma append_assoc3 (a b c : string) :
  ((a ++ b) ++ c)%string = (a ++ (b ++ c))%string.
Proof.
  induction a as [|x a IH]; cbn [String.append]; [reflexivity|].
  f_equal. exact IH.
Qed.

Lemma vsvf_strings_clean (k : nat) :
  existsb is_nul (list_ascii_of_string (nth k vsvf_strings EmptyString))
  = false.
Proof.
  do 24 (destruct k as [|k]; [reflexivity|]).
  destruct k; reflexivity.
Qed.

Lemma parm_str_name (p : Z) :
  nth (Z.to_nat (parm_str p)) vsvf_strings EmptyString = parm_name p.
Proof.
  unfold parm_str, parm_name, num_ne, VS_PARM_UNUSED, VS_PARM_APE,
    VS_PARM_BAT, VS_PARM_CAT, VS_PARM_DOG, VS_PARM_NORTH, VS_PARM_SOUTH,
    VS_PARM_EAST, VS_PARM_WEST.
  repeat match goal with
         | |- context [negb (?c =? p)] =>
             destruct (Z.eqb_spec c p) as [<-|?]; cbn [negb];
             [reflexivity|];
             destruct (Z.eqb_spec p c); [congruence|]
         end.
  reflexivity.
Qed.

Lemma eq_flag (c p : Z) : negb (num_ne c p) = (p =? c).
Proof.
  unfold num_ne. rewrite negb_involutive. apply Z.eqb_sym.
Qed.

Lemma ctl_tail_pcs (s : stack_t) (v : grunt_value_t)
    (ctl : list grunt_value_t) :
  stack_wf s -> ctl_stack s = v :: ctl -> map VPc (map val_pc ctl) = ctl.
Proof.
  intros (_ & _ & _ & _ & F) E. rewrite E in F.
  apply map_VPc_val_pc. inversion F. assumption.
Qed.

Lemma ctl_pcs (s : stack_t) :
  stack_wf s -> map VPc (map val_pc (ctl_stack s)) = ctl_stack s.
Proof. intros (_ & _ & _ & _ & F). apply map_VPc_val_pc. exact F. Qed.

(** ** vsvf.h : the subroutines of the validation program *)

(** X28.  [EMIT_ERROR] of the validation program, called with an event
    id, the index of one of the error texts, a parameter id and an entry
    number of one digit on the argument stack and an empty output queue
    of at least 51 characters, sends the host one event with that id,
    type [CFE_EVS_EventType_ERROR] and the line ["Table entry E parm NAME
    TEXT"], [NAME] being the name [PARM_TO_STR] finds for the parameter
    ([Unknown] for an id that is none of the nine), and returns to its
    caller with the four arguments popped and the queue empty again. *)
Theorem emit_error_sends {pf : Platform} (C info err : Z) (m : grunt_t)
    (e p msg eid ret : Z) (rest ctl : list grunt_value_t) :
  vsvf_ready C m -> 51 <= C -> g_tail_index (the_output m) = 0 ->
  g_pc m = EMIT_ERROR ->
  arg_stack (the_stack m)
  = VNum e :: VNum p :: VStr msg :: VNum eid :: rest ->
  ctl_stack (the_stack m) = VPc ret :: ctl ->
  g_argument_count (the_stack m) + g_control_count (the_stack m) + 2
  <= GRUNT_STACK_SIZE ->
  0 <= e <= 9 -> In msg [6; 8; 9; 10; 11; 12; 13] ->
  exists rounds m',
    iter_loop (GM := c_modules C) (vsvf_program info err)
      VSVF_NUM_INSTRUCTIONS rounds m = (0, m') /\
    g_pc m' = ret /\
    arg_stack (the_stack m') = rest /\
    ctl_stack (the_stack m') = ctl /\
    evs_sent (the_output m')
    = evs_sent (the_output m)
      ++ [mkEvent eid err
            ("Table entry " ++ snprintf_u e ++ " parm " ++ parm_name p
             ++ nth (Z.to_nat msg) vsvf_strings EmptyString)%string] /\
    g_tail_index (the_output m') = 0.
Proof.
  intros Hready HC Htail Hpc Hargs Hctl Hroom He Hmsg.
  destruct (ready_rel C m Hready) as (done & todo & HR).
  pose proof Hready as (Wk & _ & _ & Wo & _).
  unfold GRUNT_STACK_SIZE in *.
  set (x := (Z.to_nat (C - 1) - 50)%nat).
  set (f := (Z.to_nat (2 * 16 - g_argument_count (the_stack m)
                       - g_control_count (the_stack m)) - 2)%nat).
  rewrite Hargs, Hctl, Htail in HR.
  assert (Hempty : string_of_list_ascii (pending (the_output m)) = EmptyString)
    by (apply (empty_line_tail C _ Wo); exact Htail).
  rewrite Hempty in HR. cbn [map val_pc] in HR.
  replace (Z.to_nat (2 * 16 - g_argument_count (the_stack m)
                     - g_control_count (the_stack m)))
    with (2 + f)%nat in HR by (subst f; lia).
  replace (Z.to_nat (C - 1 - 0)) with (50 + x)%nat in HR by (subst x; lia).
  pose proof (EMIT_ERROR_ok x info err e p msg eid rest ret
                (map val_pc ctl) f done todo
                (rev (evs_sent (the_output m))) He Hmsg) as Hl.
  rewrite <- Hpc in Hl.
  destruct (reaches_c C (50 + x)%nat ltac:(subst x; lia)
              (vsvf_program info err) VSVF_NUM_INSTRUCTIONS m _ _ _ HR Hl)
    as (rounds & m' & E & P & HR').
  destruct (rel_read C m' _ _ _ _ _ _ _ _ HR') as (A & B & V & L).
  exists rounds, m'.
  split; [exact E|]. split; [exact P|]. split; [exact A|].
  split; [rewrite B; exact (ctl_tail_pcs _ _ _ Wk Hctl)|].
  split.
  - rewrite V. cbn [rev]. rewrite rev_involutive. do 3 f_equal.
    unfold error_line. rewrite !append_assoc3, parm_str_name.
    apply c_str_clean.
    repeat (apply clean_app);
      try reflexivity; try apply vsvf_strings_clean;
      try exact (proj1 (snprintf_u_chars e)).
    unfold parm_name.
    repeat match goal with
           | |- context [if ?c then _ else _] => destruct c
           end; reflexivity.
  - destruct HR' as (_ & _ & (Wo' & _)).
    apply (empty_line_tail C _ Wo'). exact L.
Qed.

Lemma emit_error_sends_witness :
  let m := mkVm no_lit no_lit EMIT_ERROR
             (stack_of [VNum 1; VNum 2; VStr 8; VNum 8196] [7],
              mkInput (Some []) 0 0,
              mkOutput vsvf_strings VSVF_NUM_STRINGS
                (repeat NUL 122) 0 []) in
  exists rounds m',
    iter_loop (GM := c_modules (pf := buffered_le) 122) (vsvf_program 2 3)
      VSVF_NUM_INSTRUCTIONS rounds m = (0, m') /\
    evs_sent (the_output m')
    = [mkEvent 8196 3 "Table entry 1 parm Bat padding not zeroed"].
Proof.
  cbv zeta.
  destruct (emit_error_sends (pf := buffered_le) 122 2 3
              (mkVm no_lit no_lit EMIT_ERROR
                 (stack_of [VNum 1; VNum 2; VStr 8; VNum 8196] [7],
                  mkInput (Some []) 0 0,
                  mkOutput vsvf_strings VSVF_NUM_STRINGS
                    (repeat NUL 122) 0 []))
              1 2 8 8196 7 [] [])
    as (rounds & m' & E & _ & _ & _ & V & _).
  - split; [closed_wf|]. split; [unfold input_wf, UINT16_MAX; cbn; lia|].
    split; [exists []; split; [reflexivity | cbn; lia]|].
    split; [|split; reflexivity].
    unfold output_wf, pending, UINT16_MAX. cbn. repeat split; lia.
  - lia.
  - reflexivity.
  - reflexivity.
  - reflexivity.
  - reflexivity.
  - cbn. lia.
  - lia.
  - cbn. tauto.
  - exists rounds, m'. split; [exact E | exact V].
Defined.

(** X29.  The end of [MAIN]: from the return of the fourth call of
    [VALIDATE_ENTRY], with the counts [u] of unused and [v] of valid
    entries on the argument stack ([u + v <= 4]) and an empty output
    queue of at least 51 characters, the program sends the host one
    event with id [VS_VALIDATION_INF_EID] and type
    [CFE_EVS_EventType_INFORMATION] and halts with [GRUNT_HALT_TRUE]
    when no entry is invalid ([u + v = 4]) and [GRUNT_HALT_FALSE]
    otherwise, on every platform.  The text of the event passes through
    the [ROLL 4] of [COMPUTE_RESULT], whose [memcpy] overlaps: where
    [memcpy] copies as [memmove] does it is ["Table image entries: V
    valid, I invalid, U unused"] with [I = 4 - u - v]; where it copies
    upward one element at a time, the count of unused entries is printed
    in all three places. *)
Theorem main_verdict {pf : Platform} (C info err : Z) (m : grunt_t)
    (u v s4 : Z) (rest : list grunt_value_t) :
  vsvf_ready C m -> 51 <= C -> g_tail_index (the_output m) = 0 ->
  g_pc m = MAIN_VERDICT ->
  arg_stack (the_stack m) = VNum s4 :: VNum v :: VNum u :: rest ->
  g_argument_count (the_stack m) + g_control_count (the_stack m) + 3
  <= GRUNT_STACK_SIZE ->
  0 <= u -> 0 <= v -> u + v <= 4 ->
  exists rounds m',
    iter_loop (GM := c_modules C) (vsvf_program info err)
      VSVF_NUM_INSTRUCTIONS rounds m
    = (if u + v =? 4 then GRUNT_HALT_TRUE else GRUNT_HALT_FALSE, m') /\
    arg_stack (the_stack m') = rest /\
    ctl_stack (the_stack m') = ctl_stack (the_stack m) /\
    evs_sent (the_output m')
    = evs_sent (the_output m)
      ++ [mkEvent VS_VALIDATION_INF_EID info
            match memcpy_overlap with
            | OverlapBuffered =>
                ("Table image entries: " ++ snprintf_u v ++ " valid, "
                 ++ snprintf_u (4 - (u + v)) ++ " invalid, "
                 ++ snprintf_u u ++ " unused")%string
            | OverlapAscending =>
                ("Table image entries: " ++ snprintf_u u ++ " valid, "
                 ++ snprintf_u u ++ " invalid, "
                 ++ snprintf_u u ++ " unused")%string
            end].
Proof.
  intros Hready HC Htail Hpc Hargs Hroom Hu Hv Hs.
  destruct (ready_rel C m Hready) as (done & todo & HR).
  pose proof Hready as (Wk & _ & _ & Wo & _).
  unfold GRUNT_STACK_SIZE in *.
  set (x := (Z.to_nat (C - 1) - 50)%nat).
  set (f := (Z.to_nat (2 * 16 - g_argument_count (the_stack m)
                       - g_control_count (the_stack m)) - 3)%nat).
  rewrite Hargs, Htail in HR.
  assert (Hempty : string_of_list_ascii (pending (the_output m)) = EmptyString)
    by (apply (empty_line_tail C _ Wo); exact Htail).
  rewrite Hempty in HR.
  replace (Z.to_nat (2 * 16 - g_argument_count (the_stack m)
                     - g_control_count (the_stack m)))
    with (3 + f)%nat in HR by (subst f; lia).
  replace (Z.to_nat (C - 1 - 0)) with (50 + x)%nat in HR by (subst x; lia).
  pose proof (MAIN_verdict_ok x info err u v s4 rest
                (map val_pc (ctl_stack (the_stack m))) f done todo
                (rev (evs_sent (the_output m))) Hu Hv Hs) as Hl.
  rewrite <- Hpc in Hl at 1.
  destruct (halts_c C (50 + x)%nat ltac:(subst x; lia)
              (vsvf_program info err) VSVF_NUM_INSTRUCTIONS m _ _ _ _ HR Hl)
    as (rounds & m' & E & P & HR').
  destruct (rel_read C m' _ _ _ _ _ _ _ _ HR') as (A & B & V & L).
  exists rounds, m'.
  split; [exact E|]. split; [exact A|].
  split; [rewrite B; exact (ctl_pcs _ Wk)|].
  rewrite V. cbn [rev]. rewrite rev_involutive. do 3 f_equal.
  destruct memcpy_overlap; unfold info_line; rewrite !append_assoc3;
    apply c_str_clean;
    repeat (apply clean_app);
    try reflexivity;
    first [ exact (proj1 (snprintf_u_chars v))
          | exact (proj1 (snprintf_u_chars (4 - (u + v))))
          | exact (proj1 (snprintf_u_chars u)) ].
Qed.

Lemma main_verdict_witness :
  let m := mkVm no_lit no_lit MAIN_VERDICT
             (stack_of [VNum 0; VNum 1; VNum 2] [],
              mkInput (Some []) 0 0,
              mkOutput vsvf_strings VSVF_NUM_STRINGS
                (repeat NUL 122) 0 []) in
  exists rounds m',
    iter_loop (GM := c_modules (pf := ascending_be) 122) (vsvf_program 2 3)
      VSVF_NUM_INSTRUCTIONS rounds m = (GRUNT_HALT_FALSE, m') /\
    evs_sent (the_output m')
    = [mkEvent 8 2 "Table image entries: 2 valid, 2 invalid, 2 unused"].
Proof.
  cbv zeta.
  destruct (main_verdict (pf := ascending_be) 122 2 3
              (mkVm no_lit no_lit MAIN_VERDICT
                 (stack_of [VNum 0; VNum 1; VNum 2] [],
                  mkInput (Some []) 0 0,
                  mkOutput vsvf_strings VSVF_NUM_STRINGS
                    (repeat NUL 122) 0 []))
              2 1 0 [])
    as (rounds & m' & E & _ & _ & V).
  - split; [closed_wf|]. split; [unfold input_wf, UINT16_MAX; cbn; lia|].
    split; [exists []; split; [reflexivity | cbn; lia]|].
    split; [|split; reflexivity].
    unfold output_wf, pending, UINT16_MAX. cbn. repeat split; lia.
  - lia.
  - reflexivity.
  - reflexivity.
  - reflexivity.
  - cbn. lia.
  - lia.
  - lia.
  - lia.
  - exists rounds, m'. split; [exact E | exact V].
Defined.

(** X30.  The three classification subroutines of the validation
    program: called with a parameter id [p] on the argument stack,
    [IS_UNUSED] returns to its caller with [p] replaced by the Boolean
    [p = VS_PARM_UNUSED], [IS_ANIMAL] with the Boolean "[p] is one of
    APE, BAT, CAT, DOG" and [IS_DIRECTION] with the Boolean "[p] is one
    of NORTH, SOUTH, EAST, WEST"; nothing else on the stacks, in the
    input or in the output changes. *)
Theorem parm_classes {pf : Platform} (C info err : Z) (m : grunt_t) (entry : Z)
    (class : Z -> bool) (p ret : Z) (rest ctl : list grunt_value_t) :
  vsvf_ready C m ->
  In (entry, class)
    [(IS_UNUSED, fun p => p =? VS_PARM_UNUSED); (IS_ANIMAL, is_animal);
     (IS_DIRECTION, is_direction)] ->
  g_pc m = entry ->
  arg_stack (the_stack m) = VNum p :: rest ->
  ctl_stack (the_stack m) = VPc ret :: ctl ->
  g_argument_count (the_stack m) + g_control_count (the_stack m) + 4
  <= GRUNT_STACK_SIZE ->
  exists rounds m',
    iter_loop (GM := c_modules C) (vsvf_program info err)
      VSVF_NUM_INSTRUCTIONS rounds m = (0, m') /\
    g_pc m' = ret /\
    arg_stack (the_stack m') = VBool (class p) :: rest /\
    ctl_stack (the_stack m') = ctl /\
    evs_sent (the_output m') = evs_sent (the_output m) /\
    g_tail_index (the_output m') = g_tail_index (the_output m).
Proof.
  intros Hready Hin Hpc Hargs Hctl Hroom.
  destruct (ready_rel C m Hready) as (done & todo & HR).
  pose proof Hready as (Wk & _ & _ & Wo & _).
  unfold GRUNT_STACK_SIZE in *.
  set (cap := Z.to_nat (C - 1)).
  assert (Hcap : Z.of_nat cap = C - 1)
    by (destruct Wo as ((? & ?) & _); subst cap; lia).
  set (f := (Z.to_nat (2 * 16 - g_argument_count (the_stack m)
                       - g_control_count (the_stack m)) - 4)%nat).
  rewrite Hargs, Hctl in HR. cbn [map val_pc] in HR.
  assert (Hl : exists b,
             reaches (GM := l_modules cap) (vsvf_program info err)
               VSVF_NUM_INSTRUCTIONS
               (g_pc m,
                vstate (VNum p :: rest) (ret :: map val_pc ctl)
                  (Z.to_nat (2 * 16 - g_argument_count (the_stack m)
                             - g_control_count (the_stack m)))
                  done todo
                  (string_of_list_ascii (pending (the_output m)))
                  (Z.to_nat (C - 1 - g_tail_index (the_output m)))
                  (rev (evs_sent (the_output m))))
               (ret,
                vstate (VBool b :: rest) (map val_pc ctl)
                  (Datatypes.S
                     (Z.to_nat (2 * 16 - g_argument_count (the_stack m)
                                - g_control_count (the_stack m))))
                  done todo
                  (string_of_list_ascii (pending (the_output m)))
                  (Z.to_nat (C - 1 - g_tail_index (the_output m)))
                  (rev (evs_sent (the_output m)))) /\
             b = class p).
  { rewrite Hpc. cbn [In] in Hin.
    destruct Hin as [H|[H|[H|[]]]]; injection H as <- <-; eexists; split.
    - replace (Z.to_nat (2 * 16 - g_argument_count (the_stack m)
                         - g_control_count (the_stack m)))
        with (1 + (3 + f))%nat by (subst f; lia).
      apply IS_UNUSED_ok.
    - rewrite eq_flag. reflexivity.
    - replace (Z.to_nat (2 * 16 - g_argument_count (the_stack m)
                         - g_control_count (the_stack m)))
        with (4 + f)%nat by (subst f; lia).
      apply IS_ANIMAL_ok.
    - rewrite !eq_flag. reflexivity.
    - replace (Z.to_nat (2 * 16 - g_argument_count (the_stack m)
                         - g_control_count (the_stack m)))
        with (4 + f)%nat by (subst f; lia).
      apply IS_DIRECTION_ok.
    - rewrite !eq_flag. reflexivity. }
  destruct Hl as (b & Hl & Hb).
  destruct (reaches_c C cap Hcap (vsvf_program info err)
              VSVF_NUM_INSTRUCTIONS m _ _ _ HR Hl)
    as (rounds & m' & E & P & HR').
  destruct (rel_read C m' _ _ _ _ _ _ _ _ HR') as (A & B & V & L).
  exists rounds, m'.
  split; [exact E|]. split; [exact P|]. split; [rewrite A, Hb; reflexivity|].
  split; [rewrite B; exact (ctl_tail_pcs _ _ _ Wk Hctl)|].
  split; [rewrite V; apply rev_involutive|].
  destruct HR' as (_ & _ & (Wo' & _ & _ & _ & Rm & _)).
  cbn [snd vstate l_room] in Rm. fold (the_output m') in Rm.
  destruct Wo as ((? & ?) & _). lia.
Qed.

Lemma parm_classes_witness :
  let m := mkVm no_lit no_lit IS_ANIMAL
             (stack_of [VNum 4] [7],
              mkInput (Some []) 0 0,
              mkOutput vsvf_strings VSVF_NUM_STRINGS
                (repeat NUL 122) 0 []) in
  exists rounds m',
    iter_loop (GM := c_modules (pf := buffered_le) 122) (vsvf_program 2 3)
      VSVF_NUM_INSTRUCTIONS rounds m = (0, m') /\
    arg_stack (the_stack m') = [VBool true].
Proof.
  cbv zeta.
  destruct (parm_classes (pf := buffered_le) 122 2 3
              (mkVm no_lit no_lit IS_ANIMAL
                 (stack_of [VNum 4] [7],
                  mkInput (Some []) 0 0,
                  mkOutput vsvf_strings VSVF_NUM_STRINGS
                    (repeat NUL 122) 0 []))
              IS_ANIMAL is_animal 4 7 [] [])
    as (rounds & m' & E & _ & A & _).
  - split; [closed_wf|]. split; [unfold input_wf, UINT16_MAX; cbn; lia|].
    split; [exists []; split; [reflexivity | cbn; lia]|].
    split; [|split; reflexivity].
    unfold output_wf, pending, UINT16_MAX. cbn. repeat split; lia.
  - cbn. tauto.
  - reflexivity.
  - reflexivity.
  - reflexivity.
  - cbn. lia.
  - exists rounds, m'. split; [exact E | exact A].
Defined.
